(** * EDID parser: a shallow embedding of [src/parser/parser-core.ts]

    The development follows the TypeScript source function by function.
    JavaScript numbers that hold integers are modelled by [Z]; the few
    non-integral quantities (gamma, chromaticity coordinates, pixel clock,
    refresh rates, versions) are modelled by rationals [Q]: a stored quotient
    of two integers stands for the double that quotient rounds to, and the
    refresh rate computations, which round more than once, are carried out
    on IEEE 754 binary64 numbers ([JS.f64]).  The mutable
    [ReadContext] (input bytes and the warnings array) is threaded through a
    small state monad; the [ExtensionParseContext] is passed explicitly. *)

From Stdlib Require Import ZArith List Lia String Ascii QArith Qround Bool.
From Stdlib Require Import DecimalString.
From Stdlib Require Import Floats.SpecFloat.
From stdpp Require Import base list.
From Equations Require Import Equations.
Import ListNotations.
Open Scope Z_scope.

(** ** JavaScript primitives used by the parser *)

Module JS.

(** ToInt32: the wrap-around every bitwise operator applies to its operands. *)
Definition toInt32 (z : Z) : Z := (z + 2 ^ 31) mod 2 ^ 32 - 2 ^ 31.

(** [a << n], [a >> n], [a & b], [a | b] on 32-bit signed integers. *)
Definition shl (a n : Z) : Z := toInt32 (Z.shiftl (toInt32 a) n).
Definition shr (a n : Z) : Z := Z.shiftr (toInt32 a) n.
Definition band (a b : Z) : Z := Z.land (toInt32 a) (toInt32 b).
Definition bor (a b : Z) : Z := Z.lor (toInt32 a) (toInt32 b).

(** Truthiness of a number: [x ? a : b]. *)
Definition truthy (z : Z) : bool := negb (z =? 0).

(** Element conversion of [new Uint8ClampedArray(data)] for integer input. *)
Definition clampByte (z : Z) : Z := Z.max 0 (Z.min 255 z).

(** [Math.round]: the nearest integer, ties towards +Infinity. *)
Definition Math_round (q : Q) : Z := Qfloor (q + (1 # 2))%Q.

(** [q > 0] and [q <= 0] on rationals, as booleans. *)
Definition Qpos (q : Q) : bool := (0 <? Qnum q).

(** Numbers in double precision: IEEE 754 binary64, rounding to nearest,
    ties to even. *)
Definition f64 : Type := spec_float.

(** The double of an integer. *)
Definition f64_of_Z (z : Z) : f64 := binary_normalize 53 1024 z 0 false.

(** [x * y] and [x / y] on doubles. *)
Definition f64_mul : f64 -> f64 -> f64 := SFmul 53 1024.
Definition f64_div : f64 -> f64 -> f64 := SFdiv 53 1024.

(** The double a stored quotient of two integers stands for: [n / d]. *)
Definition f64_of_Q (q : Q) : f64 :=
  f64_div (f64_of_Z (Qnum q)) (f64_of_Z (Zpos (Qden q))).

(** The value of a finite double; [Number.isFinite] fails on the others. *)
Definition f64_value (x : f64) : option Q :=
  match x with
  | S754_zero _ => Some 0%Q
  | S754_finite s m e =>
      let n := if s then Zneg m else Zpos m in
      Some (if 0 <=? e then inject_Z (n * 2 ^ e)
            else Qmake n (Z.to_pos (2 ^ (- e))))
  | S754_infinity _ | S754_nan => None
  end.

(** [Math.round] of a double, which the parser applies to finite doubles
    only (the quotient of a decoded timing is finite). *)
Definition Math_round_f64 (x : f64) : Z :=
  match f64_value x with
  | Some q => Math_round q
  | None => 0
  end.

(** A number that may be [NaN] (an out-of-range read stored with [?? NaN]). *)
Inductive number : Type :=
| Int (z : Z)
| NaN.

(** Bitwise operators see [NaN] as 0. *)
Definition int_of (n : number) : Z :=
  match n with Int z => z | NaN => 0 end.

(** [n * k]: multiplication keeps [NaN]. *)
Definition mul (n : number) (k : Z) : number :=
  match n with Int z => Int (z * k) | NaN => NaN end.

(** A number that may be [+Infinity] ([Number.POSITIVE_INFINITY]). *)
Inductive extnum : Type :=
| Fin (z : Z)
| PosInfinity.

Definition isFinite (x : extnum) : bool :=
  match x with Fin _ => true | PosInfinity => false end.

(** [a < b] on possibly infinite numbers. *)
Definition ext_ltb (a b : extnum) : bool :=
  match a, b with
  | Fin x, Fin y => x <? y
  | Fin _, PosInfinity => true
  | PosInfinity, _ => false
  end.

(** [a === b] on possibly infinite numbers. *)
Definition ext_eqb (a b : extnum) : bool :=
  match a, b with
  | Fin x, Fin y => x =? y
  | PosInfinity, PosInfinity => true
  | _, _ => false
  end.

(** [String.fromCharCode] for a code below 256. *)
Definition fromCharCode (z : Z) : ascii := ascii_of_N (Z.to_N z).

(** Decimal rendering of a non-negative integer in a template string. *)
Definition numberToString (z : Z) : string :=
  NilZero.string_of_uint (N.to_uint (Z.to_N z)).

End JS.

(** ** Constants of [parser-utils.ts] *)

Definition EDID_BLOCK_LENGTH : Z := 128.

Inductive DataBlockType : Type :=
| RESERVED | AUDIO | VIDEO | VENDOR_SPECIFIC | SPEAKER_ALLOCATION | EXTENDED_TAG.

Definition DATA_BLOCK_TYPE_value (t : DataBlockType) : Z :=
  match t with
  | RESERVED => 0 | AUDIO => 1 | VIDEO => 2 | VENDOR_SPECIFIC => 3
  | SPEAKER_ALLOCATION => 4 | EXTENDED_TAG => 7
  end.

Inductive ExtendedDataBlockType : Type :=
| VIDEO_CAPABILITY | VENDOR_SPECIFIC_VIDEO | VESA_VIDEO_DISPLAY_DEVICE
| VESA_VIDEO_TIMING_BLOCK | RESERVED_HDMI_VIDEO | COLORIMETRY
| HDR_STATIC_METADATA | HDR_DYNAMIC_METADATA | NATIVE_VIDEO_RESOLUTION
| VIDEO_FORMAT_PREFERENCE | YCBCR420_VIDEO | YCBCR420_CAPABILITY_MAP
| MISC_AUDIO_FIELDS | VENDOR_SPECIFIC_AUDIO | HDMI_AUDIO | ROOM_CONFIGURATION
| SPEAKER_LOCATION | INFOFRAME_DATA | PRODUCT_INFORMATION | HDMI_FORUM_SCDB.

Definition EXTENDED_DATA_BLOCK_TYPE_value (t : ExtendedDataBlockType) : Z :=
  match t with
  | VIDEO_CAPABILITY => 0 | VENDOR_SPECIFIC_VIDEO => 1
  | VESA_VIDEO_DISPLAY_DEVICE => 2 | VESA_VIDEO_TIMING_BLOCK => 3
  | RESERVED_HDMI_VIDEO => 4 | COLORIMETRY => 5 | HDR_STATIC_METADATA => 6
  | HDR_DYNAMIC_METADATA => 7 | NATIVE_VIDEO_RESOLUTION => 8
  | VIDEO_FORMAT_PREFERENCE => 13 | YCBCR420_VIDEO => 14
  | YCBCR420_CAPABILITY_MAP => 15 | MISC_AUDIO_FIELDS => 16
  | VENDOR_SPECIFIC_AUDIO => 17 | HDMI_AUDIO => 18 | ROOM_CONFIGURATION => 19
  | SPEAKER_LOCATION => 20 | INFOFRAME_DATA => 32 | PRODUCT_INFORMATION => 33
  | HDMI_FORUM_SCDB => 0x79
  end.

Inductive IeeeOuiType : Type :=
| HDMI14 | HDMI20 | HDMI_FORUM | HDR10_PLUS | DOLBY_VISION.

Definition IEEE_OUI_TYPE_value (t : IeeeOuiType) : Z :=
  match t with
  | HDMI14 => 0x000c03 | HDMI20 => 0xc45dd8 | HDMI_FORUM => 0xc45dd8
  | HDR10_PLUS => 0x90848b | DOLBY_VISION => 0x00d046
  end.

(** ** Warnings and the read context *)

Inductive ParsedEdidWarningCode : Type :=
| length_not_multiple_of_128 | too_short | invalid_header | checksum_failed
| extension_count_mismatch | unknown_edid_minor_version | unknown_extension_tag
| unknown_data_block | parse_error | out_of_range_read | other.

(** The [detail] payload of a warning: an object of numeric fields, the name
    and message of a caught [Error], or another caught value. *)
Inductive WarningDetail : Type :=
| DetailFields (fields : list (string * Q))
| DetailError (name : string) (msg : string)
| DetailValue (description : string).

Record ParsedEdidWarning : Type := mkWarning {
  code : ParsedEdidWarningCode;
  message : string;
  blockIndex : option Z;
  offset : option Z;
  detail : option WarningDetail
}.

Record ReadContext : Type := mkReadContext {
  bytes : list Z;
  warnings : list ParsedEdidWarning
}.

(** Computations that read the bytes and push warnings. *)
Definition M (A : Type) : Type := ReadContext -> A * ReadContext.

Definition ret {A : Type} (a : A) : M A := fun ctx => (a, ctx).

Definition bind {A B : Type} (m : M A) (k : A -> M B) : M B :=
  fun ctx => let (a, ctx') := m ctx in k a ctx'.

Notation "'do' x <- m ; k" := (bind m (fun x => k))
  (at level 10, x pattern, m at level 100, k at level 200,
   format "'[v' 'do'  x  <-  m ; '/' k ']'").

Record BlockReader : Type := mkBlockReader {
  reader_blockIndex : Z;
  reader_blockOffset : Z
}.

(** Loop control for [for] loops that may [break]. *)
Inductive Ctl (S : Type) : Type :=
| Continue (s : S)
| Break (s : S).
Arguments Continue {S} s.
Arguments Break {S} s.

(** [for (let i = start; n iterations; i++) body], with [break]. *)
Fixpoint forLoop {S : Type} (n : nat) (i : Z) (body : Z -> S -> M (Ctl S))
    (s : S) : M S :=
  match n with
  | O => ret s
  | Datatypes.S n' =>
      do r <- body i s;
      match r with
      | Break s' => ret s'
      | Continue s' => forLoop n' (i + 1) body s'
      end
  end.

(** Access to [ctx.bytes] (the [Uint8ClampedArray] itself is never written). *)
Definition getBytes : M (list Z) := fun ctx => (bytes ctx, ctx).

Definition inspect {A : Type} (a : A) : {b : A | a = b} := exist _ a eq_refl.

(** *** Utils *)

Definition addWarning (warning : ParsedEdidWarning) : M unit :=
  fun ctx => (tt, mkReadContext (bytes ctx) (warnings ctx ++ [warning])).

Definition warn (code : ParsedEdidWarningCode) (message : string)
    (blockIndex offset : option Z) (detail : option WarningDetail) : M unit :=
  addWarning (mkWarning code message blockIndex offset detail).

Definition bytes_length (ctx : ReadContext) : Z := Z.of_nat (length (bytes ctx)).

Definition readU8 (absoluteOffset : Z) (blockIndex relativeOffset : option Z)
    : M (option Z) :=
  fun ctx =>
    if (absoluteOffset <? 0) || (bytes_length ctx <=? absoluteOffset) then
      (do _ <- warn out_of_range_read
                 "Attempted to read beyond available EDID bytes."
                 blockIndex
                 (Some (default absoluteOffset relativeOffset))
                 (Some (DetailFields
                          [("absoluteOffset"%string, inject_Z absoluteOffset);
                           ("length"%string, inject_Z (bytes_length ctx))]));
       ret None) ctx
    else (bytes ctx !! Z.to_nat absoluteOffset, ctx).

Definition createBlockReader (blockIndex blockOffset : Z) : BlockReader :=
  mkBlockReader blockIndex blockOffset.

Definition u8 (reader : BlockReader) (offset : Z) : M (option Z) :=
  readU8 (reader_blockOffset reader + offset)
         (Some (reader_blockIndex reader)) (Some offset).

Definition u8OrZero (reader : BlockReader) (offset : Z) : M Z :=
  do v <- readU8 (reader_blockOffset reader + offset)
            (Some (reader_blockIndex reader)) (Some offset);
  ret (default 0 v).

Definition intToAscii (intCode : Z) : string :=
  let abc := list_ascii_of_string "0ABCDEFGHIJKLMNOPQRSTUVWXYZ" in
  if intCode <? 0 then EmptyString
  else match abc !! Z.to_nat intCode with
       | Some ch => String ch EmptyString
       | None => EmptyString
       end.

Definition validateHeader (reader : BlockReader) : M bool :=
  do h0 <- u8 reader 0;
  do h1 <- u8 reader 1;
  do h2 <- u8 reader 2;
  do h3 <- u8 reader 3;
  do h4 <- u8 reader 4;
  do h5 <- u8 reader 5;
  do h6 <- u8 reader 6;
  do h7 <- u8 reader 7;
  match h0, h1, h2, h3, h4, h5, h6, h7 with
  | Some b0, Some b1, Some b2, Some b3, Some b4, Some b5, Some b6, Some b7 =>
      ret ((b0 =? 0x00) && (b1 =? 0xff) && (b2 =? 0xff) && (b3 =? 0xff) &&
           (b4 =? 0xff) && (b5 =? 0xff) && (b6 =? 0xff) && (b7 =? 0x00))
  | _, _, _, _, _, _, _, _ => ret false
  end.

(** *** Checksums *)

Definition getChecksum (reader : BlockReader) : M Z :=
  let CHECKSUM := 127 in
  u8OrZero reader CHECKSUM.

(** The summation loop of [calcChecksum]: [n] iterations from [index]. *)
Fixpoint calcChecksum_loop (bytes : list Z) (n : nat) (index : Z) (checksum : Z)
    : Z :=
  match n with
  | O => checksum
  | S n' =>
      calcChecksum_loop bytes n' (index + 1)
        (checksum + default 0 (bytes !! Z.to_nat index))
  end.

Definition calcChecksum (bytes : list Z) (block : Z) : option Z :=
  let startAddress := block * EDID_BLOCK_LENGTH in
  let endAddress := startAddress + EDID_BLOCK_LENGTH - 1 in
  if Z.of_nat (length bytes) <? endAddress + 1 then None
  else
    let checksum :=
      calcChecksum_loop bytes (Z.to_nat (endAddress - startAddress))
        startAddress 0 in
    Some (256 - Z.rem checksum 256).

Definition validChecksum (block blockIndexForWarning : Z) : M (option bool) :=
  let checksumOffset := (block + 1) * EDID_BLOCK_LENGTH - 1 in
  do checksum <- readU8 checksumOffset (Some blockIndexForWarning) (Some 127);
  match checksum with
  | None => ret None
  | Some checksum =>
      do bytes <- getBytes;
      match calcChecksum bytes block with
      | None => ret None
      | Some calculatedChecksum => ret (Some (checksum =? calculatedChecksum))
      end
  end.

(** ** Vendor lookup ([vids/vendor-funcs.ts], [vids/notable-const.ts]) *)

Record VendorInfo : Type := mkVendorInfo {
  vid : string;
  goodName : string;
  shortBrandName : option string;
  linuxhwName : option string;
  lansweeperName : option string;
  hwdataName : option string
}.

(** The [vid] and [shortName] columns of [NOTABLE_VENDORS]. *)
Definition NOTABLE_VENDORS : list (string * string) := [
  ("ABO", "Acer");
  ("ACE", "Acer");
  ("ACI", "Asus");
  ("ACR", "Acer");
  ("ACT", "Acer");
  ("AOC", "AOC");
  ("API", "Acer");
  ("APP", "Apple");
  ("ASU", "Asus");
  ("AUO", "AUO");
  ("AUS", "Asus");
  ("BBK", "BBK");
  ("BBY", "Best Buy");
  ("BNQ", "BenQ");
  ("BOE", "BOE");
  ("CHE", "Acer");
  ("CMN", "InnoLux");
  ("CMO", "Chi Mei");
  ("CSW", "CSOT");
  ("CTX", "CTX");
  ("DEL", "Dell");
  ("DWE", "Daewoo");
  ("EIZ", "Eizo");
  ("GBT", "Gigabyte");
  ("GSM", "LG");
  ("HCE", "Hitachi");
  ("HEC", "Hisense");
  ("HPC", "HP");
  ("HPD", "HP");
  ("HPN", "HP");
  ("HPQ", "HP");
  ("HRE", "Haier");
  ("HSD", "HANNspree");
  ("HSP", "HannStar");
  ("HWP", "HP");
  ("HWV", "Huawei");
  ("IBM", "IBM");
  ("INL", "InnoLux");
  ("IOC", "InnoCN");
  ("IVM", "iiyama");
  ("IVO", "InfoVision");
  ("JDI", "JDI");
  ("JVC", "JVC");
  ("LCA", "LaCie");
  ("LCD", "Toshiba Matsushita");
  ("LEN", "Lenovo");
  ("LGD", "LG");
  ("LGE", "Samsung");
  ("LGP", "LG Philips");
  ("LGS", "LG");
  ("LNV", "Lenovo");
  ("LPL", "LG Philips");
  ("MEI", "Panasonic");
  ("MSI", "MSI");
  ("NEC", "NEC");
  ("ONK", "Onkyo");
  ("ONN", "onn");
  ("OPP", "Oppo");
  ("OWC", "OWC");
  ("PHL", "Philips");
  ("QDS", "Quanta");
  ("SAC", "Samsung");
  ("SAM", "Samsung");
  ("SDC", "Samsung");
  ("SEC", "Samsung");
  ("SEM", "Samsung");
  ("SHP", "Sharp");
  ("SIM", "Samsung");
  ("SNY", "Sony");
  ("SPT", "Sceptre");
  ("STN", "Samsung");
  ("TCL", "TCL");
  ("TOL", "TCL");
  ("TPV", "TPV");
  ("TSB", "Toshiba");
  ("VIZ", "Vizio");
  ("VSC", "ViewSonic");
  ("WDE", "Westinghouse");
  ("WOR", "Dell");
  ("WWW", "Asus")
]%string.

(** [a || b] on strings that may be missing: the empty string is falsy. *)
Definition str_or (a : option string) (b : option string) : option string :=
  match a with
  | Some EmptyString | None => b
  | Some s => Some s
  end.

(** ** Data model ([parser-types.ts]) *)

(** Fields that only one of the digital/analog branches assigns are options. *)
Record BasicDisplayParams : Type := mkBasicDisplayParams {
  isDigital : bool;
  isVesaDfpCompatible : option bool;
  whiteSyncLevels : option Z;
  isBlankToBlack : option bool;
  isSeparateSyncSupported : option bool;
  isCompositeSyncSupported : option bool;
  isSyncOnGreen : option bool;
  isVsyncSerrated : option bool;
  physicalWidthInMm : Z;
  physicalHeightInMm : Z;
  bdp_diagonalInches : option Q;
  displayGamma : Q;
  supportsDpmsStandby : bool;
  supportsDpmsSuspend : bool;
  supportsDpmsActiveOff : bool;
  displayTypeCode : Z;
  isStandardSRgb : bool;
  isPreferredTiming : bool;
  isGtfSupported : bool
}.

(** The coordinate fields are optional in the source type and read back with
    an [undefined] test by [inferColorGamut]. *)
Record ChromaticityCoordinates : Type := mkChromaticity {
  redX : Z; redXCoords : option Q;
  redY : Z; redYCoords : option Q;
  greenX : Z; greenXCoords : option Q;
  greenY : Z; greenYCoords : option Q;
  blueX : Z; blueXCoords : option Q;
  blueY : Z; blueYCoords : option Q;
  whiteX : Z; whiteXCoords : option Q;
  whiteY : Z; whiteYCoords : option Q
}.

Record StandardDisplayMode : Type := mkStandardDisplayMode {
  xResolutionPx : option Z;
  xyPixelRatio : option Z;
  vertFreqHz : option Z
}.

Record SpwgDescriptor3 : Type := mkSpwgDescriptor3 {
  pcMakerPartNumber : string;
  lcdSupplierEedidRevision : Z;
  manufacturerPartNumber : string
}.

Record SpwgDescriptor4 : Type := mkSpwgDescriptor4 {
  smbusValues : list Z;
  lvdsChannels : Z;
  isPanelSelfTestPresent : bool
}.

Record SpwgData : Type := mkSpwgData {
  moduleRevision : Z;
  descriptor3 : SpwgDescriptor3;
  descriptor4 : SpwgDescriptor4
}.

Record ParsedMonitorDescriptors : Type := mkParsedMonitorDescriptors {
  monitorSerialNumber : option string;
  md_modelName : option string;
  md_unspecifiedStrings : list string;
  md_spwg : option SpwgData
}.

Record Dtd : Type := mkDtd {
  pixelClockMhz : option Q;
  horizontalActivePixels : option Z;
  horizontalBlankLineCount : option Z;
  verticalActivePixels : option Z;
  verticalBlankLineCount : option Z;
  horizontalSyncOffsetPixels : option Z;
  horizontalSyncPulsePixels : option Z;
  verticalSyncOffset : option Z;
  verticalSyncPulseLineCount : option Z;
  horizontalDisplaySizeInMm : option Z;
  verticalDisplaySizeInMm : option Z;
  diagonalDisplaySizeInMm : option Q;
  horizontalBorderPixels : option Z;
  verticalBorderLines : option Z;
  isInterlaced : option bool;
  stereoModeCode : option Z;
  syncTypeCode : option Z;
  vSyncPolarity : option bool;
  vSyncSerrated : option bool;
  syncAllRGBLines : option bool;
  hSyncPolarity : option bool;
  twoWayStereo : option bool
}.

Record ShortVideoDescriptor : Type := mkShortVideoDescriptor {
  vic : Z;
  isNativeResolution : option bool
}.

Record ShortAudioDescriptor : Type := mkShortAudioDescriptor {
  standardCodecId : option Z;
  extendedCodecId : option Z;
  maxChannelCount : option Z;
  sampleRatesBitmask : option Z;
  bitDepthBitmask : option Z;
  bitRateKbps : option Z;
  audioFormatCode : option Z;
  codecProfileOrLevel : option Z
}.

Record VideoFormatPreference : Type := mkVideoFormatPreference {
  svrCode : Z;
  frrCode : Z
}.

(** The entries of [EOTF_LABELS], [STATIC_METADATA_DESCRIPTORS] and the
    dynamic metadata labels. *)
Inductive EotfLabel : Type :=
| Traditional_gamma_SDR | Traditional_gamma_HDR | SMPTE_ST2084_PQ
| Hybrid_Log_Gamma_HLG.

Inductive StaticMetaDescLabel : Type :=
| Static_Metadata_Type_1.

Inductive DynamicMetadataLabel : Type :=
| SMPTE_ST_2094_10 | SMPTE_ST_2094_20 | SMPTE_ST_2094_30 | SMPTE_ST_2094_40.

(** [extendedTag]: one of the known type objects, or the raw code. *)
Inductive ExtendedTag : Type :=
| KnownExtendedTag (t : ExtendedDataBlockType)
| UnknownExtendedTag (value : Z).

(** [HdmiForumFeatures]: every flag is either absent or [true]. *)
Module Forum.

Record HdmiForumFeatures : Type := mk {
  isScdcPresent : option bool;
  isScdcReadRequestCapable : option bool;
  supportsCableStatus : option bool;
  supportsColorContentBitsPerComponent : option bool;
  supportsScrambling340Mcsc : option bool;
  supports3DIndependentView : option bool;
  supports3DDualView : option bool;
  supports3DOSDDisparity : option bool;
  supportsFAPAEndExtended : option bool;
  supportsQMS : option bool;
  supportsMDelta : option bool;
  supportsCinemaVRR : option bool;
  supportsNegativeMVRR : option bool;
  supportsFastVActive : option bool;
  supportsALLM : option bool;
  supportsFAPAInBlanking : option bool;
  supportsVESADSC12a : option bool;
  supportsCompressedVideo420 : option bool;
  supportsQMSTFRmax : option bool;
  supportsQMSTFRmin : option bool;
  supportsCompressedVideoAnyBpp : option bool;
  supports16bpcCompressedVideo : option bool;
  supports12bpcCompressedVideo : option bool;
  supports10bpcCompressedVideo : option bool
}.

(** The object literal the parser starts from. *)
Definition empty  : HdmiForumFeatures :=
  {|
    isScdcPresent := None;
    isScdcReadRequestCapable := None;
    supportsCableStatus := None;
    supportsColorContentBitsPerComponent := None;
    supportsScrambling340Mcsc := None;
    supports3DIndependentView := None;
    supports3DDualView := None;
    supports3DOSDDisparity := None;
    supportsFAPAEndExtended := None;
    supportsQMS := None;
    supportsMDelta := None;
    supportsCinemaVRR := None;
    supportsNegativeMVRR := None;
    supportsFastVActive := None;
    supportsALLM := None;
    supportsFAPAInBlanking := None;
    supportsVESADSC12a := None;
    supportsCompressedVideo420 := None;
    supportsQMSTFRmax := None;
    supportsQMSTFRmin := None;
    supportsCompressedVideoAnyBpp := None;
    supports16bpcCompressedVideo := None;
    supports12bpcCompressedVideo := None;
    supports10bpcCompressedVideo := None
  |}.

Definition set_isScdcPresent (v : option bool) (b : HdmiForumFeatures) : HdmiForumFeatures :=
  mk v (isScdcReadRequestCapable b) (supportsCableStatus b)
    (supportsColorContentBitsPerComponent b) (supportsScrambling340Mcsc b)
    (supports3DIndependentView b) (supports3DDualView b)
    (supports3DOSDDisparity b) (supportsFAPAEndExtended b) (supportsQMS b)
    (supportsMDelta b) (supportsCinemaVRR b) (supportsNegativeMVRR b)
    (supportsFastVActive b) (supportsALLM b) (supportsFAPAInBlanking b)
    (supportsVESADSC12a b) (supportsCompressedVideo420 b) (supportsQMSTFRmax
    b) (supportsQMSTFRmin b) (supportsCompressedVideoAnyBpp b)
    (supports16bpcCompressedVideo b) (supports12bpcCompressedVideo b)
    (supports10bpcCompressedVideo b).

Definition set_isScdcReadRequestCapable (v : option bool) (b : HdmiForumFeatures) : HdmiForumFeatures :=
  mk (isScdcPresent b) v (supportsCableStatus b)
    (supportsColorContentBitsPerComponent b) (supportsScrambling340Mcsc b)
    (supports3DIndependentView b) (supports3DDualView b)
    (supports3DOSDDisparity b) (supportsFAPAEndExtended b) (supportsQMS b)
    (supportsMDelta b) (supportsCinemaVRR b) (supportsNegativeMVRR b)
    (supportsFastVActive b) (supportsALLM b) (supportsFAPAInBlanking b)
    (supportsVESADSC12a b) (supportsCompressedVideo420 b) (supportsQMSTFRmax
    b) (supportsQMSTFRmin b) (supportsCompressedVideoAnyBpp b)
    (supports16bpcCompressedVideo b) (supports12bpcCompressedVideo b)
    (supports10bpcCompressedVideo b).

Definition set_supportsCableStatus (v : option bool) (b : HdmiForumFeatures) : HdmiForumFeatures :=
  mk (isScdcPresent b) (isScdcReadRequestCapable b) v
    (supportsColorContentBitsPerComponent b) (supportsScrambling340Mcsc b)
    (supports3DIndependentView b) (supports3DDualView b)
    (supports3DOSDDisparity b) (supportsFAPAEndExtended b) (supportsQMS b)
    (supportsMDelta b) (supportsCinemaVRR b) (supportsNegativeMVRR b)
    (supportsFastVActive b) (supportsALLM b) (supportsFAPAInBlanking b)
    (supportsVESADSC12a b) (supportsCompressedVideo420 b) (supportsQMSTFRmax
    b) (supportsQMSTFRmin b) (supportsCompressedVideoAnyBpp b)
    (supports16bpcCompressedVideo b) (supports12bpcCompressedVideo b)
    (supports10bpcCompressedVideo b).

Definition set_supportsColorContentBitsPerComponent (v : option bool) (b : HdmiForumFeatures) : HdmiForumFeatures :=
  mk (isScdcPresent b) (isScdcReadRequestCapable b) (supportsCableStatus b) v
    (supportsScrambling340Mcsc b) (supports3DIndependentView b)
    (supports3DDualView b) (supports3DOSDDisparity b) (supportsFAPAEndExtended
    b) (supportsQMS b) (supportsMDelta b) (supportsCinemaVRR b)
    (supportsNegativeMVRR b) (supportsFastVActive b) (supportsALLM b)
    (supportsFAPAInBlanking b) (supportsVESADSC12a b)
    (supportsCompressedVideo420 b) (supportsQMSTFRmax b) (supportsQMSTFRmin b)
    (supportsCompressedVideoAnyBpp b) (supports16bpcCompressedVideo b)
    (supports12bpcCompressedVideo b) (supports10bpcCompressedVideo b).

Definition set_supportsScrambling340Mcsc (v : option bool) (b : HdmiForumFeatures) : HdmiForumFeatures :=
  mk (isScdcPresent b) (isScdcReadRequestCapable b) (supportsCableStatus b)
    (supportsColorContentBitsPerComponent b) v (supports3DIndependentView b)
    (supports3DDualView b) (supports3DOSDDisparity b) (supportsFAPAEndExtended
    b) (supportsQMS b) (supportsMDelta b) (supportsCinemaVRR b)
    (supportsNegativeMVRR b) (supportsFastVActive b) (supportsALLM b)
    (supportsFAPAInBlanking b) (supportsVESADSC12a b)
    (supportsCompressedVideo420 b) (supportsQMSTFRmax b) (supportsQMSTFRmin b)
    (supportsCompressedVideoAnyBpp b) (supports16bpcCompressedVideo b)
    (supports12bpcCompressedVideo b) (supports10bpcCompressedVideo b).

Definition set_supports3DIndependentView (v : option bool) (b : HdmiForumFeatures) : HdmiForumFeatures :=
  mk (isScdcPresent b) (isScdcReadRequestCapable b) (supportsCableStatus b)
    (supportsColorContentBitsPerComponent b) (supportsScrambling340Mcsc b) v
    (supports3DDualView b) (supports3DOSDDisparity b) (supportsFAPAEndExtended
    b) (supportsQMS b) (supportsMDelta b) (supportsCinemaVRR b)
    (supportsNegativeMVRR b) (supportsFastVActive b) (supportsALLM b)
    (supportsFAPAInBlanking b) (supportsVESADSC12a b)
    (supportsCompressedVideo420 b) (supportsQMSTFRmax b) (supportsQMSTFRmin b)
    (supportsCompressedVideoAnyBpp b) (supports16bpcCompressedVideo b)
    (supports12bpcCompressedVideo b) (supports10bpcCompressedVideo b).

Definition set_supports3DDualView (v : option bool) (b : HdmiForumFeatures) : HdmiForumFeatures :=
  mk (isScdcPresent b) (isScdcReadRequestCapable b) (supportsCableStatus b)
    (supportsColorContentBitsPerComponent b) (supportsScrambling340Mcsc b)
    (supports3DIndependentView b) v (supports3DOSDDisparity b)
    (supportsFAPAEndExtended b) (supportsQMS b) (supportsMDelta b)
    (supportsCinemaVRR b) (supportsNegativeMVRR b) (supportsFastVActive b)
    (supportsALLM b) (supportsFAPAInBlanking b) (supportsVESADSC12a b)
    (supportsCompressedVideo420 b) (supportsQMSTFRmax b) (supportsQMSTFRmin b)
    (supportsCompressedVideoAnyBpp b) (supports16bpcCompressedVideo b)
    (supports12bpcCompressedVideo b) (supports10bpcCompressedVideo b).

Definition set_supports3DOSDDisparity (v : option bool) (b : HdmiForumFeatures) : HdmiForumFeatures :=
  mk (isScdcPresent b) (isScdcReadRequestCapable b) (supportsCableStatus b)
    (supportsColorContentBitsPerComponent b) (supportsScrambling340Mcsc b)
    (supports3DIndependentView b) (supports3DDualView b) v
    (supportsFAPAEndExtended b) (supportsQMS b) (supportsMDelta b)
    (supportsCinemaVRR b) (supportsNegativeMVRR b) (supportsFastVActive b)
    (supportsALLM b) (supportsFAPAInBlanking b) (supportsVESADSC12a b)
    (supportsCompressedVideo420 b) (supportsQMSTFRmax b) (supportsQMSTFRmin b)
    (supportsCompressedVideoAnyBpp b) (supports16bpcCompressedVideo b)
    (supports12bpcCompressedVideo b) (supports10bpcCompressedVideo b).

Definition set_supportsFAPAEndExtended (v : option bool) (b : HdmiForumFeatures) : HdmiForumFeatures :=
  mk (isScdcPresent b) (isScdcReadRequestCapable b) (supportsCableStatus b)
    (supportsColorContentBitsPerComponent b) (supportsScrambling340Mcsc b)
    (supports3DIndependentView b) (supports3DDualView b)
    (supports3DOSDDisparity b) v (supportsQMS b) (supportsMDelta b)
    (supportsCinemaVRR b) (supportsNegativeMVRR b) (supportsFastVActive b)
    (supportsALLM b) (supportsFAPAInBlanking b) (supportsVESADSC12a b)
    (supportsCompressedVideo420 b) (supportsQMSTFRmax b) (supportsQMSTFRmin b)
    (supportsCompressedVideoAnyBpp b) (supports16bpcCompressedVideo b)
    (supports12bpcCompressedVideo b) (supports10bpcCompressedVideo b).

Definition set_supportsQMS (v : option bool) (b : HdmiForumFeatures) : HdmiForumFeatures :=
  mk (isScdcPresent b) (isScdcReadRequestCapable b) (supportsCableStatus b)
    (supportsColorContentBitsPerComponent b) (supportsScrambling340Mcsc b)
    (supports3DIndependentView b) (supports3DDualView b)
    (supports3DOSDDisparity b) (supportsFAPAEndExtended b) v (supportsMDelta
    b) (supportsCinemaVRR b) (supportsNegativeMVRR b) (supportsFastVActive b)
    (supportsALLM b) (supportsFAPAInBlanking b) (supportsVESADSC12a b)
    (supportsCompressedVideo420 b) (supportsQMSTFRmax b) (supportsQMSTFRmin b)
    (supportsCompressedVideoAnyBpp b) (supports16bpcCompressedVideo b)
    (supports12bpcCompressedVideo b) (supports10bpcCompressedVideo b).

Definition set_supportsMDelta (v : option bool) (b : HdmiForumFeatures) : HdmiForumFeatures :=
  mk (isScdcPresent b) (isScdcReadRequestCapable b) (supportsCableStatus b)
    (supportsColorContentBitsPerComponent b) (supportsScrambling340Mcsc b)
    (supports3DIndependentView b) (supports3DDualView b)
    (supports3DOSDDisparity b) (supportsFAPAEndExtended b) (supportsQMS b) v
    (supportsCinemaVRR b) (supportsNegativeMVRR b) (supportsFastVActive b)
    (supportsALLM b) (supportsFAPAInBlanking b) (supportsVESADSC12a b)
    (supportsCompressedVideo420 b) (supportsQMSTFRmax b) (supportsQMSTFRmin b)
    (supportsCompressedVideoAnyBpp b) (supports16bpcCompressedVideo b)
    (supports12bpcCompressedVideo b) (supports10bpcCompressedVideo b).

Definition set_supportsCinemaVRR (v : option bool) (b : HdmiForumFeatures) : HdmiForumFeatures :=
  mk (isScdcPresent b) (isScdcReadRequestCapable b) (supportsCableStatus b)
    (supportsColorContentBitsPerComponent b) (supportsScrambling340Mcsc b)
    (supports3DIndependentView b) (supports3DDualView b)
    (supports3DOSDDisparity b) (supportsFAPAEndExtended b) (supportsQMS b)
    (supportsMDelta b) v (supportsNegativeMVRR b) (supportsFastVActive b)
    (supportsALLM b) (supportsFAPAInBlanking b) (supportsVESADSC12a b)
    (supportsCompressedVideo420 b) (supportsQMSTFRmax b) (supportsQMSTFRmin b)
    (supportsCompressedVideoAnyBpp b) (supports16bpcCompressedVideo b)
    (supports12bpcCompressedVideo b) (supports10bpcCompressedVideo b).

Definition set_supportsNegativeMVRR (v : option bool) (b : HdmiForumFeatures) : HdmiForumFeatures :=
  mk (isScdcPresent b) (isScdcReadRequestCapable b) (supportsCableStatus b)
    (supportsColorContentBitsPerComponent b) (supportsScrambling340Mcsc b)
    (supports3DIndependentView b) (supports3DDualView b)
    (supports3DOSDDisparity b) (supportsFAPAEndExtended b) (supportsQMS b)
    (supportsMDelta b) (supportsCinemaVRR b) v (supportsFastVActive b)
    (supportsALLM b) (supportsFAPAInBlanking b) (supportsVESADSC12a b)
    (supportsCompressedVideo420 b) (supportsQMSTFRmax b) (supportsQMSTFRmin b)
    (supportsCompressedVideoAnyBpp b) (supports16bpcCompressedVideo b)
    (supports12bpcCompressedVideo b) (supports10bpcCompressedVideo b).

Definition set_supportsFastVActive (v : option bool) (b : HdmiForumFeatures) : HdmiForumFeatures :=
  mk (isScdcPresent b) (isScdcReadRequestCapable b) (supportsCableStatus b)
    (supportsColorContentBitsPerComponent b) (supportsScrambling340Mcsc b)
    (supports3DIndependentView b) (supports3DDualView b)
    (supports3DOSDDisparity b) (supportsFAPAEndExtended b) (supportsQMS b)
    (supportsMDelta b) (supportsCinemaVRR b) (supportsNegativeMVRR b) v
    (supportsALLM b) (supportsFAPAInBlanking b) (supportsVESADSC12a b)
    (supportsCompressedVideo420 b) (supportsQMSTFRmax b) (supportsQMSTFRmin b)
    (supportsCompressedVideoAnyBpp b) (supports16bpcCompressedVideo b)
    (supports12bpcCompressedVideo b) (supports10bpcCompressedVideo b).

Definition set_supportsALLM (v : option bool) (b : HdmiForumFeatures) : HdmiForumFeatures :=
  mk (isScdcPresent b) (isScdcReadRequestCapable b) (supportsCableStatus b)
    (supportsColorContentBitsPerComponent b) (supportsScrambling340Mcsc b)
    (supports3DIndependentView b) (supports3DDualView b)
    (supports3DOSDDisparity b) (supportsFAPAEndExtended b) (supportsQMS b)
    (supportsMDelta b) (supportsCinemaVRR b) (supportsNegativeMVRR b)
    (supportsFastVActive b) v (supportsFAPAInBlanking b) (supportsVESADSC12a
    b) (supportsCompressedVideo420 b) (supportsQMSTFRmax b) (supportsQMSTFRmin
    b) (supportsCompressedVideoAnyBpp b) (supports16bpcCompressedVideo b)
    (supports12bpcCompressedVideo b) (supports10bpcCompressedVideo b).

Definition set_supportsFAPAInBlanking (v : option bool) (b : HdmiForumFeatures) : HdmiForumFeatures :=
  mk (isScdcPresent b) (isScdcReadRequestCapable b) (supportsCableStatus b)
    (supportsColorContentBitsPerComponent b) (supportsScrambling340Mcsc b)
    (supports3DIndependentView b) (supports3DDualView b)
    (supports3DOSDDisparity b) (supportsFAPAEndExtended b) (supportsQMS b)
    (supportsMDelta b) (supportsCinemaVRR b) (supportsNegativeMVRR b)
    (supportsFastVActive b) (supportsALLM b) v (supportsVESADSC12a b)
    (supportsCompressedVideo420 b) (supportsQMSTFRmax b) (supportsQMSTFRmin b)
    (supportsCompressedVideoAnyBpp b) (supports16bpcCompressedVideo b)
    (supports12bpcCompressedVideo b) (supports10bpcCompressedVideo b).

Definition set_supportsVESADSC12a (v : option bool) (b : HdmiForumFeatures) : HdmiForumFeatures :=
  mk (isScdcPresent b) (isScdcReadRequestCapable b) (supportsCableStatus b)
    (supportsColorContentBitsPerComponent b) (supportsScrambling340Mcsc b)
    (supports3DIndependentView b) (supports3DDualView b)
    (supports3DOSDDisparity b) (supportsFAPAEndExtended b) (supportsQMS b)
    (supportsMDelta b) (supportsCinemaVRR b) (supportsNegativeMVRR b)
    (supportsFastVActive b) (supportsALLM b) (supportsFAPAInBlanking b) v
    (supportsCompressedVideo420 b) (supportsQMSTFRmax b) (supportsQMSTFRmin b)
    (supportsCompressedVideoAnyBpp b) (supports16bpcCompressedVideo b)
    (supports12bpcCompressedVideo b) (supports10bpcCompressedVideo b).

Definition set_supportsCompressedVideo420 (v : option bool) (b : HdmiForumFeatures) : HdmiForumFeatures :=
  mk (isScdcPresent b) (isScdcReadRequestCapable b) (supportsCableStatus b)
    (supportsColorContentBitsPerComponent b) (supportsScrambling340Mcsc b)
    (supports3DIndependentView b) (supports3DDualView b)
    (supports3DOSDDisparity b) (supportsFAPAEndExtended b) (supportsQMS b)
    (supportsMDelta b) (supportsCinemaVRR b) (supportsNegativeMVRR b)
    (supportsFastVActive b) (supportsALLM b) (supportsFAPAInBlanking b)
    (supportsVESADSC12a b) v (supportsQMSTFRmax b) (supportsQMSTFRmin b)
    (supportsCompressedVideoAnyBpp b) (supports16bpcCompressedVideo b)
    (supports12bpcCompressedVideo b) (supports10bpcCompressedVideo b).

Definition set_supportsQMSTFRmax (v : option bool) (b : HdmiForumFeatures) : HdmiForumFeatures :=
  mk (isScdcPresent b) (isScdcReadRequestCapable b) (supportsCableStatus b)
    (supportsColorContentBitsPerComponent b) (supportsScrambling340Mcsc b)
    (supports3DIndependentView b) (supports3DDualView b)
    (supports3DOSDDisparity b) (supportsFAPAEndExtended b) (supportsQMS b)
    (supportsMDelta b) (supportsCinemaVRR b) (supportsNegativeMVRR b)
    (supportsFastVActive b) (supportsALLM b) (supportsFAPAInBlanking b)
    (supportsVESADSC12a b) (supportsCompressedVideo420 b) v (supportsQMSTFRmin
    b) (supportsCompressedVideoAnyBpp b) (supports16bpcCompressedVideo b)
    (supports12bpcCompressedVideo b) (supports10bpcCompressedVideo b).

Definition set_supportsQMSTFRmin (v : option bool) (b : HdmiForumFeatures) : HdmiForumFeatures :=
  mk (isScdcPresent b) (isScdcReadRequestCapable b) (supportsCableStatus b)
    (supportsColorContentBitsPerComponent b) (supportsScrambling340Mcsc b)
    (supports3DIndependentView b) (supports3DDualView b)
    (supports3DOSDDisparity b) (supportsFAPAEndExtended b) (supportsQMS b)
    (supportsMDelta b) (supportsCinemaVRR b) (supportsNegativeMVRR b)
    (supportsFastVActive b) (supportsALLM b) (supportsFAPAInBlanking b)
    (supportsVESADSC12a b) (supportsCompressedVideo420 b) (supportsQMSTFRmax
    b) v (supportsCompressedVideoAnyBpp b) (supports16bpcCompressedVideo b)
    (supports12bpcCompressedVideo b) (supports10bpcCompressedVideo b).

Definition set_supportsCompressedVideoAnyBpp (v : option bool) (b : HdmiForumFeatures) : HdmiForumFeatures :=
  mk (isScdcPresent b) (isScdcReadRequestCapable b) (supportsCableStatus b)
    (supportsColorContentBitsPerComponent b) (supportsScrambling340Mcsc b)
    (supports3DIndependentView b) (supports3DDualView b)
    (supports3DOSDDisparity b) (supportsFAPAEndExtended b) (supportsQMS b)
    (supportsMDelta b) (supportsCinemaVRR b) (supportsNegativeMVRR b)
    (supportsFastVActive b) (supportsALLM b) (supportsFAPAInBlanking b)
    (supportsVESADSC12a b) (supportsCompressedVideo420 b) (supportsQMSTFRmax
    b) (supportsQMSTFRmin b) v (supports16bpcCompressedVideo b)
    (supports12bpcCompressedVideo b) (supports10bpcCompressedVideo b).

Definition set_supports16bpcCompressedVideo (v : option bool) (b : HdmiForumFeatures) : HdmiForumFeatures :=
  mk (isScdcPresent b) (isScdcReadRequestCapable b) (supportsCableStatus b)
    (supportsColorContentBitsPerComponent b) (supportsScrambling340Mcsc b)
    (supports3DIndependentView b) (supports3DDualView b)
    (supports3DOSDDisparity b) (supportsFAPAEndExtended b) (supportsQMS b)
    (supportsMDelta b) (supportsCinemaVRR b) (supportsNegativeMVRR b)
    (supportsFastVActive b) (supportsALLM b) (supportsFAPAInBlanking b)
    (supportsVESADSC12a b) (supportsCompressedVideo420 b) (supportsQMSTFRmax
    b) (supportsQMSTFRmin b) (supportsCompressedVideoAnyBpp b) v
    (supports12bpcCompressedVideo b) (supports10bpcCompressedVideo b).

Definition set_supports12bpcCompressedVideo (v : option bool) (b : HdmiForumFeatures) : HdmiForumFeatures :=
  mk (isScdcPresent b) (isScdcReadRequestCapable b) (supportsCableStatus b)
    (supportsColorContentBitsPerComponent b) (supportsScrambling340Mcsc b)
    (supports3DIndependentView b) (supports3DDualView b)
    (supports3DOSDDisparity b) (supportsFAPAEndExtended b) (supportsQMS b)
    (supportsMDelta b) (supportsCinemaVRR b) (supportsNegativeMVRR b)
    (supportsFastVActive b) (supportsALLM b) (supportsFAPAInBlanking b)
    (supportsVESADSC12a b) (supportsCompressedVideo420 b) (supportsQMSTFRmax
    b) (supportsQMSTFRmin b) (supportsCompressedVideoAnyBpp b)
    (supports16bpcCompressedVideo b) v (supports10bpcCompressedVideo b).

Definition set_supports10bpcCompressedVideo (v : option bool) (b : HdmiForumFeatures) : HdmiForumFeatures :=
  mk (isScdcPresent b) (isScdcReadRequestCapable b) (supportsCableStatus b)
    (supportsColorContentBitsPerComponent b) (supportsScrambling340Mcsc b)
    (supports3DIndependentView b) (supports3DDualView b)
    (supports3DOSDDisparity b) (supportsFAPAEndExtended b) (supportsQMS b)
    (supportsMDelta b) (supportsCinemaVRR b) (supportsNegativeMVRR b)
    (supportsFastVActive b) (supportsALLM b) (supportsFAPAInBlanking b)
    (supportsVESADSC12a b) (supportsCompressedVideo420 b) (supportsQMSTFRmax
    b) (supportsQMSTFRmin b) (supportsCompressedVideoAnyBpp b)
    (supports16bpcCompressedVideo b) (supports12bpcCompressedVideo b) v.

End Forum.

(** [AudioDataBlock], [VideoDataBlock], [SpeakerDataBlock]: the [tag] of a
    data block is fixed by its interface, so it is the constructor of
    [AnyDataBlock] below rather than a field. *)
Module Audio.

Record AudioDataBlock : Type := mk {
  dataLength : Z;
  shortAudioDescriptors : list ShortAudioDescriptor
}.

End Audio.

Module Video.

Record VideoDataBlock : Type := mk {
  dataLength : Z;
  shortVideoDescriptors : list ShortVideoDescriptor
}.

End Video.

Module Speaker.

Record SpeakerDataBlock : Type := mk {
  dataLength : Z;
  layoutBitmask : Z
}.

End Speaker.

(** [VendorDataBlock]: one wide record; which fields are set depends on the OUI. *)
Module Vendor.

Record VendorDataBlock : Type := mk {
  dataLength : Z;
  ieeeOui : option Z;
  physicalAddress : option Z;
  supportsAI : option bool;
  supportsDeepColor48 : option bool;
  supportsDeepColor36 : option bool;
  supportsDeepColor30 : option bool;
  supportsDeepColorY444 : option bool;
  supportsDualLinkDvi : option bool;
  hdmi14MaxTmdsRateMhz : option Z;
  areProgressiveLatencyFieldsPresent : option bool;
  areInterlacedLatencyFieldsPresent : option bool;
  progressiveVideoLatencyMs : option Z;
  progressiveAudioLatencyMs : option Z;
  interlacedVideoLatencyMs : option Z;
  interlacedAudioLatencyMs : option Z;
  hdmi20PayloadVersion : option Z;
  hdmi20MaxTmdsRateMhz : option Z;
  supportsSCDC : option bool;
  supportsSCDCRR : option bool;
  supportsLTE340scramble : option bool;
  supports3DIV : option bool;
  supports3DDV : option bool;
  supports3DOSD : option bool;
  supportsGameContentType : option bool;
  supportsDeepColorY420_48 : option bool;
  supportsDeepColorY420_36 : option bool;
  supportsDeepColorY420_30 : option bool;
  hdmiForumFeatures : option Forum.HdmiForumFeatures;
  hfPayloadVersion : option JS.number;
  maxTMDSCharacterRateMhz : option JS.number;
  maxFixedRateLink : option string;
  vrrMinHz : option Z;
  vrrMaxHz : option Z;
  supportsDolbyVision : option bool;
  error : option string
}.

(** The object literal the parser starts from. *)
Definition empty (dataLength : Z) : VendorDataBlock :=
  {|
    dataLength := dataLength;
    ieeeOui := None;
    physicalAddress := None;
    supportsAI := None;
    supportsDeepColor48 := None;
    supportsDeepColor36 := None;
    supportsDeepColor30 := None;
    supportsDeepColorY444 := None;
    supportsDualLinkDvi := None;
    hdmi14MaxTmdsRateMhz := None;
    areProgressiveLatencyFieldsPresent := None;
    areInterlacedLatencyFieldsPresent := None;
    progressiveVideoLatencyMs := None;
    progressiveAudioLatencyMs := None;
    interlacedVideoLatencyMs := None;
    interlacedAudioLatencyMs := None;
    hdmi20PayloadVersion := None;
    hdmi20MaxTmdsRateMhz := None;
    supportsSCDC := None;
    supportsSCDCRR := None;
    supportsLTE340scramble := None;
    supports3DIV := None;
    supports3DDV := None;
    supports3DOSD := None;
    supportsGameContentType := None;
    supportsDeepColorY420_48 := None;
    supportsDeepColorY420_36 := None;
    supportsDeepColorY420_30 := None;
    hdmiForumFeatures := None;
    hfPayloadVersion := None;
    maxTMDSCharacterRateMhz := None;
    maxFixedRateLink := None;
    vrrMinHz := None;
    vrrMaxHz := None;
    supportsDolbyVision := None;
    error := None
  |}.

Definition set_dataLength (v : Z) (b : VendorDataBlock) : VendorDataBlock :=
  mk v (ieeeOui b) (physicalAddress b) (supportsAI b) (supportsDeepColor48 b)
    (supportsDeepColor36 b) (supportsDeepColor30 b) (supportsDeepColorY444 b)
    (supportsDualLinkDvi b) (hdmi14MaxTmdsRateMhz b)
    (areProgressiveLatencyFieldsPresent b) (areInterlacedLatencyFieldsPresent
    b) (progressiveVideoLatencyMs b) (progressiveAudioLatencyMs b)
    (interlacedVideoLatencyMs b) (interlacedAudioLatencyMs b)
    (hdmi20PayloadVersion b) (hdmi20MaxTmdsRateMhz b) (supportsSCDC b)
    (supportsSCDCRR b) (supportsLTE340scramble b) (supports3DIV b)
    (supports3DDV b) (supports3DOSD b) (supportsGameContentType b)
    (supportsDeepColorY420_48 b) (supportsDeepColorY420_36 b)
    (supportsDeepColorY420_30 b) (hdmiForumFeatures b) (hfPayloadVersion b)
    (maxTMDSCharacterRateMhz b) (maxFixedRateLink b) (vrrMinHz b) (vrrMaxHz b)
    (supportsDolbyVision b) (error b).

Definition set_ieeeOui (v : option Z) (b : VendorDataBlock) : VendorDataBlock :=
  mk (dataLength b) v (physicalAddress b) (supportsAI b) (supportsDeepColor48
    b) (supportsDeepColor36 b) (supportsDeepColor30 b) (supportsDeepColorY444
    b) (supportsDualLinkDvi b) (hdmi14MaxTmdsRateMhz b)
    (areProgressiveLatencyFieldsPresent b) (areInterlacedLatencyFieldsPresent
    b) (progressiveVideoLatencyMs b) (progressiveAudioLatencyMs b)
    (interlacedVideoLatencyMs b) (interlacedAudioLatencyMs b)
    (hdmi20PayloadVersion b) (hdmi20MaxTmdsRateMhz b) (supportsSCDC b)
    (supportsSCDCRR b) (supportsLTE340scramble b) (supports3DIV b)
    (supports3DDV b) (supports3DOSD b) (supportsGameContentType b)
    (supportsDeepColorY420_48 b) (supportsDeepColorY420_36 b)
    (supportsDeepColorY420_30 b) (hdmiForumFeatures b) (hfPayloadVersion b)
    (maxTMDSCharacterRateMhz b) (maxFixedRateLink b) (vrrMinHz b) (vrrMaxHz b)
    (supportsDolbyVision b) (error b).

Definition set_physicalAddress (v : option Z) (b : VendorDataBlock) : VendorDataBlock :=
  mk (dataLength b) (ieeeOui b) v (supportsAI b) (supportsDeepColor48 b)
    (supportsDeepColor36 b) (supportsDeepColor30 b) (supportsDeepColorY444 b)
    (supportsDualLinkDvi b) (hdmi14MaxTmdsRateMhz b)
    (areProgressiveLatencyFieldsPresent b) (areInterlacedLatencyFieldsPresent
    b) (progressiveVideoLatencyMs b) (progressiveAudioLatencyMs b)
    (interlacedVideoLatencyMs b) (interlacedAudioLatencyMs b)
    (hdmi20PayloadVersion b) (hdmi20MaxTmdsRateMhz b) (supportsSCDC b)
    (supportsSCDCRR b) (supportsLTE340scramble b) (supports3DIV b)
    (supports3DDV b) (supports3DOSD b) (supportsGameContentType b)
    (supportsDeepColorY420_48 b) (supportsDeepColorY420_36 b)
    (supportsDeepColorY420_30 b) (hdmiForumFeatures b) (hfPayloadVersion b)
    (maxTMDSCharacterRateMhz b) (maxFixedRateLink b) (vrrMinHz b) (vrrMaxHz b)
    (supportsDolbyVision b) (error b).

Definition set_supportsAI (v : option bool) (b : VendorDataBlock) : VendorDataBlock :=
  mk (dataLength b) (ieeeOui b) (physicalAddress b) v (supportsDeepColor48 b)
    (supportsDeepColor36 b) (supportsDeepColor30 b) (supportsDeepColorY444 b)
    (supportsDualLinkDvi b) (hdmi14MaxTmdsRateMhz b)
    (areProgressiveLatencyFieldsPresent b) (areInterlacedLatencyFieldsPresent
    b) (progressiveVideoLatencyMs b) (progressiveAudioLatencyMs b)
    (interlacedVideoLatencyMs b) (interlacedAudioLatencyMs b)
    (hdmi20PayloadVersion b) (hdmi20MaxTmdsRateMhz b) (supportsSCDC b)
    (supportsSCDCRR b) (supportsLTE340scramble b) (supports3DIV b)
    (supports3DDV b) (supports3DOSD b) (supportsGameContentType b)
    (supportsDeepColorY420_48 b) (supportsDeepColorY420_36 b)
    (supportsDeepColorY420_30 b) (hdmiForumFeatures b) (hfPayloadVersion b)
    (maxTMDSCharacterRateMhz b) (maxFixedRateLink b) (vrrMinHz b) (vrrMaxHz b)
    (supportsDolbyVision b) (error b).

Definition set_supportsDeepColor48 (v : option bool) (b : VendorDataBlock) : VendorDataBlock :=
  mk (dataLength b) (ieeeOui b) (physicalAddress b) (supportsAI b) v
    (supportsDeepColor36 b) (supportsDeepColor30 b) (supportsDeepColorY444 b)
    (supportsDualLinkDvi b) (hdmi14MaxTmdsRateMhz b)
    (areProgressiveLatencyFieldsPresent b) (areInterlacedLatencyFieldsPresent
    b) (progressiveVideoLatencyMs b) (progressiveAudioLatencyMs b)
    (interlacedVideoLatencyMs b) (interlacedAudioLatencyMs b)
    (hdmi20PayloadVersion b) (hdmi20MaxTmdsRateMhz b) (supportsSCDC b)
    (supportsSCDCRR b) (supportsLTE340scramble b) (supports3DIV b)
    (supports3DDV b) (supports3DOSD b) (supportsGameContentType b)
    (supportsDeepColorY420_48 b) (supportsDeepColorY420_36 b)
    (supportsDeepColorY420_30 b) (hdmiForumFeatures b) (hfPayloadVersion b)
    (maxTMDSCharacterRateMhz b) (maxFixedRateLink b) (vrrMinHz b) (vrrMaxHz b)
    (supportsDolbyVision b) (error b).

Definition set_supportsDeepColor36 (v : option bool) (b : VendorDataBlock) : VendorDataBlock :=
  mk (dataLength b) (ieeeOui b) (physicalAddress b) (supportsAI b)
    (supportsDeepColor48 b) v (supportsDeepColor30 b) (supportsDeepColorY444
    b) (supportsDualLinkDvi b) (hdmi14MaxTmdsRateMhz b)
    (areProgressiveLatencyFieldsPresent b) (areInterlacedLatencyFieldsPresent
    b) (progressiveVideoLatencyMs b) (progressiveAudioLatencyMs b)
    (interlacedVideoLatencyMs b) (interlacedAudioLatencyMs b)
    (hdmi20PayloadVersion b) (hdmi20MaxTmdsRateMhz b) (supportsSCDC b)
    (supportsSCDCRR b) (supportsLTE340scramble b) (supports3DIV b)
    (supports3DDV b) (supports3DOSD b) (supportsGameContentType b)
    (supportsDeepColorY420_48 b) (supportsDeepColorY420_36 b)
    (supportsDeepColorY420_30 b) (hdmiForumFeatures b) (hfPayloadVersion b)
    (maxTMDSCharacterRateMhz b) (maxFixedRateLink b) (vrrMinHz b) (vrrMaxHz b)
    (supportsDolbyVision b) (error b).

Definition set_supportsDeepColor30 (v : option bool) (b : VendorDataBlock) : VendorDataBlock :=
  mk (dataLength b) (ieeeOui b) (physicalAddress b) (supportsAI b)
    (supportsDeepColor48 b) (supportsDeepColor36 b) v (supportsDeepColorY444
    b) (supportsDualLinkDvi b) (hdmi14MaxTmdsRateMhz b)
    (areProgressiveLatencyFieldsPresent b) (areInterlacedLatencyFieldsPresent
    b) (progressiveVideoLatencyMs b) (progressiveAudioLatencyMs b)
    (interlacedVideoLatencyMs b) (interlacedAudioLatencyMs b)
    (hdmi20PayloadVersion b) (hdmi20MaxTmdsRateMhz b) (supportsSCDC b)
    (supportsSCDCRR b) (supportsLTE340scramble b) (supports3DIV b)
    (supports3DDV b) (supports3DOSD b) (supportsGameContentType b)
    (supportsDeepColorY420_48 b) (supportsDeepColorY420_36 b)
    (supportsDeepColorY420_30 b) (hdmiForumFeatures b) (hfPayloadVersion b)
    (maxTMDSCharacterRateMhz b) (maxFixedRateLink b) (vrrMinHz b) (vrrMaxHz b)
    (supportsDolbyVision b) (error b).

Definition set_supportsDeepColorY444 (v : option bool) (b : VendorDataBlock) : VendorDataBlock :=
  mk (dataLength b) (ieeeOui b) (physicalAddress b) (supportsAI b)
    (supportsDeepColor48 b) (supportsDeepColor36 b) (supportsDeepColor30 b) v
    (supportsDualLinkDvi b) (hdmi14MaxTmdsRateMhz b)
    (areProgressiveLatencyFieldsPresent b) (areInterlacedLatencyFieldsPresent
    b) (progressiveVideoLatencyMs b) (progressiveAudioLatencyMs b)
    (interlacedVideoLatencyMs b) (interlacedAudioLatencyMs b)
    (hdmi20PayloadVersion b) (hdmi20MaxTmdsRateMhz b) (supportsSCDC b)
    (supportsSCDCRR b) (supportsLTE340scramble b) (supports3DIV b)
    (supports3DDV b) (supports3DOSD b) (supportsGameContentType b)
    (supportsDeepColorY420_48 b) (supportsDeepColorY420_36 b)
    (supportsDeepColorY420_30 b) (hdmiForumFeatures b) (hfPayloadVersion b)
    (maxTMDSCharacterRateMhz b) (maxFixedRateLink b) (vrrMinHz b) (vrrMaxHz b)
    (supportsDolbyVision b) (error b).

Definition set_supportsDualLinkDvi (v : option bool) (b : VendorDataBlock) : VendorDataBlock :=
  mk (dataLength b) (ieeeOui b) (physicalAddress b) (supportsAI b)
    (supportsDeepColor48 b) (supportsDeepColor36 b) (supportsDeepColor30 b)
    (supportsDeepColorY444 b) v (hdmi14MaxTmdsRateMhz b)
    (areProgressiveLatencyFieldsPresent b) (areInterlacedLatencyFieldsPresent
    b) (progressiveVideoLatencyMs b) (progressiveAudioLatencyMs b)
    (interlacedVideoLatencyMs b) (interlacedAudioLatencyMs b)
    (hdmi20PayloadVersion b) (hdmi20MaxTmdsRateMhz b) (supportsSCDC b)
    (supportsSCDCRR b) (supportsLTE340scramble b) (supports3DIV b)
    (supports3DDV b) (supports3DOSD b) (supportsGameContentType b)
    (supportsDeepColorY420_48 b) (supportsDeepColorY420_36 b)
    (supportsDeepColorY420_30 b) (hdmiForumFeatures b) (hfPayloadVersion b)
    (maxTMDSCharacterRateMhz b) (maxFixedRateLink b) (vrrMinHz b) (vrrMaxHz b)
    (supportsDolbyVision b) (error b).

Definition set_hdmi14MaxTmdsRateMhz (v : option Z) (b : VendorDataBlock) : VendorDataBlock :=
  mk (dataLength b) (ieeeOui b) (physicalAddress b) (supportsAI b)
    (supportsDeepColor48 b) (supportsDeepColor36 b) (supportsDeepColor30 b)
    (supportsDeepColorY444 b) (supportsDualLinkDvi b) v
    (areProgressiveLatencyFieldsPresent b) (areInterlacedLatencyFieldsPresent
    b) (progressiveVideoLatencyMs b) (progressiveAudioLatencyMs b)
    (interlacedVideoLatencyMs b) (interlacedAudioLatencyMs b)
    (hdmi20PayloadVersion b) (hdmi20MaxTmdsRateMhz b) (supportsSCDC b)
    (supportsSCDCRR b) (supportsLTE340scramble b) (supports3DIV b)
    (supports3DDV b) (supports3DOSD b) (supportsGameContentType b)
    (supportsDeepColorY420_48 b) (supportsDeepColorY420_36 b)
    (supportsDeepColorY420_30 b) (hdmiForumFeatures b) (hfPayloadVersion b)
    (maxTMDSCharacterRateMhz b) (maxFixedRateLink b) (vrrMinHz b) (vrrMaxHz b)
    (supportsDolbyVision b) (error b).

Definition set_areProgressiveLatencyFieldsPresent (v : option bool) (b : VendorDataBlock) : VendorDataBlock :=
  mk (dataLength b) (ieeeOui b) (physicalAddress b) (supportsAI b)
    (supportsDeepColor48 b) (supportsDeepColor36 b) (supportsDeepColor30 b)
    (supportsDeepColorY444 b) (supportsDualLinkDvi b) (hdmi14MaxTmdsRateMhz b)
    v (areInterlacedLatencyFieldsPresent b) (progressiveVideoLatencyMs b)
    (progressiveAudioLatencyMs b) (interlacedVideoLatencyMs b)
    (interlacedAudioLatencyMs b) (hdmi20PayloadVersion b)
    (hdmi20MaxTmdsRateMhz b) (supportsSCDC b) (supportsSCDCRR b)
    (supportsLTE340scramble b) (supports3DIV b) (supports3DDV b)
    (supports3DOSD b) (supportsGameContentType b) (supportsDeepColorY420_48 b)
    (supportsDeepColorY420_36 b) (supportsDeepColorY420_30 b)
    (hdmiForumFeatures b) (hfPayloadVersion b) (maxTMDSCharacterRateMhz b)
    (maxFixedRateLink b) (vrrMinHz b) (vrrMaxHz b) (supportsDolbyVision b)
    (error b).

Definition set_areInterlacedLatencyFieldsPresent (v : option bool) (b : VendorDataBlock) : VendorDataBlock :=
  mk (dataLength b) (ieeeOui b) (physicalAddress b) (supportsAI b)
    (supportsDeepColor48 b) (supportsDeepColor36 b) (supportsDeepColor30 b)
    (supportsDeepColorY444 b) (supportsDualLinkDvi b) (hdmi14MaxTmdsRateMhz b)
    (areProgressiveLatencyFieldsPresent b) v (progressiveVideoLatencyMs b)
    (progressiveAudioLatencyMs b) (interlacedVideoLatencyMs b)
    (interlacedAudioLatencyMs b) (hdmi20PayloadVersion b)
    (hdmi20MaxTmdsRateMhz b) (supportsSCDC b) (supportsSCDCRR b)
    (supportsLTE340scramble b) (supports3DIV b) (supports3DDV b)
    (supports3DOSD b) (supportsGameContentType b) (supportsDeepColorY420_48 b)
    (supportsDeepColorY420_36 b) (supportsDeepColorY420_30 b)
    (hdmiForumFeatures b) (hfPayloadVersion b) (maxTMDSCharacterRateMhz b)
    (maxFixedRateLink b) (vrrMinHz b) (vrrMaxHz b) (supportsDolbyVision b)
    (error b).

Definition set_progressiveVideoLatencyMs (v : option Z) (b : VendorDataBlock) : VendorDataBlock :=
  mk (dataLength b) (ieeeOui b) (physicalAddress b) (supportsAI b)
    (supportsDeepColor48 b) (supportsDeepColor36 b) (supportsDeepColor30 b)
    (supportsDeepColorY444 b) (supportsDualLinkDvi b) (hdmi14MaxTmdsRateMhz b)
    (areProgressiveLatencyFieldsPresent b) (areInterlacedLatencyFieldsPresent
    b) v (progressiveAudioLatencyMs b) (interlacedVideoLatencyMs b)
    (interlacedAudioLatencyMs b) (hdmi20PayloadVersion b)
    (hdmi20MaxTmdsRateMhz b) (supportsSCDC b) (supportsSCDCRR b)
    (supportsLTE340scramble b) (supports3DIV b) (supports3DDV b)
    (supports3DOSD b) (supportsGameContentType b) (supportsDeepColorY420_48 b)
    (supportsDeepColorY420_36 b) (supportsDeepColorY420_30 b)
    (hdmiForumFeatures b) (hfPayloadVersion b) (maxTMDSCharacterRateMhz b)
    (maxFixedRateLink b) (vrrMinHz b) (vrrMaxHz b) (supportsDolbyVision b)
    (error b).

Definition set_progressiveAudioLatencyMs (v : option Z) (b : VendorDataBlock) : VendorDataBlock :=
  mk (dataLength b) (ieeeOui b) (physicalAddress b) (supportsAI b)
    (supportsDeepColor48 b) (supportsDeepColor36 b) (supportsDeepColor30 b)
    (supportsDeepColorY444 b) (supportsDualLinkDvi b) (hdmi14MaxTmdsRateMhz b)
    (areProgressiveLatencyFieldsPresent b) (areInterlacedLatencyFieldsPresent
    b) (progressiveVideoLatencyMs b) v (interlacedVideoLatencyMs b)
    (interlacedAudioLatencyMs b) (hdmi20PayloadVersion b)
    (hdmi20MaxTmdsRateMhz b) (supportsSCDC b) (supportsSCDCRR b)
    (supportsLTE340scramble b) (supports3DIV b) (supports3DDV b)
    (supports3DOSD b) (supportsGameContentType b) (supportsDeepColorY420_48 b)
    (supportsDeepColorY420_36 b) (supportsDeepColorY420_30 b)
    (hdmiForumFeatures b) (hfPayloadVersion b) (maxTMDSCharacterRateMhz b)
    (maxFixedRateLink b) (vrrMinHz b) (vrrMaxHz b) (supportsDolbyVision b)
    (error b).

Definition set_interlacedVideoLatencyMs (v : option Z) (b : VendorDataBlock) : VendorDataBlock :=
  mk (dataLength b) (ieeeOui b) (physicalAddress b) (supportsAI b)
    (supportsDeepColor48 b) (supportsDeepColor36 b) (supportsDeepColor30 b)
    (supportsDeepColorY444 b) (supportsDualLinkDvi b) (hdmi14MaxTmdsRateMhz b)
    (areProgressiveLatencyFieldsPresent b) (areInterlacedLatencyFieldsPresent
    b) (progressiveVideoLatencyMs b) (progressiveAudioLatencyMs b) v
    (interlacedAudioLatencyMs b) (hdmi20PayloadVersion b)
    (hdmi20MaxTmdsRateMhz b) (supportsSCDC b) (supportsSCDCRR b)
    (supportsLTE340scramble b) (supports3DIV b) (supports3DDV b)
    (supports3DOSD b) (supportsGameContentType b) (supportsDeepColorY420_48 b)
    (supportsDeepColorY420_36 b) (supportsDeepColorY420_30 b)
    (hdmiForumFeatures b) (hfPayloadVersion b) (maxTMDSCharacterRateMhz b)
    (maxFixedRateLink b) (vrrMinHz b) (vrrMaxHz b) (supportsDolbyVision b)
    (error b).

Definition set_interlacedAudioLatencyMs (v : option Z) (b : VendorDataBlock) : VendorDataBlock :=
  mk (dataLength b) (ieeeOui b) (physicalAddress b) (supportsAI b)
    (supportsDeepColor48 b) (supportsDeepColor36 b) (supportsDeepColor30 b)
    (supportsDeepColorY444 b) (supportsDualLinkDvi b) (hdmi14MaxTmdsRateMhz b)
    (areProgressiveLatencyFieldsPresent b) (areInterlacedLatencyFieldsPresent
    b) (progressiveVideoLatencyMs b) (progressiveAudioLatencyMs b)
    (interlacedVideoLatencyMs b) v (hdmi20PayloadVersion b)
    (hdmi20MaxTmdsRateMhz b) (supportsSCDC b) (supportsSCDCRR b)
    (supportsLTE340scramble b) (supports3DIV b) (supports3DDV b)
    (supports3DOSD b) (supportsGameContentType b) (supportsDeepColorY420_48 b)
    (supportsDeepColorY420_36 b) (supportsDeepColorY420_30 b)
    (hdmiForumFeatures b) (hfPayloadVersion b) (maxTMDSCharacterRateMhz b)
    (maxFixedRateLink b) (vrrMinHz b) (vrrMaxHz b) (supportsDolbyVision b)
    (error b).

Definition set_hdmi20PayloadVersion (v : option Z) (b : VendorDataBlock) : VendorDataBlock :=
  mk (dataLength b) (ieeeOui b) (physicalAddress b) (supportsAI b)
    (supportsDeepColor48 b) (supportsDeepColor36 b) (supportsDeepColor30 b)
    (supportsDeepColorY444 b) (supportsDualLinkDvi b) (hdmi14MaxTmdsRateMhz b)
    (areProgressiveLatencyFieldsPresent b) (areInterlacedLatencyFieldsPresent
    b) (progressiveVideoLatencyMs b) (progressiveAudioLatencyMs b)
    (interlacedVideoLatencyMs b) (interlacedAudioLatencyMs b) v
    (hdmi20MaxTmdsRateMhz b) (supportsSCDC b) (supportsSCDCRR b)
    (supportsLTE340scramble b) (supports3DIV b) (supports3DDV b)
    (supports3DOSD b) (supportsGameContentType b) (supportsDeepColorY420_48 b)
    (supportsDeepColorY420_36 b) (supportsDeepColorY420_30 b)
    (hdmiForumFeatures b) (hfPayloadVersion b) (maxTMDSCharacterRateMhz b)
    (maxFixedRateLink b) (vrrMinHz b) (vrrMaxHz b) (supportsDolbyVision b)
    (error b).

Definition set_hdmi20MaxTmdsRateMhz (v : option Z) (b : VendorDataBlock) : VendorDataBlock :=
  mk (dataLength b) (ieeeOui b) (physicalAddress b) (supportsAI b)
    (supportsDeepColor48 b) (supportsDeepColor36 b) (supportsDeepColor30 b)
    (supportsDeepColorY444 b) (supportsDualLinkDvi b) (hdmi14MaxTmdsRateMhz b)
    (areProgressiveLatencyFieldsPresent b) (areInterlacedLatencyFieldsPresent
    b) (progressiveVideoLatencyMs b) (progressiveAudioLatencyMs b)
    (interlacedVideoLatencyMs b) (interlacedAudioLatencyMs b)
    (hdmi20PayloadVersion b) v (supportsSCDC b) (supportsSCDCRR b)
    (supportsLTE340scramble b) (supports3DIV b) (supports3DDV b)
    (supports3DOSD b) (supportsGameContentType b) (supportsDeepColorY420_48 b)
    (supportsDeepColorY420_36 b) (supportsDeepColorY420_30 b)
    (hdmiForumFeatures b) (hfPayloadVersion b) (maxTMDSCharacterRateMhz b)
    (maxFixedRateLink b) (vrrMinHz b) (vrrMaxHz b) (supportsDolbyVision b)
    (error b).

Definition set_supportsSCDC (v : option bool) (b : VendorDataBlock) : VendorDataBlock :=
  mk (dataLength b) (ieeeOui b) (physicalAddress b) (supportsAI b)
    (supportsDeepColor48 b) (supportsDeepColor36 b) (supportsDeepColor30 b)
    (supportsDeepColorY444 b) (supportsDualLinkDvi b) (hdmi14MaxTmdsRateMhz b)
    (areProgressiveLatencyFieldsPresent b) (areInterlacedLatencyFieldsPresent
    b) (progressiveVideoLatencyMs b) (progressiveAudioLatencyMs b)
    (interlacedVideoLatencyMs b) (interlacedAudioLatencyMs b)
    (hdmi20PayloadVersion b) (hdmi20MaxTmdsRateMhz b) v (supportsSCDCRR b)
    (supportsLTE340scramble b) (supports3DIV b) (supports3DDV b)
    (supports3DOSD b) (supportsGameContentType b) (supportsDeepColorY420_48 b)
    (supportsDeepColorY420_36 b) (supportsDeepColorY420_30 b)
    (hdmiForumFeatures b) (hfPayloadVersion b) (maxTMDSCharacterRateMhz b)
    (maxFixedRateLink b) (vrrMinHz b) (vrrMaxHz b) (supportsDolbyVision b)
    (error b).

Definition set_supportsSCDCRR (v : option bool) (b : VendorDataBlock) : VendorDataBlock :=
  mk (dataLength b) (ieeeOui b) (physicalAddress b) (supportsAI b)
    (supportsDeepColor48 b) (supportsDeepColor36 b) (supportsDeepColor30 b)
    (supportsDeepColorY444 b) (supportsDualLinkDvi b) (hdmi14MaxTmdsRateMhz b)
    (areProgressiveLatencyFieldsPresent b) (areInterlacedLatencyFieldsPresent
    b) (progressiveVideoLatencyMs b) (progressiveAudioLatencyMs b)
    (interlacedVideoLatencyMs b) (interlacedAudioLatencyMs b)
    (hdmi20PayloadVersion b) (hdmi20MaxTmdsRateMhz b) (supportsSCDC b) v
    (supportsLTE340scramble b) (supports3DIV b) (supports3DDV b)
    (supports3DOSD b) (supportsGameContentType b) (supportsDeepColorY420_48 b)
    (supportsDeepColorY420_36 b) (supportsDeepColorY420_30 b)
    (hdmiForumFeatures b) (hfPayloadVersion b) (maxTMDSCharacterRateMhz b)
    (maxFixedRateLink b) (vrrMinHz b) (vrrMaxHz b) (supportsDolbyVision b)
    (error b).

Definition set_supportsLTE340scramble (v : option bool) (b : VendorDataBlock) : VendorDataBlock :=
  mk (dataLength b) (ieeeOui b) (physicalAddress b) (supportsAI b)
    (supportsDeepColor48 b) (supportsDeepColor36 b) (supportsDeepColor30 b)
    (supportsDeepColorY444 b) (supportsDualLinkDvi b) (hdmi14MaxTmdsRateMhz b)
    (areProgressiveLatencyFieldsPresent b) (areInterlacedLatencyFieldsPresent
    b) (progressiveVideoLatencyMs b) (progressiveAudioLatencyMs b)
    (interlacedVideoLatencyMs b) (interlacedAudioLatencyMs b)
    (hdmi20PayloadVersion b) (hdmi20MaxTmdsRateMhz b) (supportsSCDC b)
    (supportsSCDCRR b) v (supports3DIV b) (supports3DDV b) (supports3DOSD b)
    (supportsGameContentType b) (supportsDeepColorY420_48 b)
    (supportsDeepColorY420_36 b) (supportsDeepColorY420_30 b)
    (hdmiForumFeatures b) (hfPayloadVersion b) (maxTMDSCharacterRateMhz b)
    (maxFixedRateLink b) (vrrMinHz b) (vrrMaxHz b) (supportsDolbyVision b)
    (error b).

Definition set_supports3DIV (v : option bool) (b : VendorDataBlock) : VendorDataBlock :=
  mk (dataLength b) (ieeeOui b) (physicalAddress b) (supportsAI b)
    (supportsDeepColor48 b) (supportsDeepColor36 b) (supportsDeepColor30 b)
    (supportsDeepColorY444 b) (supportsDualLinkDvi b) (hdmi14MaxTmdsRateMhz b)
    (areProgressiveLatencyFieldsPresent b) (areInterlacedLatencyFieldsPresent
    b) (progressiveVideoLatencyMs b) (progressiveAudioLatencyMs b)
    (interlacedVideoLatencyMs b) (interlacedAudioLatencyMs b)
    (hdmi20PayloadVersion b) (hdmi20MaxTmdsRateMhz b) (supportsSCDC b)
    (supportsSCDCRR b) (supportsLTE340scramble b) v (supports3DDV b)
    (supports3DOSD b) (supportsGameContentType b) (supportsDeepColorY420_48 b)
    (supportsDeepColorY420_36 b) (supportsDeepColorY420_30 b)
    (hdmiForumFeatures b) (hfPayloadVersion b) (maxTMDSCharacterRateMhz b)
    (maxFixedRateLink b) (vrrMinHz b) (vrrMaxHz b) (supportsDolbyVision b)
    (error b).

Definition set_supports3DDV (v : option bool) (b : VendorDataBlock) : VendorDataBlock :=
  mk (dataLength b) (ieeeOui b) (physicalAddress b) (supportsAI b)
    (supportsDeepColor48 b) (supportsDeepColor36 b) (supportsDeepColor30 b)
    (supportsDeepColorY444 b) (supportsDualLinkDvi b) (hdmi14MaxTmdsRateMhz b)
    (areProgressiveLatencyFieldsPresent b) (areInterlacedLatencyFieldsPresent
    b) (progressiveVideoLatencyMs b) (progressiveAudioLatencyMs b)
    (interlacedVideoLatencyMs b) (interlacedAudioLatencyMs b)
    (hdmi20PayloadVersion b) (hdmi20MaxTmdsRateMhz b) (supportsSCDC b)
    (supportsSCDCRR b) (supportsLTE340scramble b) (supports3DIV b) v
    (supports3DOSD b) (supportsGameContentType b) (supportsDeepColorY420_48 b)
    (supportsDeepColorY420_36 b) (supportsDeepColorY420_30 b)
    (hdmiForumFeatures b) (hfPayloadVersion b) (maxTMDSCharacterRateMhz b)
    (maxFixedRateLink b) (vrrMinHz b) (vrrMaxHz b) (supportsDolbyVision b)
    (error b).

Definition set_supports3DOSD (v : option bool) (b : VendorDataBlock) : VendorDataBlock :=
  mk (dataLength b) (ieeeOui b) (physicalAddress b) (supportsAI b)
    (supportsDeepColor48 b) (supportsDeepColor36 b) (supportsDeepColor30 b)
    (supportsDeepColorY444 b) (supportsDualLinkDvi b) (hdmi14MaxTmdsRateMhz b)
    (areProgressiveLatencyFieldsPresent b) (areInterlacedLatencyFieldsPresent
    b) (progressiveVideoLatencyMs b) (progressiveAudioLatencyMs b)
    (interlacedVideoLatencyMs b) (interlacedAudioLatencyMs b)
    (hdmi20PayloadVersion b) (hdmi20MaxTmdsRateMhz b) (supportsSCDC b)
    (supportsSCDCRR b) (supportsLTE340scramble b) (supports3DIV b)
    (supports3DDV b) v (supportsGameContentType b) (supportsDeepColorY420_48
    b) (supportsDeepColorY420_36 b) (supportsDeepColorY420_30 b)
    (hdmiForumFeatures b) (hfPayloadVersion b) (maxTMDSCharacterRateMhz b)
    (maxFixedRateLink b) (vrrMinHz b) (vrrMaxHz b) (supportsDolbyVision b)
    (error b).

Definition set_supportsGameContentType (v : option bool) (b : VendorDataBlock) : VendorDataBlock :=
  mk (dataLength b) (ieeeOui b) (physicalAddress b) (supportsAI b)
    (supportsDeepColor48 b) (supportsDeepColor36 b) (supportsDeepColor30 b)
    (supportsDeepColorY444 b) (supportsDualLinkDvi b) (hdmi14MaxTmdsRateMhz b)
    (areProgressiveLatencyFieldsPresent b) (areInterlacedLatencyFieldsPresent
    b) (progressiveVideoLatencyMs b) (progressiveAudioLatencyMs b)
    (interlacedVideoLatencyMs b) (interlacedAudioLatencyMs b)
    (hdmi20PayloadVersion b) (hdmi20MaxTmdsRateMhz b) (supportsSCDC b)
    (supportsSCDCRR b) (supportsLTE340scramble b) (supports3DIV b)
    (supports3DDV b) (supports3DOSD b) v (supportsDeepColorY420_48 b)
    (supportsDeepColorY420_36 b) (supportsDeepColorY420_30 b)
    (hdmiForumFeatures b) (hfPayloadVersion b) (maxTMDSCharacterRateMhz b)
    (maxFixedRateLink b) (vrrMinHz b) (vrrMaxHz b) (supportsDolbyVision b)
    (error b).

Definition set_supportsDeepColorY420_48 (v : option bool) (b : VendorDataBlock) : VendorDataBlock :=
  mk (dataLength b) (ieeeOui b) (physicalAddress b) (supportsAI b)
    (supportsDeepColor48 b) (supportsDeepColor36 b) (supportsDeepColor30 b)
    (supportsDeepColorY444 b) (supportsDualLinkDvi b) (hdmi14MaxTmdsRateMhz b)
    (areProgressiveLatencyFieldsPresent b) (areInterlacedLatencyFieldsPresent
    b) (progressiveVideoLatencyMs b) (progressiveAudioLatencyMs b)
    (interlacedVideoLatencyMs b) (interlacedAudioLatencyMs b)
    (hdmi20PayloadVersion b) (hdmi20MaxTmdsRateMhz b) (supportsSCDC b)
    (supportsSCDCRR b) (supportsLTE340scramble b) (supports3DIV b)
    (supports3DDV b) (supports3DOSD b) (supportsGameContentType b) v
    (supportsDeepColorY420_36 b) (supportsDeepColorY420_30 b)
    (hdmiForumFeatures b) (hfPayloadVersion b) (maxTMDSCharacterRateMhz b)
    (maxFixedRateLink b) (vrrMinHz b) (vrrMaxHz b) (supportsDolbyVision b)
    (error b).

Definition set_supportsDeepColorY420_36 (v : option bool) (b : VendorDataBlock) : VendorDataBlock :=
  mk (dataLength b) (ieeeOui b) (physicalAddress b) (supportsAI b)
    (supportsDeepColor48 b) (supportsDeepColor36 b) (supportsDeepColor30 b)
    (supportsDeepColorY444 b) (supportsDualLinkDvi b) (hdmi14MaxTmdsRateMhz b)
    (areProgressiveLatencyFieldsPresent b) (areInterlacedLatencyFieldsPresent
    b) (progressiveVideoLatencyMs b) (progressiveAudioLatencyMs b)
    (interlacedVideoLatencyMs b) (interlacedAudioLatencyMs b)
    (hdmi20PayloadVersion b) (hdmi20MaxTmdsRateMhz b) (supportsSCDC b)
    (supportsSCDCRR b) (supportsLTE340scramble b) (supports3DIV b)
    (supports3DDV b) (supports3DOSD b) (supportsGameContentType b)
    (supportsDeepColorY420_48 b) v (supportsDeepColorY420_30 b)
    (hdmiForumFeatures b) (hfPayloadVersion b) (maxTMDSCharacterRateMhz b)
    (maxFixedRateLink b) (vrrMinHz b) (vrrMaxHz b) (supportsDolbyVision b)
    (error b).

Definition set_supportsDeepColorY420_30 (v : option bool) (b : VendorDataBlock) : VendorDataBlock :=
  mk (dataLength b) (ieeeOui b) (physicalAddress b) (supportsAI b)
    (supportsDeepColor48 b) (supportsDeepColor36 b) (supportsDeepColor30 b)
    (supportsDeepColorY444 b) (supportsDualLinkDvi b) (hdmi14MaxTmdsRateMhz b)
    (areProgressiveLatencyFieldsPresent b) (areInterlacedLatencyFieldsPresent
    b) (progressiveVideoLatencyMs b) (progressiveAudioLatencyMs b)
    (interlacedVideoLatencyMs b) (interlacedAudioLatencyMs b)
    (hdmi20PayloadVersion b) (hdmi20MaxTmdsRateMhz b) (supportsSCDC b)
    (supportsSCDCRR b) (supportsLTE340scramble b) (supports3DIV b)
    (supports3DDV b) (supports3DOSD b) (supportsGameContentType b)
    (supportsDeepColorY420_48 b) (supportsDeepColorY420_36 b) v
    (hdmiForumFeatures b) (hfPayloadVersion b) (maxTMDSCharacterRateMhz b)
    (maxFixedRateLink b) (vrrMinHz b) (vrrMaxHz b) (supportsDolbyVision b)
    (error b).

Definition set_hdmiForumFeatures (v : option Forum.HdmiForumFeatures) (b : VendorDataBlock) : VendorDataBlock :=
  mk (dataLength b) (ieeeOui b) (physicalAddress b) (supportsAI b)
    (supportsDeepColor48 b) (supportsDeepColor36 b) (supportsDeepColor30 b)
    (supportsDeepColorY444 b) (supportsDualLinkDvi b) (hdmi14MaxTmdsRateMhz b)
    (areProgressiveLatencyFieldsPresent b) (areInterlacedLatencyFieldsPresent
    b) (progressiveVideoLatencyMs b) (progressiveAudioLatencyMs b)
    (interlacedVideoLatencyMs b) (interlacedAudioLatencyMs b)
    (hdmi20PayloadVersion b) (hdmi20MaxTmdsRateMhz b) (supportsSCDC b)
    (supportsSCDCRR b) (supportsLTE340scramble b) (supports3DIV b)
    (supports3DDV b) (supports3DOSD b) (supportsGameContentType b)
    (supportsDeepColorY420_48 b) (supportsDeepColorY420_36 b)
    (supportsDeepColorY420_30 b) v (hfPayloadVersion b)
    (maxTMDSCharacterRateMhz b) (maxFixedRateLink b) (vrrMinHz b) (vrrMaxHz b)
    (supportsDolbyVision b) (error b).

Definition set_hfPayloadVersion (v : option JS.number) (b : VendorDataBlock) : VendorDataBlock :=
  mk (dataLength b) (ieeeOui b) (physicalAddress b) (supportsAI b)
    (supportsDeepColor48 b) (supportsDeepColor36 b) (supportsDeepColor30 b)
    (supportsDeepColorY444 b) (supportsDualLinkDvi b) (hdmi14MaxTmdsRateMhz b)
    (areProgressiveLatencyFieldsPresent b) (areInterlacedLatencyFieldsPresent
    b) (progressiveVideoLatencyMs b) (progressiveAudioLatencyMs b)
    (interlacedVideoLatencyMs b) (interlacedAudioLatencyMs b)
    (hdmi20PayloadVersion b) (hdmi20MaxTmdsRateMhz b) (supportsSCDC b)
    (supportsSCDCRR b) (supportsLTE340scramble b) (supports3DIV b)
    (supports3DDV b) (supports3DOSD b) (supportsGameContentType b)
    (supportsDeepColorY420_48 b) (supportsDeepColorY420_36 b)
    (supportsDeepColorY420_30 b) (hdmiForumFeatures b) v
    (maxTMDSCharacterRateMhz b) (maxFixedRateLink b) (vrrMinHz b) (vrrMaxHz b)
    (supportsDolbyVision b) (error b).

Definition set_maxTMDSCharacterRateMhz (v : option JS.number) (b : VendorDataBlock) : VendorDataBlock :=
  mk (dataLength b) (ieeeOui b) (physicalAddress b) (supportsAI b)
    (supportsDeepColor48 b) (supportsDeepColor36 b) (supportsDeepColor30 b)
    (supportsDeepColorY444 b) (supportsDualLinkDvi b) (hdmi14MaxTmdsRateMhz b)
    (areProgressiveLatencyFieldsPresent b) (areInterlacedLatencyFieldsPresent
    b) (progressiveVideoLatencyMs b) (progressiveAudioLatencyMs b)
    (interlacedVideoLatencyMs b) (interlacedAudioLatencyMs b)
    (hdmi20PayloadVersion b) (hdmi20MaxTmdsRateMhz b) (supportsSCDC b)
    (supportsSCDCRR b) (supportsLTE340scramble b) (supports3DIV b)
    (supports3DDV b) (supports3DOSD b) (supportsGameContentType b)
    (supportsDeepColorY420_48 b) (supportsDeepColorY420_36 b)
    (supportsDeepColorY420_30 b) (hdmiForumFeatures b) (hfPayloadVersion b) v
    (maxFixedRateLink b) (vrrMinHz b) (vrrMaxHz b) (supportsDolbyVision b)
    (error b).

Definition set_maxFixedRateLink (v : option string) (b : VendorDataBlock) : VendorDataBlock :=
  mk (dataLength b) (ieeeOui b) (physicalAddress b) (supportsAI b)
    (supportsDeepColor48 b) (supportsDeepColor36 b) (supportsDeepColor30 b)
    (supportsDeepColorY444 b) (supportsDualLinkDvi b) (hdmi14MaxTmdsRateMhz b)
    (areProgressiveLatencyFieldsPresent b) (areInterlacedLatencyFieldsPresent
    b) (progressiveVideoLatencyMs b) (progressiveAudioLatencyMs b)
    (interlacedVideoLatencyMs b) (interlacedAudioLatencyMs b)
    (hdmi20PayloadVersion b) (hdmi20MaxTmdsRateMhz b) (supportsSCDC b)
    (supportsSCDCRR b) (supportsLTE340scramble b) (supports3DIV b)
    (supports3DDV b) (supports3DOSD b) (supportsGameContentType b)
    (supportsDeepColorY420_48 b) (supportsDeepColorY420_36 b)
    (supportsDeepColorY420_30 b) (hdmiForumFeatures b) (hfPayloadVersion b)
    (maxTMDSCharacterRateMhz b) v (vrrMinHz b) (vrrMaxHz b)
    (supportsDolbyVision b) (error b).

Definition set_vrrMinHz (v : option Z) (b : VendorDataBlock) : VendorDataBlock :=
  mk (dataLength b) (ieeeOui b) (physicalAddress b) (supportsAI b)
    (supportsDeepColor48 b) (supportsDeepColor36 b) (supportsDeepColor30 b)
    (supportsDeepColorY444 b) (supportsDualLinkDvi b) (hdmi14MaxTmdsRateMhz b)
    (areProgressiveLatencyFieldsPresent b) (areInterlacedLatencyFieldsPresent
    b) (progressiveVideoLatencyMs b) (progressiveAudioLatencyMs b)
    (interlacedVideoLatencyMs b) (interlacedAudioLatencyMs b)
    (hdmi20PayloadVersion b) (hdmi20MaxTmdsRateMhz b) (supportsSCDC b)
    (supportsSCDCRR b) (supportsLTE340scramble b) (supports3DIV b)
    (supports3DDV b) (supports3DOSD b) (supportsGameContentType b)
    (supportsDeepColorY420_48 b) (supportsDeepColorY420_36 b)
    (supportsDeepColorY420_30 b) (hdmiForumFeatures b) (hfPayloadVersion b)
    (maxTMDSCharacterRateMhz b) (maxFixedRateLink b) v (vrrMaxHz b)
    (supportsDolbyVision b) (error b).

Definition set_vrrMaxHz (v : option Z) (b : VendorDataBlock) : VendorDataBlock :=
  mk (dataLength b) (ieeeOui b) (physicalAddress b) (supportsAI b)
    (supportsDeepColor48 b) (supportsDeepColor36 b) (supportsDeepColor30 b)
    (supportsDeepColorY444 b) (supportsDualLinkDvi b) (hdmi14MaxTmdsRateMhz b)
    (areProgressiveLatencyFieldsPresent b) (areInterlacedLatencyFieldsPresent
    b) (progressiveVideoLatencyMs b) (progressiveAudioLatencyMs b)
    (interlacedVideoLatencyMs b) (interlacedAudioLatencyMs b)
    (hdmi20PayloadVersion b) (hdmi20MaxTmdsRateMhz b) (supportsSCDC b)
    (supportsSCDCRR b) (supportsLTE340scramble b) (supports3DIV b)
    (supports3DDV b) (supports3DOSD b) (supportsGameContentType b)
    (supportsDeepColorY420_48 b) (supportsDeepColorY420_36 b)
    (supportsDeepColorY420_30 b) (hdmiForumFeatures b) (hfPayloadVersion b)
    (maxTMDSCharacterRateMhz b) (maxFixedRateLink b) (vrrMinHz b) v
    (supportsDolbyVision b) (error b).

Definition set_supportsDolbyVision (v : option bool) (b : VendorDataBlock) : VendorDataBlock :=
  mk (dataLength b) (ieeeOui b) (physicalAddress b) (supportsAI b)
    (supportsDeepColor48 b) (supportsDeepColor36 b) (supportsDeepColor30 b)
    (supportsDeepColorY444 b) (supportsDualLinkDvi b) (hdmi14MaxTmdsRateMhz b)
    (areProgressiveLatencyFieldsPresent b) (areInterlacedLatencyFieldsPresent
    b) (progressiveVideoLatencyMs b) (progressiveAudioLatencyMs b)
    (interlacedVideoLatencyMs b) (interlacedAudioLatencyMs b)
    (hdmi20PayloadVersion b) (hdmi20MaxTmdsRateMhz b) (supportsSCDC b)
    (supportsSCDCRR b) (supportsLTE340scramble b) (supports3DIV b)
    (supports3DDV b) (supports3DOSD b) (supportsGameContentType b)
    (supportsDeepColorY420_48 b) (supportsDeepColorY420_36 b)
    (supportsDeepColorY420_30 b) (hdmiForumFeatures b) (hfPayloadVersion b)
    (maxTMDSCharacterRateMhz b) (maxFixedRateLink b) (vrrMinHz b) (vrrMaxHz b)
    v (error b).

Definition set_error (v : option string) (b : VendorDataBlock) : VendorDataBlock :=
  mk (dataLength b) (ieeeOui b) (physicalAddress b) (supportsAI b)
    (supportsDeepColor48 b) (supportsDeepColor36 b) (supportsDeepColor30 b)
    (supportsDeepColorY444 b) (supportsDualLinkDvi b) (hdmi14MaxTmdsRateMhz b)
    (areProgressiveLatencyFieldsPresent b) (areInterlacedLatencyFieldsPresent
    b) (progressiveVideoLatencyMs b) (progressiveAudioLatencyMs b)
    (interlacedVideoLatencyMs b) (interlacedAudioLatencyMs b)
    (hdmi20PayloadVersion b) (hdmi20MaxTmdsRateMhz b) (supportsSCDC b)
    (supportsSCDCRR b) (supportsLTE340scramble b) (supports3DIV b)
    (supports3DDV b) (supports3DOSD b) (supportsGameContentType b)
    (supportsDeepColorY420_48 b) (supportsDeepColorY420_36 b)
    (supportsDeepColorY420_30 b) (hdmiForumFeatures b) (hfPayloadVersion b)
    (maxTMDSCharacterRateMhz b) (maxFixedRateLink b) (vrrMinHz b) (vrrMaxHz b)
    (supportsDolbyVision b) v.

End Vendor.

(** [ExtendedTagDataBlock]: a superset of the fields of the extended-tag payloads. *)
Module ExtTag.

Record ExtendedTagDataBlock : Type := mk {
  dataLength : Z;
  extendedTag : option ExtendedTag;
  error : option string;
  supportsQuantizationRangeYCC : option bool;
  supportsQuantizationRangeRGB : option bool;
  overscanPT : option string;
  overscanIT : option string;
  overscanCE : option string;
  supportsQMS : option bool;
  supportsVRR : option bool;
  supportsCinemaVRR : option bool;
  supportsNegativeMRR : option bool;
  supportsFVA : option bool;
  supportsALLM : option bool;
  supportsBT2020RGB : option bool;
  supportsBT2020YCC : option bool;
  supportsBT2020cYCC : option bool;
  supportsAdobeRGB : option bool;
  supportsAdobeYCC601 : option bool;
  supportssYCC601 : option bool;
  supportsxvYCC709 : option bool;
  supportsxvYCC601 : option bool;
  gamutMD3 : option Z;
  gamutMD2 : option Z;
  gamutMD1 : option Z;
  gamutMD0 : option Z;
  supportsICtCp : option bool;
  supportsST2094_40 : option bool;
  supportsST2094_10 : option bool;
  supportsBT2100ICtCp : option bool;
  vendorSpecificVideoOui : option Z;
  supportsHDR10 : option bool;
  supportsHDR10Plus : option bool;
  supportsDolbyVision : option bool;
  YCbCr420OnlyShortVideoDescriptors : option (list ShortVideoDescriptor);
  YCbCr420CapableShortVideoDescriptors : option (list (option ShortVideoDescriptor));
  supportedEOTFs : option (list EotfLabel);
  supportedStaticMetadataDescriptors : option (list StaticMetaDescLabel);
  desiredContentMaxLuminanceCode : option Z;
  desiredContentMaxFrameAverageLuminanceCode : option Z;
  desiredContentMinLuminanceCode : option Z;
  supportedDynamicMetadataTypes : option (list DynamicMetadataLabel);
  dynamicHdrMetadataTypeId : option Z;
  dynamicHdrMetadataVersionNumber : option Z;
  videoFormatPreferences : option (list VideoFormatPreference);
  speakerCount : option Z;
  roomTypeCode : option Z;
  roomTypeString : option string;
  hdmiForumFeatures : option Forum.HdmiForumFeatures;
  hfSCDBVersion : option JS.number;
  maxTMDSCharacterRateMhz : option JS.number;
  maxFixedRateLink : option string;
  vrrMinHz : option Z;
  vrrMaxHz : option Z
}.

(** The object literal the parser starts from. *)
Definition empty (dataLength : Z) : ExtendedTagDataBlock :=
  {|
    dataLength := dataLength;
    extendedTag := None;
    error := None;
    supportsQuantizationRangeYCC := None;
    supportsQuantizationRangeRGB := None;
    overscanPT := None;
    overscanIT := None;
    overscanCE := None;
    supportsQMS := None;
    supportsVRR := None;
    supportsCinemaVRR := None;
    supportsNegativeMRR := None;
    supportsFVA := None;
    supportsALLM := None;
    supportsBT2020RGB := None;
    supportsBT2020YCC := None;
    supportsBT2020cYCC := None;
    supportsAdobeRGB := None;
    supportsAdobeYCC601 := None;
    supportssYCC601 := None;
    supportsxvYCC709 := None;
    supportsxvYCC601 := None;
    gamutMD3 := None;
    gamutMD2 := None;
    gamutMD1 := None;
    gamutMD0 := None;
    supportsICtCp := None;
    supportsST2094_40 := None;
    supportsST2094_10 := None;
    supportsBT2100ICtCp := None;
    vendorSpecificVideoOui := None;
    supportsHDR10 := None;
    supportsHDR10Plus := None;
    supportsDolbyVision := None;
    YCbCr420OnlyShortVideoDescriptors := None;
    YCbCr420CapableShortVideoDescriptors := None;
    supportedEOTFs := None;
    supportedStaticMetadataDescriptors := None;
    desiredContentMaxLuminanceCode := None;
    desiredContentMaxFrameAverageLuminanceCode := None;
    desiredContentMinLuminanceCode := None;
    supportedDynamicMetadataTypes := None;
    dynamicHdrMetadataTypeId := None;
    dynamicHdrMetadataVersionNumber := None;
    videoFormatPreferences := None;
    speakerCount := None;
    roomTypeCode := None;
    roomTypeString := None;
    hdmiForumFeatures := None;
    hfSCDBVersion := None;
    maxTMDSCharacterRateMhz := None;
    maxFixedRateLink := None;
    vrrMinHz := None;
    vrrMaxHz := None
  |}.

Definition set_dataLength (v : Z) (b : ExtendedTagDataBlock) : ExtendedTagDataBlock :=
  mk v (extendedTag b) (error b) (supportsQuantizationRangeYCC b)
    (supportsQuantizationRangeRGB b) (overscanPT b) (overscanIT b) (overscanCE
    b) (supportsQMS b) (supportsVRR b) (supportsCinemaVRR b)
    (supportsNegativeMRR b) (supportsFVA b) (supportsALLM b)
    (supportsBT2020RGB b) (supportsBT2020YCC b) (supportsBT2020cYCC b)
    (supportsAdobeRGB b) (supportsAdobeYCC601 b) (supportssYCC601 b)
    (supportsxvYCC709 b) (supportsxvYCC601 b) (gamutMD3 b) (gamutMD2 b)
    (gamutMD1 b) (gamutMD0 b) (supportsICtCp b) (supportsST2094_40 b)
    (supportsST2094_10 b) (supportsBT2100ICtCp b) (vendorSpecificVideoOui b)
    (supportsHDR10 b) (supportsHDR10Plus b) (supportsDolbyVision b)
    (YCbCr420OnlyShortVideoDescriptors b)
    (YCbCr420CapableShortVideoDescriptors b) (supportedEOTFs b)
    (supportedStaticMetadataDescriptors b) (desiredContentMaxLuminanceCode b)
    (desiredContentMaxFrameAverageLuminanceCode b)
    (desiredContentMinLuminanceCode b) (supportedDynamicMetadataTypes b)
    (dynamicHdrMetadataTypeId b) (dynamicHdrMetadataVersionNumber b)
    (videoFormatPreferences b) (speakerCount b) (roomTypeCode b)
    (roomTypeString b) (hdmiForumFeatures b) (hfSCDBVersion b)
    (maxTMDSCharacterRateMhz b) (maxFixedRateLink b) (vrrMinHz b) (vrrMaxHz b).

Definition set_extendedTag (v : option ExtendedTag) (b : ExtendedTagDataBlock) : ExtendedTagDataBlock :=
  mk (dataLength b) v (error b) (supportsQuantizationRangeYCC b)
    (supportsQuantizationRangeRGB b) (overscanPT b) (overscanIT b) (overscanCE
    b) (supportsQMS b) (supportsVRR b) (supportsCinemaVRR b)
    (supportsNegativeMRR b) (supportsFVA b) (supportsALLM b)
    (supportsBT2020RGB b) (supportsBT2020YCC b) (supportsBT2020cYCC b)
    (supportsAdobeRGB b) (supportsAdobeYCC601 b) (supportssYCC601 b)
    (supportsxvYCC709 b) (supportsxvYCC601 b) (gamutMD3 b) (gamutMD2 b)
    (gamutMD1 b) (gamutMD0 b) (supportsICtCp b) (supportsST2094_40 b)
    (supportsST2094_10 b) (supportsBT2100ICtCp b) (vendorSpecificVideoOui b)
    (supportsHDR10 b) (supportsHDR10Plus b) (supportsDolbyVision b)
    (YCbCr420OnlyShortVideoDescriptors b)
    (YCbCr420CapableShortVideoDescriptors b) (supportedEOTFs b)
    (supportedStaticMetadataDescriptors b) (desiredContentMaxLuminanceCode b)
    (desiredContentMaxFrameAverageLuminanceCode b)
    (desiredContentMinLuminanceCode b) (supportedDynamicMetadataTypes b)
    (dynamicHdrMetadataTypeId b) (dynamicHdrMetadataVersionNumber b)
    (videoFormatPreferences b) (speakerCount b) (roomTypeCode b)
    (roomTypeString b) (hdmiForumFeatures b) (hfSCDBVersion b)
    (maxTMDSCharacterRateMhz b) (maxFixedRateLink b) (vrrMinHz b) (vrrMaxHz b).

Definition set_error (v : option string) (b : ExtendedTagDataBlock) : ExtendedTagDataBlock :=
  mk (dataLength b) (extendedTag b) v (supportsQuantizationRangeYCC b)
    (supportsQuantizationRangeRGB b) (overscanPT b) (overscanIT b) (overscanCE
    b) (supportsQMS b) (supportsVRR b) (supportsCinemaVRR b)
    (supportsNegativeMRR b) (supportsFVA b) (supportsALLM b)
    (supportsBT2020RGB b) (supportsBT2020YCC b) (supportsBT2020cYCC b)
    (supportsAdobeRGB b) (supportsAdobeYCC601 b) (supportssYCC601 b)
    (supportsxvYCC709 b) (supportsxvYCC601 b) (gamutMD3 b) (gamutMD2 b)
    (gamutMD1 b) (gamutMD0 b) (supportsICtCp b) (supportsST2094_40 b)
    (supportsST2094_10 b) (supportsBT2100ICtCp b) (vendorSpecificVideoOui b)
    (supportsHDR10 b) (supportsHDR10Plus b) (supportsDolbyVision b)
    (YCbCr420OnlyShortVideoDescriptors b)
    (YCbCr420CapableShortVideoDescriptors b) (supportedEOTFs b)
    (supportedStaticMetadataDescriptors b) (desiredContentMaxLuminanceCode b)
    (desiredContentMaxFrameAverageLuminanceCode b)
    (desiredContentMinLuminanceCode b) (supportedDynamicMetadataTypes b)
    (dynamicHdrMetadataTypeId b) (dynamicHdrMetadataVersionNumber b)
    (videoFormatPreferences b) (speakerCount b) (roomTypeCode b)
    (roomTypeString b) (hdmiForumFeatures b) (hfSCDBVersion b)
    (maxTMDSCharacterRateMhz b) (maxFixedRateLink b) (vrrMinHz b) (vrrMaxHz b).

Definition set_supportsQuantizationRangeYCC (v : option bool) (b : ExtendedTagDataBlock) : ExtendedTagDataBlock :=
  mk (dataLength b) (extendedTag b) (error b) v (supportsQuantizationRangeRGB
    b) (overscanPT b) (overscanIT b) (overscanCE b) (supportsQMS b)
    (supportsVRR b) (supportsCinemaVRR b) (supportsNegativeMRR b) (supportsFVA
    b) (supportsALLM b) (supportsBT2020RGB b) (supportsBT2020YCC b)
    (supportsBT2020cYCC b) (supportsAdobeRGB b) (supportsAdobeYCC601 b)
    (supportssYCC601 b) (supportsxvYCC709 b) (supportsxvYCC601 b) (gamutMD3 b)
    (gamutMD2 b) (gamutMD1 b) (gamutMD0 b) (supportsICtCp b)
    (supportsST2094_40 b) (supportsST2094_10 b) (supportsBT2100ICtCp b)
    (vendorSpecificVideoOui b) (supportsHDR10 b) (supportsHDR10Plus b)
    (supportsDolbyVision b) (YCbCr420OnlyShortVideoDescriptors b)
    (YCbCr420CapableShortVideoDescriptors b) (supportedEOTFs b)
    (supportedStaticMetadataDescriptors b) (desiredContentMaxLuminanceCode b)
    (desiredContentMaxFrameAverageLuminanceCode b)
    (desiredContentMinLuminanceCode b) (supportedDynamicMetadataTypes b)
    (dynamicHdrMetadataTypeId b) (dynamicHdrMetadataVersionNumber b)
    (videoFormatPreferences b) (speakerCount b) (roomTypeCode b)
    (roomTypeString b) (hdmiForumFeatures b) (hfSCDBVersion b)
    (maxTMDSCharacterRateMhz b) (maxFixedRateLink b) (vrrMinHz b) (vrrMaxHz b).

Definition set_supportsQuantizationRangeRGB (v : option bool) (b : ExtendedTagDataBlock) : ExtendedTagDataBlock :=
  mk (dataLength b) (extendedTag b) (error b) (supportsQuantizationRangeYCC b)
    v (overscanPT b) (overscanIT b) (overscanCE b) (supportsQMS b)
    (supportsVRR b) (supportsCinemaVRR b) (supportsNegativeMRR b) (supportsFVA
    b) (supportsALLM b) (supportsBT2020RGB b) (supportsBT2020YCC b)
    (supportsBT2020cYCC b) (supportsAdobeRGB b) (supportsAdobeYCC601 b)
    (supportssYCC601 b) (supportsxvYCC709 b) (supportsxvYCC601 b) (gamutMD3 b)
    (gamutMD2 b) (gamutMD1 b) (gamutMD0 b) (supportsICtCp b)
    (supportsST2094_40 b) (supportsST2094_10 b) (supportsBT2100ICtCp b)
    (vendorSpecificVideoOui b) (supportsHDR10 b) (supportsHDR10Plus b)
    (supportsDolbyVision b) (YCbCr420OnlyShortVideoDescriptors b)
    (YCbCr420CapableShortVideoDescriptors b) (supportedEOTFs b)
    (supportedStaticMetadataDescriptors b) (desiredContentMaxLuminanceCode b)
    (desiredContentMaxFrameAverageLuminanceCode b)
    (desiredContentMinLuminanceCode b) (supportedDynamicMetadataTypes b)
    (dynamicHdrMetadataTypeId b) (dynamicHdrMetadataVersionNumber b)
    (videoFormatPreferences b) (speakerCount b) (roomTypeCode b)
    (roomTypeString b) (hdmiForumFeatures b) (hfSCDBVersion b)
    (maxTMDSCharacterRateMhz b) (maxFixedRateLink b) (vrrMinHz b) (vrrMaxHz b).

Definition set_overscanPT (v : option string) (b : ExtendedTagDataBlock) : ExtendedTagDataBlock :=
  mk (dataLength b) (extendedTag b) (error b) (supportsQuantizationRangeYCC b)
    (supportsQuantizationRangeRGB b) v (overscanIT b) (overscanCE b)
    (supportsQMS b) (supportsVRR b) (supportsCinemaVRR b) (supportsNegativeMRR
    b) (supportsFVA b) (supportsALLM b) (supportsBT2020RGB b)
    (supportsBT2020YCC b) (supportsBT2020cYCC b) (supportsAdobeRGB b)
    (supportsAdobeYCC601 b) (supportssYCC601 b) (supportsxvYCC709 b)
    (supportsxvYCC601 b) (gamutMD3 b) (gamutMD2 b) (gamutMD1 b) (gamutMD0 b)
    (supportsICtCp b) (supportsST2094_40 b) (supportsST2094_10 b)
    (supportsBT2100ICtCp b) (vendorSpecificVideoOui b) (supportsHDR10 b)
    (supportsHDR10Plus b) (supportsDolbyVision b)
    (YCbCr420OnlyShortVideoDescriptors b)
    (YCbCr420CapableShortVideoDescriptors b) (supportedEOTFs b)
    (supportedStaticMetadataDescriptors b) (desiredContentMaxLuminanceCode b)
    (desiredContentMaxFrameAverageLuminanceCode b)
    (desiredContentMinLuminanceCode b) (supportedDynamicMetadataTypes b)
    (dynamicHdrMetadataTypeId b) (dynamicHdrMetadataVersionNumber b)
    (videoFormatPreferences b) (speakerCount b) (roomTypeCode b)
    (roomTypeString b) (hdmiForumFeatures b) (hfSCDBVersion b)
    (maxTMDSCharacterRateMhz b) (maxFixedRateLink b) (vrrMinHz b) (vrrMaxHz b).

Definition set_overscanIT (v : option string) (b : ExtendedTagDataBlock) : ExtendedTagDataBlock :=
  mk (dataLength b) (extendedTag b) (error b) (supportsQuantizationRangeYCC b)
    (supportsQuantizationRangeRGB b) (overscanPT b) v (overscanCE b)
    (supportsQMS b) (supportsVRR b) (supportsCinemaVRR b) (supportsNegativeMRR
    b) (supportsFVA b) (supportsALLM b) (supportsBT2020RGB b)
    (supportsBT2020YCC b) (supportsBT2020cYCC b) (supportsAdobeRGB b)
    (supportsAdobeYCC601 b) (supportssYCC601 b) (supportsxvYCC709 b)
    (supportsxvYCC601 b) (gamutMD3 b) (gamutMD2 b) (gamutMD1 b) (gamutMD0 b)
    (supportsICtCp b) (supportsST2094_40 b) (supportsST2094_10 b)
    (supportsBT2100ICtCp b) (vendorSpecificVideoOui b) (supportsHDR10 b)
    (supportsHDR10Plus b) (supportsDolbyVision b)
    (YCbCr420OnlyShortVideoDescriptors b)
    (YCbCr420CapableShortVideoDescriptors b) (supportedEOTFs b)
    (supportedStaticMetadataDescriptors b) (desiredContentMaxLuminanceCode b)
    (desiredContentMaxFrameAverageLuminanceCode b)
    (desiredContentMinLuminanceCode b) (supportedDynamicMetadataTypes b)
    (dynamicHdrMetadataTypeId b) (dynamicHdrMetadataVersionNumber b)
    (videoFormatPreferences b) (speakerCount b) (roomTypeCode b)
    (roomTypeString b) (hdmiForumFeatures b) (hfSCDBVersion b)
    (maxTMDSCharacterRateMhz b) (maxFixedRateLink b) (vrrMinHz b) (vrrMaxHz b).

Definition set_overscanCE (v : option string) (b : ExtendedTagDataBlock) : ExtendedTagDataBlock :=
  mk (dataLength b) (extendedTag b) (error b) (supportsQuantizationRangeYCC b)
    (supportsQuantizationRangeRGB b) (overscanPT b) (overscanIT b) v
    (supportsQMS b) (supportsVRR b) (supportsCinemaVRR b) (supportsNegativeMRR
    b) (supportsFVA b) (supportsALLM b) (supportsBT2020RGB b)
    (supportsBT2020YCC b) (supportsBT2020cYCC b) (supportsAdobeRGB b)
    (supportsAdobeYCC601 b) (supportssYCC601 b) (supportsxvYCC709 b)
    (supportsxvYCC601 b) (gamutMD3 b) (gamutMD2 b) (gamutMD1 b) (gamutMD0 b)
    (supportsICtCp b) (supportsST2094_40 b) (supportsST2094_10 b)
    (supportsBT2100ICtCp b) (vendorSpecificVideoOui b) (supportsHDR10 b)
    (supportsHDR10Plus b) (supportsDolbyVision b)
    (YCbCr420OnlyShortVideoDescriptors b)
    (YCbCr420CapableShortVideoDescriptors b) (supportedEOTFs b)
    (supportedStaticMetadataDescriptors b) (desiredContentMaxLuminanceCode b)
    (desiredContentMaxFrameAverageLuminanceCode b)
    (desiredContentMinLuminanceCode b) (supportedDynamicMetadataTypes b)
    (dynamicHdrMetadataTypeId b) (dynamicHdrMetadataVersionNumber b)
    (videoFormatPreferences b) (speakerCount b) (roomTypeCode b)
    (roomTypeString b) (hdmiForumFeatures b) (hfSCDBVersion b)
    (maxTMDSCharacterRateMhz b) (maxFixedRateLink b) (vrrMinHz b) (vrrMaxHz b).

Definition set_supportsQMS (v : option bool) (b : ExtendedTagDataBlock) : ExtendedTagDataBlock :=
  mk (dataLength b) (extendedTag b) (error b) (supportsQuantizationRangeYCC b)
    (supportsQuantizationRangeRGB b) (overscanPT b) (overscanIT b) (overscanCE
    b) v (supportsVRR b) (supportsCinemaVRR b) (supportsNegativeMRR b)
    (supportsFVA b) (supportsALLM b) (supportsBT2020RGB b) (supportsBT2020YCC
    b) (supportsBT2020cYCC b) (supportsAdobeRGB b) (supportsAdobeYCC601 b)
    (supportssYCC601 b) (supportsxvYCC709 b) (supportsxvYCC601 b) (gamutMD3 b)
    (gamutMD2 b) (gamutMD1 b) (gamutMD0 b) (supportsICtCp b)
    (supportsST2094_40 b) (supportsST2094_10 b) (supportsBT2100ICtCp b)
    (vendorSpecificVideoOui b) (supportsHDR10 b) (supportsHDR10Plus b)
    (supportsDolbyVision b) (YCbCr420OnlyShortVideoDescriptors b)
    (YCbCr420CapableShortVideoDescriptors b) (supportedEOTFs b)
    (supportedStaticMetadataDescriptors b) (desiredContentMaxLuminanceCode b)
    (desiredContentMaxFrameAverageLuminanceCode b)
    (desiredContentMinLuminanceCode b) (supportedDynamicMetadataTypes b)
    (dynamicHdrMetadataTypeId b) (dynamicHdrMetadataVersionNumber b)
    (videoFormatPreferences b) (speakerCount b) (roomTypeCode b)
    (roomTypeString b) (hdmiForumFeatures b) (hfSCDBVersion b)
    (maxTMDSCharacterRateMhz b) (maxFixedRateLink b) (vrrMinHz b) (vrrMaxHz b).

Definition set_supportsVRR (v : option bool) (b : ExtendedTagDataBlock) : ExtendedTagDataBlock :=
  mk (dataLength b) (extendedTag b) (error b) (supportsQuantizationRangeYCC b)
    (supportsQuantizationRangeRGB b) (overscanPT b) (overscanIT b) (overscanCE
    b) (supportsQMS b) v (supportsCinemaVRR b) (supportsNegativeMRR b)
    (supportsFVA b) (supportsALLM b) (supportsBT2020RGB b) (supportsBT2020YCC
    b) (supportsBT2020cYCC b) (supportsAdobeRGB b) (supportsAdobeYCC601 b)
    (supportssYCC601 b) (supportsxvYCC709 b) (supportsxvYCC601 b) (gamutMD3 b)
    (gamutMD2 b) (gamutMD1 b) (gamutMD0 b) (supportsICtCp b)
    (supportsST2094_40 b) (supportsST2094_10 b) (supportsBT2100ICtCp b)
    (vendorSpecificVideoOui b) (supportsHDR10 b) (supportsHDR10Plus b)
    (supportsDolbyVision b) (YCbCr420OnlyShortVideoDescriptors b)
    (YCbCr420CapableShortVideoDescriptors b) (supportedEOTFs b)
    (supportedStaticMetadataDescriptors b) (desiredContentMaxLuminanceCode b)
    (desiredContentMaxFrameAverageLuminanceCode b)
    (desiredContentMinLuminanceCode b) (supportedDynamicMetadataTypes b)
    (dynamicHdrMetadataTypeId b) (dynamicHdrMetadataVersionNumber b)
    (videoFormatPreferences b) (speakerCount b) (roomTypeCode b)
    (roomTypeString b) (hdmiForumFeatures b) (hfSCDBVersion b)
    (maxTMDSCharacterRateMhz b) (maxFixedRateLink b) (vrrMinHz b) (vrrMaxHz b).

Definition set_supportsCinemaVRR (v : option bool) (b : ExtendedTagDataBlock) : ExtendedTagDataBlock :=
  mk (dataLength b) (extendedTag b) (error b) (supportsQuantizationRangeYCC b)
    (supportsQuantizationRangeRGB b) (overscanPT b) (overscanIT b) (overscanCE
    b) (supportsQMS b) (supportsVRR b) v (supportsNegativeMRR b) (supportsFVA
    b) (supportsALLM b) (supportsBT2020RGB b) (supportsBT2020YCC b)
    (supportsBT2020cYCC b) (supportsAdobeRGB b) (supportsAdobeYCC601 b)
    (supportssYCC601 b) (supportsxvYCC709 b) (supportsxvYCC601 b) (gamutMD3 b)
    (gamutMD2 b) (gamutMD1 b) (gamutMD0 b) (supportsICtCp b)
    (supportsST2094_40 b) (supportsST2094_10 b) (supportsBT2100ICtCp b)
    (vendorSpecificVideoOui b) (supportsHDR10 b) (supportsHDR10Plus b)
    (supportsDolbyVision b) (YCbCr420OnlyShortVideoDescriptors b)
    (YCbCr420CapableShortVideoDescriptors b) (supportedEOTFs b)
    (supportedStaticMetadataDescriptors b) (desiredContentMaxLuminanceCode b)
    (desiredContentMaxFrameAverageLuminanceCode b)
    (desiredContentMinLuminanceCode b) (supportedDynamicMetadataTypes b)
    (dynamicHdrMetadataTypeId b) (dynamicHdrMetadataVersionNumber b)
    (videoFormatPreferences b) (speakerCount b) (roomTypeCode b)
    (roomTypeString b) (hdmiForumFeatures b) (hfSCDBVersion b)
    (maxTMDSCharacterRateMhz b) (maxFixedRateLink b) (vrrMinHz b) (vrrMaxHz b).

Definition set_supportsNegativeMRR (v : option bool) (b : ExtendedTagDataBlock) : ExtendedTagDataBlock :=
  mk (dataLength b) (extendedTag b) (error b) (supportsQuantizationRangeYCC b)
    (supportsQuantizationRangeRGB b) (overscanPT b) (overscanIT b) (overscanCE
    b) (supportsQMS b) (supportsVRR b) (supportsCinemaVRR b) v (supportsFVA b)
    (supportsALLM b) (supportsBT2020RGB b) (supportsBT2020YCC b)
    (supportsBT2020cYCC b) (supportsAdobeRGB b) (supportsAdobeYCC601 b)
    (supportssYCC601 b) (supportsxvYCC709 b) (supportsxvYCC601 b) (gamutMD3 b)
    (gamutMD2 b) (gamutMD1 b) (gamutMD0 b) (supportsICtCp b)
    (supportsST2094_40 b) (supportsST2094_10 b) (supportsBT2100ICtCp b)
    (vendorSpecificVideoOui b) (supportsHDR10 b) (supportsHDR10Plus b)
    (supportsDolbyVision b) (YCbCr420OnlyShortVideoDescriptors b)
    (YCbCr420CapableShortVideoDescriptors b) (supportedEOTFs b)
    (supportedStaticMetadataDescriptors b) (desiredContentMaxLuminanceCode b)
    (desiredContentMaxFrameAverageLuminanceCode b)
    (desiredContentMinLuminanceCode b) (supportedDynamicMetadataTypes b)
    (dynamicHdrMetadataTypeId b) (dynamicHdrMetadataVersionNumber b)
    (videoFormatPreferences b) (speakerCount b) (roomTypeCode b)
    (roomTypeString b) (hdmiForumFeatures b) (hfSCDBVersion b)
    (maxTMDSCharacterRateMhz b) (maxFixedRateLink b) (vrrMinHz b) (vrrMaxHz b).

Definition set_supportsFVA (v : option bool) (b : ExtendedTagDataBlock) : ExtendedTagDataBlock :=
  mk (dataLength b) (extendedTag b) (error b) (supportsQuantizationRangeYCC b)
    (supportsQuantizationRangeRGB b) (overscanPT b) (overscanIT b) (overscanCE
    b) (supportsQMS b) (supportsVRR b) (supportsCinemaVRR b)
    (supportsNegativeMRR b) v (supportsALLM b) (supportsBT2020RGB b)
    (supportsBT2020YCC b) (supportsBT2020cYCC b) (supportsAdobeRGB b)
    (supportsAdobeYCC601 b) (supportssYCC601 b) (supportsxvYCC709 b)
    (supportsxvYCC601 b) (gamutMD3 b) (gamutMD2 b) (gamutMD1 b) (gamutMD0 b)
    (supportsICtCp b) (supportsST2094_40 b) (supportsST2094_10 b)
    (supportsBT2100ICtCp b) (vendorSpecificVideoOui b) (supportsHDR10 b)
    (supportsHDR10Plus b) (supportsDolbyVision b)
    (YCbCr420OnlyShortVideoDescriptors b)
    (YCbCr420CapableShortVideoDescriptors b) (supportedEOTFs b)
    (supportedStaticMetadataDescriptors b) (desiredContentMaxLuminanceCode b)
    (desiredContentMaxFrameAverageLuminanceCode b)
    (desiredContentMinLuminanceCode b) (supportedDynamicMetadataTypes b)
    (dynamicHdrMetadataTypeId b) (dynamicHdrMetadataVersionNumber b)
    (videoFormatPreferences b) (speakerCount b) (roomTypeCode b)
    (roomTypeString b) (hdmiForumFeatures b) (hfSCDBVersion b)
    (maxTMDSCharacterRateMhz b) (maxFixedRateLink b) (vrrMinHz b) (vrrMaxHz b).

Definition set_supportsALLM (v : option bool) (b : ExtendedTagDataBlock) : ExtendedTagDataBlock :=
  mk (dataLength b) (extendedTag b) (error b) (supportsQuantizationRangeYCC b)
    (supportsQuantizationRangeRGB b) (overscanPT b) (overscanIT b) (overscanCE
    b) (supportsQMS b) (supportsVRR b) (supportsCinemaVRR b)
    (supportsNegativeMRR b) (supportsFVA b) v (supportsBT2020RGB b)
    (supportsBT2020YCC b) (supportsBT2020cYCC b) (supportsAdobeRGB b)
    (supportsAdobeYCC601 b) (supportssYCC601 b) (supportsxvYCC709 b)
    (supportsxvYCC601 b) (gamutMD3 b) (gamutMD2 b) (gamutMD1 b) (gamutMD0 b)
    (supportsICtCp b) (supportsST2094_40 b) (supportsST2094_10 b)
    (supportsBT2100ICtCp b) (vendorSpecificVideoOui b) (supportsHDR10 b)
    (supportsHDR10Plus b) (supportsDolbyVision b)
    (YCbCr420OnlyShortVideoDescriptors b)
    (YCbCr420CapableShortVideoDescriptors b) (supportedEOTFs b)
    (supportedStaticMetadataDescriptors b) (desiredContentMaxLuminanceCode b)
    (desiredContentMaxFrameAverageLuminanceCode b)
    (desiredContentMinLuminanceCode b) (supportedDynamicMetadataTypes b)
    (dynamicHdrMetadataTypeId b) (dynamicHdrMetadataVersionNumber b)
    (videoFormatPreferences b) (speakerCount b) (roomTypeCode b)
    (roomTypeString b) (hdmiForumFeatures b) (hfSCDBVersion b)
    (maxTMDSCharacterRateMhz b) (maxFixedRateLink b) (vrrMinHz b) (vrrMaxHz b).

Definition set_supportsBT2020RGB (v : option bool) (b : ExtendedTagDataBlock) : ExtendedTagDataBlock :=
  mk (dataLength b) (extendedTag b) (error b) (supportsQuantizationRangeYCC b)
    (supportsQuantizationRangeRGB b) (overscanPT b) (overscanIT b) (overscanCE
    b) (supportsQMS b) (supportsVRR b) (supportsCinemaVRR b)
    (supportsNegativeMRR b) (supportsFVA b) (supportsALLM b) v
    (supportsBT2020YCC b) (supportsBT2020cYCC b) (supportsAdobeRGB b)
    (supportsAdobeYCC601 b) (supportssYCC601 b) (supportsxvYCC709 b)
    (supportsxvYCC601 b) (gamutMD3 b) (gamutMD2 b) (gamutMD1 b) (gamutMD0 b)
    (supportsICtCp b) (supportsST2094_40 b) (supportsST2094_10 b)
    (supportsBT2100ICtCp b) (vendorSpecificVideoOui b) (supportsHDR10 b)
    (supportsHDR10Plus b) (supportsDolbyVision b)
    (YCbCr420OnlyShortVideoDescriptors b)
    (YCbCr420CapableShortVideoDescriptors b) (supportedEOTFs b)
    (supportedStaticMetadataDescriptors b) (desiredContentMaxLuminanceCode b)
    (desiredContentMaxFrameAverageLuminanceCode b)
    (desiredContentMinLuminanceCode b) (supportedDynamicMetadataTypes b)
    (dynamicHdrMetadataTypeId b) (dynamicHdrMetadataVersionNumber b)
    (videoFormatPreferences b) (speakerCount b) (roomTypeCode b)
    (roomTypeString b) (hdmiForumFeatures b) (hfSCDBVersion b)
    (maxTMDSCharacterRateMhz b) (maxFixedRateLink b) (vrrMinHz b) (vrrMaxHz b).

Definition set_supportsBT2020YCC (v : option bool) (b : ExtendedTagDataBlock) : ExtendedTagDataBlock :=
  mk (dataLength b) (extendedTag b) (error b) (supportsQuantizationRangeYCC b)
    (supportsQuantizationRangeRGB b) (overscanPT b) (overscanIT b) (overscanCE
    b) (supportsQMS b) (supportsVRR b) (supportsCinemaVRR b)
    (supportsNegativeMRR b) (supportsFVA b) (supportsALLM b)
    (supportsBT2020RGB b) v (supportsBT2020cYCC b) (supportsAdobeRGB b)
    (supportsAdobeYCC601 b) (supportssYCC601 b) (supportsxvYCC709 b)
    (supportsxvYCC601 b) (gamutMD3 b) (gamutMD2 b) (gamutMD1 b) (gamutMD0 b)
    (supportsICtCp b) (supportsST2094_40 b) (supportsST2094_10 b)
    (supportsBT2100ICtCp b) (vendorSpecificVideoOui b) (supportsHDR10 b)
    (supportsHDR10Plus b) (supportsDolbyVision b)
    (YCbCr420OnlyShortVideoDescriptors b)
    (YCbCr420CapableShortVideoDescriptors b) (supportedEOTFs b)
    (supportedStaticMetadataDescriptors b) (desiredContentMaxLuminanceCode b)
    (desiredContentMaxFrameAverageLuminanceCode b)
    (desiredContentMinLuminanceCode b) (supportedDynamicMetadataTypes b)
    (dynamicHdrMetadataTypeId b) (dynamicHdrMetadataVersionNumber b)
    (videoFormatPreferences b) (speakerCount b) (roomTypeCode b)
    (roomTypeString b) (hdmiForumFeatures b) (hfSCDBVersion b)
    (maxTMDSCharacterRateMhz b) (maxFixedRateLink b) (vrrMinHz b) (vrrMaxHz b).

Definition set_supportsBT2020cYCC (v : option bool) (b : ExtendedTagDataBlock) : ExtendedTagDataBlock :=
  mk (dataLength b) (extendedTag b) (error b) (supportsQuantizationRangeYCC b)
    (supportsQuantizationRangeRGB b) (overscanPT b) (overscanIT b) (overscanCE
    b) (supportsQMS b) (supportsVRR b) (supportsCinemaVRR b)
    (supportsNegativeMRR b) (supportsFVA b) (supportsALLM b)
    (supportsBT2020RGB b) (supportsBT2020YCC b) v (supportsAdobeRGB b)
    (supportsAdobeYCC601 b) (supportssYCC601 b) (supportsxvYCC709 b)
    (supportsxvYCC601 b) (gamutMD3 b) (gamutMD2 b) (gamutMD1 b) (gamutMD0 b)
    (supportsICtCp b) (supportsST2094_40 b) (supportsST2094_10 b)
    (supportsBT2100ICtCp b) (vendorSpecificVideoOui b) (supportsHDR10 b)
    (supportsHDR10Plus b) (supportsDolbyVision b)
    (YCbCr420OnlyShortVideoDescriptors b)
    (YCbCr420CapableShortVideoDescriptors b) (supportedEOTFs b)
    (supportedStaticMetadataDescriptors b) (desiredContentMaxLuminanceCode b)
    (desiredContentMaxFrameAverageLuminanceCode b)
    (desiredContentMinLuminanceCode b) (supportedDynamicMetadataTypes b)
    (dynamicHdrMetadataTypeId b) (dynamicHdrMetadataVersionNumber b)
    (videoFormatPreferences b) (speakerCount b) (roomTypeCode b)
    (roomTypeString b) (hdmiForumFeatures b) (hfSCDBVersion b)
    (maxTMDSCharacterRateMhz b) (maxFixedRateLink b) (vrrMinHz b) (vrrMaxHz b).

Definition set_supportsAdobeRGB (v : option bool) (b : ExtendedTagDataBlock) : ExtendedTagDataBlock :=
  mk (dataLength b) (extendedTag b) (error b) (supportsQuantizationRangeYCC b)
    (supportsQuantizationRangeRGB b) (overscanPT b) (overscanIT b) (overscanCE
    b) (supportsQMS b) (supportsVRR b) (supportsCinemaVRR b)
    (supportsNegativeMRR b) (supportsFVA b) (supportsALLM b)
    (supportsBT2020RGB b) (supportsBT2020YCC b) (supportsBT2020cYCC b) v
    (supportsAdobeYCC601 b) (supportssYCC601 b) (supportsxvYCC709 b)
    (supportsxvYCC601 b) (gamutMD3 b) (gamutMD2 b) (gamutMD1 b) (gamutMD0 b)
    (supportsICtCp b) (supportsST2094_40 b) (supportsST2094_10 b)
    (supportsBT2100ICtCp b) (vendorSpecificVideoOui b) (supportsHDR10 b)
    (supportsHDR10Plus b) (supportsDolbyVision b)
    (YCbCr420OnlyShortVideoDescriptors b)
    (YCbCr420CapableShortVideoDescriptors b) (supportedEOTFs b)
    (supportedStaticMetadataDescriptors b) (desiredContentMaxLuminanceCode b)
    (desiredContentMaxFrameAverageLuminanceCode b)
    (desiredContentMinLuminanceCode b) (supportedDynamicMetadataTypes b)
    (dynamicHdrMetadataTypeId b) (dynamicHdrMetadataVersionNumber b)
    (videoFormatPreferences b) (speakerCount b) (roomTypeCode b)
    (roomTypeString b) (hdmiForumFeatures b) (hfSCDBVersion b)
    (maxTMDSCharacterRateMhz b) (maxFixedRateLink b) (vrrMinHz b) (vrrMaxHz b).

Definition set_supportsAdobeYCC601 (v : option bool) (b : ExtendedTagDataBlock) : ExtendedTagDataBlock :=
  mk (dataLength b) (extendedTag b) (error b) (supportsQuantizationRangeYCC b)
    (supportsQuantizationRangeRGB b) (overscanPT b) (overscanIT b) (overscanCE
    b) (supportsQMS b) (supportsVRR b) (supportsCinemaVRR b)
    (supportsNegativeMRR b) (supportsFVA b) (supportsALLM b)
    (supportsBT2020RGB b) (supportsBT2020YCC b) (supportsBT2020cYCC b)
    (supportsAdobeRGB b) v (supportssYCC601 b) (supportsxvYCC709 b)
    (supportsxvYCC601 b) (gamutMD3 b) (gamutMD2 b) (gamutMD1 b) (gamutMD0 b)
    (supportsICtCp b) (supportsST2094_40 b) (supportsST2094_10 b)
    (supportsBT2100ICtCp b) (vendorSpecificVideoOui b) (supportsHDR10 b)
    (supportsHDR10Plus b) (supportsDolbyVision b)
    (YCbCr420OnlyShortVideoDescriptors b)
    (YCbCr420CapableShortVideoDescriptors b) (supportedEOTFs b)
    (supportedStaticMetadataDescriptors b) (desiredContentMaxLuminanceCode b)
    (desiredContentMaxFrameAverageLuminanceCode b)
    (desiredContentMinLuminanceCode b) (supportedDynamicMetadataTypes b)
    (dynamicHdrMetadataTypeId b) (dynamicHdrMetadataVersionNumber b)
    (videoFormatPreferences b) (speakerCount b) (roomTypeCode b)
    (roomTypeString b) (hdmiForumFeatures b) (hfSCDBVersion b)
    (maxTMDSCharacterRateMhz b) (maxFixedRateLink b) (vrrMinHz b) (vrrMaxHz b).

Definition set_supportssYCC601 (v : option bool) (b : ExtendedTagDataBlock) : ExtendedTagDataBlock :=
  mk (dataLength b) (extendedTag b) (error b) (supportsQuantizationRangeYCC b)
    (supportsQuantizationRangeRGB b) (overscanPT b) (overscanIT b) (overscanCE
    b) (supportsQMS b) (supportsVRR b) (supportsCinemaVRR b)
    (supportsNegativeMRR b) (supportsFVA b) (supportsALLM b)
    (supportsBT2020RGB b) (supportsBT2020YCC b) (supportsBT2020cYCC b)
    (supportsAdobeRGB b) (supportsAdobeYCC601 b) v (supportsxvYCC709 b)
    (supportsxvYCC601 b) (gamutMD3 b) (gamutMD2 b) (gamutMD1 b) (gamutMD0 b)
    (supportsICtCp b) (supportsST2094_40 b) (supportsST2094_10 b)
    (supportsBT2100ICtCp b) (vendorSpecificVideoOui b) (supportsHDR10 b)
    (supportsHDR10Plus b) (supportsDolbyVision b)
    (YCbCr420OnlyShortVideoDescriptors b)
    (YCbCr420CapableShortVideoDescriptors b) (supportedEOTFs b)
    (supportedStaticMetadataDescriptors b) (desiredContentMaxLuminanceCode b)
    (desiredContentMaxFrameAverageLuminanceCode b)
    (desiredContentMinLuminanceCode b) (supportedDynamicMetadataTypes b)
    (dynamicHdrMetadataTypeId b) (dynamicHdrMetadataVersionNumber b)
    (videoFormatPreferences b) (speakerCount b) (roomTypeCode b)
    (roomTypeString b) (hdmiForumFeatures b) (hfSCDBVersion b)
    (maxTMDSCharacterRateMhz b) (maxFixedRateLink b) (vrrMinHz b) (vrrMaxHz b).

Definition set_supportsxvYCC709 (v : option bool) (b : ExtendedTagDataBlock) : ExtendedTagDataBlock :=
  mk (dataLength b) (extendedTag b) (error b) (supportsQuantizationRangeYCC b)
    (supportsQuantizationRangeRGB b) (overscanPT b) (overscanIT b) (overscanCE
    b) (supportsQMS b) (supportsVRR b) (supportsCinemaVRR b)
    (supportsNegativeMRR b) (supportsFVA b) (supportsALLM b)
    (supportsBT2020RGB b) (supportsBT2020YCC b) (supportsBT2020cYCC b)
    (supportsAdobeRGB b) (supportsAdobeYCC601 b) (supportssYCC601 b) v
    (supportsxvYCC601 b) (gamutMD3 b) (gamutMD2 b) (gamutMD1 b) (gamutMD0 b)
    (supportsICtCp b) (supportsST2094_40 b) (supportsST2094_10 b)
    (supportsBT2100ICtCp b) (vendorSpecificVideoOui b) (supportsHDR10 b)
    (supportsHDR10Plus b) (supportsDolbyVision b)
    (YCbCr420OnlyShortVideoDescriptors b)
    (YCbCr420CapableShortVideoDescriptors b) (supportedEOTFs b)
    (supportedStaticMetadataDescriptors b) (desiredContentMaxLuminanceCode b)
    (desiredContentMaxFrameAverageLuminanceCode b)
    (desiredContentMinLuminanceCode b) (supportedDynamicMetadataTypes b)
    (dynamicHdrMetadataTypeId b) (dynamicHdrMetadataVersionNumber b)
    (videoFormatPreferences b) (speakerCount b) (roomTypeCode b)
    (roomTypeString b) (hdmiForumFeatures b) (hfSCDBVersion b)
    (maxTMDSCharacterRateMhz b) (maxFixedRateLink b) (vrrMinHz b) (vrrMaxHz b).

Definition set_supportsxvYCC601 (v : option bool) (b : ExtendedTagDataBlock) : ExtendedTagDataBlock :=
  mk (dataLength b) (extendedTag b) (error b) (supportsQuantizationRangeYCC b)
    (supportsQuantizationRangeRGB b) (overscanPT b) (overscanIT b) (overscanCE
    b) (supportsQMS b) (supportsVRR b) (supportsCinemaVRR b)
    (supportsNegativeMRR b) (supportsFVA b) (supportsALLM b)
    (supportsBT2020RGB b) (supportsBT2020YCC b) (supportsBT2020cYCC b)
    (supportsAdobeRGB b) (supportsAdobeYCC601 b) (supportssYCC601 b)
    (supportsxvYCC709 b) v (gamutMD3 b) (gamutMD2 b) (gamutMD1 b) (gamutMD0 b)
    (supportsICtCp b) (supportsST2094_40 b) (supportsST2094_10 b)
    (supportsBT2100ICtCp b) (vendorSpecificVideoOui b) (supportsHDR10 b)
    (supportsHDR10Plus b) (supportsDolbyVision b)
    (YCbCr420OnlyShortVideoDescriptors b)
    (YCbCr420CapableShortVideoDescriptors b) (supportedEOTFs b)
    (supportedStaticMetadataDescriptors b) (desiredContentMaxLuminanceCode b)
    (desiredContentMaxFrameAverageLuminanceCode b)
    (desiredContentMinLuminanceCode b) (supportedDynamicMetadataTypes b)
    (dynamicHdrMetadataTypeId b) (dynamicHdrMetadataVersionNumber b)
    (videoFormatPreferences b) (speakerCount b) (roomTypeCode b)
    (roomTypeString b) (hdmiForumFeatures b) (hfSCDBVersion b)
    (maxTMDSCharacterRateMhz b) (maxFixedRateLink b) (vrrMinHz b) (vrrMaxHz b).

Definition set_gamutMD3 (v : option Z) (b : ExtendedTagDataBlock) : ExtendedTagDataBlock :=
  mk (dataLength b) (extendedTag b) (error b) (supportsQuantizationRangeYCC b)
    (supportsQuantizationRangeRGB b) (overscanPT b) (overscanIT b) (overscanCE
    b) (supportsQMS b) (supportsVRR b) (supportsCinemaVRR b)
    (supportsNegativeMRR b) (supportsFVA b) (supportsALLM b)
    (supportsBT2020RGB b) (supportsBT2020YCC b) (supportsBT2020cYCC b)
    (supportsAdobeRGB b) (supportsAdobeYCC601 b) (supportssYCC601 b)
    (supportsxvYCC709 b) (supportsxvYCC601 b) v (gamutMD2 b) (gamutMD1 b)
    (gamutMD0 b) (supportsICtCp b) (supportsST2094_40 b) (supportsST2094_10 b)
    (supportsBT2100ICtCp b) (vendorSpecificVideoOui b) (supportsHDR10 b)
    (supportsHDR10Plus b) (supportsDolbyVision b)
    (YCbCr420OnlyShortVideoDescriptors b)
    (YCbCr420CapableShortVideoDescriptors b) (supportedEOTFs b)
    (supportedStaticMetadataDescriptors b) (desiredContentMaxLuminanceCode b)
    (desiredContentMaxFrameAverageLuminanceCode b)
    (desiredContentMinLuminanceCode b) (supportedDynamicMetadataTypes b)
    (dynamicHdrMetadataTypeId b) (dynamicHdrMetadataVersionNumber b)
    (videoFormatPreferences b) (speakerCount b) (roomTypeCode b)
    (roomTypeString b) (hdmiForumFeatures b) (hfSCDBVersion b)
    (maxTMDSCharacterRateMhz b) (maxFixedRateLink b) (vrrMinHz b) (vrrMaxHz b).

Definition set_gamutMD2 (v : option Z) (b : ExtendedTagDataBlock) : ExtendedTagDataBlock :=
  mk (dataLength b) (extendedTag b) (error b) (supportsQuantizationRangeYCC b)
    (supportsQuantizationRangeRGB b) (overscanPT b) (overscanIT b) (overscanCE
    b) (supportsQMS b) (supportsVRR b) (supportsCinemaVRR b)
    (supportsNegativeMRR b) (supportsFVA b) (supportsALLM b)
    (supportsBT2020RGB b) (supportsBT2020YCC b) (supportsBT2020cYCC b)
    (supportsAdobeRGB b) (supportsAdobeYCC601 b) (supportssYCC601 b)
    (supportsxvYCC709 b) (supportsxvYCC601 b) (gamutMD3 b) v (gamutMD1 b)
    (gamutMD0 b) (supportsICtCp b) (supportsST2094_40 b) (supportsST2094_10 b)
    (supportsBT2100ICtCp b) (vendorSpecificVideoOui b) (supportsHDR10 b)
    (supportsHDR10Plus b) (supportsDolbyVision b)
    (YCbCr420OnlyShortVideoDescriptors b)
    (YCbCr420CapableShortVideoDescriptors b) (supportedEOTFs b)
    (supportedStaticMetadataDescriptors b) (desiredContentMaxLuminanceCode b)
    (desiredContentMaxFrameAverageLuminanceCode b)
    (desiredContentMinLuminanceCode b) (supportedDynamicMetadataTypes b)
    (dynamicHdrMetadataTypeId b) (dynamicHdrMetadataVersionNumber b)
    (videoFormatPreferences b) (speakerCount b) (roomTypeCode b)
    (roomTypeString b) (hdmiForumFeatures b) (hfSCDBVersion b)
    (maxTMDSCharacterRateMhz b) (maxFixedRateLink b) (vrrMinHz b) (vrrMaxHz b).

Definition set_gamutMD1 (v : option Z) (b : ExtendedTagDataBlock) : ExtendedTagDataBlock :=
  mk (dataLength b) (extendedTag b) (error b) (supportsQuantizationRangeYCC b)
    (supportsQuantizationRangeRGB b) (overscanPT b) (overscanIT b) (overscanCE
    b) (supportsQMS b) (supportsVRR b) (supportsCinemaVRR b)
    (supportsNegativeMRR b) (supportsFVA b) (supportsALLM b)
    (supportsBT2020RGB b) (supportsBT2020YCC b) (supportsBT2020cYCC b)
    (supportsAdobeRGB b) (supportsAdobeYCC601 b) (supportssYCC601 b)
    (supportsxvYCC709 b) (supportsxvYCC601 b) (gamutMD3 b) (gamutMD2 b) v
    (gamutMD0 b) (supportsICtCp b) (supportsST2094_40 b) (supportsST2094_10 b)
    (supportsBT2100ICtCp b) (vendorSpecificVideoOui b) (supportsHDR10 b)
    (supportsHDR10Plus b) (supportsDolbyVision b)
    (YCbCr420OnlyShortVideoDescriptors b)
    (YCbCr420CapableShortVideoDescriptors b) (supportedEOTFs b)
    (supportedStaticMetadataDescriptors b) (desiredContentMaxLuminanceCode b)
    (desiredContentMaxFrameAverageLuminanceCode b)
    (desiredContentMinLuminanceCode b) (supportedDynamicMetadataTypes b)
    (dynamicHdrMetadataTypeId b) (dynamicHdrMetadataVersionNumber b)
    (videoFormatPreferences b) (speakerCount b) (roomTypeCode b)
    (roomTypeString b) (hdmiForumFeatures b) (hfSCDBVersion b)
    (maxTMDSCharacterRateMhz b) (maxFixedRateLink b) (vrrMinHz b) (vrrMaxHz b).

Definition set_gamutMD0 (v : option Z) (b : ExtendedTagDataBlock) : ExtendedTagDataBlock :=
  mk (dataLength b) (extendedTag b) (error b) (supportsQuantizationRangeYCC b)
    (supportsQuantizationRangeRGB b) (overscanPT b) (overscanIT b) (overscanCE
    b) (supportsQMS b) (supportsVRR b) (supportsCinemaVRR b)
    (supportsNegativeMRR b) (supportsFVA b) (supportsALLM b)
    (supportsBT2020RGB b) (supportsBT2020YCC b) (supportsBT2020cYCC b)
    (supportsAdobeRGB b) (supportsAdobeYCC601 b) (supportssYCC601 b)
    (supportsxvYCC709 b) (supportsxvYCC601 b) (gamutMD3 b) (gamutMD2 b)
    (gamutMD1 b) v (supportsICtCp b) (supportsST2094_40 b) (supportsST2094_10
    b) (supportsBT2100ICtCp b) (vendorSpecificVideoOui b) (supportsHDR10 b)
    (supportsHDR10Plus b) (supportsDolbyVision b)
    (YCbCr420OnlyShortVideoDescriptors b)
    (YCbCr420CapableShortVideoDescriptors b) (supportedEOTFs b)
    (supportedStaticMetadataDescriptors b) (desiredContentMaxLuminanceCode b)
    (desiredContentMaxFrameAverageLuminanceCode b)
    (desiredContentMinLuminanceCode b) (supportedDynamicMetadataTypes b)
    (dynamicHdrMetadataTypeId b) (dynamicHdrMetadataVersionNumber b)
    (videoFormatPreferences b) (speakerCount b) (roomTypeCode b)
    (roomTypeString b) (hdmiForumFeatures b) (hfSCDBVersion b)
    (maxTMDSCharacterRateMhz b) (maxFixedRateLink b) (vrrMinHz b) (vrrMaxHz b).

Definition set_supportsICtCp (v : option bool) (b : ExtendedTagDataBlock) : ExtendedTagDataBlock :=
  mk (dataLength b) (extendedTag b) (error b) (supportsQuantizationRangeYCC b)
    (supportsQuantizationRangeRGB b) (overscanPT b) (overscanIT b) (overscanCE
    b) (supportsQMS b) (supportsVRR b) (supportsCinemaVRR b)
    (supportsNegativeMRR b) (supportsFVA b) (supportsALLM b)
    (supportsBT2020RGB b) (supportsBT2020YCC b) (supportsBT2020cYCC b)
    (supportsAdobeRGB b) (supportsAdobeYCC601 b) (supportssYCC601 b)
    (supportsxvYCC709 b) (supportsxvYCC601 b) (gamutMD3 b) (gamutMD2 b)
    (gamutMD1 b) (gamutMD0 b) v (supportsST2094_40 b) (supportsST2094_10 b)
    (supportsBT2100ICtCp b) (vendorSpecificVideoOui b) (supportsHDR10 b)
    (supportsHDR10Plus b) (supportsDolbyVision b)
    (YCbCr420OnlyShortVideoDescriptors b)
    (YCbCr420CapableShortVideoDescriptors b) (supportedEOTFs b)
    (supportedStaticMetadataDescriptors b) (desiredContentMaxLuminanceCode b)
    (desiredContentMaxFrameAverageLuminanceCode b)
    (desiredContentMinLuminanceCode b) (supportedDynamicMetadataTypes b)
    (dynamicHdrMetadataTypeId b) (dynamicHdrMetadataVersionNumber b)
    (videoFormatPreferences b) (speakerCount b) (roomTypeCode b)
    (roomTypeString b) (hdmiForumFeatures b) (hfSCDBVersion b)
    (maxTMDSCharacterRateMhz b) (maxFixedRateLink b) (vrrMinHz b) (vrrMaxHz b).

Definition set_supportsST2094_40 (v : option bool) (b : ExtendedTagDataBlock) : ExtendedTagDataBlock :=
  mk (dataLength b) (extendedTag b) (error b) (supportsQuantizationRangeYCC b)
    (supportsQuantizationRangeRGB b) (overscanPT b) (overscanIT b) (overscanCE
    b) (supportsQMS b) (supportsVRR b) (supportsCinemaVRR b)
    (supportsNegativeMRR b) (supportsFVA b) (supportsALLM b)
    (supportsBT2020RGB b) (supportsBT2020YCC b) (supportsBT2020cYCC b)
    (supportsAdobeRGB b) (supportsAdobeYCC601 b) (supportssYCC601 b)
    (supportsxvYCC709 b) (supportsxvYCC601 b) (gamutMD3 b) (gamutMD2 b)
    (gamutMD1 b) (gamutMD0 b) (supportsICtCp b) v (supportsST2094_10 b)
    (supportsBT2100ICtCp b) (vendorSpecificVideoOui b) (supportsHDR10 b)
    (supportsHDR10Plus b) (supportsDolbyVision b)
    (YCbCr420OnlyShortVideoDescriptors b)
    (YCbCr420CapableShortVideoDescriptors b) (supportedEOTFs b)
    (supportedStaticMetadataDescriptors b) (desiredContentMaxLuminanceCode b)
    (desiredContentMaxFrameAverageLuminanceCode b)
    (desiredContentMinLuminanceCode b) (supportedDynamicMetadataTypes b)
    (dynamicHdrMetadataTypeId b) (dynamicHdrMetadataVersionNumber b)
    (videoFormatPreferences b) (speakerCount b) (roomTypeCode b)
    (roomTypeString b) (hdmiForumFeatures b) (hfSCDBVersion b)
    (maxTMDSCharacterRateMhz b) (maxFixedRateLink b) (vrrMinHz b) (vrrMaxHz b).

Definition set_supportsST2094_10 (v : option bool) (b : ExtendedTagDataBlock) : ExtendedTagDataBlock :=
  mk (dataLength b) (extendedTag b) (error b) (supportsQuantizationRangeYCC b)
    (supportsQuantizationRangeRGB b) (overscanPT b) (overscanIT b) (overscanCE
    b) (supportsQMS b) (supportsVRR b) (supportsCinemaVRR b)
    (supportsNegativeMRR b) (supportsFVA b) (supportsALLM b)
    (supportsBT2020RGB b) (supportsBT2020YCC b) (supportsBT2020cYCC b)
    (supportsAdobeRGB b) (supportsAdobeYCC601 b) (supportssYCC601 b)
    (supportsxvYCC709 b) (supportsxvYCC601 b) (gamutMD3 b) (gamutMD2 b)
    (gamutMD1 b) (gamutMD0 b) (supportsICtCp b) (supportsST2094_40 b) v
    (supportsBT2100ICtCp b) (vendorSpecificVideoOui b) (supportsHDR10 b)
    (supportsHDR10Plus b) (supportsDolbyVision b)
    (YCbCr420OnlyShortVideoDescriptors b)
    (YCbCr420CapableShortVideoDescriptors b) (supportedEOTFs b)
    (supportedStaticMetadataDescriptors b) (desiredContentMaxLuminanceCode b)
    (desiredContentMaxFrameAverageLuminanceCode b)
    (desiredContentMinLuminanceCode b) (supportedDynamicMetadataTypes b)
    (dynamicHdrMetadataTypeId b) (dynamicHdrMetadataVersionNumber b)
    (videoFormatPreferences b) (speakerCount b) (roomTypeCode b)
    (roomTypeString b) (hdmiForumFeatures b) (hfSCDBVersion b)
    (maxTMDSCharacterRateMhz b) (maxFixedRateLink b) (vrrMinHz b) (vrrMaxHz b).

Definition set_supportsBT2100ICtCp (v : option bool) (b : ExtendedTagDataBlock) : ExtendedTagDataBlock :=
  mk (dataLength b) (extendedTag b) (error b) (supportsQuantizationRangeYCC b)
    (supportsQuantizationRangeRGB b) (overscanPT b) (overscanIT b) (overscanCE
    b) (supportsQMS b) (supportsVRR b) (supportsCinemaVRR b)
    (supportsNegativeMRR b) (supportsFVA b) (supportsALLM b)
    (supportsBT2020RGB b) (supportsBT2020YCC b) (supportsBT2020cYCC b)
    (supportsAdobeRGB b) (supportsAdobeYCC601 b) (supportssYCC601 b)
    (supportsxvYCC709 b) (supportsxvYCC601 b) (gamutMD3 b) (gamutMD2 b)
    (gamutMD1 b) (gamutMD0 b) (supportsICtCp b) (supportsST2094_40 b)
    (supportsST2094_10 b) v (vendorSpecificVideoOui b) (supportsHDR10 b)
    (supportsHDR10Plus b) (supportsDolbyVision b)
    (YCbCr420OnlyShortVideoDescriptors b)
    (YCbCr420CapableShortVideoDescriptors b) (supportedEOTFs b)
    (supportedStaticMetadataDescriptors b) (desiredContentMaxLuminanceCode b)
    (desiredContentMaxFrameAverageLuminanceCode b)
    (desiredContentMinLuminanceCode b) (supportedDynamicMetadataTypes b)
    (dynamicHdrMetadataTypeId b) (dynamicHdrMetadataVersionNumber b)
    (videoFormatPreferences b) (speakerCount b) (roomTypeCode b)
    (roomTypeString b) (hdmiForumFeatures b) (hfSCDBVersion b)
    (maxTMDSCharacterRateMhz b) (maxFixedRateLink b) (vrrMinHz b) (vrrMaxHz b).

Definition set_vendorSpecificVideoOui (v : option Z) (b : ExtendedTagDataBlock) : ExtendedTagDataBlock :=
  mk (dataLength b) (extendedTag b) (error b) (supportsQuantizationRangeYCC b)
    (supportsQuantizationRangeRGB b) (overscanPT b) (overscanIT b) (overscanCE
    b) (supportsQMS b) (supportsVRR b) (supportsCinemaVRR b)
    (supportsNegativeMRR b) (supportsFVA b) (supportsALLM b)
    (supportsBT2020RGB b) (supportsBT2020YCC b) (supportsBT2020cYCC b)
    (supportsAdobeRGB b) (supportsAdobeYCC601 b) (supportssYCC601 b)
    (supportsxvYCC709 b) (supportsxvYCC601 b) (gamutMD3 b) (gamutMD2 b)
    (gamutMD1 b) (gamutMD0 b) (supportsICtCp b) (supportsST2094_40 b)
    (supportsST2094_10 b) (supportsBT2100ICtCp b) v (supportsHDR10 b)
    (supportsHDR10Plus b) (supportsDolbyVision b)
    (YCbCr420OnlyShortVideoDescriptors b)
    (YCbCr420CapableShortVideoDescriptors b) (supportedEOTFs b)
    (supportedStaticMetadataDescriptors b) (desiredContentMaxLuminanceCode b)
    (desiredContentMaxFrameAverageLuminanceCode b)
    (desiredContentMinLuminanceCode b) (supportedDynamicMetadataTypes b)
    (dynamicHdrMetadataTypeId b) (dynamicHdrMetadataVersionNumber b)
    (videoFormatPreferences b) (speakerCount b) (roomTypeCode b)
    (roomTypeString b) (hdmiForumFeatures b) (hfSCDBVersion b)
    (maxTMDSCharacterRateMhz b) (maxFixedRateLink b) (vrrMinHz b) (vrrMaxHz b).

Definition set_supportsHDR10 (v : option bool) (b : ExtendedTagDataBlock) : ExtendedTagDataBlock :=
  mk (dataLength b) (extendedTag b) (error b) (supportsQuantizationRangeYCC b)
    (supportsQuantizationRangeRGB b) (overscanPT b) (overscanIT b) (overscanCE
    b) (supportsQMS b) (supportsVRR b) (supportsCinemaVRR b)
    (supportsNegativeMRR b) (supportsFVA b) (supportsALLM b)
    (supportsBT2020RGB b) (supportsBT2020YCC b) (supportsBT2020cYCC b)
    (supportsAdobeRGB b) (supportsAdobeYCC601 b) (supportssYCC601 b)
    (supportsxvYCC709 b) (supportsxvYCC601 b) (gamutMD3 b) (gamutMD2 b)
    (gamutMD1 b) (gamutMD0 b) (supportsICtCp b) (supportsST2094_40 b)
    (supportsST2094_10 b) (supportsBT2100ICtCp b) (vendorSpecificVideoOui b) v
    (supportsHDR10Plus b) (supportsDolbyVision b)
    (YCbCr420OnlyShortVideoDescriptors b)
    (YCbCr420CapableShortVideoDescriptors b) (supportedEOTFs b)
    (supportedStaticMetadataDescriptors b) (desiredContentMaxLuminanceCode b)
    (desiredContentMaxFrameAverageLuminanceCode b)
    (desiredContentMinLuminanceCode b) (supportedDynamicMetadataTypes b)
    (dynamicHdrMetadataTypeId b) (dynamicHdrMetadataVersionNumber b)
    (videoFormatPreferences b) (speakerCount b) (roomTypeCode b)
    (roomTypeString b) (hdmiForumFeatures b) (hfSCDBVersion b)
    (maxTMDSCharacterRateMhz b) (maxFixedRateLink b) (vrrMinHz b) (vrrMaxHz b).

Definition set_supportsHDR10Plus (v : option bool) (b : ExtendedTagDataBlock) : ExtendedTagDataBlock :=
  mk (dataLength b) (extendedTag b) (error b) (supportsQuantizationRangeYCC b)
    (supportsQuantizationRangeRGB b) (overscanPT b) (overscanIT b) (overscanCE
    b) (supportsQMS b) (supportsVRR b) (supportsCinemaVRR b)
    (supportsNegativeMRR b) (supportsFVA b) (supportsALLM b)
    (supportsBT2020RGB b) (supportsBT2020YCC b) (supportsBT2020cYCC b)
    (supportsAdobeRGB b) (supportsAdobeYCC601 b) (supportssYCC601 b)
    (supportsxvYCC709 b) (supportsxvYCC601 b) (gamutMD3 b) (gamutMD2 b)
    (gamutMD1 b) (gamutMD0 b) (supportsICtCp b) (supportsST2094_40 b)
    (supportsST2094_10 b) (supportsBT2100ICtCp b) (vendorSpecificVideoOui b)
    (supportsHDR10 b) v (supportsDolbyVision b)
    (YCbCr420OnlyShortVideoDescriptors b)
    (YCbCr420CapableShortVideoDescriptors b) (supportedEOTFs b)
    (supportedStaticMetadataDescriptors b) (desiredContentMaxLuminanceCode b)
    (desiredContentMaxFrameAverageLuminanceCode b)
    (desiredContentMinLuminanceCode b) (supportedDynamicMetadataTypes b)
    (dynamicHdrMetadataTypeId b) (dynamicHdrMetadataVersionNumber b)
    (videoFormatPreferences b) (speakerCount b) (roomTypeCode b)
    (roomTypeString b) (hdmiForumFeatures b) (hfSCDBVersion b)
    (maxTMDSCharacterRateMhz b) (maxFixedRateLink b) (vrrMinHz b) (vrrMaxHz b).

Definition set_supportsDolbyVision (v : option bool) (b : ExtendedTagDataBlock) : ExtendedTagDataBlock :=
  mk (dataLength b) (extendedTag b) (error b) (supportsQuantizationRangeYCC b)
    (supportsQuantizationRangeRGB b) (overscanPT b) (overscanIT b) (overscanCE
    b) (supportsQMS b) (supportsVRR b) (supportsCinemaVRR b)
    (supportsNegativeMRR b) (supportsFVA b) (supportsALLM b)
    (supportsBT2020RGB b) (supportsBT2020YCC b) (supportsBT2020cYCC b)
    (supportsAdobeRGB b) (supportsAdobeYCC601 b) (supportssYCC601 b)
    (supportsxvYCC709 b) (supportsxvYCC601 b) (gamutMD3 b) (gamutMD2 b)
    (gamutMD1 b) (gamutMD0 b) (supportsICtCp b) (supportsST2094_40 b)
    (supportsST2094_10 b) (supportsBT2100ICtCp b) (vendorSpecificVideoOui b)
    (supportsHDR10 b) (supportsHDR10Plus b) v
    (YCbCr420OnlyShortVideoDescriptors b)
    (YCbCr420CapableShortVideoDescriptors b) (supportedEOTFs b)
    (supportedStaticMetadataDescriptors b) (desiredContentMaxLuminanceCode b)
    (desiredContentMaxFrameAverageLuminanceCode b)
    (desiredContentMinLuminanceCode b) (supportedDynamicMetadataTypes b)
    (dynamicHdrMetadataTypeId b) (dynamicHdrMetadataVersionNumber b)
    (videoFormatPreferences b) (speakerCount b) (roomTypeCode b)
    (roomTypeString b) (hdmiForumFeatures b) (hfSCDBVersion b)
    (maxTMDSCharacterRateMhz b) (maxFixedRateLink b) (vrrMinHz b) (vrrMaxHz b).

Definition set_YCbCr420OnlyShortVideoDescriptors (v : option (list ShortVideoDescriptor)) (b : ExtendedTagDataBlock) : ExtendedTagDataBlock :=
  mk (dataLength b) (extendedTag b) (error b) (supportsQuantizationRangeYCC b)
    (supportsQuantizationRangeRGB b) (overscanPT b) (overscanIT b) (overscanCE
    b) (supportsQMS b) (supportsVRR b) (supportsCinemaVRR b)
    (supportsNegativeMRR b) (supportsFVA b) (supportsALLM b)
    (supportsBT2020RGB b) (supportsBT2020YCC b) (supportsBT2020cYCC b)
    (supportsAdobeRGB b) (supportsAdobeYCC601 b) (supportssYCC601 b)
    (supportsxvYCC709 b) (supportsxvYCC601 b) (gamutMD3 b) (gamutMD2 b)
    (gamutMD1 b) (gamutMD0 b) (supportsICtCp b) (supportsST2094_40 b)
    (supportsST2094_10 b) (supportsBT2100ICtCp b) (vendorSpecificVideoOui b)
    (supportsHDR10 b) (supportsHDR10Plus b) (supportsDolbyVision b) v
    (YCbCr420CapableShortVideoDescriptors b) (supportedEOTFs b)
    (supportedStaticMetadataDescriptors b) (desiredContentMaxLuminanceCode b)
    (desiredContentMaxFrameAverageLuminanceCode b)
    (desiredContentMinLuminanceCode b) (supportedDynamicMetadataTypes b)
    (dynamicHdrMetadataTypeId b) (dynamicHdrMetadataVersionNumber b)
    (videoFormatPreferences b) (speakerCount b) (roomTypeCode b)
    (roomTypeString b) (hdmiForumFeatures b) (hfSCDBVersion b)
    (maxTMDSCharacterRateMhz b) (maxFixedRateLink b) (vrrMinHz b) (vrrMaxHz b).

Definition set_YCbCr420CapableShortVideoDescriptors (v : option (list (option ShortVideoDescriptor))) (b : ExtendedTagDataBlock) : ExtendedTagDataBlock :=
  mk (dataLength b) (extendedTag b) (error b) (supportsQuantizationRangeYCC b)
    (supportsQuantizationRangeRGB b) (overscanPT b) (overscanIT b) (overscanCE
    b) (supportsQMS b) (supportsVRR b) (supportsCinemaVRR b)
    (supportsNegativeMRR b) (supportsFVA b) (supportsALLM b)
    (supportsBT2020RGB b) (supportsBT2020YCC b) (supportsBT2020cYCC b)
    (supportsAdobeRGB b) (supportsAdobeYCC601 b) (supportssYCC601 b)
    (supportsxvYCC709 b) (supportsxvYCC601 b) (gamutMD3 b) (gamutMD2 b)
    (gamutMD1 b) (gamutMD0 b) (supportsICtCp b) (supportsST2094_40 b)
    (supportsST2094_10 b) (supportsBT2100ICtCp b) (vendorSpecificVideoOui b)
    (supportsHDR10 b) (supportsHDR10Plus b) (supportsDolbyVision b)
    (YCbCr420OnlyShortVideoDescriptors b) v (supportedEOTFs b)
    (supportedStaticMetadataDescriptors b) (desiredContentMaxLuminanceCode b)
    (desiredContentMaxFrameAverageLuminanceCode b)
    (desiredContentMinLuminanceCode b) (supportedDynamicMetadataTypes b)
    (dynamicHdrMetadataTypeId b) (dynamicHdrMetadataVersionNumber b)
    (videoFormatPreferences b) (speakerCount b) (roomTypeCode b)
    (roomTypeString b) (hdmiForumFeatures b) (hfSCDBVersion b)
    (maxTMDSCharacterRateMhz b) (maxFixedRateLink b) (vrrMinHz b) (vrrMaxHz b).

Definition set_supportedEOTFs (v : option (list EotfLabel)) (b : ExtendedTagDataBlock) : ExtendedTagDataBlock :=
  mk (dataLength b) (extendedTag b) (error b) (supportsQuantizationRangeYCC b)
    (supportsQuantizationRangeRGB b) (overscanPT b) (overscanIT b) (overscanCE
    b) (supportsQMS b) (supportsVRR b) (supportsCinemaVRR b)
    (supportsNegativeMRR b) (supportsFVA b) (supportsALLM b)
    (supportsBT2020RGB b) (supportsBT2020YCC b) (supportsBT2020cYCC b)
    (supportsAdobeRGB b) (supportsAdobeYCC601 b) (supportssYCC601 b)
    (supportsxvYCC709 b) (supportsxvYCC601 b) (gamutMD3 b) (gamutMD2 b)
    (gamutMD1 b) (gamutMD0 b) (supportsICtCp b) (supportsST2094_40 b)
    (supportsST2094_10 b) (supportsBT2100ICtCp b) (vendorSpecificVideoOui b)
    (supportsHDR10 b) (supportsHDR10Plus b) (supportsDolbyVision b)
    (YCbCr420OnlyShortVideoDescriptors b)
    (YCbCr420CapableShortVideoDescriptors b) v
    (supportedStaticMetadataDescriptors b) (desiredContentMaxLuminanceCode b)
    (desiredContentMaxFrameAverageLuminanceCode b)
    (desiredContentMinLuminanceCode b) (supportedDynamicMetadataTypes b)
    (dynamicHdrMetadataTypeId b) (dynamicHdrMetadataVersionNumber b)
    (videoFormatPreferences b) (speakerCount b) (roomTypeCode b)
    (roomTypeString b) (hdmiForumFeatures b) (hfSCDBVersion b)
    (maxTMDSCharacterRateMhz b) (maxFixedRateLink b) (vrrMinHz b) (vrrMaxHz b).

Definition set_supportedStaticMetadataDescriptors (v : option (list StaticMetaDescLabel)) (b : ExtendedTagDataBlock) : ExtendedTagDataBlock :=
  mk (dataLength b) (extendedTag b) (error b) (supportsQuantizationRangeYCC b)
    (supportsQuantizationRangeRGB b) (overscanPT b) (overscanIT b) (overscanCE
    b) (supportsQMS b) (supportsVRR b) (supportsCinemaVRR b)
    (supportsNegativeMRR b) (supportsFVA b) (supportsALLM b)
    (supportsBT2020RGB b) (supportsBT2020YCC b) (supportsBT2020cYCC b)
    (supportsAdobeRGB b) (supportsAdobeYCC601 b) (supportssYCC601 b)
    (supportsxvYCC709 b) (supportsxvYCC601 b) (gamutMD3 b) (gamutMD2 b)
    (gamutMD1 b) (gamutMD0 b) (supportsICtCp b) (supportsST2094_40 b)
    (supportsST2094_10 b) (supportsBT2100ICtCp b) (vendorSpecificVideoOui b)
    (supportsHDR10 b) (supportsHDR10Plus b) (supportsDolbyVision b)
    (YCbCr420OnlyShortVideoDescriptors b)
    (YCbCr420CapableShortVideoDescriptors b) (supportedEOTFs b) v
    (desiredContentMaxLuminanceCode b)
    (desiredContentMaxFrameAverageLuminanceCode b)
    (desiredContentMinLuminanceCode b) (supportedDynamicMetadataTypes b)
    (dynamicHdrMetadataTypeId b) (dynamicHdrMetadataVersionNumber b)
    (videoFormatPreferences b) (speakerCount b) (roomTypeCode b)
    (roomTypeString b) (hdmiForumFeatures b) (hfSCDBVersion b)
    (maxTMDSCharacterRateMhz b) (maxFixedRateLink b) (vrrMinHz b) (vrrMaxHz b).

Definition set_desiredContentMaxLuminanceCode (v : option Z) (b : ExtendedTagDataBlock) : ExtendedTagDataBlock :=
  mk (dataLength b) (extendedTag b) (error b) (supportsQuantizationRangeYCC b)
    (supportsQuantizationRangeRGB b) (overscanPT b) (overscanIT b) (overscanCE
    b) (supportsQMS b) (supportsVRR b) (supportsCinemaVRR b)
    (supportsNegativeMRR b) (supportsFVA b) (supportsALLM b)
    (supportsBT2020RGB b) (supportsBT2020YCC b) (supportsBT2020cYCC b)
    (supportsAdobeRGB b) (supportsAdobeYCC601 b) (supportssYCC601 b)
    (supportsxvYCC709 b) (supportsxvYCC601 b) (gamutMD3 b) (gamutMD2 b)
    (gamutMD1 b) (gamutMD0 b) (supportsICtCp b) (supportsST2094_40 b)
    (supportsST2094_10 b) (supportsBT2100ICtCp b) (vendorSpecificVideoOui b)
    (supportsHDR10 b) (supportsHDR10Plus b) (supportsDolbyVision b)
    (YCbCr420OnlyShortVideoDescriptors b)
    (YCbCr420CapableShortVideoDescriptors b) (supportedEOTFs b)
    (supportedStaticMetadataDescriptors b) v
    (desiredContentMaxFrameAverageLuminanceCode b)
    (desiredContentMinLuminanceCode b) (supportedDynamicMetadataTypes b)
    (dynamicHdrMetadataTypeId b) (dynamicHdrMetadataVersionNumber b)
    (videoFormatPreferences b) (speakerCount b) (roomTypeCode b)
    (roomTypeString b) (hdmiForumFeatures b) (hfSCDBVersion b)
    (maxTMDSCharacterRateMhz b) (maxFixedRateLink b) (vrrMinHz b) (vrrMaxHz b).

Definition set_desiredContentMaxFrameAverageLuminanceCode (v : option Z) (b : ExtendedTagDataBlock) : ExtendedTagDataBlock :=
  mk (dataLength b) (extendedTag b) (error b) (supportsQuantizationRangeYCC b)
    (supportsQuantizationRangeRGB b) (overscanPT b) (overscanIT b) (overscanCE
    b) (supportsQMS b) (supportsVRR b) (supportsCinemaVRR b)
    (supportsNegativeMRR b) (supportsFVA b) (supportsALLM b)
    (supportsBT2020RGB b) (supportsBT2020YCC b) (supportsBT2020cYCC b)
    (supportsAdobeRGB b) (supportsAdobeYCC601 b) (supportssYCC601 b)
    (supportsxvYCC709 b) (supportsxvYCC601 b) (gamutMD3 b) (gamutMD2 b)
    (gamutMD1 b) (gamutMD0 b) (supportsICtCp b) (supportsST2094_40 b)
    (supportsST2094_10 b) (supportsBT2100ICtCp b) (vendorSpecificVideoOui b)
    (supportsHDR10 b) (supportsHDR10Plus b) (supportsDolbyVision b)
    (YCbCr420OnlyShortVideoDescriptors b)
    (YCbCr420CapableShortVideoDescriptors b) (supportedEOTFs b)
    (supportedStaticMetadataDescriptors b) (desiredContentMaxLuminanceCode b)
    v (desiredContentMinLuminanceCode b) (supportedDynamicMetadataTypes b)
    (dynamicHdrMetadataTypeId b) (dynamicHdrMetadataVersionNumber b)
    (videoFormatPreferences b) (speakerCount b) (roomTypeCode b)
    (roomTypeString b) (hdmiForumFeatures b) (hfSCDBVersion b)
    (maxTMDSCharacterRateMhz b) (maxFixedRateLink b) (vrrMinHz b) (vrrMaxHz b).

Definition set_desiredContentMinLuminanceCode (v : option Z) (b : ExtendedTagDataBlock) : ExtendedTagDataBlock :=
  mk (dataLength b) (extendedTag b) (error b) (supportsQuantizationRangeYCC b)
    (supportsQuantizationRangeRGB b) (overscanPT b) (overscanIT b) (overscanCE
    b) (supportsQMS b) (supportsVRR b) (supportsCinemaVRR b)
    (supportsNegativeMRR b) (supportsFVA b) (supportsALLM b)
    (supportsBT2020RGB b) (supportsBT2020YCC b) (supportsBT2020cYCC b)
    (supportsAdobeRGB b) (supportsAdobeYCC601 b) (supportssYCC601 b)
    (supportsxvYCC709 b) (supportsxvYCC601 b) (gamutMD3 b) (gamutMD2 b)
    (gamutMD1 b) (gamutMD0 b) (supportsICtCp b) (supportsST2094_40 b)
    (supportsST2094_10 b) (supportsBT2100ICtCp b) (vendorSpecificVideoOui b)
    (supportsHDR10 b) (supportsHDR10Plus b) (supportsDolbyVision b)
    (YCbCr420OnlyShortVideoDescriptors b)
    (YCbCr420CapableShortVideoDescriptors b) (supportedEOTFs b)
    (supportedStaticMetadataDescriptors b) (desiredContentMaxLuminanceCode b)
    (desiredContentMaxFrameAverageLuminanceCode b) v
    (supportedDynamicMetadataTypes b) (dynamicHdrMetadataTypeId b)
    (dynamicHdrMetadataVersionNumber b) (videoFormatPreferences b)
    (speakerCount b) (roomTypeCode b) (roomTypeString b) (hdmiForumFeatures b)
    (hfSCDBVersion b) (maxTMDSCharacterRateMhz b) (maxFixedRateLink b)
    (vrrMinHz b) (vrrMaxHz b).

Definition set_supportedDynamicMetadataTypes (v : option (list DynamicMetadataLabel)) (b : ExtendedTagDataBlock) : ExtendedTagDataBlock :=
  mk (dataLength b) (extendedTag b) (error b) (supportsQuantizationRangeYCC b)
    (supportsQuantizationRangeRGB b) (overscanPT b) (overscanIT b) (overscanCE
    b) (supportsQMS b) (supportsVRR b) (supportsCinemaVRR b)
    (supportsNegativeMRR b) (supportsFVA b) (supportsALLM b)
    (supportsBT2020RGB b) (supportsBT2020YCC b) (supportsBT2020cYCC b)
    (supportsAdobeRGB b) (supportsAdobeYCC601 b) (supportssYCC601 b)
    (supportsxvYCC709 b) (supportsxvYCC601 b) (gamutMD3 b) (gamutMD2 b)
    (gamutMD1 b) (gamutMD0 b) (supportsICtCp b) (supportsST2094_40 b)
    (supportsST2094_10 b) (supportsBT2100ICtCp b) (vendorSpecificVideoOui b)
    (supportsHDR10 b) (supportsHDR10Plus b) (supportsDolbyVision b)
    (YCbCr420OnlyShortVideoDescriptors b)
    (YCbCr420CapableShortVideoDescriptors b) (supportedEOTFs b)
    (supportedStaticMetadataDescriptors b) (desiredContentMaxLuminanceCode b)
    (desiredContentMaxFrameAverageLuminanceCode b)
    (desiredContentMinLuminanceCode b) v (dynamicHdrMetadataTypeId b)
    (dynamicHdrMetadataVersionNumber b) (videoFormatPreferences b)
    (speakerCount b) (roomTypeCode b) (roomTypeString b) (hdmiForumFeatures b)
    (hfSCDBVersion b) (maxTMDSCharacterRateMhz b) (maxFixedRateLink b)
    (vrrMinHz b) (vrrMaxHz b).

Definition set_dynamicHdrMetadataTypeId (v : option Z) (b : ExtendedTagDataBlock) : ExtendedTagDataBlock :=
  mk (dataLength b) (extendedTag b) (error b) (supportsQuantizationRangeYCC b)
    (supportsQuantizationRangeRGB b) (overscanPT b) (overscanIT b) (overscanCE
    b) (supportsQMS b) (supportsVRR b) (supportsCinemaVRR b)
    (supportsNegativeMRR b) (supportsFVA b) (supportsALLM b)
    (supportsBT2020RGB b) (supportsBT2020YCC b) (supportsBT2020cYCC b)
    (supportsAdobeRGB b) (supportsAdobeYCC601 b) (supportssYCC601 b)
    (supportsxvYCC709 b) (supportsxvYCC601 b) (gamutMD3 b) (gamutMD2 b)
    (gamutMD1 b) (gamutMD0 b) (supportsICtCp b) (supportsST2094_40 b)
    (supportsST2094_10 b) (supportsBT2100ICtCp b) (vendorSpecificVideoOui b)
    (supportsHDR10 b) (supportsHDR10Plus b) (supportsDolbyVision b)
    (YCbCr420OnlyShortVideoDescriptors b)
    (YCbCr420CapableShortVideoDescriptors b) (supportedEOTFs b)
    (supportedStaticMetadataDescriptors b) (desiredContentMaxLuminanceCode b)
    (desiredContentMaxFrameAverageLuminanceCode b)
    (desiredContentMinLuminanceCode b) (supportedDynamicMetadataTypes b) v
    (dynamicHdrMetadataVersionNumber b) (videoFormatPreferences b)
    (speakerCount b) (roomTypeCode b) (roomTypeString b) (hdmiForumFeatures b)
    (hfSCDBVersion b) (maxTMDSCharacterRateMhz b) (maxFixedRateLink b)
    (vrrMinHz b) (vrrMaxHz b).

Definition set_dynamicHdrMetadataVersionNumber (v : option Z) (b : ExtendedTagDataBlock) : ExtendedTagDataBlock :=
  mk (dataLength b) (extendedTag b) (error b) (supportsQuantizationRangeYCC b)
    (supportsQuantizationRangeRGB b) (overscanPT b) (overscanIT b) (overscanCE
    b) (supportsQMS b) (supportsVRR b) (supportsCinemaVRR b)
    (supportsNegativeMRR b) (supportsFVA b) (supportsALLM b)
    (supportsBT2020RGB b) (supportsBT2020YCC b) (supportsBT2020cYCC b)
    (supportsAdobeRGB b) (supportsAdobeYCC601 b) (supportssYCC601 b)
    (supportsxvYCC709 b) (supportsxvYCC601 b) (gamutMD3 b) (gamutMD2 b)
    (gamutMD1 b) (gamutMD0 b) (supportsICtCp b) (supportsST2094_40 b)
    (supportsST2094_10 b) (supportsBT2100ICtCp b) (vendorSpecificVideoOui b)
    (supportsHDR10 b) (supportsHDR10Plus b) (supportsDolbyVision b)
    (YCbCr420OnlyShortVideoDescriptors b)
    (YCbCr420CapableShortVideoDescriptors b) (supportedEOTFs b)
    (supportedStaticMetadataDescriptors b) (desiredContentMaxLuminanceCode b)
    (desiredContentMaxFrameAverageLuminanceCode b)
    (desiredContentMinLuminanceCode b) (supportedDynamicMetadataTypes b)
    (dynamicHdrMetadataTypeId b) v (videoFormatPreferences b) (speakerCount b)
    (roomTypeCode b) (roomTypeString b) (hdmiForumFeatures b) (hfSCDBVersion
    b) (maxTMDSCharacterRateMhz b) (maxFixedRateLink b) (vrrMinHz b) (vrrMaxHz
    b).

Definition set_videoFormatPreferences (v : option (list VideoFormatPreference)) (b : ExtendedTagDataBlock) : ExtendedTagDataBlock :=
  mk (dataLength b) (extendedTag b) (error b) (supportsQuantizationRangeYCC b)
    (supportsQuantizationRangeRGB b) (overscanPT b) (overscanIT b) (overscanCE
    b) (supportsQMS b) (supportsVRR b) (supportsCinemaVRR b)
    (supportsNegativeMRR b) (supportsFVA b) (supportsALLM b)
    (supportsBT2020RGB b) (supportsBT2020YCC b) (supportsBT2020cYCC b)
    (supportsAdobeRGB b) (supportsAdobeYCC601 b) (supportssYCC601 b)
    (supportsxvYCC709 b) (supportsxvYCC601 b) (gamutMD3 b) (gamutMD2 b)
    (gamutMD1 b) (gamutMD0 b) (supportsICtCp b) (supportsST2094_40 b)
    (supportsST2094_10 b) (supportsBT2100ICtCp b) (vendorSpecificVideoOui b)
    (supportsHDR10 b) (supportsHDR10Plus b) (supportsDolbyVision b)
    (YCbCr420OnlyShortVideoDescriptors b)
    (YCbCr420CapableShortVideoDescriptors b) (supportedEOTFs b)
    (supportedStaticMetadataDescriptors b) (desiredContentMaxLuminanceCode b)
    (desiredContentMaxFrameAverageLuminanceCode b)
    (desiredContentMinLuminanceCode b) (supportedDynamicMetadataTypes b)
    (dynamicHdrMetadataTypeId b) (dynamicHdrMetadataVersionNumber b) v
    (speakerCount b) (roomTypeCode b) (roomTypeString b) (hdmiForumFeatures b)
    (hfSCDBVersion b) (maxTMDSCharacterRateMhz b) (maxFixedRateLink b)
    (vrrMinHz b) (vrrMaxHz b).

Definition set_speakerCount (v : option Z) (b : ExtendedTagDataBlock) : ExtendedTagDataBlock :=
  mk (dataLength b) (extendedTag b) (error b) (supportsQuantizationRangeYCC b)
    (supportsQuantizationRangeRGB b) (overscanPT b) (overscanIT b) (overscanCE
    b) (supportsQMS b) (supportsVRR b) (supportsCinemaVRR b)
    (supportsNegativeMRR b) (supportsFVA b) (supportsALLM b)
    (supportsBT2020RGB b) (supportsBT2020YCC b) (supportsBT2020cYCC b)
    (supportsAdobeRGB b) (supportsAdobeYCC601 b) (supportssYCC601 b)
    (supportsxvYCC709 b) (supportsxvYCC601 b) (gamutMD3 b) (gamutMD2 b)
    (gamutMD1 b) (gamutMD0 b) (supportsICtCp b) (supportsST2094_40 b)
    (supportsST2094_10 b) (supportsBT2100ICtCp b) (vendorSpecificVideoOui b)
    (supportsHDR10 b) (supportsHDR10Plus b) (supportsDolbyVision b)
    (YCbCr420OnlyShortVideoDescriptors b)
    (YCbCr420CapableShortVideoDescriptors b) (supportedEOTFs b)
    (supportedStaticMetadataDescriptors b) (desiredContentMaxLuminanceCode b)
    (desiredContentMaxFrameAverageLuminanceCode b)
    (desiredContentMinLuminanceCode b) (supportedDynamicMetadataTypes b)
    (dynamicHdrMetadataTypeId b) (dynamicHdrMetadataVersionNumber b)
    (videoFormatPreferences b) v (roomTypeCode b) (roomTypeString b)
    (hdmiForumFeatures b) (hfSCDBVersion b) (maxTMDSCharacterRateMhz b)
    (maxFixedRateLink b) (vrrMinHz b) (vrrMaxHz b).

Definition set_roomTypeCode (v : option Z) (b : ExtendedTagDataBlock) : ExtendedTagDataBlock :=
  mk (dataLength b) (extendedTag b) (error b) (supportsQuantizationRangeYCC b)
    (supportsQuantizationRangeRGB b) (overscanPT b) (overscanIT b) (overscanCE
    b) (supportsQMS b) (supportsVRR b) (supportsCinemaVRR b)
    (supportsNegativeMRR b) (supportsFVA b) (supportsALLM b)
    (supportsBT2020RGB b) (supportsBT2020YCC b) (supportsBT2020cYCC b)
    (supportsAdobeRGB b) (supportsAdobeYCC601 b) (supportssYCC601 b)
    (supportsxvYCC709 b) (supportsxvYCC601 b) (gamutMD3 b) (gamutMD2 b)
    (gamutMD1 b) (gamutMD0 b) (supportsICtCp b) (supportsST2094_40 b)
    (supportsST2094_10 b) (supportsBT2100ICtCp b) (vendorSpecificVideoOui b)
    (supportsHDR10 b) (supportsHDR10Plus b) (supportsDolbyVision b)
    (YCbCr420OnlyShortVideoDescriptors b)
    (YCbCr420CapableShortVideoDescriptors b) (supportedEOTFs b)
    (supportedStaticMetadataDescriptors b) (desiredContentMaxLuminanceCode b)
    (desiredContentMaxFrameAverageLuminanceCode b)
    (desiredContentMinLuminanceCode b) (supportedDynamicMetadataTypes b)
    (dynamicHdrMetadataTypeId b) (dynamicHdrMetadataVersionNumber b)
    (videoFormatPreferences b) (speakerCount b) v (roomTypeString b)
    (hdmiForumFeatures b) (hfSCDBVersion b) (maxTMDSCharacterRateMhz b)
    (maxFixedRateLink b) (vrrMinHz b) (vrrMaxHz b).

Definition set_roomTypeString (v : option string) (b : ExtendedTagDataBlock) : ExtendedTagDataBlock :=
  mk (dataLength b) (extendedTag b) (error b) (supportsQuantizationRangeYCC b)
    (supportsQuantizationRangeRGB b) (overscanPT b) (overscanIT b) (overscanCE
    b) (supportsQMS b) (supportsVRR b) (supportsCinemaVRR b)
    (supportsNegativeMRR b) (supportsFVA b) (supportsALLM b)
    (supportsBT2020RGB b) (supportsBT2020YCC b) (supportsBT2020cYCC b)
    (supportsAdobeRGB b) (supportsAdobeYCC601 b) (supportssYCC601 b)
    (supportsxvYCC709 b) (supportsxvYCC601 b) (gamutMD3 b) (gamutMD2 b)
    (gamutMD1 b) (gamutMD0 b) (supportsICtCp b) (supportsST2094_40 b)
    (supportsST2094_10 b) (supportsBT2100ICtCp b) (vendorSpecificVideoOui b)
    (supportsHDR10 b) (supportsHDR10Plus b) (supportsDolbyVision b)
    (YCbCr420OnlyShortVideoDescriptors b)
    (YCbCr420CapableShortVideoDescriptors b) (supportedEOTFs b)
    (supportedStaticMetadataDescriptors b) (desiredContentMaxLuminanceCode b)
    (desiredContentMaxFrameAverageLuminanceCode b)
    (desiredContentMinLuminanceCode b) (supportedDynamicMetadataTypes b)
    (dynamicHdrMetadataTypeId b) (dynamicHdrMetadataVersionNumber b)
    (videoFormatPreferences b) (speakerCount b) (roomTypeCode b) v
    (hdmiForumFeatures b) (hfSCDBVersion b) (maxTMDSCharacterRateMhz b)
    (maxFixedRateLink b) (vrrMinHz b) (vrrMaxHz b).

Definition set_hdmiForumFeatures (v : option Forum.HdmiForumFeatures) (b : ExtendedTagDataBlock) : ExtendedTagDataBlock :=
  mk (dataLength b) (extendedTag b) (error b) (supportsQuantizationRangeYCC b)
    (supportsQuantizationRangeRGB b) (overscanPT b) (overscanIT b) (overscanCE
    b) (supportsQMS b) (supportsVRR b) (supportsCinemaVRR b)
    (supportsNegativeMRR b) (supportsFVA b) (supportsALLM b)
    (supportsBT2020RGB b) (supportsBT2020YCC b) (supportsBT2020cYCC b)
    (supportsAdobeRGB b) (supportsAdobeYCC601 b) (supportssYCC601 b)
    (supportsxvYCC709 b) (supportsxvYCC601 b) (gamutMD3 b) (gamutMD2 b)
    (gamutMD1 b) (gamutMD0 b) (supportsICtCp b) (supportsST2094_40 b)
    (supportsST2094_10 b) (supportsBT2100ICtCp b) (vendorSpecificVideoOui b)
    (supportsHDR10 b) (supportsHDR10Plus b) (supportsDolbyVision b)
    (YCbCr420OnlyShortVideoDescriptors b)
    (YCbCr420CapableShortVideoDescriptors b) (supportedEOTFs b)
    (supportedStaticMetadataDescriptors b) (desiredContentMaxLuminanceCode b)
    (desiredContentMaxFrameAverageLuminanceCode b)
    (desiredContentMinLuminanceCode b) (supportedDynamicMetadataTypes b)
    (dynamicHdrMetadataTypeId b) (dynamicHdrMetadataVersionNumber b)
    (videoFormatPreferences b) (speakerCount b) (roomTypeCode b)
    (roomTypeString b) v (hfSCDBVersion b) (maxTMDSCharacterRateMhz b)
    (maxFixedRateLink b) (vrrMinHz b) (vrrMaxHz b).

Definition set_hfSCDBVersion (v : option JS.number) (b : ExtendedTagDataBlock) : ExtendedTagDataBlock :=
  mk (dataLength b) (extendedTag b) (error b) (supportsQuantizationRangeYCC b)
    (supportsQuantizationRangeRGB b) (overscanPT b) (overscanIT b) (overscanCE
    b) (supportsQMS b) (supportsVRR b) (supportsCinemaVRR b)
    (supportsNegativeMRR b) (supportsFVA b) (supportsALLM b)
    (supportsBT2020RGB b) (supportsBT2020YCC b) (supportsBT2020cYCC b)
    (supportsAdobeRGB b) (supportsAdobeYCC601 b) (supportssYCC601 b)
    (supportsxvYCC709 b) (supportsxvYCC601 b) (gamutMD3 b) (gamutMD2 b)
    (gamutMD1 b) (gamutMD0 b) (supportsICtCp b) (supportsST2094_40 b)
    (supportsST2094_10 b) (supportsBT2100ICtCp b) (vendorSpecificVideoOui b)
    (supportsHDR10 b) (supportsHDR10Plus b) (supportsDolbyVision b)
    (YCbCr420OnlyShortVideoDescriptors b)
    (YCbCr420CapableShortVideoDescriptors b) (supportedEOTFs b)
    (supportedStaticMetadataDescriptors b) (desiredContentMaxLuminanceCode b)
    (desiredContentMaxFrameAverageLuminanceCode b)
    (desiredContentMinLuminanceCode b) (supportedDynamicMetadataTypes b)
    (dynamicHdrMetadataTypeId b) (dynamicHdrMetadataVersionNumber b)
    (videoFormatPreferences b) (speakerCount b) (roomTypeCode b)
    (roomTypeString b) (hdmiForumFeatures b) v (maxTMDSCharacterRateMhz b)
    (maxFixedRateLink b) (vrrMinHz b) (vrrMaxHz b).

Definition set_maxTMDSCharacterRateMhz (v : option JS.number) (b : ExtendedTagDataBlock) : ExtendedTagDataBlock :=
  mk (dataLength b) (extendedTag b) (error b) (supportsQuantizationRangeYCC b)
    (supportsQuantizationRangeRGB b) (overscanPT b) (overscanIT b) (overscanCE
    b) (supportsQMS b) (supportsVRR b) (supportsCinemaVRR b)
    (supportsNegativeMRR b) (supportsFVA b) (supportsALLM b)
    (supportsBT2020RGB b) (supportsBT2020YCC b) (supportsBT2020cYCC b)
    (supportsAdobeRGB b) (supportsAdobeYCC601 b) (supportssYCC601 b)
    (supportsxvYCC709 b) (supportsxvYCC601 b) (gamutMD3 b) (gamutMD2 b)
    (gamutMD1 b) (gamutMD0 b) (supportsICtCp b) (supportsST2094_40 b)
    (supportsST2094_10 b) (supportsBT2100ICtCp b) (vendorSpecificVideoOui b)
    (supportsHDR10 b) (supportsHDR10Plus b) (supportsDolbyVision b)
    (YCbCr420OnlyShortVideoDescriptors b)
    (YCbCr420CapableShortVideoDescriptors b) (supportedEOTFs b)
    (supportedStaticMetadataDescriptors b) (desiredContentMaxLuminanceCode b)
    (desiredContentMaxFrameAverageLuminanceCode b)
    (desiredContentMinLuminanceCode b) (supportedDynamicMetadataTypes b)
    (dynamicHdrMetadataTypeId b) (dynamicHdrMetadataVersionNumber b)
    (videoFormatPreferences b) (speakerCount b) (roomTypeCode b)
    (roomTypeString b) (hdmiForumFeatures b) (hfSCDBVersion b) v
    (maxFixedRateLink b) (vrrMinHz b) (vrrMaxHz b).

Definition set_maxFixedRateLink (v : option string) (b : ExtendedTagDataBlock) : ExtendedTagDataBlock :=
  mk (dataLength b) (extendedTag b) (error b) (supportsQuantizationRangeYCC b)
    (supportsQuantizationRangeRGB b) (overscanPT b) (overscanIT b) (overscanCE
    b) (supportsQMS b) (supportsVRR b) (supportsCinemaVRR b)
    (supportsNegativeMRR b) (supportsFVA b) (supportsALLM b)
    (supportsBT2020RGB b) (supportsBT2020YCC b) (supportsBT2020cYCC b)
    (supportsAdobeRGB b) (supportsAdobeYCC601 b) (supportssYCC601 b)
    (supportsxvYCC709 b) (supportsxvYCC601 b) (gamutMD3 b) (gamutMD2 b)
    (gamutMD1 b) (gamutMD0 b) (supportsICtCp b) (supportsST2094_40 b)
    (supportsST2094_10 b) (supportsBT2100ICtCp b) (vendorSpecificVideoOui b)
    (supportsHDR10 b) (supportsHDR10Plus b) (supportsDolbyVision b)
    (YCbCr420OnlyShortVideoDescriptors b)
    (YCbCr420CapableShortVideoDescriptors b) (supportedEOTFs b)
    (supportedStaticMetadataDescriptors b) (desiredContentMaxLuminanceCode b)
    (desiredContentMaxFrameAverageLuminanceCode b)
    (desiredContentMinLuminanceCode b) (supportedDynamicMetadataTypes b)
    (dynamicHdrMetadataTypeId b) (dynamicHdrMetadataVersionNumber b)
    (videoFormatPreferences b) (speakerCount b) (roomTypeCode b)
    (roomTypeString b) (hdmiForumFeatures b) (hfSCDBVersion b)
    (maxTMDSCharacterRateMhz b) v (vrrMinHz b) (vrrMaxHz b).

Definition set_vrrMinHz (v : option Z) (b : ExtendedTagDataBlock) : ExtendedTagDataBlock :=
  mk (dataLength b) (extendedTag b) (error b) (supportsQuantizationRangeYCC b)
    (supportsQuantizationRangeRGB b) (overscanPT b) (overscanIT b) (overscanCE
    b) (supportsQMS b) (supportsVRR b) (supportsCinemaVRR b)
    (supportsNegativeMRR b) (supportsFVA b) (supportsALLM b)
    (supportsBT2020RGB b) (supportsBT2020YCC b) (supportsBT2020cYCC b)
    (supportsAdobeRGB b) (supportsAdobeYCC601 b) (supportssYCC601 b)
    (supportsxvYCC709 b) (supportsxvYCC601 b) (gamutMD3 b) (gamutMD2 b)
    (gamutMD1 b) (gamutMD0 b) (supportsICtCp b) (supportsST2094_40 b)
    (supportsST2094_10 b) (supportsBT2100ICtCp b) (vendorSpecificVideoOui b)
    (supportsHDR10 b) (supportsHDR10Plus b) (supportsDolbyVision b)
    (YCbCr420OnlyShortVideoDescriptors b)
    (YCbCr420CapableShortVideoDescriptors b) (supportedEOTFs b)
    (supportedStaticMetadataDescriptors b) (desiredContentMaxLuminanceCode b)
    (desiredContentMaxFrameAverageLuminanceCode b)
    (desiredContentMinLuminanceCode b) (supportedDynamicMetadataTypes b)
    (dynamicHdrMetadataTypeId b) (dynamicHdrMetadataVersionNumber b)
    (videoFormatPreferences b) (speakerCount b) (roomTypeCode b)
    (roomTypeString b) (hdmiForumFeatures b) (hfSCDBVersion b)
    (maxTMDSCharacterRateMhz b) (maxFixedRateLink b) v (vrrMaxHz b).

Definition set_vrrMaxHz (v : option Z) (b : ExtendedTagDataBlock) : ExtendedTagDataBlock :=
  mk (dataLength b) (extendedTag b) (error b) (supportsQuantizationRangeYCC b)
    (supportsQuantizationRangeRGB b) (overscanPT b) (overscanIT b) (overscanCE
    b) (supportsQMS b) (supportsVRR b) (supportsCinemaVRR b)
    (supportsNegativeMRR b) (supportsFVA b) (supportsALLM b)
    (supportsBT2020RGB b) (supportsBT2020YCC b) (supportsBT2020cYCC b)
    (supportsAdobeRGB b) (supportsAdobeYCC601 b) (supportssYCC601 b)
    (supportsxvYCC709 b) (supportsxvYCC601 b) (gamutMD3 b) (gamutMD2 b)
    (gamutMD1 b) (gamutMD0 b) (supportsICtCp b) (supportsST2094_40 b)
    (supportsST2094_10 b) (supportsBT2100ICtCp b) (vendorSpecificVideoOui b)
    (supportsHDR10 b) (supportsHDR10Plus b) (supportsDolbyVision b)
    (YCbCr420OnlyShortVideoDescriptors b)
    (YCbCr420CapableShortVideoDescriptors b) (supportedEOTFs b)
    (supportedStaticMetadataDescriptors b) (desiredContentMaxLuminanceCode b)
    (desiredContentMaxFrameAverageLuminanceCode b)
    (desiredContentMinLuminanceCode b) (supportedDynamicMetadataTypes b)
    (dynamicHdrMetadataTypeId b) (dynamicHdrMetadataVersionNumber b)
    (videoFormatPreferences b) (speakerCount b) (roomTypeCode b)
    (roomTypeString b) (hdmiForumFeatures b) (hfSCDBVersion b)
    (maxTMDSCharacterRateMhz b) (maxFixedRateLink b) (vrrMinHz b) v.

End ExtTag.

(** [AnyDataBlock]: the union of the data block shapes, discriminated by
    [tag]. *)
Inductive AnyDataBlock : Type :=
| AnyReserved
| AnyAudio (b : Audio.AudioDataBlock)
| AnyVideo (b : Video.VideoDataBlock)
| AnyVendor (b : Vendor.VendorDataBlock)
| AnySpeaker (b : Speaker.SpeakerDataBlock)
| AnyExtended (b : ExtTag.ExtendedTagDataBlock).

Definition tag (block : AnyDataBlock) : DataBlockType :=
  match block with
  | AnyReserved => RESERVED
  | AnyAudio _ => AUDIO
  | AnyVideo _ => VIDEO
  | AnyVendor _ => VENDOR_SPECIFIC
  | AnySpeaker _ => SPEAKER_ALLOCATION
  | AnyExtended _ => EXTENDED_TAG
  end.

Inductive ExtensionType : Type :=
| cta_861 | displayid | unknown.

Module Extension.

Record ParsedExtensionBlock : Type := mk {
  blockNumber : Z;
  extTagByte : Z;
  revisionNumber : Z;
  dtdStart : Z;
  numDtds : Z;
  supportsUnderscan : bool;
  supportsBasicAudio : bool;
  supportsYCbCr444 : bool;
  supportsYCbCr422 : bool;
  dataBlockCollection : option (list (option AnyDataBlock));
  dtds : list Dtd;
  checksum : Z;
  rawBytes : list Z;
  isChecksumValid : option bool;
  extensionType : option ExtensionType
}.

End Extension.

Module Native.

Record NativeResolution : Type := mk {
  activeHorizontalPixels : Z;
  activeVerticalLines : Z;
  physicalWidthInMm : Z;
  physicalHeightInMm : Z;
  diagonalInches : option Q;
  isInterlaced : bool;
  refreshRateHz : Z
}.

End Native.

Module Product.

Record ProductInfo : Type := mk {
  productCode : option Z;
  modelName : option string;
  serialNumberInt : option Z;
  serialNumberStr : option string;
  unspecifiedStrings : option (list string);
  manufactureWeek : option Z;
  manufactureYear : option Z
}.

End Product.

Inductive HeaderValidity : Type :=
| OK | ERROR.

Module Base.

Record ParsedBaseEdidBlock : Type := mk {
  rawBytes : list Z;
  isHeaderValid : option bool;
  headerValidity : option HeaderValidity;
  vendorId : string;
  edidVersion : option Z;
  edidRevision : option Z;
  edidVersionString : option string;
  chromaticity : option ChromaticityCoordinates;
  timingBitmap : option Z;
  standardDisplayModes : option (list StandardDisplayMode);
  dtds : option (list Dtd);
  spwg : option SpwgData;
  numberOfExtensions : option Z;
  checksum : option Z;
  isChecksumValid : option bool
}.

End Base.

Inductive ColorGamut : Type :=
| srgb | display_p3 | adobe_rgb | rec_2020.

Module FS.

Record FeatureSupport : Type := mk {
  colorGamuts : list ColorGamut;
  maxInputSignalBitDepth : Z;
  hdmiVersion : option Q;
  supportsHDR10 : bool;
  supportsHDR10Plus : bool;
  supportsDolbyVision : bool;
  minSrrHz : JS.extnum;
  maxSrrHz : JS.extnum;
  supportsVRR : bool;
  minVrrHz : option Z;
  maxVrrHz : option Z;
  supportsGameMode : bool;
  supportsALLM : bool;
  edidVersion : option Q;
  displayIdVersion : option Q
}.

End FS.

Module Edid.

Record ParsedEdid : Type := mk {
  bytes : list Z;
  warnings : list ParsedEdidWarning;
  isHeaderValid : option bool;
  isChecksumValid : option bool;
  expectedExtensionCount : option Z;
  baseBlock : Base.ParsedBaseEdidBlock;
  extensions : list Extension.ParsedExtensionBlock;
  featureSupport : FS.FeatureSupport;
  vendorInfo : VendorInfo;
  productInfo : Product.ProductInfo;
  basicDisplayParams : option BasicDisplayParams;
  nativeResolution : option Native.NativeResolution
}.

End Edid.

(** The local variables of [buildFeatureSupport], which its helper closures
    ([addSrrRate], [addVrrMin], ...) update in place. *)
Module Acc.

Record FeatureState : Type := mk {
  colorGamuts : list ColorGamut;
  maxInputSignalBitDepth : Z;
  supportsHDR10 : bool;
  supportsHDR10Plus : bool;
  supportsDolbyVision : bool;
  supportsVRR : bool;
  supportsGameMode : bool;
  supportsALLM : bool;
  minVrrHz : option Z;
  maxVrrHz : option Z;
  hdmiVersion : option Q;
  displayIdVersion : option Q;
  minSrrHz : JS.extnum;
  maxSrrHz : JS.extnum
}.

Definition set_colorGamuts (v : list ColorGamut) (s : FeatureState) : FeatureState :=
  mk v (maxInputSignalBitDepth s) (supportsHDR10 s) (supportsHDR10Plus s)
    (supportsDolbyVision s) (supportsVRR s) (supportsGameMode s) (supportsALLM
    s) (minVrrHz s) (maxVrrHz s) (hdmiVersion s) (displayIdVersion s)
    (minSrrHz s) (maxSrrHz s).

Definition set_maxInputSignalBitDepth (v : Z) (s : FeatureState) : FeatureState :=
  mk (colorGamuts s) v (supportsHDR10 s) (supportsHDR10Plus s)
    (supportsDolbyVision s) (supportsVRR s) (supportsGameMode s) (supportsALLM
    s) (minVrrHz s) (maxVrrHz s) (hdmiVersion s) (displayIdVersion s)
    (minSrrHz s) (maxSrrHz s).

Definition set_supportsHDR10 (v : bool) (s : FeatureState) : FeatureState :=
  mk (colorGamuts s) (maxInputSignalBitDepth s) v (supportsHDR10Plus s)
    (supportsDolbyVision s) (supportsVRR s) (supportsGameMode s) (supportsALLM
    s) (minVrrHz s) (maxVrrHz s) (hdmiVersion s) (displayIdVersion s)
    (minSrrHz s) (maxSrrHz s).

Definition set_supportsHDR10Plus (v : bool) (s : FeatureState) : FeatureState :=
  mk (colorGamuts s) (maxInputSignalBitDepth s) (supportsHDR10 s) v
    (supportsDolbyVision s) (supportsVRR s) (supportsGameMode s) (supportsALLM
    s) (minVrrHz s) (maxVrrHz s) (hdmiVersion s) (displayIdVersion s)
    (minSrrHz s) (maxSrrHz s).

Definition set_supportsDolbyVision (v : bool) (s : FeatureState) : FeatureState :=
  mk (colorGamuts s) (maxInputSignalBitDepth s) (supportsHDR10 s)
    (supportsHDR10Plus s) v (supportsVRR s) (supportsGameMode s) (supportsALLM
    s) (minVrrHz s) (maxVrrHz s) (hdmiVersion s) (displayIdVersion s)
    (minSrrHz s) (maxSrrHz s).

Definition set_supportsVRR (v : bool) (s : FeatureState) : FeatureState :=
  mk (colorGamuts s) (maxInputSignalBitDepth s) (supportsHDR10 s)
    (supportsHDR10Plus s) (supportsDolbyVision s) v (supportsGameMode s)
    (supportsALLM s) (minVrrHz s) (maxVrrHz s) (hdmiVersion s)
    (displayIdVersion s) (minSrrHz s) (maxSrrHz s).

Definition set_supportsGameMode (v : bool) (s : FeatureState) : FeatureState :=
  mk (colorGamuts s) (maxInputSignalBitDepth s) (supportsHDR10 s)
    (supportsHDR10Plus s) (supportsDolbyVision s) (supportsVRR s) v
    (supportsALLM s) (minVrrHz s) (maxVrrHz s) (hdmiVersion s)
    (displayIdVersion s) (minSrrHz s) (maxSrrHz s).

Definition set_supportsALLM (v : bool) (s : FeatureState) : FeatureState :=
  mk (colorGamuts s) (maxInputSignalBitDepth s) (supportsHDR10 s)
    (supportsHDR10Plus s) (supportsDolbyVision s) (supportsVRR s)
    (supportsGameMode s) v (minVrrHz s) (maxVrrHz s) (hdmiVersion s)
    (displayIdVersion s) (minSrrHz s) (maxSrrHz s).

Definition set_minVrrHz (v : option Z) (s : FeatureState) : FeatureState :=
  mk (colorGamuts s) (maxInputSignalBitDepth s) (supportsHDR10 s)
    (supportsHDR10Plus s) (supportsDolbyVision s) (supportsVRR s)
    (supportsGameMode s) (supportsALLM s) v (maxVrrHz s) (hdmiVersion s)
    (displayIdVersion s) (minSrrHz s) (maxSrrHz s).

Definition set_maxVrrHz (v : option Z) (s : FeatureState) : FeatureState :=
  mk (colorGamuts s) (maxInputSignalBitDepth s) (supportsHDR10 s)
    (supportsHDR10Plus s) (supportsDolbyVision s) (supportsVRR s)
    (supportsGameMode s) (supportsALLM s) (minVrrHz s) v (hdmiVersion s)
    (displayIdVersion s) (minSrrHz s) (maxSrrHz s).

Definition set_hdmiVersion (v : option Q) (s : FeatureState) : FeatureState :=
  mk (colorGamuts s) (maxInputSignalBitDepth s) (supportsHDR10 s)
    (supportsHDR10Plus s) (supportsDolbyVision s) (supportsVRR s)
    (supportsGameMode s) (supportsALLM s) (minVrrHz s) (maxVrrHz s) v
    (displayIdVersion s) (minSrrHz s) (maxSrrHz s).

Definition set_displayIdVersion (v : option Q) (s : FeatureState) : FeatureState :=
  mk (colorGamuts s) (maxInputSignalBitDepth s) (supportsHDR10 s)
    (supportsHDR10Plus s) (supportsDolbyVision s) (supportsVRR s)
    (supportsGameMode s) (supportsALLM s) (minVrrHz s) (maxVrrHz s)
    (hdmiVersion s) v (minSrrHz s) (maxSrrHz s).

Definition set_minSrrHz (v : JS.extnum) (s : FeatureState) : FeatureState :=
  mk (colorGamuts s) (maxInputSignalBitDepth s) (supportsHDR10 s)
    (supportsHDR10Plus s) (supportsDolbyVision s) (supportsVRR s)
    (supportsGameMode s) (supportsALLM s) (minVrrHz s) (maxVrrHz s)
    (hdmiVersion s) (displayIdVersion s) v (maxSrrHz s).

Definition set_maxSrrHz (v : JS.extnum) (s : FeatureState) : FeatureState :=
  mk (colorGamuts s) (maxInputSignalBitDepth s) (supportsHDR10 s)
    (supportsHDR10Plus s) (supportsDolbyVision s) (supportsVRR s)
    (supportsGameMode s) (supportsALLM s) (minVrrHz s) (maxVrrHz s)
    (hdmiVersion s) (displayIdVersion s) (minSrrHz s) v.

End Acc.

Record ExtensionParseContext : Type := mkExtensionParseContext {
  lastVideoBlock : option Video.VideoDataBlock
}.

Section Parser.

(** The generated lookup tables of [gen/vids] (object lookups by VID) and the
    host's [Math.hypot]. *)
Variable LINUXHW_VENDOR_MAP : string -> option string.
Variable LANSWEEPER_VENDOR_MAP : string -> option string.
Variable HWDATA_VENDOR_MAP : string -> option string.
Variable Math_hypot : Q -> Q -> Q.

Definition getVendorInfo (vid : string) : VendorInfo :=
  let notable :=
    find (fun vendor => String.eqb (fst vendor) vid) NOTABLE_VENDORS in
  let linuxhwName := str_or (LINUXHW_VENDOR_MAP vid) None in
  let lansweeperName := str_or (LANSWEEPER_VENDOR_MAP vid) None in
  let hwdataName := str_or (HWDATA_VENDOR_MAP vid) None in
  let goodName :=
    default vid
      (str_or (snd <$> notable)
         (str_or linuxhwName (str_or lansweeperName
            (str_or hwdataName (Some vid))))) in
  let shortBrandName := str_or (snd <$> notable) None in
  mkVendorInfo vid goodName shortBrandName linuxhwName lansweeperName
    hwdataName.

(** ** Diagonal sizes ([parser-utils.ts]) *)

Definition computeDiagonalMm (widthInMm heightInMm : option Z) : option Q :=
  match widthInMm, heightInMm with
  | Some w, Some h =>
      let diagonalInMm := Math_hypot (inject_Z w) (inject_Z h) in
      Some (inject_Z (JS.Math_round (diagonalInMm * 10)) / 10)%Q
  | _, _ => None
  end.

Definition computeDiagonalInches (widthInMm heightInMm : option Z) : option Q :=
  match widthInMm, heightInMm with
  | Some w, Some h =>
      let MM_PER_INCH := (254 # 10)%Q in
      let diagonalInMm := Math_hypot (inject_Z w) (inject_Z h) in
      let diagonalInInches := (diagonalInMm / MM_PER_INCH)%Q in
      Some (inject_Z (JS.Math_round (diagonalInInches * 10)) / 10)%Q
  | _, _ => None
  end.

(** ** Base block *)

Definition getEdidVersion (reader : BlockReader) : M Z :=
  let EDID_VERSION := 18 in
  u8OrZero reader EDID_VERSION.

Definition getEdidRevision (reader : BlockReader) : M Z :=
  let EDID_REVISION := 19 in
  u8OrZero reader EDID_REVISION.

Definition getVendorId (reader : BlockReader) : M string :=
  let FIVE_BIT_LETTER_MASK := 0x1f in
  let EISA_ID_BYTE1 := 8 in
  let EISA_ID_BYTE2 := 9 in
  let EISA_LETTER1_OFF := 2 in
  let EISA_LETTER2_OFF := 5 in
  let LETTER2_TOP_BYTES := 3 in
  let LETTER2_TOP_MASK := 0x03 in
  let LETTER2_BOT_MASK := 0x07 in
  do byte1 <- u8OrZero reader EISA_ID_BYTE1;
  do byte2 <- u8OrZero reader EISA_ID_BYTE2;
  let firstLetter :=
    JS.band (JS.shr byte1 EISA_LETTER1_OFF) FIVE_BIT_LETTER_MASK in
  let secondLetterTop := JS.band byte1 LETTER2_TOP_MASK in
  let secondLetterBottom :=
    JS.band (JS.shr byte2 EISA_LETTER2_OFF) LETTER2_BOT_MASK in
  let secondLetter :=
    JS.bor (JS.shl secondLetterTop LETTER2_TOP_BYTES) secondLetterBottom in
  let thirdLetter := JS.band byte2 FIVE_BIT_LETTER_MASK in
  ret (intToAscii firstLetter ++ intToAscii secondLetter
       ++ intToAscii thirdLetter)%string.

Definition getProductCode (reader : BlockReader) : M Z :=
  let PRODUCT_CODE1 := 10 in
  let PRODUCT_CODE2 := 11 in
  do hi <- u8OrZero reader PRODUCT_CODE2;
  do lo <- u8OrZero reader PRODUCT_CODE1;
  ret (JS.bor (JS.shl hi 8) lo).

Definition getSerialNumberInt (reader : BlockReader) : M Z :=
  let SERIAL_NUMBER1 := 12 in
  let SERIAL_NUMBER2 := 13 in
  let SERIAL_NUMBER3 := 14 in
  let SERIAL_NUMBER4 := 15 in
  do b4 <- u8OrZero reader SERIAL_NUMBER4;
  do b3 <- u8OrZero reader SERIAL_NUMBER3;
  do b2 <- u8OrZero reader SERIAL_NUMBER2;
  do b1 <- u8OrZero reader SERIAL_NUMBER1;
  ret (JS.bor (JS.bor (JS.bor (JS.shl b4 24) (JS.shl b3 16)) (JS.shl b2 8)) b1).

Definition getManufactureWeek (reader : BlockReader) : M Z :=
  let MANUFACTURE_WEEK := 16 in
  u8OrZero reader MANUFACTURE_WEEK.

Definition getManufactureYear (reader : BlockReader) : M Z :=
  let MANUFACTURE_YEAR := 17 in
  do y <- u8OrZero reader MANUFACTURE_YEAR;
  ret (y + 1990).

Definition getBasicDisplayParams (reader : BlockReader) : M BasicDisplayParams :=
  let VIDEO_IN_PARAMS_BITMAP := 20 in
  let DIGITAL_INPUT := 0x80 in
  do videoInParams <- u8OrZero reader VIDEO_IN_PARAMS_BITMAP;
  let digital := JS.truthy (JS.band videoInParams DIGITAL_INPUT) in
  let VESA_DFP_COMPATIBLE := 0x01 in
  let WHITE_SYNC_LVLS_OFF := 5 in
  let WHITE_SYNC_LVLS_MASK := 0x03 in
  let BLANK_TO_BLACK_OFF := 4 in
  let BLANK_TO_BLACK_MASK := 0x01 in
  let SEPARATE_SYNC_OFF := 3 in
  let SEPARATE_SYNC_MASK := 0x01 in
  let COMPOSITE_SYNC_OFF := 2 in
  let COMPOSITE_SYNC_MASK := 0x01 in
  let SYNC_ON_GREEN_OFF := 1 in
  let SYNC_ON_GREEN_MASK := 0x01 in
  let VSYNC_SERRATED_MASK := 0x01 in
  let analog (v : bool) : option bool := if digital then None else Some v in
  let MAX_HOR_IMG_SIZE := 21 in
  do w <- u8OrZero reader MAX_HOR_IMG_SIZE;
  let physicalWidthInMm := w * 10 in
  let MAX_VERT_IMG_SIZE := 22 in
  do h <- u8OrZero reader MAX_VERT_IMG_SIZE;
  let physicalHeightInMm := h * 10 in
  let diagonalInches :=
    computeDiagonalInches (Some physicalWidthInMm) (Some physicalHeightInMm) in
  let DISPLAY_GAMMA := 23 in
  do g <- u8OrZero reader DISPLAY_GAMMA;
  let displayGamma := (inject_Z g * ((254 # 100) / 255) + 1)%Q in
  let SUPPORTED_FEATURES_BITMAP := 24 in
  do supportedFeatures <- u8OrZero reader SUPPORTED_FEATURES_BITMAP;
  let DPMS_STANDBY := 0x80 in
  let DPMS_SUSPEND := 0x40 in
  let DPMS_ACTIVE_OFF := 0x20 in
  let DISPLAY_TYPE_OFF := 3 in
  let DISPLAY_TYPE_MASK := 0x03 in
  let STANDARD_SRGB := 0x04 in
  let PREFERRED_TIMING := 0x02 in
  let GTF_SUPPORTED := 0x01 in
  ret {|
    isDigital := digital;
    isVesaDfpCompatible :=
      if digital
      then Some (JS.truthy (JS.band videoInParams VESA_DFP_COMPATIBLE))
      else None;
    whiteSyncLevels :=
      if digital then None
      else Some (JS.band (JS.shr videoInParams WHITE_SYNC_LVLS_OFF)
                   WHITE_SYNC_LVLS_MASK);
    isBlankToBlack :=
      analog (JS.truthy (JS.band (JS.shr videoInParams BLANK_TO_BLACK_OFF)
                           BLANK_TO_BLACK_MASK));
    isSeparateSyncSupported :=
      analog (JS.truthy (JS.band (JS.shr videoInParams SEPARATE_SYNC_OFF)
                           SEPARATE_SYNC_MASK));
    isCompositeSyncSupported :=
      analog (JS.truthy (JS.band (JS.shr videoInParams COMPOSITE_SYNC_OFF)
                           COMPOSITE_SYNC_MASK));
    isSyncOnGreen :=
      analog (JS.truthy (JS.band (JS.shr videoInParams SYNC_ON_GREEN_OFF)
                           SYNC_ON_GREEN_MASK));
    isVsyncSerrated :=
      analog (JS.truthy (JS.band videoInParams VSYNC_SERRATED_MASK));
    physicalWidthInMm := physicalWidthInMm;
    physicalHeightInMm := physicalHeightInMm;
    bdp_diagonalInches := diagonalInches;
    displayGamma := displayGamma;
    supportsDpmsStandby := JS.truthy (JS.band supportedFeatures DPMS_STANDBY);
    supportsDpmsSuspend := JS.truthy (JS.band supportedFeatures DPMS_SUSPEND);
    supportsDpmsActiveOff :=
      JS.truthy (JS.band supportedFeatures DPMS_ACTIVE_OFF);
    displayTypeCode :=
      JS.band (JS.shr supportedFeatures DISPLAY_TYPE_OFF) DISPLAY_TYPE_MASK;
    isStandardSRgb := JS.truthy (JS.band supportedFeatures STANDARD_SRGB);
    isPreferredTiming := JS.truthy (JS.band supportedFeatures PREFERRED_TIMING);
    isGtfSupported := JS.truthy (JS.band supportedFeatures GTF_SUPPORTED)
  |}.

Definition getChromaticityCoordinates (reader : BlockReader)
    : M ChromaticityCoordinates :=
  let TWO_BIT_MASK := 0x03 in
  let TWO_BIT_OFF := 2 in
  let FOUR_BIT_OFF := 4 in
  let SIX_BIT_OFF := 6 in
  let coords (raw : Z) : option Q := Some (inject_Z raw / 1024)%Q in
  let RED_GREEN_LSB := 25 in
  let RED_X_MSB := 27 in
  do redGreenLsb <- u8OrZero reader RED_GREEN_LSB;
  do rx <- u8OrZero reader RED_X_MSB;
  let redX := JS.bor (JS.shl rx TWO_BIT_OFF)
                (JS.band (JS.shr redGreenLsb SIX_BIT_OFF) TWO_BIT_MASK) in
  let RED_Y_MSB := 28 in
  do ry <- u8OrZero reader RED_Y_MSB;
  let redY := JS.bor (JS.shl ry TWO_BIT_OFF)
                (JS.band (JS.shr redGreenLsb FOUR_BIT_OFF) TWO_BIT_MASK) in
  let GREEN_X_MSB := 29 in
  do gx <- u8OrZero reader GREEN_X_MSB;
  let greenX := JS.bor (JS.shl gx TWO_BIT_OFF)
                  (JS.band (JS.shr redGreenLsb TWO_BIT_OFF) TWO_BIT_MASK) in
  let GREEN_Y_MSB := 30 in
  do gy <- u8OrZero reader GREEN_Y_MSB;
  let greenY := JS.bor (JS.shl gy TWO_BIT_OFF)
                  (JS.band redGreenLsb TWO_BIT_MASK) in
  let BLUE_WHITE_LSB := 26 in
  let BLUE_X_MSB := 31 in
  do blueWhiteLsb <- u8OrZero reader BLUE_WHITE_LSB;
  do bx <- u8OrZero reader BLUE_X_MSB;
  let blueX := JS.bor (JS.shl bx TWO_BIT_OFF)
                 (JS.band (JS.shr blueWhiteLsb SIX_BIT_OFF) TWO_BIT_MASK) in
  let BLUE_Y_MSB := 32 in
  do by_ <- u8OrZero reader BLUE_Y_MSB;
  let blueY := JS.bor (JS.shl by_ TWO_BIT_OFF)
                 (JS.band (JS.shr blueWhiteLsb FOUR_BIT_OFF) TWO_BIT_MASK) in
  let WHITE_X_MSB := 33 in
  do wx <- u8OrZero reader WHITE_X_MSB;
  let whiteX := JS.bor (JS.shl wx TWO_BIT_OFF)
                  (JS.band (JS.shr blueWhiteLsb TWO_BIT_OFF) TWO_BIT_MASK) in
  let WHITE_Y_MSB := 34 in
  do wy <- u8OrZero reader WHITE_Y_MSB;
  let whiteY := JS.bor (JS.shl wy TWO_BIT_OFF)
                  (JS.band blueWhiteLsb TWO_BIT_MASK) in
  ret {|
    redX := redX; redXCoords := coords redX;
    redY := redY; redYCoords := coords redY;
    greenX := greenX; greenXCoords := coords greenX;
    greenY := greenY; greenYCoords := coords greenY;
    blueX := blueX; blueXCoords := coords blueX;
    blueY := blueY; blueYCoords := coords blueY;
    whiteX := whiteX; whiteXCoords := coords whiteX;
    whiteY := whiteY; whiteYCoords := coords whiteY
  |}.

Definition getTimingBitmap (reader : BlockReader) : M Z :=
  let TIMING_BITMAP1 := 35 in
  let TIMING_BITMAP2 := 36 in
  let TIMING_BITMAP3 := 37 in
  do b1 <- u8OrZero reader TIMING_BITMAP1;
  do b2 <- u8OrZero reader TIMING_BITMAP2;
  do b3 <- u8OrZero reader TIMING_BITMAP3;
  ret (JS.bor (JS.bor (JS.shl b1 16) (JS.shl b2 8)) b3).

Definition STD_DISPLAY_MODES_START : Z := 38.
Definition STD_DISPLAY_MODES_END : Z := 53.

(** One iteration of the [while] loop of [getStandardDisplayModes]: [None]
    is the [break] on an unreadable byte;
    [stdDispModesArray[arrayCounter] = ...] with [arrayCounter] equal to the
    array's length appends. *)
Definition getStandardDisplayModes_step (reader : BlockReader) (index : Z)
    (stdDispModesArray : list StandardDisplayMode)
    : M (option (list StandardDisplayMode)) :=
  do byte1 <- u8 reader index;
  do byte2 <- u8 reader (index + 1);
  match byte1, byte2 with
  | Some byte1, Some byte2 =>
      if negb (byte1 =? 0x01) && negb (byte2 =? 0x01) then
        let XY_PIXEL_RATIO_OFF := 6 in
        let XY_PIXEL_RATIO_MASK := 0x03 in
        let VERTICAL_FREQUENCY_MASK := 0x3f in
        let standardDisplayModes := {|
          xResolutionPx := Some ((byte1 + 31) * 8);
          xyPixelRatio :=
            Some (JS.band (JS.shr byte2 XY_PIXEL_RATIO_OFF)
                    XY_PIXEL_RATIO_MASK);
          vertFreqHz := Some (JS.band byte2 VERTICAL_FREQUENCY_MASK + 60)
        |} in
        ret (Some (stdDispModesArray ++ [standardDisplayModes]))
      else ret (Some stdDispModesArray)
  | _, _ => ret None
  end.

Equations? getStandardDisplayModes_loop (reader : BlockReader) (index : Z)
    (stdDispModesArray : list StandardDisplayMode) (ctx : ReadContext)
    : list StandardDisplayMode * ReadContext
    by wf (Z.to_nat (STD_DISPLAY_MODES_END - index)) lt :=
  getStandardDisplayModes_loop reader index stdDispModesArray ctx
    with inspect (index <? STD_DISPLAY_MODES_END) => {
    | exist _ false _ => (stdDispModesArray, ctx);
    | exist _ true Hlt
        with getStandardDisplayModes_step reader index stdDispModesArray ctx => {
        | (None, ctx') => (stdDispModesArray, ctx');
        | (Some stdDispModesArray', ctx') =>
            getStandardDisplayModes_loop reader (index + 2)
              stdDispModesArray' ctx' } }.
Proof.
  apply Z.ltb_lt in Hlt. unfold STD_DISPLAY_MODES_END in *. lia.
Qed.

Definition getStandardDisplayModes (reader : BlockReader)
    : M (list StandardDisplayMode) :=
  getStandardDisplayModes_loop reader STD_DISPLAY_MODES_START [].

(** ** Monitor descriptors *)

Definition DTD_LENGTH : Z := 18.

(** [while (chars.length > 0 && p(chars[chars.length - 1])) chars.pop()]. *)
Fixpoint popWhile (p : Z -> bool) (chars : list Z) : list Z :=
  match chars with
  | [] => []
  | c :: rest =>
      match popWhile p rest with
      | [] => if p c then [] else [c]
      | rest' => c :: rest'
      end
  end.

Definition parseMonitorDescriptorText (reader : BlockReader)
    (descriptorOffset : Z) : M (list Z) :=
  let TEXT_OFFSET := 5 in
  let TEXT_LENGTH := 13 in
  let LINE_FEED := 0x0a in
  let NUL := 0x00 in
  let SPACE := 0x20 in
  do chars <-
    forLoop (Z.to_nat TEXT_LENGTH) 0
      (fun index chars =>
         do byte <- u8OrZero reader (descriptorOffset + TEXT_OFFSET + index);
         if (byte =? LINE_FEED) || (byte =? NUL)
         then ret (Break chars)
         else ret (Continue (chars ++ [byte])))
      [];
  ret (popWhile (fun c => c =? SPACE) chars).

Definition string_of_codes (codes : list Z) : string :=
  string_of_list_ascii (map JS.fromCharCode codes).

(** Character classes of the regular expressions below. *)
Definition isDigit (c : Z) : bool := (0x30 <=? c) && (c <=? 0x39).
Definition isAlpha (c : Z) : bool :=
  ((0x41 <=? c) && (c <=? 0x5a)) || ((0x61 <=? c) && (c <=? 0x7a)).
Definition isWordChar (c : Z) : bool := isDigit c || isAlpha c || (c =? 0x5f).

(** [part.replace(/^.*</, '')]: the text after the last [<], if there is one. *)
Fixpoint afterLast (ch : Z) (part : list Z) : option (list Z) :=
  match part with
  | [] => None
  | c :: rest =>
      match afterLast ch rest with
      | Some r => Some r
      | None => if c =? ch then Some rest else None
      end
  end.

(** [part.replace(/\^.*$/, '')]: the text before the first caret. *)
Fixpoint beforeFirst (ch : Z) (part : list Z) : list Z :=
  match part with
  | [] => []
  | c :: rest => if c =? ch then [] else c :: beforeFirst ch rest
  end.

Fixpoint spanDigits (part : list Z) : list Z * list Z :=
  match part with
  | [] => ([], [])
  | c :: rest =>
      if isDigit c then let (ds, r) := spanDigits rest in (c :: ds, r)
      else ([], part)
  end.

(** Length of a match of [(\d+)\*(\d+)\b] at the head of [part]. *)
Definition resolutionMatchLength (part : list Z) : option nat :=
  let (d1, r1) := spanDigits part in
  match d1, r1 with
  | _ :: _, star :: r2 =>
      if star =? 0x2a then
        let (d2, r3) := spanDigits r2 in
        match d2 with
        | _ :: _ =>
            let atBoundary :=
              match r3 with [] => true | c :: _ => negb (isWordChar c) end in
            if atBoundary then Some (length d1 + 1 + length d2)%nat else None
        | [] => None
        end
      else None
  | _, _ => None
  end.

(** [part.replace(/\b(\d+)\*(\d+)\b/g, '$1x$2')], scanning left to right:
    [inMatch] counts the characters of the current match still to copy, and
    [prevWord] tells whether the previous character is a word character. *)
Fixpoint replaceResolutionStars (prevWord : bool) (inMatch : nat)
    (part : list Z) : list Z :=
  match part with
  | [] => []
  | c :: rest =>
      match inMatch with
      | S k =>
          (if c =? 0x2a then 0x78 else c) :: replaceResolutionStars true k rest
      | O =>
          match (if prevWord then None else resolutionMatchLength part) with
          | Some (S k) => c :: replaceResolutionStars true k rest
          | _ => c :: replaceResolutionStars (isWordChar c) 0 rest
          end
      end
  end.

Fixpoint dropWhile (p : Z -> bool) (part : list Z) : list Z :=
  match part with
  | [] => []
  | c :: rest => if p c then dropWhile p rest else part
  end.

(** [part.trim()] on printable ASCII text. *)
Definition trim (part : list Z) : list Z :=
  popWhile (fun c => c =? 0x20) (dropWhile (fun c => c =? 0x20) part).

(** Modelled from the spec: [isTruthy] of [util/truthy], which is not among
    the sources; on strings it keeps the non-empty ones. *)
Definition isTruthy (part : list Z) : bool :=
  match part with [] => false | _ => true end.

(** State of the byte loop of [sanitizeMonitorDescriptorText]. *)
Definition pushPart (st : list (list Z) * list Z) : list (list Z) * list Z :=
  let (parts, chars) := st in
  let chars := popWhile (fun c => c =? 0x20) chars in
  match chars with
  | [] => (parts, [])
  | _ => (parts ++ [chars], [])
  end.

Definition sanitizeMonitorDescriptorText (bytes : list Z) : list string :=
  let ASCII_PRINTABLE_LOW := 0x20 in
  let ASCII_PRINTABLE_HIGH := 0x7e in
  let SPACE := 0x20 in
  let LOWERCASE_X := 0x78 in
  let MULTIPLICATION_SIGN := 0xd7 in
  let step (st : list (list Z) * list Z) (byte : Z) :=
    let (parts, chars) := st in
    if byte =? MULTIPLICATION_SIGN then (parts, chars ++ [LOWERCASE_X])
    else if (byte <? ASCII_PRINTABLE_LOW) || (ASCII_PRINTABLE_HIGH <? byte)
    then pushPart st
    else if (byte =? SPACE) &&
            match last chars with None => true | Some c => c =? SPACE end
    then st
    else (parts, chars ++ [byte]) in
  let parts := fst (pushPart (fold_left step bytes ([], []))) in
  let cleaned :=
    map (fun part =>
           let part := default part (afterLast 0x3c part) in
           let part := beforeFirst 0x5e part in
           let part := popWhile (fun c => c =? 0x2a) part in
           let part := replaceResolutionStars false 0 part in
           trim part)
        parts in
  let kept :=
    List.filter (fun part =>
              let isAtLeast3Chars := (3 <=? length part)%nat in
              let startsWithAlphaNum :=
                match part with
                | c :: _ => isDigit c || isAlpha c
                | [] => false
                end in
              let meetsAllPositiveCriteria :=
                isAtLeast3Chars && startsWithAlphaNum in
              let containsWeirdChars :=
                existsb (fun c => (c =? 0x7c) || (c =? 0x5c) || (c =? 0x60))
                  part in
              let meetsAllNegativeCriteria := negb containsWeirdChars in
              meetsAllPositiveCriteria && meetsAllNegativeCriteria)
           cleaned in
  map string_of_codes (List.filter isTruthy kept).

Definition parseMonitorDescriptorPayload (reader : BlockReader)
    (descriptorOffset : Z) : M (list Z) :=
  let TEXT_OFFSET := 5 in
  let TEXT_LENGTH := 13 in
  forLoop (Z.to_nat TEXT_LENGTH) 0
    (fun index payload =>
       do byte <- u8OrZero reader (descriptorOffset + TEXT_OFFSET + index);
       ret (Continue (payload ++ [byte])))
    [].

(** [bytes[i] ?? 0] on a byte array. *)
Definition at0 (bytes : list Z) (i : Z) : Z :=
  if i <? 0 then 0 else default 0 (bytes !! Z.to_nat i).

(** The [while (end > startInclusive)] loop of [decodeSpwgPartNumber]. *)
Fixpoint decodeSpwgPartNumber_end (bytes : list Z) (n : nat) (end_ : Z) : Z :=
  match n with
  | O => end_
  | S n' =>
      let byte := at0 bytes (end_ - 1) in
      if (byte =? 0x20) || (byte =? 0x00) || (byte =? 0x0a)
      then decodeSpwgPartNumber_end bytes n' (end_ - 1)
      else end_
  end.

(** The [for (index = startInclusive; index < end; index++)] loop. *)
Fixpoint decodeSpwgPartNumber_text (bytes : list Z) (n : nat) (index : Z)
    (text : list Z) : list Z :=
  match n with
  | O => text
  | S n' =>
      let byte := at0 bytes index in
      if (byte =? 0x0a) || (byte =? 0x00) then text
      else if (0x20 <=? byte) && (byte <=? 0x7e)
      then decodeSpwgPartNumber_text bytes n' (index + 1) (text ++ [byte])
      else decodeSpwgPartNumber_text bytes n' (index + 1) text
  end.

Definition decodeSpwgPartNumber (bytes : list Z)
    (startInclusive endExclusive : Z) : string :=
  let end_ :=
    decodeSpwgPartNumber_end bytes (Z.to_nat (endExclusive - startInclusive))
      endExclusive in
  string_of_codes
    (decodeSpwgPartNumber_text bytes (Z.to_nat (end_ - startInclusive))
       startInclusive []).

Definition isSpwgDescriptor4Payload (payload : list Z) : bool :=
  let LINE_FEED := 0x0a in
  let LVDS_CHANNELS_OFFSET := 8 in
  let PANEL_SELF_TEST_OFFSET := 9 in
  let TERMINATOR_OFFSET := 10 in
  let lvdsChannels := at0 payload LVDS_CHANNELS_OFFSET in
  if negb (lvdsChannels =? 1) && negb (lvdsChannels =? 2) then false
  else
    let panelSelfTestFlags := at0 payload PANEL_SELF_TEST_OFFSET in
    if negb (JS.band panelSelfTestFlags 0xfe =? 0) then false
    else if negb (at0 payload TERMINATOR_OFFSET =? LINE_FEED) then false
    else
      existsb (fun index =>
                 let byte := at0 payload index in
                 (byte <? 0x20) || (0x7e <? byte))
        [0; 1; 2; 3; 4; 5; 6; 7].

Definition tryParseSpwgDescriptorPair (reader : BlockReader)
    (descriptorOffset endOffset : Z) : M (option SpwgData) :=
  let UNSPECIFIED_TEXT := 0xfe in
  let nextDescriptorOffset := descriptorOffset + DTD_LENGTH in
  if endOffset <=? nextDescriptorOffset then ret None
  else
    do nextByte0 <- u8 reader nextDescriptorOffset;
    do nextByte1 <- u8 reader (nextDescriptorOffset + 1);
    do nextByte2 <- u8 reader (nextDescriptorOffset + 2);
    do nextDescriptorTag <- u8 reader (nextDescriptorOffset + 3);
    do nextByte4 <- u8 reader (nextDescriptorOffset + 4);
    let eqByte (v : option Z) (k : Z) : bool :=
      match v with Some b => b =? k | None => false end in
    if negb (eqByte nextByte0 0x00) || negb (eqByte nextByte1 0x00) ||
       negb (eqByte nextByte2 0x00) ||
       negb (eqByte nextDescriptorTag UNSPECIFIED_TEXT) ||
       negb (eqByte nextByte4 0x00)
    then ret None
    else
      do descriptor3Payload <-
        parseMonitorDescriptorPayload reader descriptorOffset;
      do descriptor4Payload <-
        parseMonitorDescriptorPayload reader nextDescriptorOffset;
      if negb (isSpwgDescriptor4Payload descriptor4Payload) then ret None
      else
        let pcMakerPartNumber := decodeSpwgPartNumber descriptor3Payload 0 5 in
        let manufacturerPartNumber :=
          decodeSpwgPartNumber descriptor3Payload 6 13 in
        if (String.length pcMakerPartNumber =? 0)%nat ||
           (String.length manufacturerPartNumber =? 0)%nat
        then ret None
        else
          do moduleRevision <- u8 reader (descriptorOffset - 1);
          match moduleRevision with
          | None => ret None
          | Some moduleRevision =>
              let smbusValues :=
                map (at0 descriptor4Payload) [0; 1; 2; 3; 4; 5; 6; 7] in
              ret (Some {|
                moduleRevision := moduleRevision;
                descriptor3 := {|
                  pcMakerPartNumber := pcMakerPartNumber;
                  lcdSupplierEedidRevision := at0 descriptor3Payload 5;
                  manufacturerPartNumber := manufacturerPartNumber
                |};
                descriptor4 := {|
                  smbusValues := smbusValues;
                  lvdsChannels := at0 descriptor4Payload 8;
                  isPanelSelfTestPresent :=
                    JS.band (at0 descriptor4Payload 9) 0x01 =? 0x01
                |}
              |})
          end.

(** [textParts.join(' ')]. *)
Definition joinWithSpace (parts : list string) : string :=
  String.concat " " parts.

(** What one descriptor slot contributes when it is not an SPWG pair. *)
Definition addDescriptorText (descriptorTag : Z) (textParts : list string)
    (monitorDescriptors : ParsedMonitorDescriptors)
    : ParsedMonitorDescriptors :=
  let SERIAL_NUMBER := 0xff in
  let UNSPECIFIED_TEXT := 0xfe in
  let MONITOR_NAME := 0xfc in
  match textParts with
  | [] => monitorDescriptors
  | _ =>
      if descriptorTag =? SERIAL_NUMBER then
        mkParsedMonitorDescriptors (Some (joinWithSpace textParts))
          (md_modelName monitorDescriptors)
          (md_unspecifiedStrings monitorDescriptors)
          (md_spwg monitorDescriptors)
      else if descriptorTag =? UNSPECIFIED_TEXT then
        mkParsedMonitorDescriptors (monitorSerialNumber monitorDescriptors)
          (md_modelName monitorDescriptors)
          (md_unspecifiedStrings monitorDescriptors ++ textParts)
          (md_spwg monitorDescriptors)
      else if descriptorTag =? MONITOR_NAME then
        mkParsedMonitorDescriptors (monitorSerialNumber monitorDescriptors)
          (Some (joinWithSpace textParts))
          (md_unspecifiedStrings monitorDescriptors)
          (md_spwg monitorDescriptors)
      else monitorDescriptors
  end.

(** One iteration of the slot loop of [getMonitorDescriptors]: [None] is
    [break]; otherwise the descriptors, and whether an SPWG pair was consumed
    (the loop then advances two slots instead of one). *)
Definition getMonitorDescriptors_step (reader : BlockReader)
    (descriptorOffset endOffset : Z)
    (monitorDescriptors : ParsedMonitorDescriptors)
    : M (option (ParsedMonitorDescriptors * bool)) :=
  let SERIAL_NUMBER := 0xff in
  let UNSPECIFIED_TEXT := 0xfe in
  let MONITOR_NAME := 0xfc in
  do byte0 <- u8 reader descriptorOffset;
  do byte1 <- u8 reader (descriptorOffset + 1);
  do byte2 <- u8 reader (descriptorOffset + 2);
  do descriptorTag <- u8 reader (descriptorOffset + 3);
  do byte4 <- u8 reader (descriptorOffset + 4);
  match byte0, byte1, byte2, descriptorTag, byte4 with
  | Some byte0, Some byte1, Some byte2, Some descriptorTag, Some byte4 =>
      let isMonitorDescriptor :=
        (byte0 =? 0x00) && (byte1 =? 0x00) && (byte2 =? 0x00) &&
        (byte4 =? 0x00) in
      if isMonitorDescriptor &&
         ((descriptorTag =? SERIAL_NUMBER) ||
          (descriptorTag =? UNSPECIFIED_TEXT) ||
          (descriptorTag =? MONITOR_NAME))
      then
        do spwg <-
          (if (descriptorTag =? UNSPECIFIED_TEXT) &&
              match md_spwg monitorDescriptors with
              | None => true
              | Some _ => false
              end
           then tryParseSpwgDescriptorPair reader descriptorOffset endOffset
           else ret None);
        match spwg with
        | Some spwg =>
            ret (Some (mkParsedMonitorDescriptors
                         (monitorSerialNumber monitorDescriptors)
                         (md_modelName monitorDescriptors)
                         (md_unspecifiedStrings monitorDescriptors)
                         (Some spwg),
                       true))
        | None =>
            do bytes <- parseMonitorDescriptorText reader descriptorOffset;
            let textParts := sanitizeMonitorDescriptorText bytes in
            ret (Some (addDescriptorText descriptorTag textParts
                         monitorDescriptors,
                       false))
        end
      else ret (Some (monitorDescriptors, false))
  | _, _, _, _, _ => ret None
  end.

Equations? getMonitorDescriptors_loop (reader : BlockReader)
    (descriptorOffset endOffset : Z)
    (monitorDescriptors : ParsedMonitorDescriptors) (ctx : ReadContext)
    : ParsedMonitorDescriptors * ReadContext
    by wf (Z.to_nat (endOffset - descriptorOffset)) lt :=
  getMonitorDescriptors_loop reader descriptorOffset endOffset
      monitorDescriptors ctx
    with inspect (descriptorOffset <? endOffset) => {
    | exist _ false _ => (monitorDescriptors, ctx);
    | exist _ true Hlt
        with getMonitorDescriptors_step reader descriptorOffset endOffset
               monitorDescriptors ctx => {
        | (None, ctx') => (monitorDescriptors, ctx');
        | (Some (monitorDescriptors', true), ctx') =>
            getMonitorDescriptors_loop reader
              (descriptorOffset + DTD_LENGTH * 2) endOffset
              monitorDescriptors' ctx';
        | (Some (monitorDescriptors', false), ctx') =>
            getMonitorDescriptors_loop reader
              (descriptorOffset + DTD_LENGTH) endOffset
              monitorDescriptors' ctx' } }.
Proof.
  all: apply Z.ltb_lt in Hlt; unfold DTD_LENGTH; lia.
Qed.

Definition getMonitorDescriptors (reader : BlockReader)
    (startOffset endOffset : Z) : M ParsedMonitorDescriptors :=
  getMonitorDescriptors_loop reader startOffset endOffset
    (mkParsedMonitorDescriptors None None [] None).

(** ** Detailed timing descriptors *)

Definition SYNC_TYPE_ANALOG_COMPOSITE : Z := 0x00.
Definition SYNC_TYPE_BIPOLAR_ANALOG_COMPOSITE : Z := 0x01.
Definition SYNC_TYPE_DIGITAL_COMPOSITE : Z := 0x02.
Definition SYNC_TYPE_DIGITAL_SEPARATE : Z := 0x03.

Definition parseDtd (reader : BlockReader) (dtdOffset : Z) : M (option Dtd) :=
  do pixelClockLo <- u8 reader dtdOffset;
  do pixelClockHi <- u8 reader (dtdOffset + 1);
  match pixelClockLo, pixelClockHi with
  | Some pixelClockLo, Some pixelClockHi =>
      let pixelClockMhz :=
        (inject_Z (JS.bor (JS.shl pixelClockHi 8) pixelClockLo) / 100)%Q in
      let HOR_ACTIVE_OFF := 4 in
      let HOR_ACTIVE_PIX_MASK := 0x0f in
      do a4 <- u8OrZero reader (dtdOffset + 4);
      do a2 <- u8OrZero reader (dtdOffset + 2);
      let horizontalActivePixels :=
        JS.bor (JS.shl (JS.band (JS.shr a4 HOR_ACTIVE_OFF) HOR_ACTIVE_PIX_MASK)
                  8) a2 in
      let HOR_BLANK_MASK := 0x0f in
      do b4 <- u8OrZero reader (dtdOffset + 4);
      do b3 <- u8OrZero reader (dtdOffset + 3);
      let horizontalBlankLineCount :=
        JS.bor (JS.shl (JS.band b4 HOR_BLANK_MASK) 8) b3 in
      let VERT_ACTIVE_OFF := 4 in
      let VERT_ACTIVE_MASK := 0x0f in
      do c7 <- u8OrZero reader (dtdOffset + 7);
      do c5 <- u8OrZero reader (dtdOffset + 5);
      let verticalActivePixels :=
        JS.bor (JS.shl (JS.band (JS.shr c7 VERT_ACTIVE_OFF) VERT_ACTIVE_MASK) 8)
          c5 in
      let VERT_BLANK_MASK := 0x0f in
      do d7 <- u8OrZero reader (dtdOffset + 7);
      do d6 <- u8OrZero reader (dtdOffset + 6);
      let verticalBlankLineCount :=
        JS.bor (JS.shl (JS.band d7 VERT_BLANK_MASK) 8) d6 in
      let HOR_SYNC_OFF_OFF := 6 in
      let HOR_SYNC_OFF_MASK := 0x03 in
      do e11 <- u8OrZero reader (dtdOffset + 11);
      do e8 <- u8OrZero reader (dtdOffset + 8);
      let horizontalSyncOffsetPixels :=
        JS.bor (JS.shl (JS.band (JS.shr e11 HOR_SYNC_OFF_OFF) HOR_SYNC_OFF_MASK)
                  8) e8 in
      let HOR_SYNC_PULSE_OFF := 4 in
      let HOR_SYNC_PULSE_MASK := 0x03 in
      do f11 <- u8OrZero reader (dtdOffset + 11);
      do f9 <- u8OrZero reader (dtdOffset + 9);
      let horizontalSyncPulsePixels :=
        JS.bor (JS.shl (JS.band (JS.shr f11 HOR_SYNC_PULSE_OFF)
                          HOR_SYNC_PULSE_MASK) 8) f9 in
      let VERT_SYNC_OFF_TOP_OFF := 2 in
      let VERT_SYNC_OFF_TOP_MASK := 0x03 in
      let VERT_SYNC_OFF_BOT_OFF := 4 in
      let VERT_SYNC_OFF_BOT_MASK := 0x0f in
      do g11 <- u8OrZero reader (dtdOffset + 11);
      do g10 <- u8OrZero reader (dtdOffset + 10);
      let verticalSyncOffset :=
        JS.bor (JS.shl (JS.band (JS.shr g11 VERT_SYNC_OFF_TOP_OFF)
                          VERT_SYNC_OFF_TOP_MASK) 4)
          (JS.band (JS.shr g10 VERT_SYNC_OFF_BOT_OFF) VERT_SYNC_OFF_BOT_MASK) in
      let VERT_SYNC_PULSE_TOP_MASK := 0x03 in
      let VERT_SYNC_PULSE_BOT_MASK := 0x0f in
      do h11 <- u8OrZero reader (dtdOffset + 11);
      do h10 <- u8OrZero reader (dtdOffset + 10);
      let verticalSyncPulseLineCount :=
        JS.bor (JS.shl (JS.band h11 VERT_SYNC_PULSE_TOP_MASK) 4)
          (JS.band h10 VERT_SYNC_PULSE_BOT_MASK) in
      let HOR_DISPLAY_TOP_OFF := 4 in
      let HOR_DISPLAY_TOP_MASK := 0x0f in
      do i14 <- u8OrZero reader (dtdOffset + 14);
      do i12 <- u8OrZero reader (dtdOffset + 12);
      let horizontalDisplaySizeInMm :=
        JS.bor (JS.shl (JS.band (JS.shr i14 HOR_DISPLAY_TOP_OFF)
                          HOR_DISPLAY_TOP_MASK) 8) i12 in
      let VERT_DISPLAY_TOP_MASK := 0x0f in
      do j14 <- u8OrZero reader (dtdOffset + 14);
      do j13 <- u8OrZero reader (dtdOffset + 13);
      let verticalDisplaySizeInMm :=
        JS.bor (JS.shl (JS.band j14 VERT_DISPLAY_TOP_MASK) 8) j13 in
      let diagonalDisplaySizeInMm :=
        computeDiagonalMm (Some horizontalDisplaySizeInMm)
          (Some verticalDisplaySizeInMm) in
      do horizontalBorderPixels <- u8OrZero reader (dtdOffset + 15);
      do verticalBorderLines <- u8OrZero reader (dtdOffset + 16);
      let INTERLACED_MASK := 0x80 in
      do k17 <- u8OrZero reader (dtdOffset + 17);
      let isInterlaced := JS.truthy (JS.band k17 INTERLACED_MASK) in
      let STEREO_MODE_OFFSET := 5 in
      let STEREO_MODE_MASK := 0x03 in
      do l17 <- u8OrZero reader (dtdOffset + 17);
      let stereoModeCode :=
        JS.band (JS.shr l17 STEREO_MODE_OFFSET) STEREO_MODE_MASK in
      let SYNC_TYPE_OFFSET := 3 in
      let SYNC_TYPE_MASK := 0x03 in
      do m17 <- u8OrZero reader (dtdOffset + 17);
      let syncTypeCode := JS.band (JS.shr m17 SYNC_TYPE_OFFSET) SYNC_TYPE_MASK in
      let digitalSeparate := syncTypeCode =? SYNC_TYPE_DIGITAL_SEPARATE in
      let VSYNC_POLARITY_MASK := 0x04 in
      let VSYNC_SERRATED_MASK := 0x04 in
      do n17 <- u8OrZero reader (dtdOffset + 17);
      let vSyncPolarity :=
        if digitalSeparate
        then Some (JS.truthy (JS.band n17 VSYNC_POLARITY_MASK)) else None in
      let vSyncSerrated :=
        if digitalSeparate
        then None else Some (JS.truthy (JS.band n17 VSYNC_SERRATED_MASK)) in
      let analogComposite :=
        (syncTypeCode =? SYNC_TYPE_ANALOG_COMPOSITE) ||
        (syncTypeCode =? SYNC_TYPE_BIPOLAR_ANALOG_COMPOSITE) in
      let SYNC_ALL_RGB_MASK := 0x02 in
      let HSYNC_POLARY_MASK := 0x02 in
      do o17 <- u8OrZero reader (dtdOffset + 17);
      let syncAllRGBLines :=
        if analogComposite
        then Some (JS.truthy (JS.band o17 SYNC_ALL_RGB_MASK)) else None in
      let hSyncPolarity :=
        if analogComposite
        then None else Some (JS.truthy (JS.band o17 HSYNC_POLARY_MASK)) in
      let TWO_WAY_STEREO_MASK := 0x01 in
      do p17 <- u8OrZero reader (dtdOffset + 17);
      let twoWayStereo := JS.truthy (JS.band p17 TWO_WAY_STEREO_MASK) in
      ret (Some {|
        pixelClockMhz := Some pixelClockMhz;
        horizontalActivePixels := Some horizontalActivePixels;
        horizontalBlankLineCount := Some horizontalBlankLineCount;
        verticalActivePixels := Some verticalActivePixels;
        verticalBlankLineCount := Some verticalBlankLineCount;
        horizontalSyncOffsetPixels := Some horizontalSyncOffsetPixels;
        horizontalSyncPulsePixels := Some horizontalSyncPulsePixels;
        verticalSyncOffset := Some verticalSyncOffset;
        verticalSyncPulseLineCount := Some verticalSyncPulseLineCount;
        horizontalDisplaySizeInMm := Some horizontalDisplaySizeInMm;
        verticalDisplaySizeInMm := Some verticalDisplaySizeInMm;
        diagonalDisplaySizeInMm := diagonalDisplaySizeInMm;
        horizontalBorderPixels := Some horizontalBorderPixels;
        verticalBorderLines := Some verticalBorderLines;
        isInterlaced := Some isInterlaced;
        stereoModeCode := Some stereoModeCode;
        syncTypeCode := Some syncTypeCode;
        vSyncPolarity := vSyncPolarity;
        vSyncSerrated := vSyncSerrated;
        syncAllRGBLines := syncAllRGBLines;
        hSyncPolarity := hSyncPolarity;
        twoWayStereo := Some twoWayStereo
      |})
  | _, _ => ret None
  end.

(** One iteration of the [while (dtdIndex < endOffset)] loop of [getDtds]:
    [None] is [break]. *)
Definition getDtds_step (reader : BlockReader) (dtdIndex : Z)
    (dtdArray : list Dtd) : M (option (list Dtd)) :=
  do lo <- u8 reader dtdIndex;
  do hi <- u8 reader (dtdIndex + 1);
  match lo, hi with
  | Some lo, Some hi =>
      if (lo =? 0) && (hi =? 0) then ret None
      else
        do dtd <- parseDtd reader dtdIndex;
        match dtd with
        | Some dtd => ret (Some (dtdArray ++ [dtd]))
        | None => ret (Some dtdArray)
        end
  | _, _ => ret None
  end.

Equations? getDtds_loop (reader : BlockReader) (dtdIndex endOffset : Z)
    (dtdArray : list Dtd) (ctx : ReadContext) : list Dtd * ReadContext
    by wf (Z.to_nat (endOffset - dtdIndex)) lt :=
  getDtds_loop reader dtdIndex endOffset dtdArray ctx
    with inspect (dtdIndex <? endOffset) => {
    | exist _ false _ => (dtdArray, ctx);
    | exist _ true Hlt with getDtds_step reader dtdIndex dtdArray ctx => {
        | (None, ctx') => (dtdArray, ctx');
        | (Some dtdArray', ctx') =>
            getDtds_loop reader (dtdIndex + DTD_LENGTH) endOffset dtdArray'
              ctx' } }.
Proof.
  apply Z.ltb_lt in Hlt. unfold DTD_LENGTH. lia.
Qed.

Definition getDtds (reader : BlockReader) (startOffset endOffset : Z)
    : M (list Dtd) :=
  getDtds_loop reader startOffset endOffset [].

Definition getNumberExtensions (reader : BlockReader) : M Z :=
  let NUMBER_OF_EXTENSIONS := 126 in
  u8OrZero reader NUMBER_OF_EXTENSIONS.

(** ** CTA-861 data blocks *)

Definition AUDIO_FORMAT_ARRAY : list Z := [1; 8; 13; 14; 15].

Definition OVERSCAN_BEHAVIOR : list string :=
  ["No data"; "Always overscanned"; "Always underscanned";
   "Supports both overscan and underscan"]%string.

Definition EOTF_LABELS : list EotfLabel :=
  [Traditional_gamma_SDR; Traditional_gamma_HDR; SMPTE_ST2084_PQ;
   Hybrid_Log_Gamma_HLG].

Definition STATIC_METADATA_DESCRIPTORS : list StaticMetaDescLabel :=
  [Static_Metadata_Type_1].

(** [x & mask ? true : false]. *)
Definition flag (x mask : Z) : bool := JS.truthy (JS.band x mask).

(** The [while (shortAudDescIndex < numberShortAudioDescriptors)] loop runs
    while [3 * shortAudDescIndex < blockLength], the quotient
    [blockLength / 3] being a real number. *)
Definition parseAudioDataBlock (reader : BlockReader)
    (startAddress blockLength : Z) : M Audio.AudioDataBlock :=
  let SHORT_AUDIO_DESC_LENGTH := 3 in
  let SHORT_AUDIO_DESC_MASK := 0x0f in
  let SHORT_AUDIO_DESC_OFF := 3 in
  let MAX_CHANNELS_MASK := 0x07 in
  let SAMPLE_RATE_MASK := 0x7f in
  do r <-
    forLoop (Z.to_nat ((blockLength + 2) / SHORT_AUDIO_DESC_LENGTH)) 0
      (fun shortAudDescIndex '(index, descriptors) =>
         do byte0 <- u8OrZero reader index;
         do byte1 <- u8OrZero reader (index + 1);
         do byte2 <- u8OrZero reader (index + 2);
         let standardCodecId :=
           JS.band (JS.shr byte0 SHORT_AUDIO_DESC_OFF) SHORT_AUDIO_DESC_MASK in
         let maxChannelCount := JS.band byte0 MAX_CHANNELS_MASK + 1 in
         let sampleRatesBitmask := JS.band byte1 SAMPLE_RATE_MASK in
         let audioFormat (i : nat) : Z := default 0 (AUDIO_FORMAT_ARRAY !! i) in
         let format := standardCodecId in
         let shortAudDesc :=
           mkShortAudioDescriptor (Some standardCodecId) None
             (Some maxChannelCount) (Some sampleRatesBitmask) None None None
             None in
         let shortAudDesc :=
           if format <=? audioFormat 0%nat then
             let BIT_DEPTH_MASK := 0x07 in
             mkShortAudioDescriptor (Some standardCodecId) None
               (Some maxChannelCount) (Some sampleRatesBitmask)
               (Some (JS.band byte2 BIT_DEPTH_MASK)) None None None
           else if format <=? audioFormat 1%nat then
             let MAX_BIT_RATE_MASK := 0xff in
             mkShortAudioDescriptor (Some standardCodecId) None
               (Some maxChannelCount) (Some sampleRatesBitmask) None
               (Some (JS.band byte2 MAX_BIT_RATE_MASK * 8)) None None
           else if format <=? audioFormat 2%nat then
             let AUDIO_FORMAT_CODE_MASK := 0xff in
             mkShortAudioDescriptor (Some standardCodecId) None
               (Some maxChannelCount) (Some sampleRatesBitmask) None None
               (Some (JS.band byte2 AUDIO_FORMAT_CODE_MASK)) None
           else if format <=? audioFormat 3%nat then
             let PROFILE_MASK := 0x07 in
             mkShortAudioDescriptor (Some standardCodecId) None
               (Some maxChannelCount) (Some sampleRatesBitmask) None None None
               (Some (JS.band byte2 PROFILE_MASK))
           else if format <=? audioFormat 4%nat then
             let FORMAT_CODE_EXT_OFF := 3 in
             let FORMAT_CODE_EXT_MASK := 0x1f in
             mkShortAudioDescriptor (Some standardCodecId)
               (Some (JS.band (JS.shr byte2 FORMAT_CODE_EXT_OFF)
                        FORMAT_CODE_EXT_MASK))
               (Some maxChannelCount) (Some sampleRatesBitmask) None None None
               None
           else shortAudDesc in
         ret (Continue (index + SHORT_AUDIO_DESC_LENGTH,
                        descriptors ++ [shortAudDesc])))
      (startAddress, []);
  ret (Audio.mk blockLength (snd r)).

(** Decoding of one Short Video Descriptor byte. *)
Definition decodeShortVideoDescriptor (dataByte : Z) : ShortVideoDescriptor :=
  let NATIVE_RESOLUTION_MASK := 0x80 in
  let CEA861F_VIC_MASK := 0x40 in
  let LOW_VIC_MASK := 0x3f in
  let HIGH_VIC_MASK := 0xff in
  if 0 <? JS.band dataByte CEA861F_VIC_MASK then
    mkShortVideoDescriptor (JS.band dataByte HIGH_VIC_MASK) (Some false)
  else
    mkShortVideoDescriptor (JS.band dataByte LOW_VIC_MASK)
      (Some (flag dataByte NATIVE_RESOLUTION_MASK)).

(** [shortVideoDescriptors[index] = ...] appends: [index] is the array's
    length at every iteration. *)
Definition parseVideoDataBlock (reader : BlockReader)
    (startAddress blockLength : Z) (context : ExtensionParseContext)
    : M (Video.VideoDataBlock * ExtensionParseContext) :=
  do descriptors <-
    forLoop (Z.to_nat blockLength) 0
      (fun index descriptors =>
         do dataByte <- u8 reader (startAddress + index);
         match dataByte with
         | None => ret (Break descriptors)
         | Some dataByte =>
             ret (Continue (descriptors ++ [decodeShortVideoDescriptor dataByte]))
         end)
      [];
  let videoBlock := Video.mk blockLength descriptors in
  ret (videoBlock, mkExtensionParseContext (Some videoBlock)).

Definition parseVendorDataBlockHDMI14 (reader : BlockReader)
    (startAddress blockLength : Z) (vendorBlock : Vendor.VendorDataBlock)
    : M Vendor.VendorDataBlock :=
  let vsdbAddress := startAddress - 1 in
  let PHYSICAL_ADDRESS_1 := 4 in
  let PHYSICAL_ADDRESS_2 := 5 in
  do pa1 <- u8OrZero reader (vsdbAddress + PHYSICAL_ADDRESS_1);
  do pa2 <- u8OrZero reader (vsdbAddress + PHYSICAL_ADDRESS_2);
  let vendorBlock :=
    Vendor.set_physicalAddress (Some (JS.bor (JS.shl pa1 8) pa2)) vendorBlock in
  let AI_DC_DUAL_ADDRESS := 6 in
  do vendorBlock <-
    (if AI_DC_DUAL_ADDRESS <=? blockLength then
       let SUPPORT_AI_MASK := 0x80 in
       do b <- u8OrZero reader (vsdbAddress + AI_DC_DUAL_ADDRESS);
       let vendorBlock :=
         Vendor.set_supportsAI (Some (flag b SUPPORT_AI_MASK)) vendorBlock in
       let DEEP_COLOR_48_MASK := 0x40 in
       do b <- u8OrZero reader (vsdbAddress + AI_DC_DUAL_ADDRESS);
       let vendorBlock :=
         Vendor.set_supportsDeepColor48 (Some (flag b DEEP_COLOR_48_MASK))
           vendorBlock in
       let DEEP_COLOR_36_MASK := 0x20 in
       do b <- u8OrZero reader (vsdbAddress + AI_DC_DUAL_ADDRESS);
       let vendorBlock :=
         Vendor.set_supportsDeepColor36 (Some (flag b DEEP_COLOR_36_MASK))
           vendorBlock in
       let DEEP_COLOR_30_MASK := 0x10 in
       do b <- u8OrZero reader (vsdbAddress + AI_DC_DUAL_ADDRESS);
       let vendorBlock :=
         Vendor.set_supportsDeepColor30 (Some (flag b DEEP_COLOR_30_MASK))
           vendorBlock in
       let DEEP_COLOR_Y444_MASK := 0x08 in
       do b <- u8OrZero reader (vsdbAddress + AI_DC_DUAL_ADDRESS);
       let vendorBlock :=
         Vendor.set_supportsDeepColorY444 (Some (flag b DEEP_COLOR_Y444_MASK))
           vendorBlock in
       let DUAL_DVI_MASK := 0x01 in
       do b <- u8OrZero reader (vsdbAddress + AI_DC_DUAL_ADDRESS);
       ret (Vendor.set_supportsDualLinkDvi (Some (flag b DUAL_DVI_MASK))
              vendorBlock)
     else ret vendorBlock);
  let MAX_TMDS_CLOCK_ADDRESS := 7 in
  do vendorBlock <-
    (if MAX_TMDS_CLOCK_ADDRESS <=? blockLength then
       do b <- u8OrZero reader (vsdbAddress + MAX_TMDS_CLOCK_ADDRESS);
       ret (Vendor.set_hdmi14MaxTmdsRateMhz (Some (b * 5)) vendorBlock)
     else ret vendorBlock);
  let LATENCY_PRESENT_ADDRESS := 8 in
  do vendorBlock <-
    (if LATENCY_PRESENT_ADDRESS <=? blockLength then
       do latencyFlags <- u8OrZero reader (vsdbAddress + LATENCY_PRESENT_ADDRESS);
       let LATENCY_FIELDS_PRESENT_MASK := 0x80 in
       let progressive := flag latencyFlags LATENCY_FIELDS_PRESENT_MASK in
       let vendorBlock :=
         Vendor.set_areProgressiveLatencyFieldsPresent (Some progressive)
           vendorBlock in
       let I_LATENCY_FIELDS_PRESENT_MASK := 0x40 in
       let vendorBlock :=
         Vendor.set_areInterlacedLatencyFieldsPresent
           (Some (progressive &&
                  flag latencyFlags I_LATENCY_FIELDS_PRESENT_MASK))
           vendorBlock in
       let HDMI_VIDEO_PRESENT_MASK := 0x20 in
       let CONTENT_TYPE_GAME_MASK := 0x08 in
       if flag latencyFlags HDMI_VIDEO_PRESENT_MASK &&
          flag latencyFlags CONTENT_TYPE_GAME_MASK
       then ret (Vendor.set_supportsGameContentType (Some true) vendorBlock)
       else ret vendorBlock
     else ret vendorBlock);
  let AUDIO_LATENCY_ADDRESS := 10 in
  do vendorBlock <-
    (if default false (Vendor.areProgressiveLatencyFieldsPresent vendorBlock) &&
        (AUDIO_LATENCY_ADDRESS <=? blockLength)
     then
       let VIDEO_LATENCY_ADDRESS := 9 in
       do v <- u8OrZero reader (vsdbAddress + VIDEO_LATENCY_ADDRESS);
       let vendorBlock :=
         Vendor.set_progressiveVideoLatencyMs (Some ((v - 1) * 2)) vendorBlock in
       do a <- u8OrZero reader (vsdbAddress + AUDIO_LATENCY_ADDRESS);
       ret (Vendor.set_progressiveAudioLatencyMs (Some ((a - 1) * 2))
              vendorBlock)
     else ret vendorBlock);
  let I_VIDEO_LATENCY_ADDRESS := 11 in
  let I_AUDIO_LATENCY_ADDRESS := 12 in
  do vendorBlock <-
    (if default false (Vendor.areInterlacedLatencyFieldsPresent vendorBlock) &&
        (I_AUDIO_LATENCY_ADDRESS <=? blockLength)
     then
       do v <- u8OrZero reader (vsdbAddress + I_VIDEO_LATENCY_ADDRESS);
       let vendorBlock :=
         Vendor.set_interlacedVideoLatencyMs (Some ((v - 1) * 2)) vendorBlock in
       do a <- u8OrZero reader (vsdbAddress + I_AUDIO_LATENCY_ADDRESS);
       ret (Vendor.set_interlacedAudioLatencyMs (Some ((a - 1) * 2))
              vendorBlock)
     else ret vendorBlock);
  ret vendorBlock.

Definition parseVendorDataBlockHDMI20 (reader : BlockReader)
    (startAddress blockLength : Z) (vendorBlock : Vendor.VendorDataBlock)
    : M Vendor.VendorDataBlock :=
  let vsdbAddress := startAddress - 1 in
  do b <- u8OrZero reader (vsdbAddress + 4);
  let vendorBlock := Vendor.set_hdmi20PayloadVersion (Some b) vendorBlock in
  do b <- u8OrZero reader (vsdbAddress + 5);
  let vendorBlock := Vendor.set_hdmi20MaxTmdsRateMhz (Some (b * 5)) vendorBlock in
  do b <- u8OrZero reader (vsdbAddress + 6);
  let vendorBlock := Vendor.set_supportsSCDC (Some (flag b 0x80)) vendorBlock in
  do b <- u8OrZero reader (vsdbAddress + 6);
  let vendorBlock := Vendor.set_supportsSCDCRR (Some (flag b 0x40)) vendorBlock in
  do b <- u8OrZero reader (vsdbAddress + 6);
  let vendorBlock :=
    Vendor.set_supportsLTE340scramble (Some (flag b 0x08)) vendorBlock in
  do b <- u8OrZero reader (vsdbAddress + 6);
  let vendorBlock := Vendor.set_supports3DIV (Some (flag b 0x04)) vendorBlock in
  do b <- u8OrZero reader (vsdbAddress + 6);
  let vendorBlock := Vendor.set_supports3DDV (Some (flag b 0x02)) vendorBlock in
  do b <- u8OrZero reader (vsdbAddress + 6);
  let vendorBlock := Vendor.set_supports3DOSD (Some (flag b 0x01)) vendorBlock in
  do b <- u8OrZero reader (vsdbAddress + 7);
  let vendorBlock :=
    Vendor.set_supportsDeepColorY420_48 (Some (flag b 0x04)) vendorBlock in
  do b <- u8OrZero reader (vsdbAddress + 7);
  let vendorBlock :=
    Vendor.set_supportsDeepColorY420_36 (Some (flag b 0x02)) vendorBlock in
  do b <- u8OrZero reader (vsdbAddress + 7);
  let vendorBlock :=
    Vendor.set_supportsDeepColorY420_30 (Some (flag b 0x01)) vendorBlock in
  ret vendorBlock.

(** [for (i = 0; i < blockLength; i++) data[i] = reader.u8(startAddress + i)
    ?? NaN]. *)
Definition readBlockData (reader : BlockReader) (startAddress blockLength : Z)
    : M (list JS.number) :=
  forLoop (Z.to_nat blockLength) 0
    (fun i data =>
       do value <- u8 reader (startAddress + i);
       ret (Continue (data ++ [match value with
                               | Some v => JS.Int v
                               | None => JS.NaN
                               end])))
    [].

(** [dataByte(index)]: [data[index] ?? 0], as seen by a bitwise operator. *)
Definition dataByte (data : list JS.number) (index : Z) : JS.number :=
  default (JS.Int 0) (data !! Z.to_nat index).

Definition dataBits (data : list JS.number) (index : Z) : Z :=
  JS.int_of (dataByte data index).

(** [if (dataByte(i) & mask) features.f = true]. *)
Definition setIf (c : bool) (set : option bool -> Forum.HdmiForumFeatures ->
                                   Forum.HdmiForumFeatures)
    (features : Forum.HdmiForumFeatures) : Forum.HdmiForumFeatures :=
  if c then set (Some true) features else features.

Definition frlRates : list string :=
  ["Not Supported"; "3 lanes @ 3 Gbps"; "3 lanes @ 6 Gbps"; "4 lanes @ 6 Gbps";
   "4 lanes @ 8 Gbps"; "4 lanes @ 10 Gbps"; "4 lanes @ 12 Gbps"]%string.

Definition maxFixedRateLinkOf (maxFrlRate : Z) : option string :=
  if maxFrlRate <? Z.of_nat (length frlRates)
  then frlRates !! Z.to_nat maxFrlRate
  else Some "Unknown"%string.

Definition parseVendorDataBlockHDMIForum (reader : BlockReader)
    (startAddress blockLength : Z) (vendorBlock : Vendor.VendorDataBlock)
    : M Vendor.VendorDataBlock :=
  let vendorBlock :=
    Vendor.set_hdmiForumFeatures (Some Forum.empty) vendorBlock in
  if blockLength <? 8 then
    ret (Vendor.set_error (Some "HDMI Forum VSDB too short"%string) vendorBlock)
  else
    do data <- readBlockData reader startAddress blockLength;
    let bits := dataBits data in
    let vendorBlock :=
      Vendor.set_hfPayloadVersion (Some (dataByte data 3)) vendorBlock in
    let vendorBlock :=
      Vendor.set_maxTMDSCharacterRateMhz (Some (JS.mul (dataByte data 4) 5))
        vendorBlock in
    let features := Forum.empty in
    let features := setIf (flag (bits 5) 0x80) Forum.set_isScdcPresent features in
    let features :=
      setIf (flag (bits 5) 0x40) Forum.set_isScdcReadRequestCapable features in
    let vendorBlock :=
      Vendor.set_supportsSCDC
        (Some (match Forum.isScdcPresent features with
               | Some true => true
               | _ => false
               end)) vendorBlock in
    let vendorBlock :=
      Vendor.set_supportsSCDCRR
        (Some (match Forum.isScdcReadRequestCapable features with
               | Some true => true
               | _ => false
               end)) vendorBlock in
    let features :=
      setIf (flag (bits 5) 0x20) Forum.set_supportsCableStatus features in
    let features :=
      setIf (flag (bits 5) 0x10) Forum.set_supportsColorContentBitsPerComponent
        features in
    let features :=
      setIf (flag (bits 5) 0x08) Forum.set_supportsScrambling340Mcsc features in
    let features :=
      setIf (flag (bits 5) 0x04) Forum.set_supports3DIndependentView features in
    let features :=
      setIf (flag (bits 5) 0x02) Forum.set_supports3DDualView features in
    let features :=
      setIf (flag (bits 5) 0x01) Forum.set_supports3DOSDDisparity features in
    let maxFrlRate := JS.shr (JS.band (bits 6) 0xf0) 4 in
    let vendorBlock :=
      Vendor.set_maxFixedRateLink (maxFixedRateLinkOf maxFrlRate) vendorBlock in
    let features :=
      setIf (flag (bits 7) 0x80) Forum.set_supportsFAPAEndExtended features in
    let features := setIf (flag (bits 7) 0x40) Forum.set_supportsQMS features in
    let features := setIf (flag (bits 7) 0x20) Forum.set_supportsMDelta features in
    let features :=
      setIf (flag (bits 7) 0x10) Forum.set_supportsCinemaVRR features in
    let features :=
      setIf (flag (bits 7) 0x08) Forum.set_supportsNegativeMVRR features in
    let features :=
      setIf (flag (bits 7) 0x04) Forum.set_supportsFastVActive features in
    let features := setIf (flag (bits 7) 0x02) Forum.set_supportsALLM features in
    let features :=
      setIf (flag (bits 7) 0x01) Forum.set_supportsFAPAInBlanking features in
    let vendorBlock :=
      if 8 <? blockLength then
        let vrrMin := JS.band (bits 8) 0x3f in
        let vrrMax := JS.bor (JS.shl (JS.band (bits 8) 0xc0) 2) (bits 9) in
        let vendorBlock :=
          if 0 <? vrrMin then Vendor.set_vrrMinHz (Some vrrMin) vendorBlock
          else vendorBlock in
        if 0 <? vrrMax then Vendor.set_vrrMaxHz (Some vrrMax) vendorBlock
        else vendorBlock
      else vendorBlock in
    let features :=
      if 10 <? blockLength then
        let features :=
          setIf (flag (bits 10) 0x80) Forum.set_supportsVESADSC12a features in
        let features :=
          setIf (flag (bits 10) 0x40) Forum.set_supportsCompressedVideo420
            features in
        let features :=
          setIf (flag (bits 10) 0x20) Forum.set_supportsQMSTFRmax features in
        let features :=
          setIf (flag (bits 10) 0x10) Forum.set_supportsQMSTFRmin features in
        let features :=
          setIf (flag (bits 10) 0x08) Forum.set_supportsCompressedVideoAnyBpp
            features in
        let features :=
          setIf (flag (bits 10) 0x04) Forum.set_supports16bpcCompressedVideo
            features in
        let features :=
          setIf (flag (bits 10) 0x02) Forum.set_supports12bpcCompressedVideo
            features in
        setIf (flag (bits 10) 0x01) Forum.set_supports10bpcCompressedVideo
          features
      else features in
    ret (Vendor.set_hdmiForumFeatures (Some features) vendorBlock).

Definition parseVendorDataBlock (reader : BlockReader)
    (startAddress blockLength : Z) : M Vendor.VendorDataBlock :=
  let vendorBlock := Vendor.empty blockLength in
  let vsdbAddress := startAddress - 1 in
  let IEEE_REG_IDENTIFIER_1 := 1 in
  let IEEE_REG_IDENTIFIER_2 := 2 in
  let IEEE_REG_IDENTIFIER_3 := 3 in
  do b3 <- u8OrZero reader (vsdbAddress + IEEE_REG_IDENTIFIER_3);
  do b2 <- u8OrZero reader (vsdbAddress + IEEE_REG_IDENTIFIER_2);
  do b1 <- u8OrZero reader (vsdbAddress + IEEE_REG_IDENTIFIER_1);
  let ieeeOui := JS.bor (JS.bor (JS.shl b3 16) (JS.shl b2 8)) b1 in
  let vendorBlock := Vendor.set_ieeeOui (Some ieeeOui) vendorBlock in
  if ieeeOui =? IEEE_OUI_TYPE_value DOLBY_VISION then
    ret (Vendor.set_supportsDolbyVision (Some true) vendorBlock)
  else if ieeeOui =? IEEE_OUI_TYPE_value HDMI14 then
    parseVendorDataBlockHDMI14 reader startAddress blockLength vendorBlock
  else if ieeeOui =? IEEE_OUI_TYPE_value HDMI_FORUM then
    if 8 <=? blockLength then
      parseVendorDataBlockHDMIForum reader startAddress blockLength vendorBlock
    else
      parseVendorDataBlockHDMI20 reader startAddress blockLength vendorBlock
  else ret vendorBlock.

Definition parseVendorSpecificVideoDataBlock (reader : BlockReader)
    (startAddress blockLength : Z)
    (extendedTagBlock : ExtTag.ExtendedTagDataBlock)
    : M ExtTag.ExtendedTagDataBlock :=
  let extendedTagBlock :=
    ExtTag.set_extendedTag (Some (KnownExtendedTag VENDOR_SPECIFIC_VIDEO))
      extendedTagBlock in
  if blockLength <? 4 then
    ret (ExtTag.set_error
           (Some "Vendor-Specific Video Data Block too short"%string)
           extendedTagBlock)
  else
    let IEEE_REG_IDENTIFIER_1 := 1 in
    let IEEE_REG_IDENTIFIER_2 := 2 in
    let IEEE_REG_IDENTIFIER_3 := 3 in
    do b3 <- u8OrZero reader (startAddress + IEEE_REG_IDENTIFIER_3);
    do b2 <- u8OrZero reader (startAddress + IEEE_REG_IDENTIFIER_2);
    do b1 <- u8OrZero reader (startAddress + IEEE_REG_IDENTIFIER_1);
    let oui := JS.bor (JS.bor (JS.shl b3 16) (JS.shl b2 8)) b1 in
    let extendedTagBlock :=
      ExtTag.set_vendorSpecificVideoOui (Some oui) extendedTagBlock in
    if oui =? IEEE_OUI_TYPE_value HDR10_PLUS then
      ret (ExtTag.set_supportsHDR10Plus (Some true) extendedTagBlock)
    else if oui =? IEEE_OUI_TYPE_value DOLBY_VISION then
      ret (ExtTag.set_supportsDolbyVision (Some true) extendedTagBlock)
    else ret extendedTagBlock.

Definition parseVideoCapabilityDataBlock (reader : BlockReader)
    (startAddress blockLength : Z)
    (extendedTagBlock : ExtTag.ExtendedTagDataBlock)
    : M ExtTag.ExtendedTagDataBlock :=
  let extendedTagBlock :=
    ExtTag.set_extendedTag (Some (KnownExtendedTag VIDEO_CAPABILITY))
      extendedTagBlock in
  do b <- u8OrZero reader (startAddress + 1);
  let extendedTagBlock :=
    ExtTag.set_supportsQuantizationRangeYCC (Some (flag b 0x80))
      extendedTagBlock in
  do b <- u8OrZero reader (startAddress + 1);
  let extendedTagBlock :=
    ExtTag.set_supportsQuantizationRangeRGB (Some (flag b 0x40))
      extendedTagBlock in
  do b <- u8OrZero reader (startAddress + 1);
  let fieldData := JS.shr (JS.band b 0x30) 4 in
  let extendedTagBlock :=
    ExtTag.set_overscanPT (OVERSCAN_BEHAVIOR !! Z.to_nat fieldData)
      extendedTagBlock in
  do b <- u8OrZero reader (startAddress + 1);
  let fieldData := JS.shr (JS.band b 0x0c) 2 in
  let extendedTagBlock :=
    ExtTag.set_overscanIT (OVERSCAN_BEHAVIOR !! Z.to_nat fieldData)
      extendedTagBlock in
  do b <- u8OrZero reader (startAddress + 1);
  let fieldData := JS.shr (JS.band b 0x03) 0 in
  let extendedTagBlock :=
    ExtTag.set_overscanCE (OVERSCAN_BEHAVIOR !! Z.to_nat fieldData)
      extendedTagBlock in
  if 2 <? blockLength then
    do b <- u8OrZero reader (startAddress + 2);
    let extendedTagBlock :=
      ExtTag.set_supportsQMS (Some (flag b 0x80)) extendedTagBlock in
    do b <- u8OrZero reader (startAddress + 2);
    let extendedTagBlock :=
      ExtTag.set_supportsVRR (Some (flag b 0x40)) extendedTagBlock in
    do b <- u8OrZero reader (startAddress + 2);
    let extendedTagBlock :=
      ExtTag.set_supportsCinemaVRR (Some (flag b 0x20)) extendedTagBlock in
    do b <- u8OrZero reader (startAddress + 2);
    let extendedTagBlock :=
      ExtTag.set_supportsNegativeMRR (Some (flag b 0x10)) extendedTagBlock in
    do b <- u8OrZero reader (startAddress + 2);
    let extendedTagBlock :=
      ExtTag.set_supportsFVA (Some (flag b 0x08)) extendedTagBlock in
    do b <- u8OrZero reader (startAddress + 2);
    ret (ExtTag.set_supportsALLM (Some (flag b 0x04)) extendedTagBlock)
  else ret extendedTagBlock.

Definition parseColorimetryDataBlock (reader : BlockReader)
    (startAddress blockLength : Z)
    (extendedTagBlock : ExtTag.ExtendedTagDataBlock)
    : M ExtTag.ExtendedTagDataBlock :=
  let extendedTagBlock :=
    ExtTag.set_extendedTag (Some (KnownExtendedTag COLORIMETRY))
      extendedTagBlock in
  do b <- u8OrZero reader (startAddress + 1);
  let extendedTagBlock :=
    ExtTag.set_supportsBT2020RGB (Some (flag b 0x80)) extendedTagBlock in
  do b <- u8OrZero reader (startAddress + 1);
  let extendedTagBlock :=
    ExtTag.set_supportsBT2020YCC (Some (flag b 0x40)) extendedTagBlock in
  do b <- u8OrZero reader (startAddress + 1);
  let extendedTagBlock :=
    ExtTag.set_supportsBT2020cYCC (Some (flag b 0x20)) extendedTagBlock in
  do b <- u8OrZero reader (startAddress + 1);
  let extendedTagBlock :=
    ExtTag.set_supportsAdobeRGB (Some (flag b 0x10)) extendedTagBlock in
  do b <- u8OrZero reader (startAddress + 1);
  let extendedTagBlock :=
    ExtTag.set_supportsAdobeYCC601 (Some (flag b 0x08)) extendedTagBlock in
  do b <- u8OrZero reader (startAddress + 1);
  let extendedTagBlock :=
    ExtTag.set_supportssYCC601 (Some (flag b 0x04)) extendedTagBlock in
  do b <- u8OrZero reader (startAddress + 1);
  let extendedTagBlock :=
    ExtTag.set_supportsxvYCC709 (Some (flag b 0x02)) extendedTagBlock in
  do b <- u8OrZero reader (startAddress + 1);
  let extendedTagBlock :=
    ExtTag.set_supportsxvYCC601 (Some (flag b 0x01)) extendedTagBlock in
  let bit (x mask : Z) : Z := if flag x mask then 1 else 0 in
  do b <- u8OrZero reader (startAddress + 2);
  let extendedTagBlock :=
    ExtTag.set_gamutMD3 (Some (bit b 0x08)) extendedTagBlock in
  do b <- u8OrZero reader (startAddress + 2);
  let extendedTagBlock :=
    ExtTag.set_gamutMD2 (Some (bit b 0x04)) extendedTagBlock in
  do b <- u8OrZero reader (startAddress + 2);
  let extendedTagBlock :=
    ExtTag.set_gamutMD1 (Some (bit b 0x02)) extendedTagBlock in
  do b <- u8OrZero reader (startAddress + 2);
  let extendedTagBlock :=
    ExtTag.set_gamutMD0 (Some (bit b 0x01)) extendedTagBlock in
  if 3 <? blockLength then
    do b <- u8OrZero reader (startAddress + 3);
    let extendedTagBlock :=
      ExtTag.set_supportsICtCp (Some (flag b 0x80)) extendedTagBlock in
    do b <- u8OrZero reader (startAddress + 3);
    let extendedTagBlock :=
      ExtTag.set_supportsST2094_40 (Some (flag b 0x40)) extendedTagBlock in
    do b <- u8OrZero reader (startAddress + 3);
    let extendedTagBlock :=
      ExtTag.set_supportsST2094_10 (Some (flag b 0x20)) extendedTagBlock in
    do b <- u8OrZero reader (startAddress + 3);
    ret (ExtTag.set_supportsBT2100ICtCp (Some (flag b 0x10)) extendedTagBlock)
  else ret extendedTagBlock.

Definition parseYCbCr420VideoDataBlock (reader : BlockReader)
    (startAddress blockLength : Z)
    (extendedTagBlock : ExtTag.ExtendedTagDataBlock)
    : M ExtTag.ExtendedTagDataBlock :=
  let extendedTagBlock :=
    ExtTag.set_extendedTag (Some (KnownExtendedTag YCBCR420_VIDEO))
      extendedTagBlock in
  do descriptors <-
    forLoop (Z.to_nat (blockLength - 1)) 0
      (fun svdIndex descriptors =>
         do dataByte <- u8 reader (startAddress + 1 + svdIndex);
         match dataByte with
         | None => ret (Break descriptors)
         | Some dataByte =>
             ret (Continue (descriptors ++ [decodeShortVideoDescriptor dataByte]))
         end)
      [];
  ret (ExtTag.set_YCbCr420OnlyShortVideoDescriptors (Some descriptors)
         extendedTagBlock).

(** The inner loop [for (FIELD_MASK = 0x01; FIELD_MASK <= 0x80; FIELD_MASK <<= 1)]
    of the capability map: the state is [svdIndex] and the output array. *)
Definition capabilityMapByte (videoBlock : Video.VideoDataBlock) (dataByte : Z)
    (st : Z * list (option ShortVideoDescriptor))
    : Z * list (option ShortVideoDescriptor) :=
  fold_left
    (fun '(svdIndex, capable) FIELD_MASK =>
       let YCbCr420Capable := flag dataByte FIELD_MASK in
       if YCbCr420Capable then
         (svdIndex + 1,
          capable ++ [Video.shortVideoDescriptors videoBlock
                        !! Z.to_nat svdIndex])
       else (svdIndex + 1, capable))
    [0x01; 0x02; 0x04; 0x08; 0x10; 0x20; 0x40; 0x80] st.

Definition parseYCbCr420CapabilityMapDataBlock (reader : BlockReader)
    (startAddress blockLength : Z)
    (extendedTagBlock : ExtTag.ExtendedTagDataBlock)
    (context : ExtensionParseContext) : M ExtTag.ExtendedTagDataBlock :=
  let extendedTagBlock :=
    ExtTag.set_extendedTag (Some (KnownExtendedTag YCBCR420_CAPABILITY_MAP))
      extendedTagBlock in
  match lastVideoBlock context with
  | None => ret extendedTagBlock
  | Some videoBlock =>
      do r <-
        forLoop (Z.to_nat (blockLength - 1)) 1
          (fun FIELD_ADDRESS st =>
             do dataByte <- u8 reader (startAddress + FIELD_ADDRESS);
             match dataByte with
             | None => ret (Break st)
             | Some dataByte =>
                 ret (Continue (capabilityMapByte videoBlock dataByte st))
             end)
          (0, []);
      ret (ExtTag.set_YCbCr420CapableShortVideoDescriptors (Some (snd r))
             extendedTagBlock)
  end.

Definition parseSpeakerDataBlock (reader : BlockReader)
    (startAddress blockLength : Z) : M Speaker.SpeakerDataBlock :=
  do b2 <- u8OrZero reader (startAddress + 2);
  do b1 <- u8OrZero reader (startAddress + 1);
  do b0 <- u8OrZero reader startAddress;
  ret (Speaker.mk blockLength (JS.bor (JS.bor (JS.shl b2 16) (JS.shl b1 8)) b0)).

(** [for (i = 0; i < labels.length; i++) if (byte & (1 << i)) push(labels[i])]. *)
Fixpoint labelsOfBitmap {A : Type} (byte : Z) (i : Z) (labels : list A)
    : list A :=
  match labels with
  | [] => []
  | label :: rest =>
      if JS.truthy (JS.band byte (JS.shl 1 i))
      then label :: labelsOfBitmap byte (i + 1) rest
      else labelsOfBitmap byte (i + 1) rest
  end.

Definition EotfLabel_eqb (a b : EotfLabel) : bool :=
  match a, b with
  | Traditional_gamma_SDR, Traditional_gamma_SDR
  | Traditional_gamma_HDR, Traditional_gamma_HDR
  | SMPTE_ST2084_PQ, SMPTE_ST2084_PQ
  | Hybrid_Log_Gamma_HLG, Hybrid_Log_Gamma_HLG => true
  | _, _ => false
  end.

Definition StaticMetaDescLabel_eqb (a b : StaticMetaDescLabel) : bool :=
  match a, b with
  | Static_Metadata_Type_1, Static_Metadata_Type_1 => true
  end.

Definition parseHDRStaticMetadataDataBlock (reader : BlockReader)
    (startAddress blockLength : Z)
    (extendedTagBlock : ExtTag.ExtendedTagDataBlock)
    : M ExtTag.ExtendedTagDataBlock :=
  let extendedTagBlock :=
    ExtTag.set_extendedTag (Some (KnownExtendedTag HDR_STATIC_METADATA))
      extendedTagBlock in
  if blockLength <? 2 then
    ret (ExtTag.set_error (Some "Empty Data Block"%string) extendedTagBlock)
  else
    let EOTF_ADDRESS := 1 in
    let STATIC_METADATA_ADDRESS := 2 in
    do eotfByte <- u8OrZero reader (startAddress + EOTF_ADDRESS);
    let supportedEOTFs := labelsOfBitmap eotfByte 0 EOTF_LABELS in
    let extendedTagBlock :=
      ExtTag.set_supportedEOTFs (Some supportedEOTFs) extendedTagBlock in
    do supportedStaticMetadataDescriptors <-
      (if 2 <? blockLength then
         do staticMetadataByte <-
           u8OrZero reader (startAddress + STATIC_METADATA_ADDRESS);
         ret (labelsOfBitmap staticMetadataByte 0 STATIC_METADATA_DESCRIPTORS)
       else ret []);
    let extendedTagBlock :=
      ExtTag.set_supportedStaticMetadataDescriptors
        (Some supportedStaticMetadataDescriptors) extendedTagBlock in
    do extendedTagBlock <-
      (if 4 <=? blockLength then
         do maxLum <- u8 reader (startAddress + 3);
         let extendedTagBlock :=
           match maxLum with
           | Some maxLum =>
               ExtTag.set_desiredContentMaxLuminanceCode (Some maxLum)
                 extendedTagBlock
           | None => extendedTagBlock
           end in
         do maxFrameAvgLum <- u8 reader (startAddress + 4);
         ret match maxFrameAvgLum with
             | Some maxFrameAvgLum =>
                 ExtTag.set_desiredContentMaxFrameAverageLuminanceCode
                   (Some maxFrameAvgLum) extendedTagBlock
             | None => extendedTagBlock
             end
       else ret extendedTagBlock);
    do extendedTagBlock <-
      (if 5 <=? blockLength then
         do minLum <- u8 reader (startAddress + 5);
         ret match minLum with
             | Some minLum =>
                 ExtTag.set_desiredContentMinLuminanceCode (Some minLum)
                   extendedTagBlock
             | None => extendedTagBlock
             end
       else ret extendedTagBlock);
    let hasPqEotf := existsb (EotfLabel_eqb SMPTE_ST2084_PQ) supportedEOTFs in
    let hasStaticType1 :=
      existsb (StaticMetaDescLabel_eqb Static_Metadata_Type_1)
        supportedStaticMetadataDescriptors in
    if hasPqEotf && hasStaticType1 then
      ret (ExtTag.set_supportsHDR10 (Some true) extendedTagBlock)
    else ret extendedTagBlock.

Definition parseHDRDynamicMetadataDataBlock (reader : BlockReader)
    (startAddress blockLength : Z)
    (extendedTagBlock : ExtTag.ExtendedTagDataBlock)
    : M ExtTag.ExtendedTagDataBlock :=
  let extendedTagBlock :=
    ExtTag.set_extendedTag (Some (KnownExtendedTag HDR_DYNAMIC_METADATA))
      extendedTagBlock in
  if blockLength <? 3 then
    ret (ExtTag.set_error (Some "Data Block too short"%string) extendedTagBlock)
  else
    do metadataType <- u8OrZero reader (startAddress + 1);
    let extendedTagBlock :=
      ExtTag.set_dynamicHdrMetadataTypeId (Some metadataType) extendedTagBlock in
    let supportedDynamicMetadataTypes :=
      if metadataType =? 1 then [SMPTE_ST_2094_10]
      else if metadataType =? 2 then [SMPTE_ST_2094_20]
      else if metadataType =? 3 then [SMPTE_ST_2094_30]
      else if metadataType =? 4 then [SMPTE_ST_2094_40]
      else [] in
    let extendedTagBlock :=
      ExtTag.set_supportedDynamicMetadataTypes
        (Some supportedDynamicMetadataTypes) extendedTagBlock in
    do version <- u8OrZero reader (startAddress + 2);
    ret (ExtTag.set_dynamicHdrMetadataVersionNumber (Some version)
           extendedTagBlock).

Definition parseVideoFormatPreferenceDataBlock (reader : BlockReader)
    (startAddress blockLength : Z)
    (extendedTagBlock : ExtTag.ExtendedTagDataBlock)
    : M ExtTag.ExtendedTagDataBlock :=
  let extendedTagBlock :=
    ExtTag.set_extendedTag (Some (KnownExtendedTag VIDEO_FORMAT_PREFERENCE))
      extendedTagBlock in
  if blockLength <? 1 then
    ret (ExtTag.set_error (Some "Empty Data Block"%string) extendedTagBlock)
  else
    do preferences <-
      forLoop (Z.to_nat (blockLength - 1)) 1
        (fun i preferences =>
           do dataByte <- u8OrZero reader (startAddress + i);
           let preference :=
             mkVideoFormatPreference (JS.band dataByte 0x3f)
               (JS.shr (JS.band dataByte 0xc0) 6) in
           ret (Continue (preferences ++ [preference])))
        [];
    ret (ExtTag.set_videoFormatPreferences (Some preferences) extendedTagBlock).

Definition roomTypes : list string :=
  ["Not indicated"; "Front Height"; "Rear Height"; "Reserved"]%string.

Definition parseRoomConfigurationDataBlock (reader : BlockReader)
    (startAddress blockLength : Z)
    (extendedTagBlock : ExtTag.ExtendedTagDataBlock)
    : M ExtTag.ExtendedTagDataBlock :=
  let extendedTagBlock :=
    ExtTag.set_extendedTag (Some (KnownExtendedTag ROOM_CONFIGURATION))
      extendedTagBlock in
  if blockLength <? 1 then
    ret (ExtTag.set_error (Some "Empty Data Block"%string) extendedTagBlock)
  else
    do configByte <- u8OrZero reader (startAddress + 1);
    let extendedTagBlock :=
      ExtTag.set_speakerCount (Some (JS.band configByte 0x1f + 1))
        extendedTagBlock in
    let roomTypeCode := JS.shr (JS.band configByte 0x60) 5 in
    let extendedTagBlock :=
      ExtTag.set_roomTypeCode (Some roomTypeCode) extendedTagBlock in
    ret (ExtTag.set_roomTypeString (roomTypes !! Z.to_nat roomTypeCode)
           extendedTagBlock).

Definition parseHDMIForumSCDB (reader : BlockReader)
    (startAddress blockLength : Z)
    (extendedTagBlock : ExtTag.ExtendedTagDataBlock)
    : M ExtTag.ExtendedTagDataBlock :=
  let extendedTagBlock :=
    ExtTag.set_extendedTag (Some (KnownExtendedTag HDMI_FORUM_SCDB))
      extendedTagBlock in
  if blockLength <? 3 then
    ret (ExtTag.set_error (Some "HDMI Forum SCDB too short"%string)
           extendedTagBlock)
  else
    do data <- readBlockData reader startAddress blockLength;
    let bits := dataBits data in
    let extendedTagBlock :=
      ExtTag.set_hfSCDBVersion (Some (dataByte data 1)) extendedTagBlock in
    let extendedTagBlock :=
      ExtTag.set_maxTMDSCharacterRateMhz (Some (JS.mul (dataByte data 2) 5))
        extendedTagBlock in
    let features := Forum.empty in
    let features :=
      if 3 <? blockLength then
        let features :=
          setIf (flag (bits 3) 0x80) Forum.set_isScdcPresent features in
        let features :=
          setIf (flag (bits 3) 0x40) Forum.set_isScdcReadRequestCapable
            features in
        let features :=
          setIf (flag (bits 3) 0x20) Forum.set_supportsCableStatus features in
        let features :=
          setIf (flag (bits 3) 0x10)
            Forum.set_supportsColorContentBitsPerComponent features in
        let features :=
          setIf (flag (bits 3) 0x08) Forum.set_supportsScrambling340Mcsc
            features in
        let features :=
          setIf (flag (bits 3) 0x04) Forum.set_supports3DIndependentView
            features in
        let features :=
          setIf (flag (bits 3) 0x02) Forum.set_supports3DDualView features in
        setIf (flag (bits 3) 0x01) Forum.set_supports3DOSDDisparity features
      else features in
    let extendedTagBlock :=
      if 4 <? blockLength then
        let maxFrlRate := JS.shr (JS.band (bits 4) 0xf0) 4 in
        ExtTag.set_maxFixedRateLink (maxFixedRateLinkOf maxFrlRate)
          extendedTagBlock
      else extendedTagBlock in
    let features :=
      if 4 <? blockLength then
        let features :=
          setIf (flag (bits 5) 0x80) Forum.set_supportsFAPAEndExtended
            features in
        let features :=
          setIf (flag (bits 5) 0x40) Forum.set_supportsQMS features in
        let features :=
          setIf (flag (bits 5) 0x20) Forum.set_supportsMDelta features in
        let features :=
          setIf (flag (bits 5) 0x10) Forum.set_supportsCinemaVRR features in
        let features :=
          setIf (flag (bits 5) 0x08) Forum.set_supportsNegativeMVRR features in
        let features :=
          setIf (flag (bits 5) 0x04) Forum.set_supportsFastVActive features in
        let features :=
          setIf (flag (bits 5) 0x02) Forum.set_supportsALLM features in
        setIf (flag (bits 5) 0x01) Forum.set_supportsFAPAInBlanking features
      else features in
    let extendedTagBlock :=
      if 6 <? blockLength then
        let vrrMin := JS.band (bits 6) 0x3f in
        let vrrMax := JS.bor (JS.shl (JS.band (bits 6) 0xc0) 2) (bits 7) in
        let extendedTagBlock :=
          if 0 <? vrrMin then ExtTag.set_vrrMinHz (Some vrrMin) extendedTagBlock
          else extendedTagBlock in
        if 0 <? vrrMax then ExtTag.set_vrrMaxHz (Some vrrMax) extendedTagBlock
        else extendedTagBlock
      else extendedTagBlock in
    let features :=
      if 8 <? blockLength then
        let features :=
          setIf (flag (bits 8) 0x80) Forum.set_supportsVESADSC12a features in
        let features :=
          setIf (flag (bits 8) 0x40) Forum.set_supportsCompressedVideo420
            features in
        let features :=
          setIf (flag (bits 8) 0x20) Forum.set_supportsQMSTFRmax features in
        let features :=
          setIf (flag (bits 8) 0x10) Forum.set_supportsQMSTFRmin features in
        let features :=
          setIf (flag (bits 8) 0x08) Forum.set_supportsCompressedVideoAnyBpp
            features in
        let features :=
          setIf (flag (bits 8) 0x04) Forum.set_supports16bpcCompressedVideo
            features in
        let features :=
          setIf (flag (bits 8) 0x02) Forum.set_supports12bpcCompressedVideo
            features in
        setIf (flag (bits 8) 0x01) Forum.set_supports10bpcCompressedVideo
          features
      else features in
    ret (ExtTag.set_hdmiForumFeatures (Some features) extendedTagBlock).

Definition parseExtendedTagDataBlock (reader : BlockReader)
    (startAddress blockLength : Z) (context : ExtensionParseContext)
    : M ExtTag.ExtendedTagDataBlock :=
  let extendedTagBlock := ExtTag.empty blockLength in
  let EXTENDED_TAG_ADDRESS := 0 in
  do extendedBlockTagCode <-
    u8OrZero reader (startAddress + EXTENDED_TAG_ADDRESS);
  let isType (t : ExtendedDataBlockType) : bool :=
    extendedBlockTagCode =? EXTENDED_DATA_BLOCK_TYPE_value t in
  if isType VIDEO_CAPABILITY then
    parseVideoCapabilityDataBlock reader startAddress blockLength
      extendedTagBlock
  else if isType VENDOR_SPECIFIC_VIDEO then
    parseVendorSpecificVideoDataBlock reader startAddress blockLength
      extendedTagBlock
  else if isType COLORIMETRY then
    parseColorimetryDataBlock reader startAddress blockLength extendedTagBlock
  else if isType YCBCR420_VIDEO then
    parseYCbCr420VideoDataBlock reader startAddress blockLength
      extendedTagBlock
  else if isType YCBCR420_CAPABILITY_MAP then
    parseYCbCr420CapabilityMapDataBlock reader startAddress blockLength
      extendedTagBlock context
  else if isType HDR_STATIC_METADATA then
    parseHDRStaticMetadataDataBlock reader startAddress blockLength
      extendedTagBlock
  else if isType HDR_DYNAMIC_METADATA then
    parseHDRDynamicMetadataDataBlock reader startAddress blockLength
      extendedTagBlock
  else if isType VIDEO_FORMAT_PREFERENCE then
    parseVideoFormatPreferenceDataBlock reader startAddress blockLength
      extendedTagBlock
  else if isType ROOM_CONFIGURATION then
    parseRoomConfigurationDataBlock reader startAddress blockLength
      extendedTagBlock
  else if isType HDMI_FORUM_SCDB then
    parseHDMIForumSCDB reader startAddress blockLength extendedTagBlock
  else
    ret (ExtTag.set_extendedTag
           (Some (UnknownExtendedTag extendedBlockTagCode)) extendedTagBlock).

(** ** The data block collection of a CTA-861 extension *)

Definition isExtendedTagBlock (block : option AnyDataBlock) : bool :=
  match block with
  | Some b => DATA_BLOCK_TYPE_value (tag b) =? DATA_BLOCK_TYPE_value EXTENDED_TAG
  | None => false
  end.

Definition isVendorBlock (block : option AnyDataBlock) : bool :=
  match block with
  | Some b =>
      DATA_BLOCK_TYPE_value (tag b) =? DATA_BLOCK_TYPE_value VENDOR_SPECIFIC
  | None => false
  end.

(** [typeof extendedTag === 'number' ? extendedTag : extendedTag?.value]. *)
Definition extendedTagValue (t : option ExtendedTag) : option Z :=
  match t with
  | Some (KnownExtendedTag k) => Some (EXTENDED_DATA_BLOCK_TYPE_value k)
  | Some (UnknownExtendedTag v) => Some v
  | None => None
  end.

(** The predicate of [dataBlockCollection.some(...)]: an extended-tag block
    whose extended tag is the HDMI Forum SCDB code. *)
Definition isHdmiForumScdbBlock (block : option AnyDataBlock) : bool :=
  match block with
  | Some (AnyExtended b) =>
      match extendedTagValue (ExtTag.extendedTag b) with
      | Some v => v =? EXTENDED_DATA_BLOCK_TYPE_value HDMI_FORUM_SCDB
      | None => false
      end
  | _ => false
  end.

(** The mutable state of the primary scan.  [primaryVideoBlock] is a reference
    to the object stored in [dataBlockCollection]: it is kept as the index of
    that slot together with the object's current value, and a merge writes
    the new value back into the slot. *)
Record ScanState : Type := mkScanState {
  scan_dataBlockCollection : list (option AnyDataBlock);
  scan_primaryVideoBlock : option (nat * Video.VideoDataBlock);
  scan_context : ExtensionParseContext
}.

Definition TAG_CODE_MASK : Z := 0x07.
Definition TAG_CODE_OFFSET : Z := 5.
Definition DATA_BLOCK_LENGTH_MASK : Z := 0x1f.

(** The body of the [while (index < endAddress)] loop for one header byte;
    [dataBlockCollection[numberDataBlocks] = dataBlock] appends, since
    [numberDataBlocks] is the array's length. *)
Definition parseDataBlock (reader : BlockReader) (index headerByte : Z)
    (st : ScanState) : M ScanState :=
  let blockTagCode := JS.band (JS.shr headerByte TAG_CODE_OFFSET) TAG_CODE_MASK in
  let blockLength := JS.band headerByte DATA_BLOCK_LENGTH_MASK in
  let collection := scan_dataBlockCollection st in
  let push (dataBlock : option AnyDataBlock) (st : ScanState) : ScanState :=
    mkScanState (scan_dataBlockCollection st ++ [dataBlock])
      (scan_primaryVideoBlock st) (scan_context st) in
  if blockTagCode =? DATA_BLOCK_TYPE_value AUDIO then
    do dataBlock <- parseAudioDataBlock reader (index + 1) blockLength;
    ret (push (Some (AnyAudio dataBlock)) st)
  else if blockTagCode =? DATA_BLOCK_TYPE_value VIDEO then
    do r <- parseVideoDataBlock reader (index + 1) blockLength (scan_context st);
    let (parsedVideoBlock, context) := r in
    match scan_primaryVideoBlock st with
    | None =>
        ret (push (Some (AnyVideo parsedVideoBlock))
               (mkScanState collection
                  (Some (length collection, parsedVideoBlock)) context))
    | Some (slot, primaryVideoBlock) =>
        let merged :=
          Video.mk
            (Video.dataLength primaryVideoBlock
             + Video.dataLength parsedVideoBlock)
            (Video.shortVideoDescriptors primaryVideoBlock
             ++ Video.shortVideoDescriptors parsedVideoBlock) in
        ret (push None
               (mkScanState (<[slot := Some (AnyVideo merged)]> collection)
                  (Some (slot, merged))
                  (mkExtensionParseContext (Some merged))))
    end
  else if blockTagCode =? DATA_BLOCK_TYPE_value VENDOR_SPECIFIC then
    do dataBlock <- parseVendorDataBlock reader (index + 1) blockLength;
    ret (push (Some (AnyVendor dataBlock)) st)
  else if blockTagCode =? DATA_BLOCK_TYPE_value SPEAKER_ALLOCATION then
    do dataBlock <- parseSpeakerDataBlock reader (index + 1) blockLength;
    ret (push (Some (AnySpeaker dataBlock)) st)
  else if blockTagCode =? DATA_BLOCK_TYPE_value EXTENDED_TAG then
    do dataBlock <-
      parseExtendedTagDataBlock reader (index + 1) blockLength (scan_context st);
    ret (push (Some (AnyExtended dataBlock)) st)
  else
    do _ <- warn unknown_data_block
              "Encountered an unknown CTA data block tag."
              (Some (reader_blockIndex reader)) (Some index)
              (Some (DetailFields [("tagCode"%string, inject_Z blockTagCode);
                                   ("length"%string, inject_Z blockLength)]));
    ret (push None st).

Equations? primaryScan (reader : BlockReader) (endAddress index : Z)
    (st : ScanState) (ctx : ReadContext) : ScanState * ReadContext
    by wf (Z.to_nat (endAddress - index)) lt :=
  primaryScan reader endAddress index st ctx
    with inspect (index <? endAddress) => {
    | exist _ false _ => (st, ctx);
    | exist _ true Hlt with u8 reader index ctx => {
        | (None, ctx') => (st, ctx');
        | (Some headerByte, ctx')
            with parseDataBlock reader index headerByte st ctx' => {
            | (st', ctx'') =>
                primaryScan reader endAddress
                  (index + JS.band headerByte DATA_BLOCK_LENGTH_MASK + 1)
                  st' ctx'' } } }.
Proof.
  apply Z.ltb_lt in Hlt.
  assert (0 <= JS.band headerByte DATA_BLOCK_LENGTH_MASK).
  { unfold JS.band. apply Z.land_nonneg. right. vm_compute. discriminate. }
  lia.
Qed.

(** One position of the recovery scan; the state is the SCDB block found, if
    any ([break] after the first one). *)
Definition recoveryScan_step (reader : BlockReader) (endAddress : Z)
    (context : ExtensionParseContext) (scanIndex : Z)
    (found : option ExtTag.ExtendedTagDataBlock)
    : M (Ctl (option ExtTag.ExtendedTagDataBlock)) :=
  do headerByte <- u8 reader scanIndex;
  match headerByte with
  | None => ret (Break found)
  | Some headerByte =>
      let blockTagCode :=
        JS.band (JS.shr headerByte TAG_CODE_OFFSET) TAG_CODE_MASK in
      if negb (blockTagCode =? DATA_BLOCK_TYPE_value EXTENDED_TAG)
      then ret (Continue found)
      else
        let blockLength := JS.band headerByte DATA_BLOCK_LENGTH_MASK in
        if blockLength =? 0 then ret (Continue found)
        else
          let dataStart := scanIndex + 1 in
          let dataEnd := dataStart + blockLength in
          if endAddress <? dataEnd then ret (Continue found)
          else
            do extendedTagValue <- u8OrZero reader dataStart;
            if negb (extendedTagValue =?
                     EXTENDED_DATA_BLOCK_TYPE_value HDMI_FORUM_SCDB)
            then ret (Continue found)
            else
              do scdbBlock <-
                parseExtendedTagDataBlock reader dataStart blockLength context;
              ret (Break (Some scdbBlock))
  end.

Definition recoveryScan (reader : BlockReader) (startAddress endAddress : Z)
    (context : ExtensionParseContext)
    : M (option ExtTag.ExtendedTagDataBlock) :=
  forLoop (Z.to_nat (endAddress - startAddress)) startAddress
    (recoveryScan_step reader endAddress context) None.

Definition parseDataBlockCollection (reader : BlockReader) (dtdStart : Z)
    (context : ExtensionParseContext)
    : M (list (option AnyDataBlock) * ExtensionParseContext) :=
  let START_DATA_BLOCK := 4 in
  let startAddress := START_DATA_BLOCK in
  let dataBlockLength := dtdStart - START_DATA_BLOCK in
  if dataBlockLength <? 0 then
    do _ <- warn parse_error "CTA data block collection length is negative."
              (Some (reader_blockIndex reader)) (Some startAddress)
              (Some (DetailFields [("dtdStart"%string, inject_Z dtdStart)]));
    ret ([], context)
  else
    let endAddress := startAddress + dataBlockLength in
    do st <- primaryScan reader endAddress startAddress
               (mkScanState [] None context);
    let dataBlockCollection := scan_dataBlockCollection st in
    let context := scan_context st in
    if negb (existsb isHdmiForumScdbBlock dataBlockCollection) then
      do found <- recoveryScan reader startAddress endAddress context;
      match found with
      | Some scdbBlock =>
          ret (dataBlockCollection ++ [Some (AnyExtended scdbBlock)], context)
      | None => ret (dataBlockCollection, context)
      end
    else ret (dataBlockCollection, context).

(** ** Native resolution *)

Definition getNativeResolution (dtds : option (list Dtd))
    (basicDisplayParams : option BasicDisplayParams)
    : option Native.NativeResolution :=
  let preferredDtd :=
    match basicDisplayParams with
    | Some bdp =>
        if isPreferredTiming bdp
        then match dtds with Some l => l !! 0%nat | None => None end
        else None
    | None => None
    end in
  match preferredDtd with
  | None => None
  | Some preferredDtd =>
      let nz (v : option Z) : option Z :=
        match v with Some 0 | None => None | Some z => Some z end in
      match nz (horizontalActivePixels preferredDtd),
            nz (verticalActivePixels preferredDtd),
            nz (horizontalDisplaySizeInMm preferredDtd),
            nz (verticalDisplaySizeInMm preferredDtd),
            pixelClockMhz preferredDtd with
      | Some hActive, Some vActive, Some hSize, Some vSize, Some clock =>
          if Qeq_bool clock 0 then None
          else
            let horizontalTotal :=
              hActive + default 0 (horizontalBlankLineCount preferredDtd) in
            let verticalTotal :=
              vActive + default 0 (verticalBlankLineCount preferredDtd) in
            if (horizontalTotal =? 0) || (verticalTotal =? 0) then None
            else
              Some {|
                Native.activeHorizontalPixels := hActive;
                Native.activeVerticalLines := vActive;
                Native.physicalWidthInMm := hSize;
                Native.physicalHeightInMm := vSize;
                Native.diagonalInches :=
                  computeDiagonalInches (Some hSize) (Some vSize);
                Native.isInterlaced :=
                  default false (isInterlaced preferredDtd);
                Native.refreshRateHz :=
                  JS.Math_round_f64
                    (JS.f64_div
                       (JS.f64_mul (JS.f64_of_Q clock) (JS.f64_of_Z 1000000))
                       (JS.f64_mul (JS.f64_of_Z horizontalTotal)
                          (JS.f64_of_Z verticalTotal)))
              |}
      | _, _, _, _, _ => None
      end
  end.

(** ** Base block and extension blocks *)

(** [bytes.slice(start, end)]. *)
Definition slice (bytes : list Z) (start end_ : Z) : list Z :=
  take (Z.to_nat (end_ - start)) (drop (Z.to_nat start) bytes).

Record ParsedBaseBlockResult : Type := mkParsedBaseBlockResult {
  result_baseBlock : Base.ParsedBaseEdidBlock;
  result_vendorInfo : VendorInfo;
  result_productInfo : Product.ProductInfo;
  result_basicDisplayParams : option BasicDisplayParams;
  result_nativeResolution : option Native.NativeResolution
}.

(** [s || undefined] on a string that may be null. *)
Definition nonEmpty (s : option string) : option string := str_or s None.

Definition parseBaseBlock (reader : BlockReader) : M ParsedBaseBlockResult :=
  do vid <- getVendorId reader;
  do monitorDescriptors <- getMonitorDescriptors reader 54 126;
  let vendorInfo := getVendorInfo vid in
  do productCode <- getProductCode reader;
  do serialNumberInt <- getSerialNumberInt reader;
  do manufactureWeek <- getManufactureWeek reader;
  do manufactureYear <- getManufactureYear reader;
  let productInfo := {|
    Product.productCode := Some productCode;
    Product.modelName := nonEmpty (md_modelName monitorDescriptors);
    Product.serialNumberInt := Some serialNumberInt;
    Product.serialNumberStr := nonEmpty (monitorSerialNumber monitorDescriptors);
    Product.unspecifiedStrings :=
      match md_unspecifiedStrings monitorDescriptors with
      | [] => None
      | l => Some l
      end;
    Product.manufactureWeek := Some manufactureWeek;
    Product.manufactureYear := Some manufactureYear
  |} in
  do basicDisplayParams <- getBasicDisplayParams reader;
  do bytes <- getBytes;
  let rawBytes := slice bytes 0 EDID_BLOCK_LENGTH in
  do isHeaderValid <- validateHeader reader;
  do edidVersion <- getEdidVersion reader;
  do edidRevision <- getEdidRevision reader;
  let edidVersionString :=
    (JS.numberToString edidVersion ++ "." ++ JS.numberToString edidRevision)%string
  in
  do _ <-
    (if (edidVersion =? 1) &&
        negb (existsb (Z.eqb edidRevision) [0; 1; 2; 3; 4])
     then
       warn unknown_edid_minor_version
         ("Unknown EDID minor version " ++ JS.numberToString edidRevision
          ++ ", assuming 1.4 conformance.")%string
         (Some (reader_blockIndex reader)) (Some 19)
         (Some (DetailFields [("majorVersion"%string, inject_Z edidVersion);
                              ("minorRevision"%string, inject_Z edidRevision);
                              ("assumedConformance"%string, 14 # 10)]))
     else ret tt);
  do chromaticity <- getChromaticityCoordinates reader;
  do timingBitmap <- getTimingBitmap reader;
  do standardDisplayModes <- getStandardDisplayModes reader;
  do dtds <- getDtds reader 54 126;
  let nativeResolution := getNativeResolution (Some dtds) (Some basicDisplayParams)
  in
  do numberOfExtensions <- getNumberExtensions reader;
  do checksum <- getChecksum reader;
  do isChecksumValid <- validChecksum 0 0;
  let baseBlock := {|
    Base.rawBytes := rawBytes;
    Base.isHeaderValid := Some isHeaderValid;
    Base.headerValidity := Some (if isHeaderValid then OK else ERROR);
    Base.vendorId := vid;
    Base.edidVersion := Some edidVersion;
    Base.edidRevision := Some edidRevision;
    Base.edidVersionString := Some edidVersionString;
    Base.chromaticity := Some chromaticity;
    Base.timingBitmap := Some timingBitmap;
    Base.standardDisplayModes := Some standardDisplayModes;
    Base.dtds := Some dtds;
    Base.spwg := md_spwg monitorDescriptors;
    Base.numberOfExtensions := Some numberOfExtensions;
    Base.checksum := Some checksum;
    Base.isChecksumValid := isChecksumValid
  |} in
  ret (mkParsedBaseBlockResult baseBlock vendorInfo productInfo
         (Some basicDisplayParams) nativeResolution).

(** The header fields shared by [parseCtaExtension] and
    [parseUnknownExtension]: byte 3 is read once per field. *)
Definition readExtensionHeader (reader : BlockReader)
    : M (Z * Z * Z * Z * (bool * bool * bool * bool)) :=
  do extTag <- u8OrZero reader 0;
  do revision <- u8OrZero reader 1;
  do dtdStart <- u8OrZero reader 2;
  do b <- u8OrZero reader 3;
  let numDtds := JS.band b 0x0f in
  do b <- u8OrZero reader 3;
  let underscan := flag b 0x80 in
  do b <- u8OrZero reader 3;
  let basicAudio := flag b 0x40 in
  do b <- u8OrZero reader 3;
  let ycbcr444 := flag b 0x20 in
  do b <- u8OrZero reader 3;
  let ycbcr422 := flag b 0x10 in
  ret (extTag, revision, dtdStart, numDtds,
       (underscan, basicAudio, ycbcr444, ycbcr422)).

Definition blockRawBytes (reader : BlockReader) : M (list Z) :=
  do bytes <- getBytes;
  ret (slice bytes (reader_blockOffset reader)
         (reader_blockOffset reader + EDID_BLOCK_LENGTH)).

Definition parseCtaExtension (reader : BlockReader) (extIndex : Z)
    (context : ExtensionParseContext)
    : M (Extension.ParsedExtensionBlock * ExtensionParseContext) :=
  do h <- readExtensionHeader reader;
  let '(extTag, revision, dtdStart, numDtds,
        (underscan, basicAudio, ycbcr444, ycbcr422)) := h in
  do rawBytes <- blockRawBytes reader;
  do r <-
    (if negb (dtdStart =? 4) then
       do r <- parseDataBlockCollection reader dtdStart context;
       ret (Some (fst r), snd r)
     else ret (None, context));
  let (dataBlockCollection, context) := r in
  do dtds <- getDtds reader dtdStart 126;
  do extChecksum <- u8 reader 127;
  do isChecksumValid <- validChecksum (extIndex + 1) (extIndex + 1);
  ret ({|
    Extension.blockNumber := extIndex + 1;
    Extension.extTagByte := extTag;
    Extension.revisionNumber := revision;
    Extension.dtdStart := dtdStart;
    Extension.numDtds := numDtds;
    Extension.supportsUnderscan := underscan;
    Extension.supportsBasicAudio := basicAudio;
    Extension.supportsYCbCr444 := ycbcr444;
    Extension.supportsYCbCr422 := ycbcr422;
    Extension.dataBlockCollection := dataBlockCollection;
    Extension.dtds := dtds;
    Extension.checksum := default 0 extChecksum;
    Extension.rawBytes := rawBytes;
    Extension.isChecksumValid := isChecksumValid;
    Extension.extensionType := Some cta_861
  |}, context).

Definition parseDisplayIdExtension (reader : BlockReader) (extIndex : Z)
    : M Extension.ParsedExtensionBlock :=
  do extTag <- u8OrZero reader 0;
  do revision <- u8OrZero reader 1;
  do payloadLength <- u8OrZero reader 2;
  let dtdStart := Z.min 127 (5 + payloadLength) in
  do rawBytes <- blockRawBytes reader;
  do extChecksum <- u8 reader 127;
  do isChecksumValid <- validChecksum (extIndex + 1) (extIndex + 1);
  ret {|
    Extension.blockNumber := extIndex + 1;
    Extension.extTagByte := extTag;
    Extension.revisionNumber := revision;
    Extension.dtdStart := dtdStart;
    Extension.numDtds := 0;
    Extension.supportsUnderscan := false;
    Extension.supportsBasicAudio := false;
    Extension.supportsYCbCr444 := false;
    Extension.supportsYCbCr422 := false;
    Extension.dataBlockCollection := None;
    Extension.dtds := [];
    Extension.checksum := default 0 extChecksum;
    Extension.rawBytes := rawBytes;
    Extension.isChecksumValid := isChecksumValid;
    Extension.extensionType := Some displayid
  |}.

Definition parseUnknownExtension (reader : BlockReader) (extIndex : Z)
    : M Extension.ParsedExtensionBlock :=
  do h <- readExtensionHeader reader;
  let '(extTag, revision, dtdStart, numDtds,
        (underscan, basicAudio, ycbcr444, ycbcr422)) := h in
  do rawBytes <- blockRawBytes reader;
  do extChecksum <- u8 reader 127;
  do isChecksumValid <- validChecksum (extIndex + 1) (extIndex + 1);
  do _ <- warn unknown_extension_tag "Encountered an unsupported extension tag."
            (Some (reader_blockIndex reader)) (Some 0)
            (Some (DetailFields [("tag"%string, inject_Z extTag)]));
  ret {|
    Extension.blockNumber := extIndex + 1;
    Extension.extTagByte := extTag;
    Extension.revisionNumber := revision;
    Extension.dtdStart := dtdStart;
    Extension.numDtds := numDtds;
    Extension.supportsUnderscan := underscan;
    Extension.supportsBasicAudio := basicAudio;
    Extension.supportsYCbCr444 := ycbcr444;
    Extension.supportsYCbCr422 := ycbcr422;
    Extension.dataBlockCollection := None;
    Extension.dtds := [];
    Extension.checksum := default 0 extChecksum;
    Extension.rawBytes := rawBytes;
    Extension.isChecksumValid := isChecksumValid;
    Extension.extensionType := Some unknown
  |}.

Definition CTA_EXTENSION_TAG : Z := 0x02.
Definition DISPLAYID_EXTENSION_TAG : Z := 0x70.

(** *** [parseExtensions] and its [try]/[catch]

    A block decoder called inside the [try] either completes normally or
    throws; in both cases the warnings it pushed and the extension context
    it wrote stay.  The loop is stated over arbitrary such decoders for the
    CTA-861 and DisplayID branches; [parseExtensions] instantiates it with
    the decoders above, which always complete normally. *)
Inductive Thrown : Type :=
| ThrownError (name : string) (msg : string)
| ThrownValue (description : string).

Inductive Completion (A : Type) : Type :=
| Normal (a : A)
| Throw (e : Thrown).
Arguments Normal {A} a.
Arguments Throw {A} e.

Definition ExtensionDecoder : Type :=
  BlockReader -> Z -> ExtensionParseContext ->
  M (Completion Extension.ParsedExtensionBlock * ExtensionParseContext).

Definition detailOfThrown (error : Thrown) : WarningDetail :=
  match error with
  | ThrownError name msg => DetailError name msg
  | ThrownValue description => DetailValue description
  end.

Section ParseExtensions.

Variable decodeCta : ExtensionDecoder.
Variable decodeDisplayId : ExtensionDecoder.

(** One iteration of [for (extIndex = 0; extIndex < count; extIndex++)]. *)
Definition parseExtensions_step (extIndex : Z)
    (st : list Extension.ParsedExtensionBlock * ExtensionParseContext)
    : M (Ctl (list Extension.ParsedExtensionBlock * ExtensionParseContext)) :=
  let (extensions, context) := st in
  let blockOffset := EDID_BLOCK_LENGTH * (extIndex + 1) in
  let reader := createBlockReader (extIndex + 1) blockOffset in
  do extTag <- u8 reader 0;
  match extTag with
  | None => ret (Break st)
  | Some extTag =>
      do r <-
        (if extTag =? CTA_EXTENSION_TAG then decodeCta reader extIndex context
         else if extTag =? DISPLAYID_EXTENSION_TAG
         then decodeDisplayId reader extIndex context
         else
           do ext <- parseUnknownExtension reader extIndex;
           ret (Normal ext, context));
      let (completion, context) := r in
      match completion with
      | Normal ext => ret (Continue (extensions ++ [ext], context))
      | Throw error =>
          do _ <- warn parse_error "Failed to parse extension block."
                    (Some (reader_blockIndex reader)) (Some 0)
                    (Some (detailOfThrown error));
          do fallback <- parseUnknownExtension reader extIndex;
          ret (Continue (extensions ++ [fallback], context))
      end
  end.

Definition parseExtensionsWith (count : Z) (context : ExtensionParseContext)
    : M (list Extension.ParsedExtensionBlock) :=
  do r <- forLoop (Z.to_nat count) 0 parseExtensions_step ([], context);
  ret (fst r).

End ParseExtensions.

Definition decodeCtaExtension : ExtensionDecoder :=
  fun reader extIndex context =>
    do r <- parseCtaExtension reader extIndex context;
    ret (Normal (fst r), snd r).

Definition decodeDisplayIdExtension : ExtensionDecoder :=
  fun reader extIndex context =>
    do ext <- parseDisplayIdExtension reader extIndex;
    ret (Normal ext, context).

Definition parseExtensions (count : Z) (context : ExtensionParseContext)
    : M (list Extension.ParsedExtensionBlock) :=
  parseExtensionsWith decodeCtaExtension decodeDisplayIdExtension count context.

(** ** Feature support *)

Record CanonicalGamut : Type := mkCanonicalGamut {
  gamut : ColorGamut;
  gamut_redX : Q; gamut_redY : Q;
  gamut_greenX : Q; gamut_greenY : Q;
  gamut_blueX : Q; gamut_blueY : Q
}.

Definition CANONICAL_GAMUTS : list CanonicalGamut := [
  mkCanonicalGamut srgb (64 # 100) (33 # 100) (3 # 10) (6 # 10) (15 # 100)
    (6 # 100);
  mkCanonicalGamut display_p3 (68 # 100) (32 # 100) (265 # 1000) (69 # 100)
    (15 # 100) (6 # 100);
  mkCanonicalGamut adobe_rgb (64 # 100) (33 # 100) (21 # 100) (71 # 100)
    (15 # 100) (6 # 100);
  mkCanonicalGamut rec_2020 (708 # 1000) (292 # 1000) (17 # 100) (797 # 1000)
    (131 # 1000) (46 # 1000)
].

(** [a < b] and [a > 0] on rationals. *)
Definition Qlt_bool (a b : Q) : bool := negb (Qle_bool b a).

Definition inferColorGamut (chromaticity : option ChromaticityCoordinates)
    : option ColorGamut :=
  match chromaticity with
  | None => None
  | Some c =>
      match redXCoords c, redYCoords c, greenXCoords c, greenYCoords c,
            blueXCoords c, blueYCoords c with
      | Some redX, Some redY, Some greenX, Some greenY, Some blueX, Some blueY =>
          let sq (x : Q) : Q := (x * x)%Q in
          fst
            (fold_left
               (fun '(closestGamut, closestDistance) g =>
                  let distance :=
                    (sq (redX - gamut_redX g) + sq (redY - gamut_redY g)
                     + sq (greenX - gamut_greenX g)
                     + sq (greenY - gamut_greenY g)
                     + sq (blueX - gamut_blueX g)
                     + sq (blueY - gamut_blueY g))%Q in
                  let closer :=
                    match closestDistance with
                    | None => true
                    | Some d => Qlt_bool distance d
                    end in
                  if closer then (Some (gamut g), Some distance)
                  else (closestGamut, closestDistance))
               CANONICAL_GAMUTS (None, None))
      | _, _, _, _, _, _ => None
      end
  end.

(** The refresh rate of a timing, computed in double precision; a quotient
    that is not finite and positive gives no rate. *)
Definition getDtdRefreshRateHz (dtd : Dtd) : option Q :=
  match pixelClockMhz dtd, horizontalActivePixels dtd,
        verticalActivePixels dtd with
  | Some pixelClockMhz, Some horizontalActivePixels,
    Some verticalActivePixels =>
      if (horizontalActivePixels <=? 0) || (verticalActivePixels <=? 0)
      then None
      else
        let horizontalTotal :=
          horizontalActivePixels + default 0 (horizontalBlankLineCount dtd) in
        let verticalTotal :=
          verticalActivePixels + default 0 (verticalBlankLineCount dtd) in
        if (horizontalTotal <=? 0) || (verticalTotal <=? 0) then None
        else
          let refreshRateHz :=
            JS.f64_div
              (JS.f64_mul (JS.f64_of_Q pixelClockMhz) (JS.f64_of_Z 1000000))
              (JS.f64_mul (JS.f64_of_Z horizontalTotal)
                 (JS.f64_of_Z verticalTotal)) in
          match JS.f64_value refreshRateHz with
          | Some rate => if JS.Qpos rate then Some rate else None
          | None => None
          end
  | _, _, _ => None
  end.

Definition maxBitDepth (current next : Z) : Z :=
  if current <? next then next else current.

Definition maxHdmiVersion (current : option Q) (next : Q) : Q :=
  match current with
  | None => next
  | Some c => if Qlt_bool c next then next else c
  end.

Definition parseDisplayIdVersionFromRevision (revision : Z) : option Q :=
  if (revision <=? 0) || (0xff <? revision) then None
  else if revision =? 0x01 then Some (13 # 10)
  else if revision =? 0x02 then Some 2%Q
  else if revision =? 0x03 then Some (21 # 10)
  else
    let major := JS.band (JS.shr revision 4) 0x0f in
    let minor := JS.band revision 0x0f in
    if (major =? 0) || (9 <? minor) then None
    else Some (inject_Z major + inject_Z minor / 10)%Q.

Definition maxDisplayIdVersion (current : option Q) (next : Q) : Q :=
  match current with
  | None => next
  | Some c => if Qlt_bool c next then next else c
  end.

(** [Set.prototype.add], on a set kept in insertion order. *)
Definition ColorGamut_eqb (a b : ColorGamut) : bool :=
  match a, b with
  | srgb, srgb | display_p3, display_p3 | adobe_rgb, adobe_rgb
  | rec_2020, rec_2020 => true
  | _, _ => false
  end.

Definition set_has (s : list ColorGamut) (g : ColorGamut) : bool :=
  existsb (ColorGamut_eqb g) s.

Definition set_add (g : ColorGamut) (s : list ColorGamut) : list ColorGamut :=
  if set_has s g then s else s ++ [g].

(** The helper closures of [buildFeatureSupport]. *)
Definition addSrrRate (rateHz : option Q) (s : Acc.FeatureState)
    : Acc.FeatureState :=
  match rateHz with
  | None => s
  | Some rateHz =>
      if negb (JS.Qpos rateHz) then s
      else
        let rounded := JS.Math_round rateHz in
        if rounded <=? 0 then s
        else
          let s :=
            if JS.ext_ltb (JS.Fin rounded) (Acc.minSrrHz s)
            then Acc.set_minSrrHz (JS.Fin rounded) s else s in
          if JS.ext_ltb (Acc.maxSrrHz s) (JS.Fin rounded)
          then Acc.set_maxSrrHz (JS.Fin rounded) s else s
  end.

Definition addVrrMin (rateHz : option Z) (s : Acc.FeatureState)
    : Acc.FeatureState :=
  match rateHz with
  | None => s
  | Some rateHz =>
      if rateHz <=? 0 then s
      else
        let rounded := JS.Math_round (inject_Z rateHz) in
        if rounded <=? 0 then s
        else
          Acc.set_minVrrHz
            (Some match Acc.minVrrHz s with
                  | None => rounded
                  | Some m => Z.min m rounded
                  end) s
  end.

Definition addVrrMax (rateHz : option Z) (s : Acc.FeatureState)
    : Acc.FeatureState :=
  match rateHz with
  | None => s
  | Some rateHz =>
      if rateHz <=? 0 then s
      else
        let rounded := JS.Math_round (inject_Z rateHz) in
        if rounded <=? 0 then s
        else
          Acc.set_maxVrrHz
            (Some match Acc.maxVrrHz s with
                  | None => rounded
                  | Some m => Z.max m rounded
                  end) s
  end.

Definition addHdmiVersion (version : Q) (s : Acc.FeatureState)
    : Acc.FeatureState :=
  Acc.set_hdmiVersion (Some (maxHdmiVersion (Acc.hdmiVersion s) version)) s.

Definition addDisplayIdVersion (version : Q) (s : Acc.FeatureState)
    : Acc.FeatureState :=
  Acc.set_displayIdVersion
    (Some (maxDisplayIdVersion (Acc.displayIdVersion s) version)) s.

(** Truthiness of an optional boolean. *)
Definition isTrue (b : option bool) : bool := default false b.

(** [features?.f] for an optional [hdmiForumFeatures]. *)
Definition forumFlag (features : option Forum.HdmiForumFeatures)
    (f : Forum.HdmiForumFeatures -> option bool) : bool :=
  match features with
  | Some x => isTrue (f x)
  | None => false
  end.

Definition when (c : bool) (f : Acc.FeatureState -> Acc.FeatureState)
    (s : Acc.FeatureState) : Acc.FeatureState :=
  if c then f s else s.

Definition isDefined {A : Type} (x : option A) : bool :=
  match x with Some _ => true | None => false end.

Definition notNotSupported (link : option string) : bool :=
  match link with
  | Some l => negb (String.eqb l "Not Supported")
  | None => false
  end.

(** The body of [for (const dataBlock of dataBlocks)] for a vendor block. *)
Definition addVendorBlock (dataBlock : Vendor.VendorDataBlock)
    (s : Acc.FeatureState) : Acc.FeatureState :=
  let oui := Vendor.ieeeOui dataBlock in
  let s :=
    if bool_decide (oui = Some (IEEE_OUI_TYPE_value HDMI14)) then
      addHdmiVersion (14 # 10) s
    else if bool_decide (oui = Some (IEEE_OUI_TYPE_value HDMI_FORUM)) then
      let isHdmi21Signaled :=
        isDefined (Vendor.hfPayloadVersion dataBlock) ||
        isDefined (Vendor.hdmiForumFeatures dataBlock) ||
        notNotSupported (Vendor.maxFixedRateLink dataBlock) in
      addHdmiVersion (if isHdmi21Signaled then 21 # 10 else 2) s
    else s in
  let s :=
    when (isTrue (Vendor.supportsDolbyVision dataBlock))
      (Acc.set_supportsDolbyVision true) s in
  let s :=
    when (isTrue (Vendor.supportsGameContentType dataBlock))
      (Acc.set_supportsGameMode true) s in
  let raise (depth : Z) (s : Acc.FeatureState) :=
    Acc.set_maxInputSignalBitDepth
      (maxBitDepth (Acc.maxInputSignalBitDepth s) depth) s in
  let s :=
    when (isTrue (Vendor.supportsDeepColor30 dataBlock) ||
          isTrue (Vendor.supportsDeepColorY420_30 dataBlock)) (raise 10) s in
  let s :=
    when (isTrue (Vendor.supportsDeepColor36 dataBlock) ||
          isTrue (Vendor.supportsDeepColorY420_36 dataBlock)) (raise 12) s in
  let s :=
    when (isTrue (Vendor.supportsDeepColor48 dataBlock) ||
          isTrue (Vendor.supportsDeepColorY420_48 dataBlock)) (raise 16) s in
  let features := Vendor.hdmiForumFeatures dataBlock in
  let s :=
    when (forumFlag features Forum.supports10bpcCompressedVideo) (raise 10) s in
  let s :=
    when (forumFlag features Forum.supports12bpcCompressedVideo) (raise 12) s in
  let s :=
    when (forumFlag features Forum.supports16bpcCompressedVideo) (raise 16) s in
  let s :=
    when (forumFlag features Forum.supportsCinemaVRR ||
          forumFlag features Forum.supportsNegativeMVRR)
      (Acc.set_supportsVRR true) s in
  let s :=
    when (forumFlag features Forum.supportsALLM) (Acc.set_supportsALLM true) s
  in
  let s :=
    when (isDefined (Vendor.vrrMinHz dataBlock) ||
          isDefined (Vendor.vrrMaxHz dataBlock)) (Acc.set_supportsVRR true) s in
  let s := addVrrMin (Vendor.vrrMinHz dataBlock) s in
  addVrrMax (Vendor.vrrMaxHz dataBlock) s.

(** The same body for an extended-tag block. *)
Definition addExtendedTagBlock (dataBlock : ExtTag.ExtendedTagDataBlock)
    (s : Acc.FeatureState) : Acc.FeatureState :=
  let s :=
    if match ExtTag.extendedTag dataBlock with
       | Some (KnownExtendedTag HDMI_FORUM_SCDB) => true
       | _ => false
       end then
      let isHdmi21Signaled :=
        isDefined (ExtTag.hdmiForumFeatures dataBlock) ||
        notNotSupported (ExtTag.maxFixedRateLink dataBlock) in
      addHdmiVersion (if isHdmi21Signaled then 21 # 10 else 2) s
    else if isTrue (ExtTag.supportsQMS dataBlock) ||
            isTrue (ExtTag.supportsCinemaVRR dataBlock) ||
            isTrue (ExtTag.supportsNegativeMRR dataBlock) ||
            isTrue (ExtTag.supportsFVA dataBlock) ||
            isTrue (ExtTag.supportsALLM dataBlock)
    then addHdmiVersion (21 # 10) s
    else s in
  let s :=
    when (isTrue (ExtTag.supportsHDR10 dataBlock)) (Acc.set_supportsHDR10 true)
      s in
  let s :=
    when (isTrue (ExtTag.supportsHDR10Plus dataBlock))
      (Acc.set_supportsHDR10Plus true) s in
  let s :=
    when (isTrue (ExtTag.supportsDolbyVision dataBlock))
      (Acc.set_supportsDolbyVision true) s in
  let s :=
    when (isTrue (ExtTag.supportsAdobeRGB dataBlock))
      (fun s => Acc.set_colorGamuts (set_add adobe_rgb (Acc.colorGamuts s)) s) s
  in
  let s :=
    when (isTrue (ExtTag.supportsBT2020RGB dataBlock) ||
          isTrue (ExtTag.supportsBT2020YCC dataBlock) ||
          isTrue (ExtTag.supportsBT2020cYCC dataBlock))
      (fun s => Acc.set_colorGamuts (set_add rec_2020 (Acc.colorGamuts s)) s) s
  in
  let s :=
    when (isTrue (ExtTag.supportsVRR dataBlock) ||
          isTrue (ExtTag.supportsCinemaVRR dataBlock) ||
          isTrue (ExtTag.supportsNegativeMRR dataBlock))
      (Acc.set_supportsVRR true) s in
  let s :=
    when (isTrue (ExtTag.supportsALLM dataBlock) ||
          forumFlag (ExtTag.hdmiForumFeatures dataBlock) Forum.supportsALLM)
      (Acc.set_supportsALLM true) s in
  let s :=
    when (isDefined (ExtTag.vrrMinHz dataBlock) ||
          isDefined (ExtTag.vrrMaxHz dataBlock)) (Acc.set_supportsVRR true) s in
  let s := addVrrMin (ExtTag.vrrMinHz dataBlock) s in
  addVrrMax (ExtTag.vrrMaxHz dataBlock) s.

Definition addDataBlock (s : Acc.FeatureState) (dataBlock : option AnyDataBlock)
    : Acc.FeatureState :=
  match dataBlock with
  | None => s
  | Some block =>
      if isVendorBlock dataBlock then
        match block with
        | AnyVendor b => addVendorBlock b s
        | _ => s
        end
      else if negb (isExtendedTagBlock dataBlock) then s
      else
        match block with
        | AnyExtended b => addExtendedTagBlock b s
        | _ => s
        end
  end.

(** The body of [for (const ext of extensions)]. *)
Definition addExtension (s : Acc.FeatureState)
    (ext : Extension.ParsedExtensionBlock) : Acc.FeatureState :=
  let s :=
    if Extension.extTagByte ext =? DISPLAYID_EXTENSION_TAG then
      match parseDisplayIdVersionFromRevision (Extension.revisionNumber ext) with
      | Some version => addDisplayIdVersion version s
      | None => s
      end
    else s in
  let s :=
    fold_left (fun s dtd => addSrrRate (getDtdRefreshRateHz dtd) s)
      (Extension.dtds ext) s in
  match Extension.dataBlockCollection ext with
  | None => s
  | Some dataBlocks => fold_left addDataBlock dataBlocks s
  end.

(** [Number.parseFloat(`${edidMajor}.${edidMinor}`)]. *)
Definition parseVersionFloat (edidMajor edidMinor : Z) : Q :=
  let fraction :=
    if edidMinor <? 0 then 0%Q
    else
      (inject_Z edidMinor
       / inject_Z (10 ^ Z.of_nat (String.length (JS.numberToString edidMinor))))%Q
  in
  if edidMajor <? 0 then (- (inject_Z (- edidMajor) + fraction))%Q
  else (inject_Z edidMajor + fraction)%Q.

(** The reconciliation of the static range with the VRR range at the end of
    [buildFeatureSupport]. *)
Definition finalizeRefreshRates (s : Acc.FeatureState) : Acc.FeatureState :=
  let s :=
    match Acc.minVrrHz s with
    | Some minVrrHz =>
        if JS.ext_ltb (JS.Fin minVrrHz) (Acc.minSrrHz s)
        then Acc.set_minSrrHz (JS.Fin minVrrHz) s else s
    | None => s
    end in
  let s :=
    match Acc.maxVrrHz s with
    | Some maxVrrHz =>
        if JS.ext_ltb (Acc.maxSrrHz s) (JS.Fin maxVrrHz)
        then Acc.set_maxSrrHz (JS.Fin maxVrrHz) s else s
    | None => s
    end in
  let s :=
    if negb (JS.isFinite (Acc.minSrrHz s)) then
      Acc.set_minSrrHz
        (JS.Fin (default (default 0 (Acc.maxVrrHz s)) (Acc.minVrrHz s))) s
    else s in
  let s :=
    if JS.ext_eqb (Acc.maxSrrHz s) (JS.Fin 0) then
      Acc.set_maxSrrHz
        (match Acc.maxVrrHz s with
         | Some maxVrrHz => JS.Fin maxVrrHz
         | None => Acc.minSrrHz s
         end) s
    else s in
  let s :=
    if JS.ext_ltb (Acc.maxSrrHz s) (Acc.minSrrHz s)
    then Acc.set_maxSrrHz (Acc.minSrrHz s) s else s in
  if negb (Acc.supportsVRR s) &&
     (isDefined (Acc.minVrrHz s) || isDefined (Acc.maxVrrHz s))
  then Acc.set_supportsVRR true s else s.

Definition buildFeatureSupport (baseBlock : Base.ParsedBaseEdidBlock)
    (extensions : list Extension.ParsedExtensionBlock)
    (basicDisplayParams : option BasicDisplayParams)
    (nativeResolution : option Native.NativeResolution) : FS.FeatureSupport :=
  let colorGamuts : list ColorGamut := [] in
  let colorGamuts :=
    match basicDisplayParams with
    | Some bdp => if isStandardSRgb bdp then set_add srgb colorGamuts
                  else colorGamuts
    | None => colorGamuts
    end in
  let inferredGamut := inferColorGamut (Base.chromaticity baseBlock) in
  let colorGamuts :=
    match inferredGamut with
    | Some g => set_add srgb (set_add g colorGamuts)
    | None => colorGamuts
    end in
  let s := {|
    Acc.colorGamuts := colorGamuts;
    Acc.maxInputSignalBitDepth := 8;
    Acc.supportsHDR10 := false;
    Acc.supportsHDR10Plus := false;
    Acc.supportsDolbyVision := false;
    Acc.supportsVRR := false;
    Acc.supportsGameMode := false;
    Acc.supportsALLM := false;
    Acc.minVrrHz := None;
    Acc.maxVrrHz := None;
    Acc.hdmiVersion := None;
    Acc.displayIdVersion := None;
    Acc.minSrrHz := JS.PosInfinity;
    Acc.maxSrrHz := JS.Fin 0
  |} in
  let s :=
    addSrrRate
      (match nativeResolution with
       | Some n => Some (inject_Z (Native.refreshRateHz n))
       | None => None
       end) s in
  let s :=
    fold_left (fun s mode => addSrrRate (inject_Z <$> vertFreqHz mode) s)
      (default [] (Base.standardDisplayModes baseBlock)) s in
  let s :=
    fold_left (fun s dtd => addSrrRate (getDtdRefreshRateHz dtd) s)
      (default [] (Base.dtds baseBlock)) s in
  let s := fold_left addExtension extensions s in
  let s := finalizeRefreshRates s in
  let orderedColorGamuts :=
    List.filter (set_has (Acc.colorGamuts s))
      [srgb; display_p3; adobe_rgb; rec_2020] in
  let edidVersion :=
    match Base.edidVersion baseBlock, Base.edidRevision baseBlock with
    | Some edidMajor, Some edidMinor =>
        Some (parseVersionFloat edidMajor edidMinor)
    | _, _ => None
    end in
  {|
    FS.colorGamuts := orderedColorGamuts;
    FS.maxInputSignalBitDepth := Acc.maxInputSignalBitDepth s;
    FS.hdmiVersion := Acc.hdmiVersion s;
    FS.supportsHDR10 := Acc.supportsHDR10 s;
    FS.supportsHDR10Plus := Acc.supportsHDR10Plus s;
    FS.supportsDolbyVision := Acc.supportsDolbyVision s;
    FS.minSrrHz := Acc.minSrrHz s;
    FS.maxSrrHz := Acc.maxSrrHz s;
    FS.supportsVRR := Acc.supportsVRR s;
    FS.minVrrHz := Acc.minVrrHz s;
    FS.maxVrrHz := Acc.maxVrrHz s;
    FS.supportsGameMode := Acc.supportsGameMode s;
    FS.supportsALLM := Acc.supportsALLM s;
    FS.edidVersion := edidVersion;
    FS.displayIdVersion := Acc.displayIdVersion s
  |}.

(** ** Public API *)

(** [for (const ext of extensions) if (ext.isChecksumValid === false) warn(...)]. *)
Fixpoint warnFailedExtensionChecksums
    (extensions : list Extension.ParsedExtensionBlock) : M unit :=
  match extensions with
  | [] => ret tt
  | ext :: rest =>
      do _ <-
        (if bool_decide (Extension.isChecksumValid ext = Some false) then
           warn checksum_failed "Extension block checksum failed."
             (Some (Extension.blockNumber ext)) (Some 127) None
         else ret tt);
      warnFailedExtensionChecksums rest
  end.

(** The body of [parseEdid], run on the freshly created [ReadContext]; like
    [parseExtensionsWith], it is stated over the block decoders called inside
    the [try]. *)
Section ParseEdidWith.

Variable decodeCta : ExtensionDecoder.
Variable decodeDisplayId : ExtensionDecoder.

Definition parseEdid_body : M Edid.ParsedEdid :=
  do edidBytes <- getBytes;
  let length := Z.of_nat (List.length edidBytes) in
  do _ <-
    (if length <? EDID_BLOCK_LENGTH then
       warn too_short "EDID data is shorter than a single 128-byte block."
         None None (Some (DetailFields [("length"%string, inject_Z length)]))
     else ret tt);
  do _ <-
    (if negb (Z.rem length EDID_BLOCK_LENGTH =? 0) then
       warn length_not_multiple_of_128
         "EDID length is not a multiple of 128 bytes."
         None None (Some (DetailFields [("length"%string, inject_Z length)]))
     else ret tt);
  let baseReader := createBlockReader 0 0 in
  do parsed <- parseBaseBlock baseReader;
  let baseBlock := result_baseBlock parsed in
  do _ <-
    (if negb (isTrue (Base.isHeaderValid baseBlock)) then
       warn invalid_header "EDID header is invalid." (Some 0) (Some 0) None
     else ret tt);
  do _ <-
    (if bool_decide (Base.isChecksumValid baseBlock = Some false) then
       warn checksum_failed "Base block checksum failed." (Some 0) (Some 127)
         None
     else ret tt);
  let expectedExtensionCount :=
    default 0 (Base.numberOfExtensions baseBlock) in
  let actualExtensionCount := Z.max 0 (length / EDID_BLOCK_LENGTH - 1) in
  do _ <-
    (if negb (expectedExtensionCount =? actualExtensionCount) then
       warn extension_count_mismatch
         "Extension count does not match available blocks." None None
         (Some (DetailFields
                  [("expected"%string, inject_Z expectedExtensionCount);
                   ("actual"%string, inject_Z actualExtensionCount)]))
     else ret tt);
  let extensionContext := mkExtensionParseContext None in
  do extensions <-
    parseExtensionsWith decodeCta decodeDisplayId actualExtensionCount
      extensionContext;
  do _ <- warnFailedExtensionChecksums extensions;
  let featureSupport :=
    buildFeatureSupport baseBlock extensions
      (result_basicDisplayParams parsed) (result_nativeResolution parsed) in
  fun ctx =>
    (Edid.mk edidBytes (warnings ctx)
       (Base.isHeaderValid baseBlock) (Base.isChecksumValid baseBlock)
       (Some expectedExtensionCount) baseBlock extensions featureSupport
       (result_vendorInfo parsed) (result_productInfo parsed)
       (result_basicDisplayParams parsed) (result_nativeResolution parsed),
     ctx).

(** [data] is a [number[]] of integers (a typed array or buffer is the
    special case of values already in range). *)
Definition parseEdidWith (data : list Z) : Edid.ParsedEdid :=
  let bytes := map JS.clampByte data in
  let warnings : list ParsedEdidWarning := [] in
  let ctx := mkReadContext bytes warnings in
  fst (parseEdid_body ctx).

End ParseEdidWith.

Definition parseEdid (data : list Z) : Edid.ParsedEdid :=
  parseEdidWith decodeCtaExtension decodeDisplayIdExtension data.

End Parser.

Arguments Normal {A} a.
Arguments Throw {A} e.

(** * Specification vocabulary *)

(** The warning codes pushed below [parseEdid] itself: by the byte reader and
    by the block decoders. *)
Definition decoderCode (c : ParsedEdidWarningCode) : bool :=
  match c with
  | out_of_range_read | unknown_edid_minor_version | unknown_extension_tag
  | unknown_data_block | parse_error => true
  | _ => false
  end.

(** What a computation returns and pushes when run on a context that holds
    the bytes [bs] and no warning yet. *)
Definition value {A : Type} (m : M A) (bs : list Z) : A :=
  fst (m (mkReadContext bs [])).

Definition emitted {A : Type} (m : M A) (bs : list Z)
    : list ParsedEdidWarning :=
  warnings (snd (m (mkReadContext bs []))).

(** A computation appends when it never changes the bytes, only appends to
    the warnings, and both what it returns and what it appends depend on the
    bytes alone. *)
Definition appends {A : Type} (m : M A) : Prop :=
  forall ctx,
    m ctx = (value m (bytes ctx),
             mkReadContext (bytes ctx)
               (warnings ctx ++ emitted m (bytes ctx))).

(** A computation is framed when it never changes the bytes, only appends to
    the warnings, appends decoder-level codes only, and returns a value that
    does not depend on the warnings already present. *)
Definition framed {A : Type} (m : M A) : Prop :=
  forall ctx,
    m ctx = (value m (bytes ctx),
             mkReadContext (bytes ctx)
               (warnings ctx ++ emitted m (bytes ctx)))
    /\ Forall (fun w => decoderCode (code w) = true) (emitted m (bytes ctx)).

(** A block decoder called inside the [try] is framed when each of its
    calls is. *)
Definition framedDecoder (decode : ExtensionDecoder) : Prop :=
  forall reader extIndex context, framed (decode reader extIndex context).

(** A warning pushed under a condition. *)
Definition warningIf (c : bool) (w : ParsedEdidWarning)
    : list ParsedEdidWarning :=
  if c then [w] else [].

(** Some warning of the list carries the code [c]; carries it for block
    [blockIdx]. *)
Definition hasWarning (c : ParsedEdidWarningCode)
    (ws : list ParsedEdidWarning) : Prop :=
  Exists (fun w => code w = c) ws.

Definition hasBlockWarning (c : ParsedEdidWarningCode) (blockIdx : Z)
    (ws : list ParsedEdidWarning) : Prop :=
  Exists (fun w => code w = c /\ blockIndex w = Some blockIdx) ws.

(** The number of whole extension blocks the input holds after the base
    block ([actualExtensionCount] in [parseEdid]). *)
Definition availableExtensions (bs : list Z) : Z :=
  Z.max 0 (Z.of_nat (length bs) / EDID_BLOCK_LENGTH - 1).

(** What [reader.u8(offset)] returns on the bytes [bs]: the byte there, or
    nothing out of range. *)
Definition byteAt (bs : list Z) (reader : BlockReader) (offset : Z)
    : option Z :=
  value (u8 reader offset) bs.

(** Byte [i] of a data block payload of [blockLength] bytes starting at
    [startAddress]; absent beyond the declared length or the input. *)
Definition payloadByte (bs : list Z) (reader : BlockReader)
    (startAddress blockLength i : Z) : option Z :=
  if i <? blockLength then byteAt bs reader (startAddress + i) else None.

(** Bit [n] of a byte that may be absent. *)
Definition bitSet (byte : option Z) (n : Z) : bool :=
  match byte with
  | Some b => Z.testbit b n
  | None => false
  end.

(** The sum of the bytes [0..126] of the 128-byte block number [block]. *)
Definition blockSum (bs : list Z) (block : Z) : Z :=
  fold_right Z.add 0
    (take 127 (drop (Z.to_nat (block * EDID_BLOCK_LENGTH)) bs)).

(** The checksum byte (offset 127) of block number [block]. *)
Definition blockChecksumByte (bs : list Z) (block : Z) : Z :=
  default 0 (bs !! Z.to_nat (block * EDID_BLOCK_LENGTH + 127)).

(** The checksum rule as the specification words it: the byte at offset 127
    equals [(256 - (sum of bytes 0..126 mod 256)) mod 256]. *)
Definition spec_checksumValid (bs : list Z) (block : Z) : bool :=
  blockChecksumByte bs block =? (256 - blockSum bs block mod 256) mod 256.

(** The standard display mode the specification decodes from a slot. *)
Definition spec_standardDisplayMode (byte1 byte2 : Z) : StandardDisplayMode :=
  {| xResolutionPx := Some ((byte1 + 31) * 8);
     xyPixelRatio := Some (Z.shiftr byte2 6);
     vertFreqHz := Some (Z.land byte2 0x3f + 60) |}.

(** The slots the specification treats as unused: both bytes are [0x01]. *)
Definition spec_slotUnused (byte1 byte2 : Z) : bool :=
  (byte1 =? 0x01) && (byte2 =? 0x01).

(** The slots the decoder skips: either byte is [0x01] (the guard of
    [getStandardDisplayModes] negated). *)
Definition slotSkipped (byte1 byte2 : Z) : bool :=
  (byte1 =? 0x01) || (byte2 =? 0x01).

(** The two bytes of standard display mode slot [k] (0..7) of the base
    block, when both can be read. *)
Definition slotBytes (bs : list Z) (k : Z) : option (Z * Z) :=
  match byteAt bs (createBlockReader 0 0) (STD_DISPLAY_MODES_START + 2 * k),
        byteAt bs (createBlockReader 0 0) (STD_DISPLAY_MODES_START + 2 * k + 1)
  with
  | Some byte1, Some byte2 => Some (byte1, byte2)
  | _, _ => None
  end.

(** The modes kept from the [n] slots [k], [k + 1], ...: a skipped slot
    contributes nothing, the others their decoded mode; an unreadable slot
    ends the list. *)
Fixpoint keptModes (bs : list Z) (n : nat) (k : Z) : list StandardDisplayMode :=
  match n with
  | O => []
  | S n' =>
      match slotBytes bs k with
      | None => []
      | Some (byte1, byte2) =>
          (if slotSkipped byte1 byte2 then []
           else [spec_standardDisplayMode byte1 byte2])
          ++ keptModes bs n' (k + 1)
      end
  end.

(** *** The data block walk

    The tag code and the declared length of a data block header byte. *)
Definition headerTag (headerByte : Z) : Z :=
  JS.band (JS.shr headerByte TAG_CODE_OFFSET) TAG_CODE_MASK.

Definition headerLength (headerByte : Z) : Z :=
  JS.band headerByte DATA_BLOCK_LENGTH_MASK.

(** The headers met by a walk from [index] up to [endAddress] that advances
    by each block's declared length, as pairs of an offset and the header
    byte there; the walk ends at the first header that cannot be read. *)
Equations? blockHeaders (bs : list Z) (reader : BlockReader)
    (endAddress index : Z) : list (Z * Z)
    by wf (Z.to_nat (endAddress - index)) lt :=
  blockHeaders bs reader endAddress index
    with inspect (index <? endAddress) => {
    | exist _ false _ => [];
    | exist _ true Hlt with byteAt bs reader index => {
        | None => [];
        | Some headerByte =>
            (index, headerByte)
            :: blockHeaders bs reader endAddress
                 (index + headerLength headerByte + 1) } }.
Proof.
  apply Z.ltb_lt in Hlt.
  assert (0 <= headerLength headerByte).
  { unfold headerLength, JS.band. apply Z.land_nonneg. right.
    vm_compute. discriminate. }
  lia.
Qed.

Definition isVideoHeader (header : Z * Z) : bool :=
  headerTag (snd header) =? DATA_BLOCK_TYPE_value VIDEO.

(** The video data block decoded at a header. *)
Definition videoBlockAt (bs : list Z) (reader : BlockReader) (header : Z * Z)
    : Video.VideoDataBlock :=
  fst (value (parseVideoDataBlock reader (fst header + 1)
                (headerLength (snd header)) (mkExtensionParseContext None))
         bs).

Definition isVideoEntry (entry : option AnyDataBlock) : bool :=
  match entry with
  | Some (AnyVideo _) => true
  | _ => false
  end.

(** What the primary scan of a collection leaves: the state of
    [primaryScan] on the range [[4, dtdStart)]. *)
Definition primaryCollection (bs : list Z) (reader : BlockReader)
    (dtdStart : Z) (context : ExtensionParseContext) : ScanState :=
  value (primaryScan reader dtdStart 4 (mkScanState [] None context)) bs.

(** The state of the primary scan after the headers [hs]: one entry per
    header; before any VIDEO header no entry is a video block; from the
    first VIDEO header on, the entry of that header is the only video block,
    it holds the descriptors of all VIDEO headers met so far in order, and
    the later VIDEO headers have an empty entry. *)
Definition scanInvariant (bs : list Z) (reader : BlockReader)
    (hs : list (Z * Z)) (st : ScanState) : Prop :=
  let coll := scan_dataBlockCollection st in
  match scan_primaryVideoBlock st with
  | None =>
      length coll = length hs /\
      Forall (fun hd => isVideoHeader hd = false) hs /\
      Forall (fun e => isVideoEntry e = false) coll
  | Some (slot, merged) =>
      exists hpre v hpost pre post,
        hs = hpre ++ v :: hpost /\
        coll = pre ++ Some (AnyVideo merged) :: post /\
        length hpre = slot /\ length pre = slot /\
        Forall (fun hd => isVideoHeader hd = false) hpre /\
        isVideoHeader v = true /\
        Forall (fun e => isVideoEntry e = false) pre /\
        Forall2 (fun hd e => isVideoEntry e = false /\
                             (isVideoHeader hd = true -> e = None))
          hpost post /\
        Video.shortVideoDescriptors merged
        = concat (map (fun hd => Video.shortVideoDescriptors
                                   (videoBlockAt bs reader hd))
                    (List.filter isVideoHeader (v :: hpost))) /\
        Video.dataLength merged
        = fold_right Z.add 0
            (map (fun hd => headerLength (snd hd))
               (List.filter isVideoHeader (v :: hpost)))
  end.

(** An offset the recovery scan accepts: an extended-tag header with a
    nonzero length that fits below [endAddress], followed by the HDMI Forum
    SCDB code. *)
Definition isScdbCandidate (bs : list Z) (reader : BlockReader)
    (endAddress scanIndex : Z) : bool :=
  match byteAt bs reader scanIndex with
  | None => false
  | Some headerByte =>
      (headerTag headerByte =? DATA_BLOCK_TYPE_value EXTENDED_TAG)
      && negb (headerLength headerByte =? 0)
      && (scanIndex + 1 + headerLength headerByte <=? endAddress)
      && (default 0 (byteAt bs reader (scanIndex + 1))
          =? EXTENDED_DATA_BLOCK_TYPE_value HDMI_FORUM_SCDB)
  end.

(** *** Failing block decoders *)

(** How the body of the [try] completes on extension block [extIndex],
    entered with the extension context [context]; nothing when the tag byte
    of the block cannot be read. *)
Definition decodeOutcome (decodeCta decodeDisplayId : ExtensionDecoder)
    (bs : list Z) (extIndex : Z) (context : ExtensionParseContext)
    : option (Completion Extension.ParsedExtensionBlock
              * ExtensionParseContext) :=
  let reader :=
    createBlockReader (extIndex + 1) (EDID_BLOCK_LENGTH * (extIndex + 1)) in
  match byteAt bs reader 0 with
  | None => None
  | Some extTag =>
      Some (value
              (if extTag =? CTA_EXTENSION_TAG
               then decodeCta reader extIndex context
               else if extTag =? DISPLAYID_EXTENSION_TAG
               then decodeDisplayId reader extIndex context
               else
                 do ext <- parseUnknownExtension reader extIndex;
                 ret (Normal ext, context)) bs)
  end.

(** A decoded extension block is the block [ext'] decoded without failure,
    or an [unknown] block for which a [parse_error] warning was pushed. *)
Definition sameOrDowngraded (ws : list ParsedEdidWarning)
    (ext ext' : Extension.ParsedExtensionBlock) : Prop :=
  ext = ext' \/
  (Extension.extensionType ext = Some unknown /\
   hasBlockWarning parse_error (Extension.blockNumber ext) ws).

(** *** Refresh rates

    The rate [addSrrRate] keeps of a candidate: the rounded rate, when the
    candidate and its rounding are positive. *)
Definition acceptedRate (rateHz : option Q) : list Z :=
  match rateHz with
  | Some q =>
      if JS.Qpos q && (0 <? JS.Math_round q) then [JS.Math_round q] else []
  | None => []
  end.

(** The statically derived refresh rates of a decoded EDID: the native
    resolution's, the standard display modes', and those of the detailed
    timings of the base block and of every extension. *)
Definition staticRates (baseBlock : Base.ParsedBaseEdidBlock)
    (extensions : list Extension.ParsedExtensionBlock)
    (nativeResolution : option Native.NativeResolution) : list Z :=
  acceptedRate (match nativeResolution with
                | Some n => Some (inject_Z (Native.refreshRateHz n))
                | None => None
                end)
  ++ flat_map (fun mode => acceptedRate (inject_Z <$> vertFreqHz mode))
       (default [] (Base.standardDisplayModes baseBlock))
  ++ flat_map (fun dtd => acceptedRate (getDtdRefreshRateHz dtd))
       (default [] (Base.dtds baseBlock))
  ++ flat_map (fun ext =>
                 flat_map (fun dtd => acceptedRate (getDtdRefreshRateHz dtd))
                   (Extension.dtds ext))
       extensions.

(** The VRR bounds a data block announces. *)
Definition blockVrrMinHz (dataBlock : option AnyDataBlock) : option Z :=
  match dataBlock with
  | Some (AnyVendor b) => Vendor.vrrMinHz b
  | Some (AnyExtended b) => ExtTag.vrrMinHz b
  | _ => None
  end.

Definition blockVrrMaxHz (dataBlock : option AnyDataBlock) : option Z :=
  match dataBlock with
  | Some (AnyVendor b) => Vendor.vrrMaxHz b
  | Some (AnyExtended b) => ExtTag.vrrMaxHz b
  | _ => None
  end.

(** The bound [addVrrMin] and [addVrrMax] keep: a positive one. *)
Definition acceptedVrrRate (rateHz : option Z) : list Z :=
  match rateHz with
  | Some z => if 0 <? z then [z] else []
  | None => []
  end.

(** The data blocks of all extensions, in order. *)
Definition dataBlocksOf (extensions : list Extension.ParsedExtensionBlock)
    : list (option AnyDataBlock) :=
  flat_map (fun ext => default [] (Extension.dataBlockCollection ext))
    extensions.

Definition vrrMinRates (extensions : list Extension.ParsedExtensionBlock)
    : list Z :=
  flat_map (fun b => acceptedVrrRate (blockVrrMinHz b)) (dataBlocksOf extensions).

Definition vrrMaxRates (extensions : list Extension.ParsedExtensionBlock)
    : list Z :=
  flat_map (fun b => acceptedVrrRate (blockVrrMaxHz b)) (dataBlocksOf extensions).

(** The least and the greatest element of a list, if any. *)
Definition minimum (l : list Z) : option Z :=
  match l with
  | [] => None
  | x :: rest => Some (fold_left Z.min rest x)
  end.

Definition maximum (l : list Z) : option Z :=
  match l with
  | [] => None
  | x :: rest => Some (fold_left Z.max rest x)
  end.

(** The refresh-rate accumulators of [buildFeatureSupport], and what they
    hold once the static rates [rates] and the VRR bounds [vmins] and [vmaxs]
    have been added: the extremes seen so far, all of them positive. *)
Definition rateFields (s : Acc.FeatureState)
    : JS.extnum * JS.extnum * option Z * option Z :=
  (Acc.minSrrHz s, Acc.maxSrrHz s, Acc.minVrrHz s, Acc.maxVrrHz s).

Definition tracksRates (rates vmins vmaxs : list Z) (s : Acc.FeatureState)
    : Prop :=
  rateFields s
  = (match minimum rates with
     | Some m => JS.Fin m
     | None => JS.PosInfinity
     end,
     JS.Fin (fold_left Z.max rates 0), minimum vmins, maximum vmaxs)
  /\ Forall (fun r => 0 < r) rates
  /\ Forall (fun r => 0 < r) vmins
  /\ Forall (fun r => 0 < r) vmaxs.

(** The widening of the static range as the specification words it:
    [minSrrHz] is [minVrrHz] when that is below every static rate, and
    [maxSrrHz] is [maxVrrHz] when that is above every static rate. *)
Definition spec_vrrWidening (rates : list Z) (fs : FS.FeatureSupport) : Prop :=
  (forall v, FS.minVrrHz fs = Some v ->
             Forall (fun r => v < r) rates -> FS.minSrrHz fs = JS.Fin v) /\
  (forall v, FS.maxVrrHz fs = Some v ->
             Forall (fun r => r < v) rates -> FS.maxSrrHz fs = JS.Fin v).

(** The widening the decoder performs: the reported range contains the VRR
    bounds; [minSrrHz] is [minVrrHz] when that is below every static rate;
    [maxSrrHz] is [maxVrrHz] when that is above every static rate, unless
    there is no static rate and [minVrrHz] exceeds [maxVrrHz], where
    [maxSrrHz] is [minVrrHz]. *)
Definition vrrWidening (rates : list Z) (fs : FS.FeatureSupport) : Prop :=
  (forall v, FS.minVrrHz fs = Some v ->
     exists a, FS.minSrrHz fs = JS.Fin a /\ a <= v /\
       (Forall (fun r => v < r) rates -> a = v)) /\
  (forall v, FS.maxVrrHz fs = Some v ->
     exists b, FS.maxSrrHz fs = JS.Fin b /\ v <= b /\
       (Forall (fun r => r < v) rates ->
        b = match rates, FS.minVrrHz fs with
            | [], Some m => Z.max m v
            | _, _ => v
            end)).

(** * Concrete inputs *)

(** Stand-ins for the generated vendor tables and for [Math.hypot], to run
    the parser on examples: empty tables and an integer approximation. *)
Definition noVendorMap : string -> option string := fun _ => None.

Definition hypotApprox (a b : Q) : Q :=
  inject_Z (Z.sqrt (Qfloor (a * a + b * b))).

Definition EDID_HEADER : list Z := [0; 255; 255; 255; 255; 255; 255; 0].

(** A 128-byte base block whose bytes 0..126 sum to 1536 = 6 * 256 and whose
    checksum byte is 0. *)
Definition checksumZeroBlock : list Z :=
  EDID_HEADER ++ [6] ++ repeat 0 118 ++ [0].

(** A 128-byte base block whose first standard display mode slot holds
    [(0xD1, 0x01)] (1920 pixels wide, 16:10, 61 Hz) and whose other slots
    are unused. *)
Definition standardModeBlock : list Z :=
  EDID_HEADER ++ repeat 0 30 ++ [0xD1; 0x01] ++ repeat 1 14 ++
  repeat 0 73 ++ [38].

(** The HDR static metadata payloads of the specification's examples. *)
Definition hdrPayloadPq : list Z := [0x06; 0x0c; 0x01; 0x78; 0x5a; 0x1e].
Definition hdrPayloadHlg : list Z := [0x06; 0x08; 0x01].

(** Completes a block prefix to 128 bytes: zero padding, then the byte that
    makes the block sum to 0 modulo 256. *)
Definition finishBlock (prefix : list Z) : list Z :=
  let body := prefix ++ repeat 0 (127 - length prefix) in
  body ++ [(256 - fold_right Z.add 0 body mod 256) mod 256].

(** A base block announcing [extensionCount] extensions (vendor DEL,
    EDID 1.4), with all standard display mode slots unused and no
    descriptor. *)
Definition exampleBaseBlock (extensionCount : Z) : list Z :=
  finishBlock (EDID_HEADER ++ [0x10; 0xac] ++ repeat 0 8 ++ [1; 4]
               ++ repeat 0 18 ++ repeat 1 16 ++ repeat 0 72
               ++ [extensionCount]).

(** A CTA-861 extension block (revision 3) whose data block collection is
    [dataBlocks] and which holds no detailed timing. *)
Definition ctaBlock (dataBlocks : list Z) : list Z :=
  finishBlock ([0x02; 0x03; 4 + Z.of_nat (length dataBlocks); 0]
               ++ dataBlocks).

Definition edidWithCtaBlocks (dataBlocks : list Z) : list Z :=
  exampleBaseBlock 1 ++ ctaBlock dataBlocks.

(** An HDMI Forum vendor-specific data block announcing a VRR minimum of
    60 Hz and a VRR maximum of 48 Hz. *)
Definition vrrInvertedBlock : list Z :=
  [0x6a; 0xd8; 0x5d; 0xc4; 0x01; 0; 0; 0; 0; 0x3c; 0x30].

(** A CTA-861 decoder that throws on the first extension block, before
    reading anything, and decodes the others. *)
Definition faultyCtaDecoder : ExtensionDecoder :=
  fun reader extIndex context =>
    if extIndex =? 0 then
      ret (Throw (ThrownError "TypeError" "Cannot read properties of undefined"),
           context)
    else decodeCtaExtension hypotApprox reader extIndex context.

(** A base block followed by two CTA-861 extensions: the first carries the
    HLG-only HDR block, the second the PQ one. *)
Definition edidWithTwoExtensions : list Z :=
  exampleBaseBlock 2 ++ ctaBlock ([0xe3] ++ hdrPayloadHlg)
  ++ ctaBlock ([0xe6] ++ hdrPayloadPq).

(** A data block collection with a VIDEO block (VICs 16 and 4), an AUDIO
    block, and a second VIDEO block (VIC 31). *)
Definition twoVideoBlocks : list Z :=
  [0x42; 0x10; 0x04; 0x23; 0x09; 0x07; 0x07; 0x41; 0x1f].

(** A data block collection whose VIDEO block declares one byte too many:
    the walk swallows the header of the HDMI Forum SCDB at offset 7, which
    only the recovery scan finds. *)
Definition misalignedScdbBlocks : list Z :=
  [0x43; 0x10; 0x04; 0xe7; 0x79; 0x01; 0x00; 0x00; 0x00; 0x00; 0x00].

(** * Vocabulary for the field-level properties *)

(** Byte [i] of the input as [u8OrZero] of the base block reader sees it:
    0 beyond the end of the input. *)
Definition inputByte (bs : list Z) (i : nat) : Z := default 0 (bs !! i).

(** The capital letter number [l] of the alphabet: A for 1, Z for 26. *)
Definition capital (l : Z) : string :=
  String (ascii_of_N (Z.to_N (64 + l))) EmptyString.

(** The two-bit field of [byte] that starts at bit [k]. *)
Definition twoBits (byte k : Z) : Z := (byte / 2 ^ k) mod 4.

(** An optional number that is present and lies in [lo..hi]. *)
Definition within (lo hi : Z) (v : option Z) : Prop :=
  exists z, v = Some z /\ lo <= z <= hi.

(** What every detailed timing descriptor returned by [getDtds] satisfies:
    a non-zero 16-bit pixel clock in units of 10 kHz, 12-bit active, blanking
    and size fields, 10-bit horizontal and 6-bit vertical sync fields, and
    sync flags that match the sync type: the vertical sync polarity is
    reported for digital separate sync only (the serration flag otherwise),
    the sync-on-all-RGB flag for analog composite sync only (the horizontal
    sync polarity otherwise). *)
Definition dtdWellFormed (d : Dtd) : Prop :=
  (exists clock,
     1 <= clock <= 65535 /\
     pixelClockMhz d = Some (inject_Z clock / 100)%Q) /\
  within 0 4095 (horizontalActivePixels d) /\
  within 0 4095 (horizontalBlankLineCount d) /\
  within 0 4095 (verticalActivePixels d) /\
  within 0 4095 (verticalBlankLineCount d) /\
  within 0 1023 (horizontalSyncOffsetPixels d) /\
  within 0 1023 (horizontalSyncPulsePixels d) /\
  within 0 63 (verticalSyncOffset d) /\
  within 0 63 (verticalSyncPulseLineCount d) /\
  within 0 4095 (horizontalDisplaySizeInMm d) /\
  within 0 4095 (verticalDisplaySizeInMm d) /\
  within 0 255 (horizontalBorderPixels d) /\
  within 0 255 (verticalBorderLines d) /\
  within 0 3 (stereoModeCode d) /\
  within 0 3 (syncTypeCode d) /\
  (if bool_decide (syncTypeCode d = Some SYNC_TYPE_DIGITAL_SEPARATE)
   then vSyncPolarity d <> None /\ vSyncSerrated d = None
   else vSyncPolarity d = None /\ vSyncSerrated d <> None) /\
  (if bool_decide (syncTypeCode d = Some SYNC_TYPE_ANALOG_COMPOSITE \/
                   syncTypeCode d = Some SYNC_TYPE_BIPOLAR_ANALOG_COMPOSITE)
   then syncAllRGBLines d <> None /\ hSyncPolarity d = None
   else syncAllRGBLines d = None /\ hSyncPolarity d <> None).

(** * Vocabulary for the extension blocks *)

(** The reader [parseExtensions] creates for extension number [k], counted
    from 0: it reads block [k + 1] of the input. *)
Definition extensionReader (k : Z) : BlockReader :=
  createBlockReader (k + 1) (EDID_BLOCK_LENGTH * (k + 1)).

(** The 128-byte block number [block] of the input. *)
Definition blockBytes (bs : list Z) (block : nat) : list Z :=
  take 128 (drop (128 * block) bs).

(** The kind of extension a tag byte selects. *)
Definition extensionTypeOf (extTag : Z) : ExtensionType :=
  if extTag =? CTA_EXTENSION_TAG then cta_861
  else if extTag =? DISPLAYID_EXTENSION_TAG then displayid
  else unknown.

(** The extension decoded from block [k + 1] of the input: its number, tag,
    revision, checksum byte and raw bytes are those of the block, its kind
    is the one its tag selects, and only a CTA-861 extension carries data
    blocks or detailed timings. *)
Definition extensionOfBlock (bs : list Z) (k : nat)
    (ext : Extension.ParsedExtensionBlock) : Prop :=
  let block := S k in
  Extension.blockNumber ext = Z.of_nat block /\
  bs !! (128 * block)%nat = Some (Extension.extTagByte ext) /\
  Extension.revisionNumber ext = inputByte bs (128 * block + 1) /\
  Extension.checksum ext = inputByte bs (128 * block + 127) /\
  Extension.rawBytes ext = blockBytes bs block /\
  Extension.extensionType ext
  = Some (extensionTypeOf (Extension.extTagByte ext)) /\
  (Extension.extTagByte ext = CTA_EXTENSION_TAG \/
   Extension.dataBlockCollection ext = None /\ Extension.dtds ext = []).

(** * Vocabulary for the feature summary *)

(** Whether a data block passes a test on vendor-specific blocks or a test
    on extended-tag blocks; whether some data block of some extension does. *)
Definition blockTest (vendor : Vendor.VendorDataBlock -> bool)
    (extended : ExtTag.ExtendedTagDataBlock -> bool)
    (dataBlock : option AnyDataBlock) : bool :=
  match dataBlock with
  | Some (AnyVendor b) => vendor b
  | Some (AnyExtended b) => extended b
  | _ => false
  end.

Definition someBlock (vendor : Vendor.VendorDataBlock -> bool)
    (extended : ExtTag.ExtendedTagDataBlock -> bool)
    (extensions : list Extension.ParsedExtensionBlock) : bool :=
  existsb (blockTest vendor extended) (dataBlocksOf extensions).

(** The input signal bit depth a data block announces: 16, 12 or 10 bits per
    component for a vendor-specific block with the matching deep color or
    compressed video flag, 8 otherwise. *)
Definition blockBitDepth (dataBlock : option AnyDataBlock) : Z :=
  match dataBlock with
  | Some (AnyVendor b) =>
      let f := Vendor.hdmiForumFeatures b in
      if isTrue (Vendor.supportsDeepColor48 b) ||
         isTrue (Vendor.supportsDeepColorY420_48 b) ||
         forumFlag f Forum.supports16bpcCompressedVideo then 16
      else if isTrue (Vendor.supportsDeepColor36 b) ||
              isTrue (Vendor.supportsDeepColorY420_36 b) ||
              forumFlag f Forum.supports12bpcCompressedVideo then 12
      else if isTrue (Vendor.supportsDeepColor30 b) ||
              isTrue (Vendor.supportsDeepColorY420_30 b) ||
              forumFlag f Forum.supports10bpcCompressedVideo then 10
      else 8
  | _ => 8
  end.

(** Whether the accumulated set of color gamuts holds [g]. *)
Definition hasGamut (g : ColorGamut) (s : Acc.FeatureState) : bool :=
  set_has (Acc.colorGamuts s) g.

(** Whether an extended-tag (colorimetry) block announces the gamut [g]:
    Adobe RGB by its own flag, Rec. 2020 by any of the three BT.2020 flags. *)
Definition blockAnnouncesGamut (g : ColorGamut)
    (b : ExtTag.ExtendedTagDataBlock) : bool :=
  (isTrue (ExtTag.supportsAdobeRGB b) && ColorGamut_eqb g adobe_rgb)
  || ((isTrue (ExtTag.supportsBT2020RGB b) ||
       isTrue (ExtTag.supportsBT2020YCC b) ||
       isTrue (ExtTag.supportsBT2020cYCC b)) && ColorGamut_eqb g rec_2020).

(** Whether the feature summary lists the gamut [g]: sRGB always, the gamut
    inferred from the chromaticity coordinates, and the gamuts the data
    blocks announce. *)
Definition gamutListed (inferred : option ColorGamut)
    (extensions : list Extension.ParsedExtensionBlock) (g : ColorGamut)
    : bool :=
  ColorGamut_eqb g srgb
  || match inferred with
     | Some g' => ColorGamut_eqb g g'
     | None => false
     end
  || someBlock (fun _ => false) (blockAnnouncesGamut g) extensions.

(** The squared distance [inferColorGamut] minimises: between the red, green
    and blue chromaticity coordinates of the display and of a canonical
    gamut. *)
Definition gamutDistance (c : ChromaticityCoordinates) (g : CanonicalGamut)
    : Q :=
  let sq (x : Q) : Q := (x * x)%Q in
  let coord (v : option Q) : Q := default 0%Q v in
  (sq (coord (redXCoords c) - gamut_redX g)
   + sq (coord (redYCoords c) - gamut_redY g)
   + sq (coord (greenXCoords c) - gamut_greenX g)
   + sq (coord (greenYCoords c) - gamut_greenY g)
   + sq (coord (blueXCoords c) - gamut_blueX g)
   + sq (coord (blueYCoords c) - gamut_blueY g))%Q.

(** The body of the loop of [inferColorGamut] over the canonical gamuts, for
    the distance [dist]: a gamut strictly closer than the closest one so far
    replaces it. *)
Definition closerStep (dist : CanonicalGamut -> Q)
    : option ColorGamut * option Q -> CanonicalGamut ->
      option ColorGamut * option Q :=
  fun '(closestGamut, closestDistance) g =>
    let distance := dist g in
    let closer :=
      match closestDistance with
      | None => true
      | Some d => Qlt_bool distance d
      end in
    if closer then (Some (gamut g), Some distance)
    else (closestGamut, closestDistance).

(** * Vocabulary for the data blocks *)

(** What every short video descriptor decoded from a byte satisfies: the
    code is a byte value, the native flag is always reported, and a native
    descriptor carries a code below 64. *)
Definition svdWellFormed (d : ShortVideoDescriptor) : Prop :=
  0 <= vic d <= 255 /\
  isNativeResolution d <> None /\
  (isNativeResolution d = Some true -> vic d <= 63).

(** What every short audio descriptor decoded from three bytes satisfies:
    a 4-bit codec identifier, 1 to 8 channels and a 7-bit sample rate
    bitmask. *)
Definition sadWellFormed (d : ShortAudioDescriptor) : Prop :=
  within 0 15 (standardCodecId d) /\
  within 1 8 (maxChannelCount d) /\
  within 0 127 (sampleRatesBitmask d).

(** The short audio descriptor that three payload bytes stand for: bits 6..3
    of the first byte are the codec, its low three bits the channel count
    minus one, the low seven bits of the second byte the sample rates; the
    third byte is read according to the codec. *)
Definition audioDescriptorOf (byte0 byte1 byte2 : Z) : ShortAudioDescriptor :=
  let codec := (byte0 / 8) mod 16 in
  mkShortAudioDescriptor
    (Some codec)
    (if codec =? 15 then Some (byte2 / 8) else None)
    (Some (byte0 mod 8 + 1))
    (Some (byte1 mod 128))
    (if codec <=? 1 then Some (byte2 mod 8) else None)
    (if (2 <=? codec) && (codec <=? 8) then Some (byte2 * 8) else None)
    (if (9 <=? codec) && (codec <=? 13) then Some byte2 else None)
    (if codec =? 14 then Some (byte2 mod 8) else None).

(** The j-th short audio descriptor of a payload that starts at [start]; a
    byte that cannot be read counts as zero. *)
Definition audioDescriptorAt (bs : list Z) (reader : BlockReader) (start : Z)
    (j : nat) : ShortAudioDescriptor :=
  let byte off := default 0 (byteAt bs reader off) in
  audioDescriptorOf (byte (start + 3 * Z.of_nat j))
    (byte (start + 3 * Z.of_nat j + 1)) (byte (start + 3 * Z.of_nat j + 2)).

(** The bytes read by a loop that stops at the first unreadable one. *)
Fixpoint readablePrefix (reads : list (option Z)) : list Z :=
  match reads with
  | Some b :: rest => b :: readablePrefix rest
  | _ => []
  end.

(** The bytes of a YCbCr 4:2:0 capability map of declared length [len]: they
    follow the extended tag byte at [start]. *)
Definition capabilityMapBytes (bs : list Z) (reader : BlockReader)
    (start len : Z) : list Z :=
  readablePrefix
    (map (fun j : nat => byteAt bs reader (start + 1 + Z.of_nat j))
       (seq 0 (Z.to_nat (len - 1)))).

(** The bits of the map, least significant bit of the first byte first. *)
Definition capabilityBits (mapBytes : list Z) : list bool :=
  concat (map (fun b => map (Z.testbit b) [0; 1; 2; 3; 4; 5; 6; 7]) mapBytes).

(** The positions of the set flags, counted from [i]. *)
Fixpoint flaggedFrom (i : nat) (flags : list bool) : list nat :=
  match flags with
  | [] => []
  | f :: rest => (if f then [i] else []) ++ flaggedFrom (S i) rest
  end.

(** The thirteen text bytes of the 18-byte descriptor at [descriptorOffset];
    a byte that cannot be read counts as zero. *)
Definition descriptorTextBytes (bs : list Z) (reader : BlockReader)
    (descriptorOffset : Z) : list Z :=
  map (fun j : nat =>
         default 0 (byteAt bs reader (descriptorOffset + 5 + Z.of_nat j)))
    (seq 0 13).

(** A line feed or a NUL ends a descriptor text. *)
Definition endsText (c : Z) : Prop := c = 0x0a \/ c = 0x00.

(** The HDMI generation a data block announces, as a level: 1 for the
    HDMI 1.4 vendor block, 2 for an HDMI Forum block (vendor block or status
    and control data block) that signals nothing newer, 3 for an HDMI Forum
    block that carries a payload version, feature flags or a supported fixed
    rate link, and for any other extended-tag block with a QMS, cinema VRR,
    negative refresh rate, fast VActive or ALLM flag; 0 when it announces
    none. *)
Definition hdmiLevel (dataBlock : option AnyDataBlock) : nat :=
  match dataBlock with
  | Some (AnyVendor b) =>
      if bool_decide (Vendor.ieeeOui b = Some (IEEE_OUI_TYPE_value HDMI14))
      then 1
      else if bool_decide
                (Vendor.ieeeOui b = Some (IEEE_OUI_TYPE_value HDMI_FORUM))
      then
        if isDefined (Vendor.hfPayloadVersion b) ||
           isDefined (Vendor.hdmiForumFeatures b) ||
           notNotSupported (Vendor.maxFixedRateLink b)
        then 3 else 2
      else 0
  | Some (AnyExtended b) =>
      match ExtTag.extendedTag b with
      | Some (KnownExtendedTag HDMI_FORUM_SCDB) =>
          if isDefined (ExtTag.hdmiForumFeatures b) ||
             notNotSupported (ExtTag.maxFixedRateLink b)
          then 3 else 2
      | _ =>
          if isTrue (ExtTag.supportsQMS b) ||
             isTrue (ExtTag.supportsCinemaVRR b) ||
             isTrue (ExtTag.supportsNegativeMRR b) ||
             isTrue (ExtTag.supportsFVA b) ||
             isTrue (ExtTag.supportsALLM b)
          then 3 else 0
      end
  | _ => 0
  end%nat.

(** The HDMI version of a level: none, 1.4, 2.0, 2.1. *)
Definition hdmiVersionOfLevel (level : nat) : option Q :=
  match level with
  | O => None
  | 1%nat => Some (14 # 10)
  | 2%nat => Some 2%Q
  | _ => Some (21 # 10)
  end.

(** What a block of level [level] does to the version held. *)
Definition raiseHdmi (current : option Q) (level : nat) : option Q :=
  match hdmiVersionOfLevel level with
  | Some version => Some (maxHdmiVersion current version)
  | None => current
  end.

(** The DisplayID versions that the extensions announce: one for each
    extension with the DisplayID tag whose revision byte stands for a
    version. *)
Definition displayIdVersionsOf
    (extensions : list Extension.ParsedExtensionBlock) : list Q :=
  flat_map
    (fun ext =>
       if Extension.extTagByte ext =? DISPLAYID_EXTENSION_TAG then
         match parseDisplayIdVersionFromRevision (Extension.revisionNumber ext)
         with
         | Some version => [version]
         | None => []
         end
       else [])
    extensions.

(** Whether a data block announces variable refresh rates: by a cinema VRR or
    negative refresh rate flag, by the VRR flag of an extended-tag block, or
    by carrying a VRR minimum or maximum (whatever its value). *)
Definition vendorAnnouncesVrr (b : Vendor.VendorDataBlock) : bool :=
  forumFlag (Vendor.hdmiForumFeatures b) Forum.supportsCinemaVRR ||
  forumFlag (Vendor.hdmiForumFeatures b) Forum.supportsNegativeMVRR ||
  isDefined (Vendor.vrrMinHz b) || isDefined (Vendor.vrrMaxHz b).

Definition extendedAnnouncesVrr (b : ExtTag.ExtendedTagDataBlock) : bool :=
  isTrue (ExtTag.supportsVRR b) ||
  isTrue (ExtTag.supportsCinemaVRR b) ||
  isTrue (ExtTag.supportsNegativeMRR b) ||
  isDefined (ExtTag.vrrMinHz b) || isDefined (ExtTag.vrrMaxHz b).

(** The accumulator holds a VRR bound only once the VRR flag is set. *)
Definition vrrFlagged (s : Acc.FeatureState) : Prop :=
  isDefined (Acc.minVrrHz s) || isDefined (Acc.maxVrrHz s) = true ->
  Acc.supportsVRR s = true.

(** The fields of a vendor-specific block that the decoders of the HDMI 1.4
    and HDMI 2.0 payloads leave as they find them. *)
Definition vendorIdentity (b : Vendor.VendorDataBlock) :=
  (Vendor.dataLength b, Vendor.ieeeOui b, Vendor.error b,
   Vendor.supportsDolbyVision b, Vendor.hfPayloadVersion b,
   Vendor.hdmiForumFeatures b, Vendor.maxFixedRateLink b,
   Vendor.vrrMinHz b, Vendor.vrrMaxHz b).

(** A printable ASCII character code. *)
Definition printable (c : Z) : Prop := 0x20 <= c <= 0x7e.

(** What every text part kept from a descriptor satisfies: at least three
    printable ASCII characters, the first one a letter or a digit, the last
    one not a space, and no pipe, backslash or backtick. *)
Definition textPartWellFormed (codes : list Z) : Prop :=
  (3 <= length codes)%nat /\
  Forall printable codes /\
  (exists c rest, codes = c :: rest /\ isDigit c || isAlpha c = true) /\
  last codes <> Some 0x20 /\
  Forall (fun c => c <> 0x7c /\ c <> 0x5c /\ c <> 0x60) codes.

(** * Vocabulary for the decoder warnings *)

(** A computation is quiet about a warning code when it never pushes that
    code: a context free of it stays free of it. *)
Definition quiet (c : ParsedEdidWarningCode) {A : Type} (m : M A) : Prop :=
  forall ctx,
    ~ hasWarning c (warnings ctx) -> ~ hasWarning c (warnings (snd (m ctx))).

(** * Vocabulary for failing decoders, shared context and warnings *)

(** A positive normal double whose exponent is within [b] of 0. *)
Definition normalWithin (b : Z) (x : JS.f64) : Prop :=
  exists m e,
    x = S754_finite false m e /\ Zdigits2 (Zpos m) = 53 /\ - b <= e <= b.

(** ** A failure against the run without it

    The decoders [decodeCta], [decodeDisplayId] may throw; the decoders
    [decodeCta0], [decodeDisplayId0] are the same decoders without the
    failure: on the bytes [bs] they never throw, and where the former
    complete normally they return the same block and leave the same
    extension context. *)
Definition failureOf (decodeCta decodeDisplayId decodeCta0 decodeDisplayId0
      : ExtensionDecoder) (bs : list Z) : Prop :=
  forall extIndex context,
    match decodeOutcome decodeCta decodeDisplayId bs extIndex context with
    | None => True
    | Some (Normal ext, context') =>
        decodeOutcome decodeCta0 decodeDisplayId0 bs extIndex context
        = Some (Normal ext, context')
    | Some (Throw _, _) =>
        exists ext0 context0,
          decodeOutcome decodeCta0 decodeDisplayId0 bs extIndex context
          = Some (Normal ext0, context0)
    end.

(** The failure leaves the extension context as the decoding without the
    failure leaves it. *)
Definition contextKept (decodeCta decodeDisplayId decodeCta0 decodeDisplayId0
      : ExtensionDecoder) (bs : list Z) : Prop :=
  forall extIndex context error context',
    decodeOutcome decodeCta decodeDisplayId bs extIndex context
    = Some (Throw error, context') ->
    exists ext0,
      decodeOutcome decodeCta0 decodeDisplayId0 bs extIndex context
      = Some (Normal ext0, context').

(** How the iterations of the extension loop complete, for at most [n]
    blocks from block [extIndex] on, when the loop is entered with the
    extension context [context]. *)
Fixpoint loopOutcomes (decodeCta decodeDisplayId : ExtensionDecoder)
    (bs : list Z) (n : nat) (extIndex : Z) (context : ExtensionParseContext)
    : list (Completion Extension.ParsedExtensionBlock) :=
  match n with
  | O => []
  | S n' =>
      match decodeOutcome decodeCta decodeDisplayId bs extIndex context with
      | None => []
      | Some (completion, context') =>
          completion
          :: loopOutcomes decodeCta decodeDisplayId bs n' (extIndex + 1)
               context'
      end
  end.

Definition completesNormally {A : Type} (completion : Completion A) : Prop :=
  match completion with
  | Normal _ => True
  | Throw _ => False
  end.

(** A CTA-861 decoder that decodes every block and throws on the first
    extension block only after decoding it: what the block recorded in the
    extension context stays recorded. *)
Definition lateFaultyCtaDecoder : ExtensionDecoder :=
  fun reader extIndex context =>
    do r <- decodeCtaExtension hypotApprox reader extIndex context;
    ret (if extIndex =? 0
         then Throw (ThrownError "TypeError"
                       "Cannot read properties of undefined")
         else fst r, snd r).

(** A base block followed by two CTA-861 extensions: the first holds a VIDEO
    data block (VICs 16 and 4), the second only a YCbCr 4:2:0 capability map
    that flags the first descriptor. *)
Definition edidWithCapabilityMap : list Z :=
  exampleBaseBlock 2 ++ ctaBlock [0x42; 0x10; 0x04]
  ++ ctaBlock [0xe2; 0x0f; 0x01].

(** The capability maps decoded in an extension block: for each YCbCr 4:2:0
    capability map of its collection, the descriptors it selects. *)
Definition capabilityMapsOf (ext : Extension.ParsedExtensionBlock)
    : list (option (list (option ShortVideoDescriptor))) :=
  flat_map (fun entry =>
              match entry with
              | Some (AnyExtended block) =>
                  match ExtTag.extendedTag block with
                  | Some (KnownExtendedTag YCBCR420_CAPABILITY_MAP) =>
                      [ExtTag.YCbCr420CapableShortVideoDescriptors block]
                  | _ => []
                  end
              | _ => []
              end)
    (default [] (Extension.dataBlockCollection ext)).

(** ** Video data blocks *)

(** The payload bytes of a video data block of declared length [len] that
    starts at [start]: those read before the first unreadable one. *)
Definition videoPayloadBytes (bs : list Z) (reader : BlockReader)
    (start len : Z) : list Z :=
  readablePrefix
    (map (fun j : nat => byteAt bs reader (start + Z.of_nat j))
       (seq 0 (Z.to_nat len))).

(** The short video descriptor a payload byte stands for. *)
Definition shortVideoDescriptorOf (b : Z) : ShortVideoDescriptor :=
  if Z.testbit b 6 then mkShortVideoDescriptor b (Some false)
  else mkShortVideoDescriptor (b mod 64) (Some (Z.testbit b 7)).

(** Two CTA-861 extensions, the first with a VIDEO data block (VIC 16), the
    second with a capability map that flags the first descriptor, followed
    by a VIDEO data block of its own (VIC 4). *)
Definition edidWithLateVideoBlock : list Z :=
  exampleBaseBlock 2 ++ ctaBlock [0x41; 0x10]
  ++ ctaBlock [0xe2; 0x0f; 0x01; 0x41; 0x04].

(** ** Warnings of reads *)

(** A computation keeps a property of the read context when the property
    holds after it whenever it holds before it. *)
Definition keeps (I : ReadContext -> Prop) {A : Type} (m : M A) : Prop :=
  forall ctx, I ctx -> I (snd (m ctx)).

(** The warning of a read through [reader] that falls outside the input
    [bs]: it names the block of the reader and the offset read in it, and
    records the absolute offset, which is not an offset of the input, and
    the length of the input. *)
Definition outsideRead (bs : list Z) (reader : BlockReader)
    (w : ParsedEdidWarning) : Prop :=
  exists off,
    (reader_blockOffset reader + off < 0
     \/ Z.of_nat (length bs) <= reader_blockOffset reader + off) /\
    blockIndex w = Some (reader_blockIndex reader) /\
    offset w = Some off /\
    detail w
    = Some (DetailFields
              [("absoluteOffset"%string,
                inject_Z (reader_blockOffset reader + off));
               ("length"%string, inject_Z (Z.of_nat (length bs)))]).

(** The context holds the bytes [bs], and each of its read warnings is the
    warning of a read through [reader] outside [bs]. *)
Definition readsThrough (bs : list Z) (reader : BlockReader)
    (ctx : ReadContext) : Prop :=
  bytes ctx = bs /\
  Forall (fun w => code w = out_of_range_read -> outsideRead bs reader w)
    (warnings ctx).

(** A read warning of a parse of [bs] is genuine: the base block or one of
    the extension blocks, block [b], was read at an offset that falls
    outside the input. *)
Definition genuineRead (bs : list Z) (w : ParsedEdidWarning) : Prop :=
  code w = out_of_range_read ->
  exists b,
    0 <= b <= availableExtensions bs /\
    outsideRead bs (createBlockReader b (128 * b)) w.

(** ** Unknown data blocks *)

(** A data block header whose tag code is none of the five the parser
    decodes. *)
Definition isUnknownHeader (header : Z * Z) : bool :=
  negb (existsb (fun t => headerTag (snd header) =? DATA_BLOCK_TYPE_value t)
          [AUDIO; VIDEO; VENDOR_SPECIFIC; SPEAKER_ALLOCATION; EXTENDED_TAG]).

(** The data block walk of a decoded CTA-861 extension meets a header with
    an unknown tag code. *)
Definition hasUnknownDataBlock (bs : list Z)
    (ext : Extension.ParsedExtensionBlock) : Prop :=
  Extension.extensionType ext = Some cta_861 /\
  Exists (fun header => isUnknownHeader header = true)
    (blockHeaders bs (extensionReader (Extension.blockNumber ext - 1))
       (Extension.dtdStart ext) 4).

(** The context holds the bytes [bs] and no read warning. *)
Definition noReadWarning (bs : list Z) (ctx : ReadContext) : Prop :=
  bytes ctx = bs /\
  Forall (fun w => code w <> out_of_range_read) (warnings ctx).

(** ** A refresh rate halfway between two integers

    A base block (EDID 1.4, first detailed timing flagged as preferred)
    whose first detailed timing has a pixel clock of 32.05 MHz, 640 + 160
    pixels per line and 480 + 161 lines per frame, on a 64 mm by 48 mm
    display: the exact refresh rate is 62.5 Hz. *)
Definition edidWithHalfwayRate : list Z :=
  finishBlock (EDID_HEADER ++ [0x10; 0xac] ++ repeat 0 8 ++ [1; 4]
               ++ [0; 0; 0; 0; 2] ++ repeat 0 13 ++ repeat 1 16
               ++ [0x85; 0x0c; 0x80; 0xa0; 0x20; 0xe0; 0xa1; 0x10;
                   0; 0; 0; 0; 0x40; 0x30; 0; 0; 0; 0]
               ++ repeat 0 54 ++ [0]).

(** * Properties *)

(** ** Framing: the read context is only read and appended to *)

Lemma framed_run {A : Type} (m : M A) (ctx : ReadContext) :
  framed m ->
  m ctx = (value m (bytes ctx),
           mkReadContext (bytes ctx) (warnings ctx ++ emitted m (bytes ctx))).
Proof. intros H. apply H. Qed.

Lemma framed_fst {A : Type} (m : M A) (ctx : ReadContext) :
  framed m -> fst (m ctx) = value m (bytes ctx).
Proof. intros H. rewrite (framed_run m ctx H). reflexivity. Qed.

Lemma framed_codes {A : Type} (m : M A) (bs : list Z) :
  framed m -> Forall (fun w => decoderCode (code w) = true) (emitted m bs).
Proof. intros H. apply (H (mkReadContext bs [])). Qed.

Lemma framed_ret {A : Type} (a : A) : framed (ret a).
Proof.
  intros [bs ws]. unfold value, emitted, ret. simpl.
  rewrite app_nil_r. split; [reflexivity | constructor].
Qed.

Lemma framed_getBytes : framed getBytes.
Proof.
  intros [bs ws]. unfold value, emitted, getBytes. simpl.
  rewrite app_nil_r. split; [reflexivity | constructor].
Qed.

Lemma value_bind {A B : Type} (m : M A) (k : A -> M B) (bs : list Z) :
  framed m -> framed (k (value m bs)) ->
  value (bind m k) bs = value (k (value m bs)) bs.
Proof.
  intros Hm Hk. unfold value at 1. unfold bind.
  rewrite (framed_run m _ Hm). simpl.
  rewrite (framed_run _ _ Hk). reflexivity.
Qed.

Lemma emitted_bind {A B : Type} (m : M A) (k : A -> M B) (bs : list Z) :
  framed m -> framed (k (value m bs)) ->
  emitted (bind m k) bs = emitted m bs ++ emitted (k (value m bs)) bs.
Proof.
  intros Hm Hk. unfold emitted at 1. unfold bind.
  rewrite (framed_run m _ Hm). simpl.
  rewrite (framed_run _ _ Hk). reflexivity.
Qed.

Lemma framed_bind {A B : Type} (m : M A) (k : A -> M B) :
  framed m -> (forall a, framed (k a)) -> framed (bind m k).
Proof.
  intros Hm Hk ctx.
  rewrite (value_bind m k _ Hm (Hk _)), (emitted_bind m k _ Hm (Hk _)).
  split.
  - unfold bind. rewrite (framed_run m ctx Hm).
    rewrite (framed_run _ _ (Hk _)). simpl. rewrite app_assoc. reflexivity.
  - apply Forall_app. split; apply framed_codes; auto.
Qed.

Lemma framed_warn (c : ParsedEdidWarningCode) (msg : string)
    (bi off : option Z) (d : option WarningDetail) :
  decoderCode c = true -> framed (warn c msg bi off d).
Proof.
  intros Hc [bs ws]. unfold value, emitted, warn, addWarning. simpl.
  split; [reflexivity | repeat constructor; exact Hc].
Qed.

Lemma framed_readU8 (a : Z) (bi rel : option Z) : framed (readU8 a bi rel).
Proof.
  intros [bs ws]. unfold value, emitted, readU8, bytes_length. simpl.
  destruct ((a <? 0) || (Z.of_nat (length bs) <=? a)); simpl.
  - split; [reflexivity | repeat constructor].
  - rewrite app_nil_r. split; [reflexivity | constructor].
Qed.

Lemma framed_u8 (reader : BlockReader) (off : Z) : framed (u8 reader off).
Proof. apply framed_readU8. Qed.

Lemma framed_u8OrZero (reader : BlockReader) (off : Z) :
  framed (u8OrZero reader off).
Proof.
  apply framed_bind; [apply framed_readU8 | intros; apply framed_ret].
Qed.

Lemma framed_forLoop {S : Type} (n : nat) (body : Z -> S -> M (Ctl S)) :
  (forall i s, framed (body i s)) ->
  forall i s, framed (forLoop n i body s).
Proof.
  intros Hb. induction n as [|n IH]; intros i s; simpl.
  - apply framed_ret.
  - apply framed_bind; [apply Hb |].
    intros [s'|s']; [apply IH | apply framed_ret].
Qed.

(** A framed computation depends on the context through its bytes only. *)
Lemma framed_fst_bytes {A : Type} (m : M A) (c1 c2 : ReadContext) :
  framed m -> bytes c1 = bytes c2 -> fst (m c1) = fst (m c2).
Proof.
  intros H Hb. rewrite !framed_fst by exact H. rewrite Hb. reflexivity.
Qed.

Lemma framed_bytes {A : Type} (m : M A) (ctx : ReadContext) :
  framed m -> bytes (snd (m ctx)) = bytes ctx.
Proof. intros H. rewrite (framed_run m ctx H). reflexivity. Qed.

Lemma framed_warnings {A : Type} (m : M A) (ctx : ReadContext) :
  framed m ->
  warnings (snd (m ctx)) = warnings ctx ++ emitted m (bytes ctx).
Proof. intros H. rewrite (framed_run m ctx H). reflexivity. Qed.

Create HintDb framed.

#[export] Hint Resolve framed_ret framed_getBytes framed_readU8 framed_u8
  framed_u8OrZero : framed.

(** One step of a framing proof: split a bind, close a leaf, or case on the
    scrutinee of a conditional. *)
Ltac framed_step :=
  match goal with
  | |- framed (bind _ _) => apply framed_bind; [| intros]
  | |- framed (ret _) => apply framed_ret
  | |- framed (warn _ _ _ _ _) => apply framed_warn; reflexivity
  | |- framed (forLoop _ _ _ _) => apply framed_forLoop; intros
  | |- framed (if ?b then _ else _) => destruct b
  | |- framed (match ?x with _ => _ end) => destruct x
  | |- framed (let (_, _) := ?x in _) => destruct x
  | |- framed _ => solve [eauto with framed]
  end.

Ltac framed_auto := repeat framed_step.

Lemma framed_validateHeader (reader : BlockReader) :
  framed (validateHeader reader).
Proof. unfold validateHeader. framed_auto. Qed.

Lemma framed_getChecksum (reader : BlockReader) : framed (getChecksum reader).
Proof. unfold getChecksum. framed_auto. Qed.

Lemma framed_validChecksum (block i : Z) : framed (validChecksum block i).
Proof. unfold validChecksum. framed_auto. Qed.

#[export] Hint Resolve framed_validateHeader framed_getChecksum
  framed_validChecksum : framed.

Lemma framed_ext {A : Type} (m m' : M A) :
  (forall ctx, m ctx = m' ctx) -> framed m' -> framed m.
Proof.
  intros He H ctx. unfold value, emitted. rewrite !He. apply H.
Qed.

(** *** Computations that may push any warning code *)

Lemma framed_appends {A : Type} (m : M A) : framed m -> appends m.
Proof. intros H ctx. apply H. Qed.

Lemma appends_ret {A : Type} (a : A) : appends (ret a).
Proof. apply framed_appends, framed_ret. Qed.

Lemma appends_warn (c : ParsedEdidWarningCode) (msg : string)
    (bi off : option Z) (d : option WarningDetail) :
  appends (warn c msg bi off d).
Proof. intros [bs ws]. reflexivity. Qed.

Lemma run_bind {A B : Type} (m : M A) (k : A -> M B) (ctx : ReadContext) :
  appends m ->
  bind m k ctx =
  k (value m (bytes ctx))
    (mkReadContext (bytes ctx) (warnings ctx ++ emitted m (bytes ctx))).
Proof. intros Hm. unfold bind. rewrite (Hm ctx). reflexivity. Qed.

Lemma appends_bind {A B : Type} (m : M A) (k : A -> M B) :
  appends m -> (forall a, appends (k a)) -> appends (bind m k).
Proof.
  intros Hm Hk ctx. unfold value at 1, emitted at 1.
  rewrite !run_bind by exact Hm.
  rewrite (Hk _ (mkReadContext (bytes ctx) (warnings ctx ++ _))).
  rewrite (Hk _ (mkReadContext (bytes ctx) (_ ++ _))). simpl.
  rewrite app_assoc. reflexivity.
Qed.

Lemma emitted_getBytes (bs : list Z) : emitted getBytes bs = [].
Proof. reflexivity. Qed.

Lemma emitted_ret {A : Type} (a : A) (bs : list Z) : emitted (ret a) bs = [].
Proof. reflexivity. Qed.

Lemma value_bind_all {A B : Type} (m : M A) (k : A -> M B) (bs : list Z) :
  framed m -> (forall a, framed (k a)) ->
  value (bind m k) bs = value (k (value m bs)) bs.
Proof. intros Hm Hk. apply value_bind; [exact Hm | apply Hk]. Qed.

Lemma emitted_bind_all {A B : Type} (m : M A) (k : A -> M B) (bs : list Z) :
  framed m -> (forall a, framed (k a)) ->
  emitted (bind m k) bs = emitted m bs ++ emitted (k (value m bs)) bs.
Proof. intros Hm Hk. apply emitted_bind; [exact Hm | apply Hk]. Qed.

(** ** Framing of the base block decoders *)

Lemma framed_getEdidVersion reader : framed (getEdidVersion reader).
Proof. unfold getEdidVersion. framed_auto. Qed.

#[export] Hint Resolve framed_getEdidVersion : framed.

Lemma framed_getEdidRevision reader : framed (getEdidRevision reader).
Proof. unfold getEdidRevision. framed_auto. Qed.

#[export] Hint Resolve framed_getEdidRevision : framed.

Lemma framed_getVendorId reader : framed (getVendorId reader).
Proof. unfold getVendorId. framed_auto. Qed.

#[export] Hint Resolve framed_getVendorId : framed.

Lemma framed_getProductCode reader : framed (getProductCode reader).
Proof. unfold getProductCode. framed_auto. Qed.

#[export] Hint Resolve framed_getProductCode : framed.

Lemma framed_getSerialNumberInt reader : framed (getSerialNumberInt reader).
Proof. unfold getSerialNumberInt. framed_auto. Qed.

#[export] Hint Resolve framed_getSerialNumberInt : framed.

Lemma framed_getManufactureWeek reader : framed (getManufactureWeek reader).
Proof. unfold getManufactureWeek. framed_auto. Qed.

#[export] Hint Resolve framed_getManufactureWeek : framed.

Lemma framed_getManufactureYear reader : framed (getManufactureYear reader).
Proof. unfold getManufactureYear. framed_auto. Qed.

#[export] Hint Resolve framed_getManufactureYear : framed.

Lemma framed_getBasicDisplayParams Math_hypot reader :
  framed (getBasicDisplayParams Math_hypot reader).
Proof. unfold getBasicDisplayParams. framed_auto. Qed.

#[export] Hint Resolve framed_getBasicDisplayParams : framed.

Lemma framed_getChromaticityCoordinates reader :
  framed (getChromaticityCoordinates reader).
Proof. unfold getChromaticityCoordinates. framed_auto. Qed.

#[export] Hint Resolve framed_getChromaticityCoordinates : framed.

Lemma framed_getTimingBitmap reader : framed (getTimingBitmap reader).
Proof. unfold getTimingBitmap. framed_auto. Qed.

#[export] Hint Resolve framed_getTimingBitmap : framed.

Lemma framed_getNumberExtensions reader : framed (getNumberExtensions reader).
Proof. unfold getNumberExtensions. framed_auto. Qed.

#[export] Hint Resolve framed_getNumberExtensions : framed.
Lemma framed_parseMonitorDescriptorText reader descriptorOffset :
  framed (parseMonitorDescriptorText reader descriptorOffset).
Proof. unfold parseMonitorDescriptorText. framed_auto. Qed.

#[export] Hint Resolve framed_parseMonitorDescriptorText : framed.

Lemma framed_parseMonitorDescriptorPayload reader descriptorOffset :
  framed (parseMonitorDescriptorPayload reader descriptorOffset).
Proof. unfold parseMonitorDescriptorPayload. framed_auto. Qed.

#[export] Hint Resolve framed_parseMonitorDescriptorPayload : framed.

Lemma framed_tryParseSpwgDescriptorPair reader descriptorOffset endOffset :
  framed (tryParseSpwgDescriptorPair reader descriptorOffset endOffset).
Proof. unfold tryParseSpwgDescriptorPair. framed_auto. Qed.

#[export] Hint Resolve framed_tryParseSpwgDescriptorPair : framed.

Lemma framed_getMonitorDescriptors_step reader descriptorOffset endOffset monitorDescriptors :
  framed (getMonitorDescriptors_step reader descriptorOffset endOffset monitorDescriptors).
Proof. unfold getMonitorDescriptors_step. framed_auto. Qed.

#[export] Hint Resolve framed_getMonitorDescriptors_step : framed.

Lemma framed_parseDtd Math_hypot reader dtdOffset :
  framed (parseDtd Math_hypot reader dtdOffset).
Proof. unfold parseDtd. framed_auto. Qed.

#[export] Hint Resolve framed_parseDtd : framed.

Lemma framed_getDtds_step Math_hypot reader dtdIndex dtdArray :
  framed (getDtds_step Math_hypot reader dtdIndex dtdArray).
Proof. unfold getDtds_step. framed_auto. Qed.

#[export] Hint Resolve framed_getDtds_step : framed.

(** *** The [while] loops of the base block, in monadic form *)

Lemma framed_getStandardDisplayModes_step reader index arr :
  framed (getStandardDisplayModes_step reader index arr).
Proof. unfold getStandardDisplayModes_step. framed_auto. Qed.

#[export] Hint Resolve framed_getStandardDisplayModes_step : framed.

Lemma getStandardDisplayModes_loop_unfolded reader index arr ctx :
  getStandardDisplayModes_loop reader index arr ctx =
  (if index <? STD_DISPLAY_MODES_END then
     do r <- getStandardDisplayModes_step reader index arr;
     match r with
     | None => ret arr
     | Some arr' => getStandardDisplayModes_loop reader (index + 2) arr'
     end
   else ret arr) ctx.
Proof.
  rewrite getStandardDisplayModes_loop_unfold_eq.
  unfold getStandardDisplayModes_loop_unfold.
  destruct (inspect (index <? STD_DISPLAY_MODES_END)) as [b Hb].
  pose proof Hb as Hb'.
  destruct b; simpl; rewrite Hb'; [| reflexivity].
  unfold bind.
  destruct (getStandardDisplayModes_step reader index arr ctx) as [[r|] c];
    reflexivity.
Qed.

Lemma framed_getStandardDisplayModes_loop reader :
  forall n index arr,
    (Z.to_nat (STD_DISPLAY_MODES_END - index) <= n)%nat ->
    framed (getStandardDisplayModes_loop reader index arr).
Proof.
  induction n as [|n IH]; intros index arr Hn;
    (eapply framed_ext; [apply getStandardDisplayModes_loop_unfolded |]);
    destruct (index <? STD_DISPLAY_MODES_END) eqn:Hlt; try apply framed_ret;
    apply Z.ltb_lt in Hlt.
  - lia.
  - framed_auto; apply IH; lia.
Qed.

Lemma framed_getStandardDisplayModes reader :
  framed (getStandardDisplayModes reader).
Proof.
  unfold getStandardDisplayModes.
  eapply framed_getStandardDisplayModes_loop. reflexivity.
Qed.

#[export] Hint Resolve framed_getStandardDisplayModes : framed.

Lemma getMonitorDescriptors_loop_unfolded reader off e md ctx :
  getMonitorDescriptors_loop reader off e md ctx =
  (if off <? e then
     do r <- getMonitorDescriptors_step reader off e md;
     match r with
     | None => ret md
     | Some (md', true) =>
         getMonitorDescriptors_loop reader (off + DTD_LENGTH * 2) e md'
     | Some (md', false) =>
         getMonitorDescriptors_loop reader (off + DTD_LENGTH) e md'
     end
   else ret md) ctx.
Proof.
  rewrite getMonitorDescriptors_loop_unfold_eq.
  unfold getMonitorDescriptors_loop_unfold.
  destruct (inspect (off <? e)) as [b Hb]. pose proof Hb as Hb'.
  destruct b; simpl; rewrite Hb'; [| reflexivity].
  unfold bind.
  destruct (getMonitorDescriptors_step reader off e md ctx)
    as [[[md' []]|] c]; reflexivity.
Qed.

Lemma framed_getMonitorDescriptors_loop reader e :
  forall n off md,
    (Z.to_nat (e - off) <= n)%nat ->
    framed (getMonitorDescriptors_loop reader off e md).
Proof.
  induction n as [|n IH]; intros off md Hn;
    (eapply framed_ext; [apply getMonitorDescriptors_loop_unfolded |]);
    destruct (off <? e) eqn:Hlt; try apply framed_ret;
    apply Z.ltb_lt in Hlt.
  - lia.
  - framed_auto; apply IH; unfold DTD_LENGTH; lia.
Qed.

Lemma framed_getMonitorDescriptors reader s e :
  framed (getMonitorDescriptors reader s e).
Proof.
  unfold getMonitorDescriptors.
  eapply framed_getMonitorDescriptors_loop. reflexivity.
Qed.

#[export] Hint Resolve framed_getMonitorDescriptors : framed.

Lemma getDtds_loop_unfolded h reader i e arr ctx :
  getDtds_loop h reader i e arr ctx =
  (if i <? e then
     do r <- getDtds_step h reader i arr;
     match r with
     | None => ret arr
     | Some arr' => getDtds_loop h reader (i + DTD_LENGTH) e arr'
     end
   else ret arr) ctx.
Proof.
  rewrite getDtds_loop_unfold_eq. unfold getDtds_loop_unfold.
  destruct (inspect (i <? e)) as [b Hb]. pose proof Hb as Hb'.
  destruct b; simpl; rewrite Hb'; [| reflexivity].
  unfold bind.
  destruct (getDtds_step h reader i arr ctx) as [[r|] c]; reflexivity.
Qed.

Lemma framed_getDtds_loop h reader e :
  forall n i arr,
    (Z.to_nat (e - i) <= n)%nat -> framed (getDtds_loop h reader i e arr).
Proof.
  induction n as [|n IH]; intros i arr Hn;
    (eapply framed_ext; [apply getDtds_loop_unfolded |]);
    destruct (i <? e) eqn:Hlt; try apply framed_ret;
    apply Z.ltb_lt in Hlt.
  - lia.
  - framed_auto; apply IH; unfold DTD_LENGTH; lia.
Qed.

Lemma framed_getDtds h reader s e : framed (getDtds h reader s e).
Proof. unfold getDtds. eapply framed_getDtds_loop. reflexivity. Qed.

#[export] Hint Resolve framed_getDtds : framed.

(** ** Framing of the base block decoders *)
(** ** Framing of the CTA data block decoders *)

Lemma framed_parseAudioDataBlock reader startAddress blockLength :
  framed (parseAudioDataBlock reader startAddress blockLength).
Proof. unfold parseAudioDataBlock. framed_auto. Qed.

#[export] Hint Resolve framed_parseAudioDataBlock : framed.

Lemma framed_parseVideoDataBlock reader startAddress blockLength context :
  framed (parseVideoDataBlock reader startAddress blockLength context).
Proof. unfold parseVideoDataBlock. framed_auto. Qed.

#[export] Hint Resolve framed_parseVideoDataBlock : framed.

Lemma framed_parseVendorDataBlockHDMI14 reader startAddress blockLength vendorBlock :
  framed (parseVendorDataBlockHDMI14 reader startAddress blockLength vendorBlock).
Proof. unfold parseVendorDataBlockHDMI14. framed_auto. Qed.

#[export] Hint Resolve framed_parseVendorDataBlockHDMI14 : framed.

Lemma framed_parseVendorDataBlockHDMI20 reader startAddress blockLength vendorBlock :
  framed (parseVendorDataBlockHDMI20 reader startAddress blockLength vendorBlock).
Proof. unfold parseVendorDataBlockHDMI20. framed_auto. Qed.

#[export] Hint Resolve framed_parseVendorDataBlockHDMI20 : framed.

Lemma framed_readBlockData reader startAddress blockLength :
  framed (readBlockData reader startAddress blockLength).
Proof. unfold readBlockData. framed_auto. Qed.

#[export] Hint Resolve framed_readBlockData : framed.

Lemma framed_parseVendorDataBlockHDMIForum reader startAddress blockLength vendorBlock :
  framed (parseVendorDataBlockHDMIForum reader startAddress blockLength vendorBlock).
Proof. unfold parseVendorDataBlockHDMIForum. framed_auto. Qed.

#[export] Hint Resolve framed_parseVendorDataBlockHDMIForum : framed.

Lemma framed_parseVendorDataBlock reader startAddress blockLength :
  framed (parseVendorDataBlock reader startAddress blockLength).
Proof. unfold parseVendorDataBlock. framed_auto. Qed.

#[export] Hint Resolve framed_parseVendorDataBlock : framed.

Lemma framed_parseVendorSpecificVideoDataBlock reader startAddress blockLength extendedTagBlock :
  framed (parseVendorSpecificVideoDataBlock reader startAddress blockLength extendedTagBlock).
Proof. unfold parseVendorSpecificVideoDataBlock. framed_auto. Qed.

#[export] Hint Resolve framed_parseVendorSpecificVideoDataBlock : framed.

Lemma framed_parseVideoCapabilityDataBlock reader startAddress blockLength extendedTagBlock :
  framed (parseVideoCapabilityDataBlock reader startAddress blockLength extendedTagBlock).
Proof. unfold parseVideoCapabilityDataBlock. framed_auto. Qed.

#[export] Hint Resolve framed_parseVideoCapabilityDataBlock : framed.

Lemma framed_parseColorimetryDataBlock reader startAddress blockLength extendedTagBlock :
  framed (parseColorimetryDataBlock reader startAddress blockLength extendedTagBlock).
Proof. unfold parseColorimetryDataBlock. framed_auto. Qed.

#[export] Hint Resolve framed_parseColorimetryDataBlock : framed.

Lemma framed_parseYCbCr420VideoDataBlock reader startAddress blockLength extendedTagBlock :
  framed (parseYCbCr420VideoDataBlock reader startAddress blockLength extendedTagBlock).
Proof. unfold parseYCbCr420VideoDataBlock. framed_auto. Qed.

#[export] Hint Resolve framed_parseYCbCr420VideoDataBlock : framed.

Lemma framed_parseYCbCr420CapabilityMapDataBlock reader startAddress blockLength extendedTagBlock context :
  framed (parseYCbCr420CapabilityMapDataBlock reader startAddress blockLength extendedTagBlock context).
Proof. unfold parseYCbCr420CapabilityMapDataBlock. framed_auto. Qed.

#[export] Hint Resolve framed_parseYCbCr420CapabilityMapDataBlock : framed.

Lemma framed_parseSpeakerDataBlock reader startAddress blockLength :
  framed (parseSpeakerDataBlock reader startAddress blockLength).
Proof. unfold parseSpeakerDataBlock. framed_auto. Qed.

#[export] Hint Resolve framed_parseSpeakerDataBlock : framed.

Lemma framed_parseHDRStaticMetadataDataBlock reader startAddress blockLength extendedTagBlock :
  framed (parseHDRStaticMetadataDataBlock reader startAddress blockLength extendedTagBlock).
Proof. unfold parseHDRStaticMetadataDataBlock. framed_auto. Qed.

#[export] Hint Resolve framed_parseHDRStaticMetadataDataBlock : framed.

Lemma framed_parseHDRDynamicMetadataDataBlock reader startAddress blockLength extendedTagBlock :
  framed (parseHDRDynamicMetadataDataBlock reader startAddress blockLength extendedTagBlock).
Proof. unfold parseHDRDynamicMetadataDataBlock. framed_auto. Qed.

#[export] Hint Resolve framed_parseHDRDynamicMetadataDataBlock : framed.

Lemma framed_parseVideoFormatPreferenceDataBlock reader startAddress blockLength extendedTagBlock :
  framed (parseVideoFormatPreferenceDataBlock reader startAddress blockLength extendedTagBlock).
Proof. unfold parseVideoFormatPreferenceDataBlock. framed_auto. Qed.

#[export] Hint Resolve framed_parseVideoFormatPreferenceDataBlock : framed.

Lemma framed_parseRoomConfigurationDataBlock reader startAddress blockLength extendedTagBlock :
  framed (parseRoomConfigurationDataBlock reader startAddress blockLength extendedTagBlock).
Proof. unfold parseRoomConfigurationDataBlock. framed_auto. Qed.

#[export] Hint Resolve framed_parseRoomConfigurationDataBlock : framed.

Lemma framed_parseHDMIForumSCDB reader startAddress blockLength extendedTagBlock :
  framed (parseHDMIForumSCDB reader startAddress blockLength extendedTagBlock).
Proof. unfold parseHDMIForumSCDB. framed_auto. Qed.

#[export] Hint Resolve framed_parseHDMIForumSCDB : framed.

Lemma framed_parseExtendedTagDataBlock reader startAddress blockLength context :
  framed (parseExtendedTagDataBlock reader startAddress blockLength context).
Proof. unfold parseExtendedTagDataBlock. framed_auto. Qed.

#[export] Hint Resolve framed_parseExtendedTagDataBlock : framed.

Lemma framed_parseDataBlock reader index headerByte st :
  framed (parseDataBlock reader index headerByte st).
Proof. unfold parseDataBlock. framed_auto. Qed.

#[export] Hint Resolve framed_parseDataBlock : framed.

Lemma band_nonneg_r (a m : Z) : 0 <= m < 2 ^ 31 -> 0 <= JS.band a m.
Proof.
  intros Hm. unfold JS.band. apply Z.land_nonneg. right.
  unfold JS.toInt32. rewrite Z.mod_small by lia. lia.
Qed.

Lemma primaryScan_unfolded reader e index st ctx :
  primaryScan reader e index st ctx =
  (if index <? e then
     do headerByte <- u8 reader index;
     match headerByte with
     | None => ret st
     | Some headerByte =>
         do st' <- parseDataBlock reader index headerByte st;
         primaryScan reader e
           (index + JS.band headerByte DATA_BLOCK_LENGTH_MASK + 1) st'
     end
   else ret st) ctx.
Proof.
  rewrite primaryScan_unfold_eq. unfold primaryScan_unfold.
  destruct (inspect (index <? e)) as [b Hb]. pose proof Hb as Hb'.
  destruct b; simpl; rewrite Hb'; [| reflexivity].
  unfold bind.
  destruct (u8 reader index ctx) as [[h|] c]; simpl; [| reflexivity].
  destruct (parseDataBlock reader index h st c) as [st' c']. reflexivity.
Qed.

Lemma framed_primaryScan reader e :
  forall n index st,
    (Z.to_nat (e - index) <= n)%nat -> framed (primaryScan reader e index st).
Proof.
  induction n as [|n IH]; intros index st Hn;
    (eapply framed_ext; [apply primaryScan_unfolded |]);
    destruct (index <? e) eqn:Hlt; try apply framed_ret;
    apply Z.ltb_lt in Hlt.
  - lia.
  - framed_auto. apply IH.
    match goal with
    | |- context [JS.band ?h ?m] =>
        assert (0 <= JS.band h m) by (apply band_nonneg_r; vm_compute; split; congruence)
    end.
    lia.
Qed.

Lemma framed_primaryScan_any reader e index st :
  framed (primaryScan reader e index st).
Proof. eapply framed_primaryScan. reflexivity. Qed.

#[export] Hint Resolve framed_primaryScan_any : framed.

Lemma framed_recoveryScan_step reader endAddress context scanIndex found :
  framed (recoveryScan_step reader endAddress context scanIndex found).
Proof. unfold recoveryScan_step. framed_auto. Qed.

#[export] Hint Resolve framed_recoveryScan_step : framed.

Lemma framed_recoveryScan reader startAddress endAddress context :
  framed (recoveryScan reader startAddress endAddress context).
Proof. unfold recoveryScan. framed_auto. Qed.

#[export] Hint Resolve framed_recoveryScan : framed.

Lemma framed_parseDataBlockCollection reader dtdStart context :
  framed (parseDataBlockCollection reader dtdStart context).
Proof. unfold parseDataBlockCollection. framed_auto. Qed.

#[export] Hint Resolve framed_parseDataBlockCollection : framed.

Lemma framed_parseBaseBlock LINUXHW_VENDOR_MAP LANSWEEPER_VENDOR_MAP HWDATA_VENDOR_MAP Math_hypot reader :
  framed (parseBaseBlock LINUXHW_VENDOR_MAP LANSWEEPER_VENDOR_MAP HWDATA_VENDOR_MAP Math_hypot reader).
Proof. unfold parseBaseBlock. framed_auto. Qed.

#[export] Hint Resolve framed_parseBaseBlock : framed.

Lemma framed_readExtensionHeader reader : framed (readExtensionHeader reader).
Proof. unfold readExtensionHeader. framed_auto. Qed.

#[export] Hint Resolve framed_readExtensionHeader : framed.

Lemma framed_blockRawBytes reader : framed (blockRawBytes reader).
Proof. unfold blockRawBytes. framed_auto. Qed.

#[export] Hint Resolve framed_blockRawBytes : framed.

Lemma framed_parseCtaExtension Math_hypot reader extIndex context :
  framed (parseCtaExtension Math_hypot reader extIndex context).
Proof. unfold parseCtaExtension. framed_auto. Qed.

#[export] Hint Resolve framed_parseCtaExtension : framed.

Lemma framed_parseDisplayIdExtension reader extIndex :
  framed (parseDisplayIdExtension reader extIndex).
Proof. unfold parseDisplayIdExtension. framed_auto. Qed.

#[export] Hint Resolve framed_parseDisplayIdExtension : framed.

Lemma framed_parseUnknownExtension reader extIndex :
  framed (parseUnknownExtension reader extIndex).
Proof. unfold parseUnknownExtension. framed_auto. Qed.

#[export] Hint Resolve framed_parseUnknownExtension : framed.

Lemma framed_decodeCtaExtension Math_hypot :
  framedDecoder (decodeCtaExtension Math_hypot).
Proof. intros reader extIndex context. unfold decodeCtaExtension. framed_auto. Qed.

Lemma framed_decodeDisplayIdExtension : framedDecoder decodeDisplayIdExtension.
Proof.
  intros reader extIndex context. unfold decodeDisplayIdExtension. framed_auto.
Qed.

Lemma framed_parseExtensions_step decodeCta decodeDisplayId extIndex st :
  framedDecoder decodeCta -> framedDecoder decodeDisplayId ->
  framed (parseExtensions_step decodeCta decodeDisplayId extIndex st).
Proof.
  intros Hc Hd. unfold parseExtensions_step.
  destruct st as [extensions context].
  apply framed_bind; [apply framed_u8 |]. intros [extTag|]; [| apply framed_ret].
  apply framed_bind.
  - destruct (extTag =? CTA_EXTENSION_TAG); [apply Hc |].
    destruct (extTag =? DISPLAYID_EXTENSION_TAG); [apply Hd |]. framed_auto.
  - intros [[ext|err] context']; framed_auto.
Qed.

Lemma framed_parseExtensionsWith decodeCta decodeDisplayId count context :
  framedDecoder decodeCta -> framedDecoder decodeDisplayId ->
  framed (parseExtensionsWith decodeCta decodeDisplayId count context).
Proof.
  intros Hc Hd. unfold parseExtensionsWith.
  apply framed_bind; [| intros; apply framed_ret].
  apply framed_forLoop. intros. apply framed_parseExtensions_step; assumption.
Qed.

Lemma framed_parseExtensions Math_hypot count context :
  framed (parseExtensions Math_hypot count context).
Proof.
  apply framed_parseExtensionsWith;
    [apply framed_decodeCtaExtension | apply framed_decodeDisplayIdExtension].
Qed.

#[export] Hint Resolve framed_parseExtensions : framed.

Lemma framed_decodeCtaExtension_call Math_hypot reader extIndex context :
  framed (decodeCtaExtension Math_hypot reader extIndex context).
Proof. apply framed_decodeCtaExtension. Qed.

Lemma framed_decodeDisplayIdExtension_call reader extIndex context :
  framed (decodeDisplayIdExtension reader extIndex context).
Proof. apply framed_decodeDisplayIdExtension. Qed.

#[export] Hint Resolve framed_decodeCtaExtension_call
  framed_decodeDisplayIdExtension_call : framed.

(** ** Framing of the base block decoders *)
(** ** JavaScript bit operations on small integers *)

Lemma toInt32_small (z : Z) : - 2 ^ 31 <= z < 2 ^ 31 -> JS.toInt32 z = z.
Proof. intros H. unfold JS.toInt32. rewrite Z.mod_small; lia. Qed.

Lemma toInt32_mod (z : Z) : JS.toInt32 z mod 2 ^ 31 = z mod 2 ^ 31.
Proof.
  unfold JS.toInt32.
  assert (Heq : (z + 2 ^ 31) mod 2 ^ 32
                = z + 2 ^ 31 - 2 ^ 32 * ((z + 2 ^ 31) / 2 ^ 32))
    by (apply Z.mod_eq; lia).
  rewrite Heq.
  replace (z + 2 ^ 31 - 2 ^ 32 * ((z + 2 ^ 31) / 2 ^ 32) - 2 ^ 31)
    with (z + (- 2 * ((z + 2 ^ 31) / 2 ^ 32)) * 2 ^ 31) by lia.
  apply Z.mod_add. lia.
Qed.

Lemma testbit_toInt32 (z n : Z) :
  0 <= n < 31 -> Z.testbit (JS.toInt32 z) n = Z.testbit z n.
Proof.
  intros Hn.
  rewrite <- (Z.mod_pow2_bits_low (JS.toInt32 z) 31 n) by lia.
  rewrite toInt32_mod. apply Z.mod_pow2_bits_low. lia.
Qed.

Lemma land_pow2_truthy (x n : Z) :
  0 <= n -> JS.truthy (Z.land x (2 ^ n)) = Z.testbit x n.
Proof.
  intros Hn. unfold JS.truthy.
  destruct (Z.testbit x n) eqn:Hb.
  - apply negb_true_iff, Z.eqb_neq. intros H0.
    assert (Hc : Z.testbit (Z.land x (2 ^ n)) n = true).
    { rewrite Z.land_spec, Hb, Z.pow2_bits_true; auto. }
    rewrite H0, Z.bits_0 in Hc. discriminate.
  - apply negb_false_iff, Z.eqb_eq. apply Z.bits_inj'. intros m Hm.
    rewrite Z.land_spec, Z.bits_0.
    destruct (Z.eq_dec m n) as [->|Hne].
    + rewrite Hb. reflexivity.
    + rewrite Z.pow2_bits_false by lia. apply andb_false_r.
Qed.

(** [byte & (1 << n)] is truthy exactly when bit [n] of [byte] is set. *)
Lemma band_bit_truthy (byte n : Z) :
  0 <= n < 31 ->
  JS.truthy (JS.band byte (2 ^ n)) = Z.testbit byte n.
Proof.
  intros Hn. unfold JS.band.
  rewrite (toInt32_small (2 ^ n)).
  - rewrite land_pow2_truthy by lia. apply testbit_toInt32. exact Hn.
  - split; [lia |]. apply Z.pow_lt_mono_r; lia.
Qed.

Lemma band_byte (b m : Z) :
  0 <= b <= 255 -> 0 <= m <= 255 -> JS.band b m = Z.land b m.
Proof.
  intros Hb Hm. unfold JS.band. rewrite !toInt32_small; [reflexivity | lia..].
Qed.

Lemma shr_byte (b n : Z) : 0 <= b <= 255 -> JS.shr b n = Z.shiftr b n.
Proof. intros Hb. unfold JS.shr. rewrite toInt32_small; [reflexivity | lia]. Qed.

(** ** Reading a byte *)

Lemma byteAt_eq (bs : list Z) (reader : BlockReader) (off : Z) :
  byteAt bs reader off =
  let a := reader_blockOffset reader + off in
  if (a <? 0) || (Z.of_nat (length bs) <=? a) then None
  else bs !! Z.to_nat a.
Proof.
  unfold byteAt, value, u8, readU8, bytes_length. simpl.
  destruct ((_ <? 0) || _); reflexivity.
Qed.

Lemma byteAt_in_range (bs : list Z) (reader : BlockReader) (off : Z) :
  0 <= reader_blockOffset reader + off < Z.of_nat (length bs) ->
  byteAt bs reader off = bs !! Z.to_nat (reader_blockOffset reader + off).
Proof.
  intros H. rewrite byteAt_eq. simpl.
  destruct (Z.ltb_spec (reader_blockOffset reader + off) 0); [lia |].
  destruct (Z.leb_spec (Z.of_nat (length bs)) (reader_blockOffset reader + off));
    [lia | reflexivity].
Qed.

Lemma value_u8 (bs : list Z) (reader : BlockReader) (off : Z) :
  value (u8 reader off) bs = byteAt bs reader off.
Proof. reflexivity. Qed.

Lemma value_u8OrZero (bs : list Z) (reader : BlockReader) (off : Z) :
  value (u8OrZero reader off) bs = default 0 (byteAt bs reader off).
Proof.
  unfold u8OrZero. rewrite value_bind by framed_auto. reflexivity.
Qed.

Lemma value_ret {A : Type} (a : A) (bs : list Z) : value (ret a) bs = a.
Proof. reflexivity. Qed.

Lemma value_getBytes (bs : list Z) : value getBytes bs = bs.
Proof. reflexivity. Qed.

(** ** Checksums *)

Lemma calcChecksum_loop_sum (bs : list Z) (n : nat) :
  forall index acc,
    0 <= index ->
    calcChecksum_loop bs n index acc =
    acc + fold_right Z.add 0 (take n (drop (Z.to_nat index) bs)).
Proof.
  induction n as [|n IH]; intros index acc Hi; simpl.
  - lia.
  - rewrite IH by lia.
    replace (Z.to_nat (index + 1)) with (S (Z.to_nat index)) by lia.
    destruct (bs !! Z.to_nat index) as [x|] eqn:Hx.
    + rewrite (drop_S _ _ _ Hx). simpl. lia.
    + apply lookup_ge_None in Hx.
      rewrite !drop_ge by lia. rewrite take_nil. simpl. lia.
Qed.

Lemma calcChecksum_eq (bs : list Z) (block : Z) :
  0 <= block ->
  (block + 1) * EDID_BLOCK_LENGTH <= Z.of_nat (length bs) ->
  calcChecksum bs block = Some (256 - Z.rem (blockSum bs block) 256).
Proof.
  intros Hb Hlen. unfold calcChecksum, blockSum, EDID_BLOCK_LENGTH in *.
  destruct (Z.ltb_spec (Z.of_nat (length bs)) (block * 128 + 128 - 1 + 1));
    [lia |].
  rewrite calcChecksum_loop_sum by lia.
  replace (Z.to_nat (block * 128 + 128 - 1 - block * 128)) with 127%nat by lia.
  reflexivity.
Qed.

Lemma validChecksum_value (bs : list Z) (block i : Z) :
  0 <= block ->
  (block + 1) * EDID_BLOCK_LENGTH <= Z.of_nat (length bs) ->
  value (validChecksum block i) bs =
  Some (blockChecksumByte bs block =? 256 - Z.rem (blockSum bs block) 256).
Proof.
  intros Hb Hlen. unfold validChecksum.
  rewrite value_bind by framed_auto.
  assert (Hin : (Z.to_nat (block * EDID_BLOCK_LENGTH + 127) < length bs)%nat)
    by (unfold EDID_BLOCK_LENGTH in *; lia).
  destruct (lookup_lt_is_Some_2 _ _ Hin) as [c Hc].
  assert (Hread : value (readU8 ((block + 1) * EDID_BLOCK_LENGTH - 1)
                           (Some i) (Some 127)) bs = Some c).
  { unfold value, readU8, bytes_length. simpl.
    unfold EDID_BLOCK_LENGTH in *.
    destruct (Z.ltb_spec ((block + 1) * 128 - 1) 0); [lia |].
    destruct (Z.leb_spec (Z.of_nat (length bs)) ((block + 1) * 128 - 1));
      [lia |].
    simpl. rewrite <- Hc. f_equal. lia. }
  rewrite Hread.
  rewrite value_bind by framed_auto. rewrite value_getBytes.
  rewrite (calcChecksum_eq bs block Hb Hlen). rewrite value_ret.
  unfold blockChecksumByte. rewrite Hc. reflexivity.
Qed.

Lemma fold_add_nonneg (l : list Z) :
  Forall (fun b => 0 <= b <= 255) l -> 0 <= fold_right Z.add 0 l.
Proof. induction 1; simpl; lia. Qed.

Lemma blockSum_nonneg (bs : list Z) (block : Z) :
  Forall (fun b => 0 <= b <= 255) bs -> 0 <= blockSum bs block.
Proof.
  intros H. apply fold_add_nonneg.
  apply Forall_take, Forall_drop. exact H.
Qed.

Lemma blockChecksumByte_range (bs : list Z) (block : Z) :
  Forall (fun b => 0 <= b <= 255) bs -> 0 <= blockChecksumByte bs block <= 255.
Proof.
  intros H. unfold blockChecksumByte.
  destruct (bs !! _) as [c|] eqn:Hc; simpl; [| lia].
  exact (proj1 (Forall_lookup _ _) H _ _ Hc).
Qed.

(** The rule the decoder applies, against the specification's: they agree
    unless the bytes 0..126 sum to 0 modulo 256, where the decoder rejects
    every checksum byte. *)
Lemma validChecksum_rule (bs : list Z) (block i : Z) :
  0 <= block ->
  (block + 1) * EDID_BLOCK_LENGTH <= Z.of_nat (length bs) ->
  Forall (fun b => 0 <= b <= 255) bs ->
  value (validChecksum block i) bs =
  Some (spec_checksumValid bs block
        && negb (blockSum bs block mod 256 =? 0)).
Proof.
  intros Hb Hlen Hbytes. rewrite validChecksum_value by assumption.
  f_equal. unfold spec_checksumValid.
  pose proof (blockSum_nonneg bs block Hbytes) as Hs.
  pose proof (blockChecksumByte_range bs block Hbytes) as Hc.
  rewrite Z.rem_mod_nonneg by lia.
  pose proof (Z.mod_pos_bound (blockSum bs block) 256 ltac:(lia)) as Hm.
  destruct (Z.eqb_spec (blockSum bs block mod 256) 0) as [H0|H0]; simpl.
  - rewrite H0, andb_false_r. apply Z.eqb_neq. lia.
  - rewrite andb_true_r. rewrite (Z.mod_small (256 - _)) by lia. reflexivity.
Qed.

(** ** Framing of the base block decoders *)
(** ** The shape of a [parseEdid] result *)

Lemma appends_warnFailedExtensionChecksums extensions :
  appends (warnFailedExtensionChecksums extensions).
Proof.
  induction extensions as [|ext rest IH]; simpl.
  - apply appends_ret.
  - apply appends_bind; [| intros; exact IH].
    destruct (bool_decide _); [apply appends_warn | apply appends_ret].
Qed.

Lemma appends_warningIf (c : bool) code msg bi off d :
  appends (if c then warn code msg bi off d else ret tt).
Proof. destruct c; [apply appends_warn | apply appends_ret]. Qed.

Lemma emitted_warningIf (c : bool) code msg bi off d bs :
  emitted (if c then warn code msg bi off d else ret tt) bs =
  warningIf c (mkWarning code msg bi off d).
Proof. destruct c; reflexivity. Qed.

Lemma run_warningIf {B : Type} (c : bool) code msg bi off d
    (k : unit -> M B) (ctx : ReadContext) :
  bind (if c then warn code msg bi off d else ret tt) k ctx =
  k tt (mkReadContext (bytes ctx)
          (warnings ctx ++ warningIf c (mkWarning code msg bi off d))).
Proof.
  rewrite run_bind by apply appends_warningIf.
  rewrite emitted_warningIf. destruct c; reflexivity.
Qed.

Lemma emitted_warnFailedExtensionChecksums extensions bs :
  Forall (fun w => code w = checksum_failed /\
                   exists ext, In ext extensions /\
                     Extension.isChecksumValid ext = Some false /\
                     blockIndex w = Some (Extension.blockNumber ext))
    (emitted (warnFailedExtensionChecksums extensions) bs).
Proof.
  induction extensions as [|ext rest IH].
  - constructor.
  - unfold emitted in *. simpl warnFailedExtensionChecksums.
    rewrite run_bind by apply appends_warningIf. simpl bytes.
    rewrite (appends_warnFailedExtensionChecksums rest). simpl.
    rewrite emitted_warningIf. apply Forall_app. split.
    + destruct (bool_decide_reflect
                  (Extension.isChecksumValid ext = Some false)) as [Hc|Hc];
        simpl; constructor; [| constructor].
      split; [reflexivity |]. exists ext. simpl. auto.
    + eapply Forall_impl; [exact IH |].
      intros w [Hw [e [He1 He2]]]. split; [exact Hw |].
      exists e. simpl. auto.
Qed.

Section ParseEdidShape.

Variable LINUXHW_VENDOR_MAP : string -> option string.
Variable LANSWEEPER_VENDOR_MAP : string -> option string.
Variable HWDATA_VENDOR_MAP : string -> option string.
Variable Math_hypot : Q -> Q -> Q.
Variable decodeCta : ExtensionDecoder.
Variable decodeDisplayId : ExtensionDecoder.
Hypothesis decodeCta_framed : framedDecoder decodeCta.
Hypothesis decodeDisplayId_framed : framedDecoder decodeDisplayId.

Local Notation "'parseBase'" :=
  (parseBaseBlock LINUXHW_VENDOR_MAP LANSWEEPER_VENDOR_MAP HWDATA_VENDOR_MAP
     Math_hypot (createBlockReader 0 0)).
Local Notation "'parseExts' bs" :=
  (parseExtensionsWith decodeCta decodeDisplayId (availableExtensions bs)
     (mkExtensionParseContext None)) (at level 10, bs at level 9).
Local Notation "'body'" :=
  (parseEdid_body LINUXHW_VENDOR_MAP LANSWEEPER_VENDOR_MAP HWDATA_VENDOR_MAP
     Math_hypot decodeCta decodeDisplayId).

(** Running the body of [parseEdid] from any context: the decoded fields are
    functions of the bytes, and the warnings are appended in a fixed order. *)
Lemma parseEdid_body_shape (bs : list Z) :
  let len := Z.of_nat (length bs) in
  let parsed := value parseBase bs in
  let baseBlock := result_baseBlock parsed in
  let expected := default 0 (Base.numberOfExtensions baseBlock) in
  let extensions := value (parseExts bs) bs in
  exists wShort wMultiple wHeader wChecksum wCount,
    (forall ws,
    fst (body (mkReadContext bs ws)) =
      Edid.mk bs
        (ws ++
         warningIf (len <? EDID_BLOCK_LENGTH) wShort ++
         warningIf (negb (Z.rem len EDID_BLOCK_LENGTH =? 0)) wMultiple ++
         emitted parseBase bs ++
         warningIf (negb (isTrue (Base.isHeaderValid baseBlock))) wHeader ++
         warningIf (bool_decide (Base.isChecksumValid baseBlock = Some false))
           wChecksum ++
         warningIf (negb (expected =? availableExtensions bs)) wCount ++
         emitted (parseExts bs) bs ++
         emitted (warnFailedExtensionChecksums extensions) bs)
        (Base.isHeaderValid baseBlock) (Base.isChecksumValid baseBlock)
        (Some expected) baseBlock extensions
        (buildFeatureSupport baseBlock extensions
           (result_basicDisplayParams parsed) (result_nativeResolution parsed))
        (result_vendorInfo parsed) (result_productInfo parsed)
        (result_basicDisplayParams parsed) (result_nativeResolution parsed))
    /\ code wShort = too_short
    /\ code wMultiple = length_not_multiple_of_128
    /\ (code wHeader = invalid_header /\ blockIndex wHeader = Some 0)
    /\ (code wChecksum = checksum_failed /\ blockIndex wChecksum = Some 0)
    /\ code wCount = extension_count_mismatch.
Proof.
  intros len parsed baseBlock expected extensions.
  do 5 eexists. split.
  - intros ws. unfold parseEdid_body.
    rewrite run_bind by (apply framed_appends, framed_getBytes).
    rewrite value_getBytes, emitted_getBytes.
    rewrite !run_warningIf.
    rewrite run_bind by (apply framed_appends; auto with framed).
    rewrite !run_warningIf.
    rewrite run_bind
      by (apply framed_appends, framed_parseExtensionsWith; assumption).
    rewrite run_bind by apply appends_warnFailedExtensionChecksums.
    cbn [fst bytes warnings].
    rewrite app_nil_r, <- !app_assoc. reflexivity.
  - cbn. repeat split.
Qed.

End ParseEdidShape.

(** ** Framing of the base block decoders *)
(** ** The base block fields of a result *)

Lemma clampByte_range (z : Z) : 0 <= JS.clampByte z <= 255.
Proof. unfold JS.clampByte. lia. Qed.

Lemma clamped_bytes (data : list Z) :
  Forall (fun b => 0 <= b <= 255) (map JS.clampByte data).
Proof. apply Forall_map, Forall_forall. intros z _. apply clampByte_range. Qed.

Lemma parseBaseBlock_fields m1 m2 m3 h reader bs :
  let b := result_baseBlock (value (parseBaseBlock m1 m2 m3 h reader) bs) in
  Base.isChecksumValid b = value (validChecksum 0 0) bs /\
  Base.isHeaderValid b = Some (value (validateHeader reader) bs) /\
  Base.standardDisplayModes b
  = Some (value (getStandardDisplayModes reader) bs) /\
  Base.numberOfExtensions b = Some (value (getNumberExtensions reader) bs).
Proof.
  unfold parseBaseBlock.
  repeat (rewrite value_bind by framed_auto).
  rewrite value_ret. simpl. auto.
Qed.

Lemma parseEdidWith_shape m1 m2 m3 h dc dd data :
  framedDecoder dc -> framedDecoder dd ->
  let bs := map JS.clampByte data in
  let parsed := value (parseBaseBlock m1 m2 m3 h (createBlockReader 0 0)) bs in
  let r := parseEdidWith m1 m2 m3 h dc dd data in
  Edid.bytes r = bs /\
  Edid.baseBlock r = result_baseBlock parsed /\
  Edid.isHeaderValid r = Base.isHeaderValid (result_baseBlock parsed) /\
  Edid.isChecksumValid r = Base.isChecksumValid (result_baseBlock parsed) /\
  Edid.extensions r =
    value (parseExtensionsWith dc dd (availableExtensions bs)
             (mkExtensionParseContext None)) bs /\
  Edid.featureSupport r =
    buildFeatureSupport (Edid.baseBlock r) (Edid.extensions r)
      (Edid.basicDisplayParams r) (Edid.nativeResolution r).
Proof.
  intros Hc Hd bs parsed r. subst r. unfold parseEdidWith.
  destruct (parseEdid_body_shape m1 m2 m3 h dc dd Hc Hd
              (map JS.clampByte data))
    as (w1 & w2 & w3 & w4 & w5 & Heq & _).
  cbv zeta in Heq. rewrite Heq.
  cbn [Edid.bytes Edid.baseBlock Edid.isHeaderValid Edid.isChecksumValid
       Edid.extensions Edid.featureSupport Edid.basicDisplayParams
       Edid.nativeResolution bytes].
  repeat split; reflexivity.
Qed.

Lemma parseEdid_shape m1 m2 m3 h data :
  let bs := map JS.clampByte data in
  let parsed := value (parseBaseBlock m1 m2 m3 h (createBlockReader 0 0)) bs in
  let r := parseEdid m1 m2 m3 h data in
  Edid.bytes r = bs /\
  Edid.baseBlock r = result_baseBlock parsed /\
  Edid.isHeaderValid r = Base.isHeaderValid (result_baseBlock parsed) /\
  Edid.isChecksumValid r = Base.isChecksumValid (result_baseBlock parsed) /\
  Edid.extensions r =
    value (parseExtensions h (availableExtensions bs)
             (mkExtensionParseContext None)) bs /\
  Edid.featureSupport r =
    buildFeatureSupport (Edid.baseBlock r) (Edid.extensions r)
      (Edid.basicDisplayParams r) (Edid.nativeResolution r).
Proof.
  unfold parseEdid, parseExtensions.
  exact (parseEdidWith_shape m1 m2 m3 h (decodeCtaExtension h)
           decodeDisplayIdExtension data (framed_decodeCtaExtension h)
           framed_decodeDisplayIdExtension).
Qed.

(** ** C2: the base block checksum *)

Lemma parseEdid_isChecksumValid m1 m2 m3 h data :
  Edid.isChecksumValid (parseEdid m1 m2 m3 h data)
  = value (validChecksum 0 0) (map JS.clampByte data).
Proof.
  destruct (parseEdid_shape m1 m2 m3 h data) as (_ & _ & _ & Hc & _).
  rewrite Hc. apply parseBaseBlock_fields.
Qed.

(** For an input of at least 128 bytes the decoder's verdict on the base
    block checksum is the specification's rule, except that a block whose
    bytes 0..126 sum to 0 modulo 256 is rejected whatever its checksum
    byte. *)
Theorem base_checksum_rule m1 m2 m3 h (data : list Z) :
  (128 <= length data)%nat ->
  let bs := map JS.clampByte data in
  Edid.isChecksumValid (parseEdid m1 m2 m3 h data)
  = Some (spec_checksumValid bs 0 && negb (blockSum bs 0 mod 256 =? 0)).
Proof.
  intros Hlen bs. rewrite parseEdid_isChecksumValid.
  apply validChecksum_rule; [lia | | apply clamped_bytes].
  unfold bs, EDID_BLOCK_LENGTH. rewrite length_map. lia.
Qed.

Lemma base_checksum_rule_witness :
  Edid.isChecksumValid
    (parseEdid noVendorMap noVendorMap noVendorMap hypotApprox
       standardModeBlock)
  = Some (spec_checksumValid (map JS.clampByte standardModeBlock) 0
          && negb (blockSum (map JS.clampByte standardModeBlock) 0 mod 256
                   =? 0)).
Proof.
  apply (base_checksum_rule noVendorMap noVendorMap noVendorMap hypotApprox
           standardModeBlock).
  vm_compute. lia.
Defined.

(** C2 (code bug): on the 128-byte block [checksumZeroBlock] the bytes 0..126
    sum to 0 modulo 256 and the checksum byte is 0, which the specification's
    rule [(256 - sum mod 256) mod 256] accepts; [calcChecksum] returns 256
    for it, so [parseEdid] reports the checksum as invalid and pushes a
    [checksum_failed] warning for block 0. *)
Theorem checksum_zero_sum_rejected m1 m2 m3 h :
  let r := parseEdid m1 m2 m3 h checksumZeroBlock in
  length checksumZeroBlock = 128%nat /\
  blockSum checksumZeroBlock 0 mod 256 = 0 /\
  blockChecksumByte checksumZeroBlock 0 = 0 /\
  spec_checksumValid checksumZeroBlock 0 = true /\
  calcChecksum checksumZeroBlock 0 = Some 256 /\
  Edid.isChecksumValid r = Some false /\
  Base.isChecksumValid (Edid.baseBlock r) = Some false /\
  hasBlockWarning checksum_failed 0 (Edid.warnings r).
Proof.
  repeat split; try (vm_compute; reflexivity).
  apply Exists_exists.
  exists (mkWarning checksum_failed "Base block checksum failed."
            (Some 0) (Some 127) None).
  refine (conj _ (conj eq_refl eq_refl)).
  vm_compute. left.
Qed.

(** ** C3: standard display modes *)

Lemma byteAt_range (bs : list Z) (reader : BlockReader) (off b : Z) :
  Forall (fun b => 0 <= b <= 255) bs ->
  byteAt bs reader off = Some b -> 0 <= b <= 255.
Proof.
  intros Hbs Hb. rewrite byteAt_eq in Hb. simpl in Hb.
  destruct (_ || _); [discriminate |].
  exact (proj1 (Forall_lookup _ _) Hbs _ _ Hb).
Qed.

Lemma aspect_bits (b : Z) :
  0 <= b <= 255 -> JS.band (JS.shr b 6) 3 = Z.shiftr b 6.
Proof.
  intros Hb. rewrite shr_byte by exact Hb.
  rewrite Z.shiftr_div_pow2 by lia.
  assert (0 <= b / 2 ^ 6 < 4)
    by (split; [apply Z.div_pos; lia | apply Z.div_lt_upper_bound; lia]).
  rewrite band_byte by lia.
  change 3 with (Z.ones 2). rewrite Z.land_ones by lia.
  apply Z.mod_small. lia.
Qed.

Lemma value_getStandardDisplayModes_step reader index arr bs :
  value (getStandardDisplayModes_step reader index arr) bs =
  match byteAt bs reader index, byteAt bs reader (index + 1) with
  | Some byte1, Some byte2 =>
      Some (if slotSkipped byte1 byte2 then arr
            else arr ++ [{| xResolutionPx := Some ((byte1 + 31) * 8);
                            xyPixelRatio := Some (JS.band (JS.shr byte2 6) 3);
                            vertFreqHz := Some (JS.band byte2 0x3f + 60) |}])
  | _, _ => None
  end.
Proof.
  unfold getStandardDisplayModes_step.
  rewrite value_bind by framed_auto. rewrite value_u8.
  rewrite value_bind by framed_auto. rewrite value_u8.
  destruct (byteAt bs reader index) as [b1|];
    destruct (byteAt bs reader (index + 1)) as [b2|]; try reflexivity.
  unfold slotSkipped.
  destruct (b1 =? 1), (b2 =? 1); reflexivity.
Qed.

Lemma value_getStandardDisplayModes_loop reader index arr bs :
  value (getStandardDisplayModes_loop reader index arr) bs =
  if index <? STD_DISPLAY_MODES_END then
    match value (getStandardDisplayModes_step reader index arr) bs with
    | None => arr
    | Some arr' => value (getStandardDisplayModes_loop reader (index + 2) arr') bs
    end
  else arr.
Proof.
  unfold value at 1. rewrite getStandardDisplayModes_loop_unfolded.
  destruct (index <? STD_DISPLAY_MODES_END); [| reflexivity].
  match goal with
  | |- fst (bind ?m ?k _) = ?rhs => change (value (bind m k) bs = rhs)
  end.
  rewrite value_bind.
  - destruct (value (getStandardDisplayModes_step reader index arr) bs);
      reflexivity.
  - auto with framed.
  - destruct (value (getStandardDisplayModes_step reader index arr) bs);
      [| apply framed_ret].
    eapply framed_getStandardDisplayModes_loop. reflexivity.
Qed.

Lemma getStandardDisplayModes_kept (bs : list Z) :
  Forall (fun b => 0 <= b <= 255) bs ->
  forall (n : nat) (k : Z) arr,
    Z.of_nat n + k = 8 -> 0 <= k ->
    value (getStandardDisplayModes_loop (createBlockReader 0 0)
             (STD_DISPLAY_MODES_START + 2 * k) arr) bs
    = arr ++ keptModes bs n k.
Proof.
  intros Hbs. induction n as [|n IH]; intros k arr Hk Hk0;
    rewrite value_getStandardDisplayModes_loop;
    unfold STD_DISPLAY_MODES_START, STD_DISPLAY_MODES_END in *.
  - destruct (Z.ltb_spec (38 + 2 * k) 53); [lia |].
    simpl. rewrite app_nil_r. reflexivity.
  - destruct (Z.ltb_spec (38 + 2 * k) 53); [| lia].
    rewrite value_getStandardDisplayModes_step.
    simpl keptModes. unfold slotBytes, STD_DISPLAY_MODES_START.
    destruct (byteAt bs (createBlockReader 0 0) (38 + 2 * k)) as [b1|] eqn:H1;
      [| rewrite app_nil_r; reflexivity].
    destruct (byteAt bs (createBlockReader 0 0) (38 + 2 * k + 1))
      as [b2|] eqn:H2; [| rewrite app_nil_r; reflexivity].
    replace (38 + 2 * k + 2) with (38 + 2 * (k + 1)) by lia.
    rewrite IH by lia.
    pose proof (byteAt_range _ _ _ _ Hbs H2) as Hb2.
    destruct (slotSkipped b1 b2); [reflexivity |].
    unfold spec_standardDisplayMode.
    rewrite aspect_bits, band_byte by lia.
    rewrite <- app_assoc. reflexivity.
Qed.

(** What the decoder keeps of the eight standard display mode slots: a slot
    is skipped as soon as either of its bytes is [0x01]; every other slot is
    decoded with the specification's formulas. *)
Theorem standard_modes_rule m1 m2 m3 h (data : list Z) :
  Base.standardDisplayModes (Edid.baseBlock (parseEdid m1 m2 m3 h data))
  = Some (keptModes (map JS.clampByte data) 8 0).
Proof.
  destruct (parseEdid_shape m1 m2 m3 h data) as (_ & Hb & _).
  rewrite Hb.
  destruct (parseBaseBlock_fields m1 m2 m3 h (createBlockReader 0 0)
              (map JS.clampByte data)) as (_ & _ & Hs & _).
  rewrite Hs. f_equal. unfold getStandardDisplayModes.
  change STD_DISPLAY_MODES_START with (STD_DISPLAY_MODES_START + 2 * 0).
  rewrite (getStandardDisplayModes_kept _ (clamped_bytes data) 8 0 [])
    by lia.
  reflexivity.
Qed.

(** C3 (code bug): the first standard display mode slot of
    [standardModeBlock] holds [(0xD1, 0x01)]; the bytes are not both [0x01],
    so the specification decodes it as 1920 pixels, aspect code 0, 61 Hz.
    The guard [byte1 !== 0x01 && byte2 !== 0x01] skips the slot because its
    second byte is [0x01], and the decoder returns no standard display
    mode. *)
Theorem standard_mode_slot_dropped m1 m2 m3 h :
  let r := parseEdid m1 m2 m3 h standardModeBlock in
  slotBytes standardModeBlock 0 = Some (0xD1, 0x01) /\
  spec_slotUnused 0xD1 0x01 = false /\
  spec_standardDisplayMode 0xD1 0x01
  = {| xResolutionPx := Some 1920; xyPixelRatio := Some 0;
       vertFreqHz := Some 61 |} /\
  slotSkipped 0xD1 0x01 = true /\
  Base.standardDisplayModes (Edid.baseBlock r) = Some [] /\
  Edid.warnings r = [].
Proof.
  repeat split; vm_compute; reflexivity.
Qed.

(** ** Framing of the base block decoders *)
(** ** C4: HDR10 support of an HDR static metadata block *)

Lemma eotf_has_pq (byte : Z) :
  existsb (EotfLabel_eqb SMPTE_ST2084_PQ) (labelsOfBitmap byte 0 EOTF_LABELS)
  = Z.testbit byte 2.
Proof.
  unfold EOTF_LABELS. cbn [labelsOfBitmap].
  change (JS.shl 1 0) with (2 ^ 0).
  change (JS.shl 1 (0 + 1)) with (2 ^ 1).
  change (JS.shl 1 (0 + 1 + 1)) with (2 ^ 2).
  change (JS.shl 1 (0 + 1 + 1 + 1)) with (2 ^ 3).
  rewrite !band_bit_truthy by lia.
  destruct (Z.testbit byte 0), (Z.testbit byte 1), (Z.testbit byte 2),
    (Z.testbit byte 3); reflexivity.
Qed.

Lemma descriptors_have_type1 (byte : Z) :
  existsb (StaticMetaDescLabel_eqb Static_Metadata_Type_1)
    (labelsOfBitmap byte 0 STATIC_METADATA_DESCRIPTORS)
  = Z.testbit byte 0.
Proof.
  unfold STATIC_METADATA_DESCRIPTORS. cbn [labelsOfBitmap].
  change (JS.shl 1 0) with (2 ^ 0).
  rewrite !band_bit_truthy by lia.
  destruct (Z.testbit byte 0); reflexivity.
Qed.

Lemma bitSet_default (byte : option Z) (n : Z) :
  Z.testbit (default 0 byte) n = bitSet byte n.
Proof. destruct byte; simpl; [reflexivity | apply Z.bits_0]. Qed.

Lemma value_if {A : Type} (c : bool) (m1 m2 : M A) (bs : list Z) :
  value (if c then m1 else m2) bs = if c then value m1 bs else value m2 bs.
Proof. destruct c; reflexivity. Qed.

(** The [supportsHDR10] field written by the HDR static metadata decoder on
    a fresh block. *)
Lemma parseHDRStaticMetadata_supportsHDR10 bs reader start len :
  ExtTag.supportsHDR10
    (value (parseHDRStaticMetadataDataBlock reader start len
              (ExtTag.empty len)) bs)
  = if bitSet (payloadByte bs reader start len 1) 2
       && bitSet (payloadByte bs reader start len 2) 0
    then Some true else None.
Proof.
  unfold parseHDRStaticMetadataDataBlock, payloadByte.
  destruct (Z.ltb_spec len 2) as [Hlt|Hge].
  - destruct (Z.ltb_spec 1 len); [lia |]. reflexivity.
  - destruct (Z.ltb_spec 1 len); [| lia].
    rewrite value_bind by framed_auto. rewrite value_u8OrZero.
    rewrite value_bind by framed_auto.
    rewrite value_bind by framed_auto.
    rewrite value_bind by framed_auto.
    rewrite eotf_has_pq, bitSet_default.
    destruct (Z.ltb_spec 2 len) as [H2|H2].
    + rewrite value_bind by framed_auto. rewrite value_u8OrZero, value_ret.
      rewrite descriptors_have_type1, bitSet_default.
      rewrite value_if, !value_ret.
      destruct (bitSet (byteAt bs reader (start + 1)) 2
                && bitSet (byteAt bs reader (start + 2)) 0);
        [reflexivity |].

      repeat (rewrite ?value_if, ?value_ret;
              try rewrite value_bind by framed_auto).

      repeat match goal with
             | |- context [match ?x with _ => _ end] => destruct x
             end; reflexivity.
    + rewrite value_ret. cbn [existsb bitSet]. rewrite !andb_false_r.
      repeat (rewrite ?value_if, ?value_ret;
              try rewrite value_bind by framed_auto).
      repeat match goal with
             | |- context [match ?x with _ => _ end] => destruct x
             end; reflexivity.
Qed.

Lemma parseExtendedTag_hdr_static bs reader start len context :
  byteAt bs reader start
  = Some (EXTENDED_DATA_BLOCK_TYPE_value HDR_STATIC_METADATA) ->
  value (parseExtendedTagDataBlock reader start len context) bs
  = value (parseHDRStaticMetadataDataBlock reader start len
             (ExtTag.empty len)) bs.
Proof.
  intros Htag. unfold parseExtendedTagDataBlock.
  rewrite value_bind by framed_auto.
  rewrite value_u8OrZero, Z.add_0_r, Htag. reflexivity.
Qed.

(** C4: an extended-tag data block whose tag byte is the HDR static
    metadata code decodes with [supportsHDR10] true exactly when bit 2 of
    payload byte 1 (the "SMPTE ST2084 (PQ)" bit of the EOTF bitmap) and bit 0
    of payload byte 2 (the "Static Metadata Type 1" bit of the descriptor
    bitmap) are both set; a payload byte beyond the declared length or the
    input has no bit set.  Otherwise the field is left unset, never false. *)
Theorem hdr10_iff_pq_and_type1 bs reader start len context :
  byteAt bs reader start
  = Some (EXTENDED_DATA_BLOCK_TYPE_value HDR_STATIC_METADATA) ->
  let block := value (parseExtendedTagDataBlock reader start len context) bs in
  ExtTag.extendedTag block = Some (KnownExtendedTag HDR_STATIC_METADATA) /\
  (ExtTag.supportsHDR10 block = Some true <->
   bitSet (payloadByte bs reader start len 1) 2 = true /\
   bitSet (payloadByte bs reader start len 2) 0 = true) /\
  (ExtTag.supportsHDR10 block <> Some true ->
   ExtTag.supportsHDR10 block = None).
Proof.
  intros Htag block. subst block.
  rewrite (parseExtendedTag_hdr_static _ _ _ _ _ Htag).
  split; [| rewrite parseHDRStaticMetadata_supportsHDR10; split].
  - unfold parseHDRStaticMetadataDataBlock.
    destruct (len <? 2); [reflexivity |].
    repeat (rewrite ?value_if, ?value_ret;
            try rewrite value_bind by framed_auto).
    repeat match goal with
           | |- context [match ?x with _ => _ end] => destruct x
           | |- context [if ?x then _ else _] => destruct x
           end; reflexivity.
  - rewrite <- andb_true_iff.
    destruct (_ && _); split; congruence.
  - destruct (_ && _); congruence.
Qed.

(** The specification's two payloads: [hdrPayloadPq] (PQ and HLG EOTFs,
    Type 1 descriptor) decodes with [supportsHDR10] true; [hdrPayloadHlg]
    (HLG only) does not, and the feature summary of an EDID carrying it
    reports no HDR10 support. *)
Lemma hdr10_examples :
  ExtTag.supportsHDR10
    (value (parseExtendedTagDataBlock (createBlockReader 0 0) 0 6
              (mkExtensionParseContext None)) hdrPayloadPq) = Some true /\
  ExtTag.supportsHDR10
    (value (parseExtendedTagDataBlock (createBlockReader 0 0) 0 3
              (mkExtensionParseContext None)) hdrPayloadHlg) = None /\
  FS.supportsHDR10
    (Edid.featureSupport
       (parseEdid noVendorMap noVendorMap noVendorMap hypotApprox
          (edidWithCtaBlocks ([0xE6] ++ hdrPayloadPq)))) = true /\
  FS.supportsHDR10
    (Edid.featureSupport
       (parseEdid noVendorMap noVendorMap noVendorMap hypotApprox
          (edidWithCtaBlocks ([0xE3] ++ hdrPayloadHlg)))) = false.
Proof.
  split; [| split; [| split; vm_compute; reflexivity]].
  - apply (hdr10_iff_pq_and_type1 hdrPayloadPq (createBlockReader 0 0) 0 6
             (mkExtensionParseContext None));
      [reflexivity | split; reflexivity].
  - apply (hdr10_iff_pq_and_type1 hdrPayloadHlg (createBlockReader 0 0) 0 3
             (mkExtensionParseContext None)); [reflexivity |].
    intros H.
    apply (hdr10_iff_pq_and_type1 hdrPayloadHlg (createBlockReader 0 0) 0 3
             (mkExtensionParseContext None)) in H; [| reflexivity].
    destruct H as [H _]. vm_compute in H. discriminate.
Defined.

(** ** Framing of the base block decoders *)
(** ** C5 and C10: refresh-rate ranges *)

Lemma fold_min_le (l : list Z) : forall a, fold_left Z.min l a <= a.
Proof.
  induction l as [|x l IH]; intros a; simpl; [lia |].
  specialize (IH (Z.min a x)). lia.
Qed.

Lemma fold_min_lower (l : list Z) :
  forall a, Forall (fun r => fold_left Z.min l a <= r) l.
Proof.
  induction l as [|x l IH]; intros a; simpl; constructor.
  - pose proof (fold_min_le l (Z.min a x)). lia.
  - apply IH.
Qed.

Lemma fold_min_app (l : list Z) (x : Z) :
  forall a, fold_left Z.min (l ++ [x]) a = Z.min (fold_left Z.min l a) x.
Proof. intros a. rewrite fold_left_app. reflexivity. Qed.

Lemma fold_min_bound (l : list Z) (v : Z) :
  forall a, v < a -> Forall (fun r => v < r) l -> v < fold_left Z.min l a.
Proof.
  induction l as [|x l IH]; intros a Ha Hl; simpl; [exact Ha |].
  inversion Hl; subst. apply IH; [lia | assumption].
Qed.

Lemma fold_max_ge (l : list Z) : forall a, a <= fold_left Z.max l a.
Proof.
  induction l as [|x l IH]; intros a; simpl; [lia |].
  specialize (IH (Z.max a x)). lia.
Qed.

Lemma fold_max_upper (l : list Z) :
  forall a, Forall (fun r => r <= fold_left Z.max l a) l.
Proof.
  induction l as [|x l IH]; intros a; simpl; constructor.
  - pose proof (fold_max_ge l (Z.max a x)). lia.
  - apply IH.
Qed.

Lemma fold_max_bound (l : list Z) (v : Z) :
  forall a, a < v -> Forall (fun r => r < v) l -> fold_left Z.max l a < v.
Proof.
  induction l as [|x l IH]; intros a Ha Hl; simpl; [exact Ha |].
  inversion Hl; subst. apply IH; [lia | assumption].
Qed.

Lemma fold_max_pos (l : list Z) :
  l <> [] -> Forall (fun r => 0 < r) l -> 0 < fold_left Z.max l 0.
Proof.
  destruct l as [|x l]; [congruence |]. intros _ Hl. inversion Hl; subst.
  simpl. pose proof (fold_max_ge l (Z.max 0 x)). lia.
Qed.

Lemma minimum_snoc (l : list Z) (x : Z) :
  minimum (l ++ [x])
  = Some match minimum l with Some m => Z.min m x | None => x end.
Proof.
  destruct l as [|y l]; simpl; [reflexivity |].
  rewrite fold_min_app. reflexivity.
Qed.

Lemma maximum_snoc (l : list Z) (x : Z) :
  maximum (l ++ [x])
  = Some match maximum l with Some m => Z.max m x | None => x end.
Proof.
  destruct l as [|y l]; simpl; [reflexivity |].
  rewrite fold_left_app. reflexivity.
Qed.

Lemma minimum_spec (l : list Z) (m : Z) :
  minimum l = Some m -> In m l /\ Forall (fun r => m <= r) l.
Proof.
  destruct l as [|x l]; simpl; [discriminate |].
  intros [= <-]. split.
  - clear. revert x. induction l as [|y l IH]; intros x; [left; reflexivity |].
    cbn [fold_left]. destruct (IH (Z.min x y)) as [H|H].
    + destruct (Z.min_spec x y) as [[_ E]|[_ E]];
        first [left; congruence | right; left; congruence].
    + right; right; exact H.
  - constructor; [apply fold_min_le | apply fold_min_lower].
Qed.

Lemma maximum_spec (l : list Z) (m : Z) :
  maximum l = Some m -> In m l /\ Forall (fun r => r <= m) l.
Proof.
  destruct l as [|x l]; simpl; [discriminate |].
  intros [= <-]. split.
  - clear. revert x. induction l as [|y l IH]; intros x; [left; reflexivity |].
    cbn [fold_left]. destruct (IH (Z.max x y)) as [H|H].
    + destruct (Z.max_spec x y) as [[_ E]|[_ E]];
        first [left; congruence | right; left; congruence].
    + right; right; exact H.
  - constructor; [apply fold_max_ge | apply fold_max_upper].
Qed.

Lemma minimum_None (l : list Z) : minimum l = None -> l = [].
Proof. destruct l; [reflexivity | discriminate]. Qed.

Lemma maximum_None (l : list Z) : maximum l = None -> l = [].
Proof. destruct l; [reflexivity | discriminate]. Qed.

(** *** The accumulators track the extremes *)

Lemma round_inject_Z (z : Z) : JS.Math_round (inject_Z z) = z.
Proof.
  unfold JS.Math_round, Qfloor, Qplus, inject_Z. simpl.
  rewrite Z.mul_1_r. symmetry. apply (Z.div_unique _ _ _ 1); lia.
Qed.

Lemma tracks_keeps (f : Acc.FeatureState -> Acc.FeatureState)
    rates vmins vmaxs s :
  (forall s, rateFields (f s) = rateFields s) ->
  tracksRates rates vmins vmaxs s -> tracksRates rates vmins vmaxs (f s).
Proof. intros Hf [Hr Hp]. split; [rewrite Hf; exact Hr | exact Hp]. Qed.

Lemma tracks_when (c : bool) (f : Acc.FeatureState -> Acc.FeatureState)
    rates vmins vmaxs s :
  (forall s, rateFields (f s) = rateFields s) ->
  tracksRates rates vmins vmaxs s ->
  tracksRates rates vmins vmaxs (when c f s).
Proof.
  intros Hf H. unfold when. destruct c; [apply tracks_keeps |]; assumption.
Qed.

Lemma tracks_addSrrRate rateHz rates vmins vmaxs s :
  tracksRates rates vmins vmaxs s ->
  tracksRates (rates ++ acceptedRate rateHz) vmins vmaxs (addSrrRate rateHz s).
Proof.
  intros H. unfold addSrrRate, acceptedRate.
  destruct rateHz as [q|]; [| rewrite app_nil_r; exact H].
  destruct (JS.Qpos q); simpl; [| rewrite app_nil_r; exact H].
  destruct (Z.leb_spec (JS.Math_round q) 0) as [Hle|Hgt].
  - destruct (Z.ltb_spec 0 (JS.Math_round q)); [lia |].
    rewrite app_nil_r. exact H.
  - destruct (Z.ltb_spec 0 (JS.Math_round q)); [| lia].
    destruct H as (Hr & Hp & Hmin & Hmax).
    split; [| repeat split; try assumption;
              apply Forall_app; split; [assumption | repeat constructor; lia]].
    destruct s as [g d h1 h2 h3 h4 h5 h6 vmin vmax hv dv smin smax].
    unfold rateFields in *. cbn in Hr. injection Hr as -> -> -> ->.
    rewrite minimum_snoc, fold_left_app. cbn [fold_left].
    remember (JS.Math_round q) as r eqn:Er. clear Er.
    cbn [Acc.minSrrHz Acc.maxSrrHz].
    destruct (minimum rates) as [m|] eqn:Hm; cbn [JS.ext_ltb].
    + destruct (Z.ltb_spec r m); cbn;
        destruct (Z.ltb_spec (fold_left Z.max rates 0) r); cbn;
        repeat f_equal; lia.
    + cbn. destruct (Z.ltb_spec (fold_left Z.max rates 0) r); cbn;
        repeat f_equal; lia.
Qed.

Lemma tracks_addVrrMin rateHz rates vmins vmaxs s :
  tracksRates rates vmins vmaxs s ->
  tracksRates rates (vmins ++ acceptedVrrRate rateHz) vmaxs
    (addVrrMin rateHz s).
Proof.
  intros H. unfold addVrrMin, acceptedVrrRate.
  destruct rateHz as [z|]; [| rewrite app_nil_r; exact H].
  rewrite round_inject_Z.
  destruct (Z.leb_spec z 0) as [Hle|Hgt].
  - destruct (Z.ltb_spec 0 z); [lia |]. rewrite app_nil_r. exact H.
  - destruct (Z.ltb_spec 0 z); [| lia].
    destruct H as (Hr & Hp & Hmin & Hmax).
    split; [| repeat split; try assumption;
              apply Forall_app; split; [assumption | repeat constructor; lia]].
    destruct s as [g d h1 h2 h3 h4 h5 h6 vmin vmax hv dv smin smax].
    unfold rateFields in *. cbn in Hr. injection Hr as -> -> -> ->.
    rewrite minimum_snoc. reflexivity.
Qed.

Lemma tracks_addVrrMax rateHz rates vmins vmaxs s :
  tracksRates rates vmins vmaxs s ->
  tracksRates rates vmins (vmaxs ++ acceptedVrrRate rateHz)
    (addVrrMax rateHz s).
Proof.
  intros H. unfold addVrrMax, acceptedVrrRate.
  destruct rateHz as [z|]; [| rewrite app_nil_r; exact H].
  rewrite round_inject_Z.
  destruct (Z.leb_spec z 0) as [Hle|Hgt].
  - destruct (Z.ltb_spec 0 z); [lia |]. rewrite app_nil_r. exact H.
  - destruct (Z.ltb_spec 0 z); [| lia].
    destruct H as (Hr & Hp & Hmin & Hmax).
    split; [| repeat split; try assumption;
              apply Forall_app; split; [assumption | repeat constructor; lia]].
    destruct s as [g d h1 h2 h3 h4 h5 h6 vmin vmax hv dv smin smax].
    unfold rateFields in *. cbn in Hr. injection Hr as -> -> -> ->.
    rewrite maximum_snoc. reflexivity.
Qed.

Lemma keeps_addHdmiVersion version s :
  rateFields (addHdmiVersion version s) = rateFields s.
Proof. reflexivity. Qed.

Lemma keeps_addDisplayIdVersion version s :
  rateFields (addDisplayIdVersion version s) = rateFields s.
Proof. reflexivity. Qed.

Ltac tracks_whens :=
  repeat (apply tracks_when; [intros; reflexivity |]).

Lemma tracks_addVendorBlock block rates vmins vmaxs s :
  tracksRates rates vmins vmaxs s ->
  tracksRates rates
    (vmins ++ acceptedVrrRate (Vendor.vrrMinHz block))
    (vmaxs ++ acceptedVrrRate (Vendor.vrrMaxHz block))
    (addVendorBlock block s).
Proof.
  intros H. unfold addVendorBlock.
  apply tracks_addVrrMax, tracks_addVrrMin. tracks_whens.
  repeat match goal with
         | |- context [if ?c then _ else _] => destruct c
         end;
    try (apply (tracks_keeps (addHdmiVersion _)); [intros; reflexivity |]);
    exact H.
Qed.

Lemma tracks_addExtendedTagBlock block rates vmins vmaxs s :
  tracksRates rates vmins vmaxs s ->
  tracksRates rates
    (vmins ++ acceptedVrrRate (ExtTag.vrrMinHz block))
    (vmaxs ++ acceptedVrrRate (ExtTag.vrrMaxHz block))
    (addExtendedTagBlock block s).
Proof.
  intros H. unfold addExtendedTagBlock.
  apply tracks_addVrrMax, tracks_addVrrMin. tracks_whens.
  repeat match goal with
         | |- context [if ?c then _ else _] => destruct c
         end;
    try (apply (tracks_keeps (addHdmiVersion _)); [intros; reflexivity |]);
    exact H.
Qed.

Lemma tracks_addDataBlock block rates vmins vmaxs s :
  tracksRates rates vmins vmaxs s ->
  tracksRates rates
    (vmins ++ acceptedVrrRate (blockVrrMinHz block))
    (vmaxs ++ acceptedVrrRate (blockVrrMaxHz block))
    (addDataBlock s block).
Proof.
  intros H. unfold addDataBlock, blockVrrMinHz, blockVrrMaxHz.
  destruct block as [[ | a | v | b | sp | e]|]; cbn;
    rewrite ?app_nil_r; try exact H.
  - apply tracks_addVendorBlock. exact H.
  - apply tracks_addExtendedTagBlock. exact H.
Qed.

Lemma tracks_dataBlocks blocks :
  forall rates vmins vmaxs s,
    tracksRates rates vmins vmaxs s ->
    tracksRates rates
      (vmins ++ flat_map (fun b => acceptedVrrRate (blockVrrMinHz b)) blocks)
      (vmaxs ++ flat_map (fun b => acceptedVrrRate (blockVrrMaxHz b)) blocks)
      (fold_left addDataBlock blocks s).
Proof.
  induction blocks as [|b blocks IH]; intros rates vmins vmaxs s H; simpl.
  - rewrite !app_nil_r. exact H.
  - rewrite !app_assoc. apply IH. apply tracks_addDataBlock. exact H.
Qed.

Lemma tracks_dtds (dtds : list Dtd) :
  forall rates vmins vmaxs s,
    tracksRates rates vmins vmaxs s ->
    tracksRates
      (rates ++ flat_map (fun dtd => acceptedRate (getDtdRefreshRateHz dtd))
                  dtds)
      vmins vmaxs
      (fold_left (fun s dtd => addSrrRate (getDtdRefreshRateHz dtd) s) dtds s).
Proof.
  induction dtds as [|d dtds IH]; intros rates vmins vmaxs s H; simpl.
  - rewrite app_nil_r. exact H.
  - rewrite app_assoc. apply IH. apply tracks_addSrrRate. exact H.
Qed.

Lemma tracks_addExtension ext rates vmins vmaxs s :
  tracksRates rates vmins vmaxs s ->
  tracksRates
    (rates ++ flat_map (fun dtd => acceptedRate (getDtdRefreshRateHz dtd))
                (Extension.dtds ext))
    (vmins ++ flat_map (fun b => acceptedVrrRate (blockVrrMinHz b))
                (default [] (Extension.dataBlockCollection ext)))
    (vmaxs ++ flat_map (fun b => acceptedVrrRate (blockVrrMaxHz b))
                (default [] (Extension.dataBlockCollection ext)))
    (addExtension s ext).
Proof.
  intros H. unfold addExtension.
  assert (H1 : tracksRates rates vmins vmaxs
                 (if Extension.extTagByte ext =? DISPLAYID_EXTENSION_TAG
                  then match parseDisplayIdVersionFromRevision
                               (Extension.revisionNumber ext) with
                       | Some version => addDisplayIdVersion version s
                       | None => s
                       end
                  else s)).
  { destruct (_ =? _); [| exact H].
    destruct (parseDisplayIdVersionFromRevision _); [| exact H].
    apply (tracks_keeps (addDisplayIdVersion _)); [intros; reflexivity |].
    exact H. }
  apply (tracks_dtds (Extension.dtds ext)) in H1.
  destruct (Extension.dataBlockCollection ext) as [blocks|]; simpl.
  - apply tracks_dataBlocks. exact H1.
  - rewrite !app_nil_r. exact H1.
Qed.

Lemma tracks_extensions extensions :
  forall rates vmins vmaxs s,
    tracksRates rates vmins vmaxs s ->
    tracksRates
      (rates ++ flat_map
                  (fun ext =>
                     flat_map (fun dtd => acceptedRate (getDtdRefreshRateHz dtd))
                       (Extension.dtds ext)) extensions)
      (vmins ++ vrrMinRates extensions)
      (vmaxs ++ vrrMaxRates extensions)
      (fold_left addExtension extensions s).
Proof.
  unfold vrrMinRates, vrrMaxRates, dataBlocksOf.
  induction extensions as [|ext exts IH]; intros rates vmins vmaxs s H; simpl.
  - rewrite !app_nil_r. exact H.
  - rewrite !flat_map_app, !app_assoc. apply IH.
    apply tracks_addExtension. exact H.
Qed.

Lemma tracks_modes (modes : list StandardDisplayMode) :
  forall rates vmins vmaxs s,
    tracksRates rates vmins vmaxs s ->
    tracksRates
      (rates ++ flat_map (fun mode => acceptedRate (inject_Z <$> vertFreqHz mode))
                  modes)
      vmins vmaxs
      (fold_left (fun s mode => addSrrRate (inject_Z <$> vertFreqHz mode) s)
         modes s).
Proof.
  induction modes as [|d modes IH]; intros rates vmins vmaxs s H; simpl.
  - rewrite app_nil_r. exact H.
  - rewrite app_assoc. apply IH. apply tracks_addSrrRate. exact H.
Qed.

(** The accumulators before the final reconciliation of
    [buildFeatureSupport]. *)
Lemma buildFeatureSupport_tracks baseBlock extensions bdp native :
  exists s,
    tracksRates (staticRates baseBlock extensions native)
      (vrrMinRates extensions) (vrrMaxRates extensions) s /\
    let fs := buildFeatureSupport baseBlock extensions bdp native in
    FS.minSrrHz fs = Acc.minSrrHz (finalizeRefreshRates s) /\
    FS.maxSrrHz fs = Acc.maxSrrHz (finalizeRefreshRates s) /\
    FS.minVrrHz fs = Acc.minVrrHz (finalizeRefreshRates s) /\
    FS.maxVrrHz fs = Acc.maxVrrHz (finalizeRefreshRates s) /\
    FS.supportsVRR fs = Acc.supportsVRR (finalizeRefreshRates s).
Proof.
  unfold buildFeatureSupport. cbv zeta.
  eexists. split; [| cbn [FS.minSrrHz FS.maxSrrHz FS.minVrrHz FS.maxVrrHz
                          FS.supportsVRR]; repeat split; reflexivity].
  unfold staticRates. rewrite !app_assoc.
  change (vrrMinRates extensions) with ([] ++ vrrMinRates extensions).
  change (vrrMaxRates extensions) with ([] ++ vrrMaxRates extensions).
  apply tracks_extensions, tracks_dtds, tracks_modes.
  match goal with
  | |- tracksRates (acceptedRate ?r) _ _ _ =>
      change (acceptedRate r) with ([] ++ acceptedRate r)
  end.
  apply tracks_addSrrRate.
  split; [reflexivity | repeat split; constructor].
Qed.

Lemma minimum_pos l m : Forall (fun r => 0 < r) l -> minimum l = Some m -> 0 < m.
Proof.
  intros Hl Hm. apply minimum_spec in Hm as [Hin _].
  exact (proj1 (List.Forall_forall _ _) Hl _ Hin).
Qed.

Lemma maximum_pos l m : Forall (fun r => 0 < r) l -> maximum l = Some m -> 0 < m.
Proof.
  intros Hl Hm. apply maximum_spec in Hm as [Hin _].
  exact (proj1 (List.Forall_forall _ _) Hl _ Hin).
Qed.

Lemma minimum_le_fold_max l m :
  minimum l = Some m -> m <= fold_left Z.max l 0.
Proof.
  intros Hm. apply minimum_spec in Hm as [Hin _].
  pose proof (fold_max_upper l 0) as Hu.
  exact (proj1 (List.Forall_forall _ _) Hu _ Hin).
Qed.

Lemma finalize_rates rates vmins vmaxs s :
  tracksRates rates vmins vmaxs s ->
  let s' := finalizeRefreshRates s in
  Acc.minVrrHz s' = minimum vmins /\
  Acc.maxVrrHz s' = maximum vmaxs /\
  (minimum vmins <> None \/ maximum vmaxs <> None ->
   Acc.supportsVRR s' = true) /\
  exists a b,
    Acc.minSrrHz s' = JS.Fin a /\ Acc.maxSrrHz s' = JS.Fin b /\
    0 <= a <= b /\
    (rates = [] -> vmins = [] -> vmaxs = [] -> a = 0 /\ b = 0) /\
    (forall v, minimum vmins = Some v ->
       a <= v /\ (Forall (fun r => v < r) rates -> a = v)) /\
    (forall v, maximum vmaxs = Some v ->
       v <= b /\
       (Forall (fun r => r < v) rates ->
        b = match rates, minimum vmins with
            | [], Some m => Z.max m v
            | _, _ => v
            end)).
Proof.
  intros (Hr & Hp & Hpmin & Hpmax).
  destruct s as [g d h1 h2 h3 h4 h5 h6 vmin vmax hv dv smin smax].
  unfold rateFields in Hr. cbn in Hr. injection Hr as -> -> -> ->.
  pose proof (fold_max_ge rates 0) as HM0.
  set (M := fold_left Z.max rates 0) in *.
  assert (HMe : rates = [] -> M = 0) by (intros ->; reflexivity).
  assert (Hlo : forall v, 0 < v -> Forall (fun r => v < r) rates ->
                  match minimum rates with Some m => v < m | None => True end).
  { intros v Hv Hall. destruct (minimum rates) as [m|] eqn:Hm; [| exact I].
    apply minimum_spec in Hm as [Hin _].
    exact (proj1 (List.Forall_forall _ _) Hall _ Hin). }
  assert (Hhi : forall v, 0 < v -> Forall (fun r => r < v) rates -> M < v).
  { intros v Hv Hall. apply fold_max_bound; assumption. }
  assert (Hne : forall m, minimum rates = Some m ->
                  0 < m /\ m <= M /\ rates <> []).
  { intros m Hm. split; [exact (minimum_pos _ _ Hp Hm) |].
    split; [exact (minimum_le_fold_max _ _ Hm) |].
    intros ->. discriminate. }
  assert (Hemp : minimum rates = None -> rates = []) by apply minimum_None.
  assert (Hv1 : forall v, minimum vmins = Some v -> 0 < v /\ vmins <> []).
  { intros v Hv. split; [exact (minimum_pos _ _ Hpmin Hv) |].
    intros ->. discriminate. }
  assert (Hv2 : forall v, maximum vmaxs = Some v -> 0 < v /\ vmaxs <> []).
  { intros v Hv. split; [exact (maximum_pos _ _ Hpmax Hv) |].
    intros ->. discriminate. }
  clearbody M. clear Hp Hpmin Hpmax.
  destruct (minimum rates) as [m0|];
    [destruct (Hne m0 eq_refl) as (? & ? & ?)
     | specialize (Hemp eq_refl); specialize (HMe Hemp)];
    (destruct (minimum vmins) as [v1|];
       [destruct (Hv1 v1 eq_refl) as (? & ?) |]);
    (destruct (maximum vmaxs) as [v2|];
       [destruct (Hv2 v2 eq_refl) as (? & ?) |]);
    unfold finalizeRefreshRates; cbn;
    repeat (match goal with
            | |- context [?a <? ?b] => destruct (Z.ltb_spec a b)
            | |- context [?a =? ?b] => destruct (Z.eqb_spec a b)
            end; cbn; try (exfalso; lia)).
  all: destruct h4; cbn.
  all: split; [reflexivity |]; split; [reflexivity |].
  all: split; [first [reflexivity | intros [?|?]; congruence] |].
  all: eexists _, _; split; [reflexivity |]; split; [reflexivity |].
  all: split; [lia |].
  all: split; [intros; first [congruence | split; lia | idtac] |].
  all: split; intros v [= <-] || (intros v ?; discriminate) || idtac.
  all: split; [lia | intros Hall].
  all: try match type of Hall with
           | Forall (fun r => r < ?v) _ =>
               assert (M < v) by (apply Hhi; [lia | exact Hall])
           | Forall (fun r => ?v < r) _ =>
               assert (v < m0) by (apply Hlo; [lia | exact Hall])
           end.
  all: try subst rates; try (destruct rates; [congruence |]); cbn; lia.
Qed.

Lemma buildFeatureSupport_srr baseBlock extensions bdp native :
  let fs := buildFeatureSupport baseBlock extensions bdp native in
  exists a b : Z,
    FS.minSrrHz fs = JS.Fin a /\ FS.maxSrrHz fs = JS.Fin b /\
    0 <= a <= b /\
    (staticRates baseBlock extensions native = [] ->
     vrrMinRates extensions = [] -> vrrMaxRates extensions = [] ->
     a = 0 /\ b = 0).
Proof.
  destruct (buildFeatureSupport_tracks baseBlock extensions bdp native)
    as (s & Ht & Hmin & Hmax & _).
  destruct (finalize_rates _ _ _ _ Ht) as (_ & _ & _ & a & b & Ha & Hb & Hab
                                           & Hzero & _).
  exists a, b. cbv zeta. rewrite Hmin, Hmax. auto.
Qed.

Lemma buildFeatureSupport_vrr baseBlock extensions bdp native :
  let fs := buildFeatureSupport baseBlock extensions bdp native in
  FS.minVrrHz fs = minimum (vrrMinRates extensions) /\
  FS.maxVrrHz fs = maximum (vrrMaxRates extensions) /\
  (FS.minVrrHz fs <> None \/ FS.maxVrrHz fs <> None ->
   FS.supportsVRR fs = true) /\
  vrrWidening (staticRates baseBlock extensions native) fs.
Proof.
  destruct (buildFeatureSupport_tracks baseBlock extensions bdp native)
    as (s & Ht & Hmin & Hmax & Hvmin & Hvmax & Hs).
  destruct (finalize_rates _ _ _ _ Ht)
    as (Hv1 & Hv2 & Hvrr & a & b & Ha & Hb & Hab & _ & Hlo & Hhi).
  cbv zeta. unfold vrrWidening.
  rewrite Hmin, Hmax, Hvmin, Hvmax, Hs, Hv1, Hv2, Ha, Hb.
  split; [reflexivity |]. split; [reflexivity |].
  split; [exact Hvrr |]. split.
  - intros v Hv. exists a. split; [reflexivity |]. apply Hlo, Hv.
  - intros v Hv. exists b. split; [reflexivity |]. apply Hhi, Hv.
Qed.

Lemma parseEdid_featureSupport m1 m2 m3 h data :
  let r := parseEdid m1 m2 m3 h data in
  Edid.featureSupport r =
  buildFeatureSupport (Edid.baseBlock r) (Edid.extensions r)
    (Edid.basicDisplayParams r) (Edid.nativeResolution r).
Proof. apply parseEdid_shape. Qed.

(** C10: for every input, the reported static range is a pair of finite,
    non-negative integers with [minSrrHz <= maxSrrHz]; when the decoded
    blocks give no static rate (no native resolution, standard mode or
    detailed timing rate) and no VRR bound, both are 0. *)
Theorem srr_range_well_formed m1 m2 m3 h (data : list Z) :
  let r := parseEdid m1 m2 m3 h data in
  let fs := Edid.featureSupport r in
  exists a b : Z,
    FS.minSrrHz fs = JS.Fin a /\ FS.maxSrrHz fs = JS.Fin b /\
    0 <= a <= b /\
    (staticRates (Edid.baseBlock r) (Edid.extensions r)
       (Edid.nativeResolution r) = [] ->
     vrrMinRates (Edid.extensions r) = [] ->
     vrrMaxRates (Edid.extensions r) = [] ->
     a = 0 /\ b = 0).
Proof.
  cbv zeta. rewrite parseEdid_featureSupport.
  apply buildFeatureSupport_srr.
Qed.

(** C5 (amended): for every input, the VRR bounds are reported as the
    extremes of the bounds the data blocks announce, [supportsVRR] is set as
    soon as one exists, and the static range is widened to contain them in
    the sense of [vrrWidening]: [maxSrrHz] is [maxVrrHz] when that exceeds
    every static rate, except that without any static rate a [minVrrHz]
    above [maxVrrHz] is reported as [maxSrrHz]. *)
Theorem vrr_range_folded m1 m2 m3 h (data : list Z) :
  let r := parseEdid m1 m2 m3 h data in
  let fs := Edid.featureSupport r in
  FS.minVrrHz fs = minimum (vrrMinRates (Edid.extensions r)) /\
  FS.maxVrrHz fs = maximum (vrrMaxRates (Edid.extensions r)) /\
  (FS.minVrrHz fs <> None \/ FS.maxVrrHz fs <> None ->
   FS.supportsVRR fs = true) /\
  vrrWidening
    (staticRates (Edid.baseBlock r) (Edid.extensions r)
       (Edid.nativeResolution r)) fs.
Proof.
  cbv zeta. rewrite parseEdid_featureSupport.
  apply buildFeatureSupport_vrr.
Qed.

(** C5 (counterexample): the EDID [edidWithCtaBlocks vrrInvertedBlock] has
    no static rate and announces a VRR minimum of 60 Hz and a VRR maximum of
    48 Hz; [maxVrrHz] exceeds every static rate, yet [maxSrrHz] is 60, not
    48. *)
Lemma vrr_inverted_range :
  let r := parseEdid noVendorMap noVendorMap noVendorMap hypotApprox
             (edidWithCtaBlocks vrrInvertedBlock) in
  let fs := Edid.featureSupport r in
  let rates := staticRates (Edid.baseBlock r) (Edid.extensions r)
                 (Edid.nativeResolution r) in
  rates = [] /\
  FS.minVrrHz fs = Some 60 /\ FS.maxVrrHz fs = Some 48 /\
  FS.minSrrHz fs = JS.Fin 60 /\ FS.maxSrrHz fs = JS.Fin 60 /\
  ~ spec_vrrWidening rates fs.
Proof.
  cbv zeta.
  repeat (split; [vm_compute; reflexivity |]).
  intros [_ H]. specialize (H 48).
  assert (Hmax : JS.Fin 60 = JS.Fin 48);
    [| discriminate Hmax].
  rewrite <- H.
  - vm_compute. reflexivity.
  - vm_compute. reflexivity.
  - assert (Hr : staticRates
                   (Edid.baseBlock
                      (parseEdid noVendorMap noVendorMap noVendorMap
                         hypotApprox (edidWithCtaBlocks vrrInvertedBlock)))
                   (Edid.extensions
                      (parseEdid noVendorMap noVendorMap noVendorMap
                         hypotApprox (edidWithCtaBlocks vrrInvertedBlock)))
                   (Edid.nativeResolution
                      (parseEdid noVendorMap noVendorMap noVendorMap
                         hypotApprox (edidWithCtaBlocks vrrInvertedBlock)))
                 = []) by (vm_compute; reflexivity).
    rewrite Hr. constructor.
Qed.

(** ** Framing of the base block decoders *)
(** ** C1: every input decodes, and anomalies become warnings *)

Lemma value_forLoop_S {S : Type} (n : nat) (i : Z)
    (body : Z -> S -> M (Ctl S)) (s : S) (bs : list Z) :
  (forall i s, framed (body i s)) ->
  value (forLoop (Datatypes.S n) i body s) bs =
  match value (body i s) bs with
  | Continue s' => value (forLoop n (i + 1) body s') bs
  | Break s' => s'
  end.
Proof.
  intros Hb. cbn [forLoop]. rewrite value_bind.
  - destruct (value (body i s) bs); reflexivity.
  - apply Hb.
  - destruct (value (body i s) bs);
      [apply framed_forLoop; exact Hb | apply framed_ret].
Qed.

(** A property of the loop state kept by every iteration from index [lo]
    on holds of the state the loop ends with. *)
Lemma forLoop_invariant {S : Type} (J : S -> Prop) (lo : Z)
    (body : Z -> S -> M (Ctl S)) (bs : list Z) :
  (forall i s, framed (body i s)) ->
  (forall i s, lo <= i -> J s ->
     match value (body i s) bs with Continue s' | Break s' => J s' end) ->
  forall n i s, lo <= i -> J s -> J (value (forLoop n i body s) bs).
Proof.
  intros Hb Hstep. induction n as [|n IH]; intros i s Hi Hs.
  - exact Hs.
  - rewrite value_forLoop_S by exact Hb.
    specialize (Hstep i s Hi Hs).
    destruct (value (body i s) bs) as [s'|s'];
      [apply IH; [lia |] |]; exact Hstep.
Qed.

Ltac value_steps :=
  repeat first
    [ rewrite value_bind by framed_auto
    | rewrite value_ret
    | match goal with
      | |- context [let (_, _) := ?x in _] => destruct x
      end ].

Lemma parseUnknownExtension_blockNumber reader extIndex bs :
  Extension.blockNumber (value (parseUnknownExtension reader extIndex) bs)
  = extIndex + 1.
Proof. unfold parseUnknownExtension. value_steps. reflexivity. Qed.

Lemma parseUnknownExtension_type reader extIndex bs :
  Extension.extensionType (value (parseUnknownExtension reader extIndex) bs)
  = Some unknown.
Proof. unfold parseUnknownExtension. value_steps. reflexivity. Qed.

Lemma parseDisplayIdExtension_blockNumber reader extIndex bs :
  Extension.blockNumber (value (parseDisplayIdExtension reader extIndex) bs)
  = extIndex + 1.
Proof. unfold parseDisplayIdExtension. value_steps. reflexivity. Qed.

Lemma parseCtaExtension_blockNumber h reader extIndex context bs :
  Extension.blockNumber
    (fst (value (parseCtaExtension h reader extIndex context) bs))
  = extIndex + 1.
Proof. unfold parseCtaExtension. value_steps. reflexivity. Qed.

Lemma parseExtensions_blockNumbers h count context bs :
  Forall (fun ext => 1 <= Extension.blockNumber ext)
    (value (parseExtensions h count context) bs).
Proof.
  assert (Hf : forall i st,
             framed (parseExtensions_step (decodeCtaExtension h)
                       decodeDisplayIdExtension i st)).
  { intros. apply framed_parseExtensions_step;
      [apply framed_decodeCtaExtension | apply framed_decodeDisplayIdExtension]. }
  unfold parseExtensions, parseExtensionsWith.
  rewrite value_bind;
    [| apply framed_forLoop; exact Hf | apply framed_ret].
  rewrite value_ret.
  apply (forLoop_invariant
           (fun st => Forall (fun ext => 1 <= Extension.blockNumber ext)
                        (fst st)) 0);
    [exact Hf | | lia | constructor].
  intros i [extensions ctx] Hi Hs. cbn [fst] in Hs.
  unfold parseExtensions_step.
  rewrite value_bind by framed_auto. rewrite value_u8.
  destruct (byteAt bs _ 0) as [extTag|]; [| exact Hs].
  rewrite value_bind by framed_auto.
  destruct (extTag =? CTA_EXTENSION_TAG);
    [| destruct (extTag =? DISPLAYID_EXTENSION_TAG)].
  - unfold decodeCtaExtension. rewrite value_bind by framed_auto.
    rewrite !value_ret. cbn [fst].
    apply Forall_app. split; [exact Hs |]. repeat constructor.
    rewrite parseCtaExtension_blockNumber. lia.
  - unfold decodeDisplayIdExtension. rewrite value_bind by framed_auto.
    rewrite !value_ret. cbn [fst].
    apply Forall_app. split; [exact Hs |]. repeat constructor.
    rewrite parseDisplayIdExtension_blockNumber. lia.
  - rewrite value_bind by framed_auto.
    rewrite !value_ret. cbn [fst].
    apply Forall_app. split; [exact Hs |]. repeat constructor.
    rewrite parseUnknownExtension_blockNumber. lia.
Qed.

Lemma hasWarning_app c l1 l2 :
  hasWarning c (l1 ++ l2) <-> hasWarning c l1 \/ hasWarning c l2.
Proof. apply Exists_app. Qed.

Lemma hasWarning_warningIf c b w :
  hasWarning c (warningIf b w) <-> b = true /\ code w = c.
Proof.
  unfold hasWarning, warningIf. destruct b.
  - rewrite Exists_cons, Exists_nil. intuition congruence.
  - rewrite Exists_nil. intuition congruence.
Qed.

Lemma hasBlockWarning_app c i l1 l2 :
  hasBlockWarning c i (l1 ++ l2)
  <-> hasBlockWarning c i l1 \/ hasBlockWarning c i l2.
Proof. apply Exists_app. Qed.

Lemma hasBlockWarning_warningIf c i b w :
  hasBlockWarning c i (warningIf b w)
  <-> b = true /\ code w = c /\ blockIndex w = Some i.
Proof.
  unfold hasBlockWarning, warningIf. destruct b.
  - rewrite Exists_cons, Exists_nil. intuition congruence.
  - rewrite Exists_nil. intuition congruence.
Qed.

Lemma decoder_codes_only c l :
  Forall (fun w => decoderCode (code w) = true) l ->
  decoderCode c = false -> ~ hasWarning c l.
Proof.
  intros Hl Hc Hex. apply Exists_exists in Hex as (w & Hin & Hw).
  rewrite Forall_forall in Hl. specialize (Hl w Hin).
  rewrite Hw in Hl. congruence.
Qed.

Lemma decoder_codes_only_block c i l :
  Forall (fun w => decoderCode (code w) = true) l ->
  decoderCode c = false -> ~ hasBlockWarning c i l.
Proof.
  intros Hl Hc Hex. apply Exists_exists in Hex as (w & Hin & Hw & _).
  rewrite Forall_forall in Hl. specialize (Hl w Hin).
  rewrite Hw in Hl. congruence.
Qed.

(** The warnings of a [parseEdid] result, in order. *)
Lemma parseEdid_warnings m1 m2 m3 h data :
  let bs := map JS.clampByte data in
  let len := Z.of_nat (length bs) in
  let r := parseEdid m1 m2 m3 h data in
  exists wShort wMultiple wHeader wChecksum wCount expected,
    Edid.warnings r =
      warningIf (len <? EDID_BLOCK_LENGTH) wShort ++
      warningIf (negb (Z.rem len EDID_BLOCK_LENGTH =? 0)) wMultiple ++
      emitted (parseBaseBlock m1 m2 m3 h (createBlockReader 0 0)) bs ++
      warningIf (negb (isTrue (Edid.isHeaderValid r))) wHeader ++
      warningIf (bool_decide (Edid.isChecksumValid r = Some false))
        wChecksum ++
      warningIf (negb (expected =? availableExtensions bs)) wCount ++
      emitted (parseExtensions h (availableExtensions bs)
                 (mkExtensionParseContext None)) bs ++
      emitted (warnFailedExtensionChecksums (Edid.extensions r)) bs
    /\ Edid.expectedExtensionCount r = Some expected
    /\ code wShort = too_short
    /\ code wMultiple = length_not_multiple_of_128
    /\ (code wHeader = invalid_header /\ blockIndex wHeader = Some 0)
    /\ (code wChecksum = checksum_failed /\ blockIndex wChecksum = Some 0)
    /\ code wCount = extension_count_mismatch.
Proof.
  intros bs len r. subst r. unfold parseEdid, parseEdidWith, parseExtensions.
  destruct (parseEdid_body_shape m1 m2 m3 h (decodeCtaExtension h)
              decodeDisplayIdExtension (framed_decodeCtaExtension h)
              framed_decodeDisplayIdExtension (map JS.clampByte data))
    as (w1 & w2 & w3 & w4 & w5 & Heq & Hrest).
  cbv zeta in Heq. rewrite Heq.
  exists w1, w2, w3, w4, w5. eexists.
  cbn [Edid.warnings Edid.isHeaderValid Edid.isChecksumValid Edid.extensions
       Edid.expectedExtensionCount bytes warnings app].
  split; [reflexivity |]. split; [reflexivity |]. exact Hrest.
Qed.

Lemma isTrue_not_true (x : option bool) :
  negb (isTrue x) = true <-> x <> Some true.
Proof. destruct x as [[]|]; cbn; split; congruence. Qed.

(** The top-level anomalies and their warnings. *)
Lemma parseEdid_anomalies m1 m2 m3 h (data : list Z) :
  let r := parseEdid m1 m2 m3 h data in
  let len := Z.of_nat (length data) in
  Edid.bytes r = map JS.clampByte data /\
  Forall (fun b => 0 <= b <= 255) (Edid.bytes r) /\
  (hasWarning too_short (Edid.warnings r) <-> len < 128) /\
  (hasWarning length_not_multiple_of_128 (Edid.warnings r)
   <-> len mod 128 <> 0) /\
  (hasWarning invalid_header (Edid.warnings r)
   <-> Edid.isHeaderValid r <> Some true) /\
  (hasBlockWarning checksum_failed 0 (Edid.warnings r)
   <-> Edid.isChecksumValid r = Some false) /\
  (hasWarning extension_count_mismatch (Edid.warnings r)
   <-> Edid.expectedExtensionCount r
       <> Some (availableExtensions (Edid.bytes r))).
Proof.
  intros r len.
  destruct (parseEdid_shape m1 m2 m3 h data) as (Hbytes & _ & _ & _ & Hexts & _).
  fold r in Hbytes, Hexts.
  destruct (parseEdid_warnings m1 m2 m3 h data)
    as (w1 & w2 & w3 & w4 & w5 & expected & HW & Hexp & Hc1 & Hc2
        & [Hc3 Hb3] & [Hc4 Hb4] & Hc5).
  fold r in HW, Hexp. cbv zeta in HW.
  set (bs := map JS.clampByte data) in *.
  set (E1 := emitted (parseBaseBlock m1 m2 m3 h (createBlockReader 0 0)) bs)
    in *.
  set (E2 := emitted (parseExtensions h (availableExtensions bs)
                        (mkExtensionParseContext None)) bs) in *.
  set (E3 := emitted (warnFailedExtensionChecksums (Edid.extensions r)) bs)
    in *.
  assert (N1 : forall c, decoderCode c = false -> ~ hasWarning c E1)
    by (intros c Hc; apply decoder_codes_only;
        [apply framed_codes; auto with framed | exact Hc]).
  assert (N2 : forall c, decoderCode c = false -> ~ hasWarning c E2)
    by (intros c Hc; apply decoder_codes_only;
        [apply framed_codes; auto with framed | exact Hc]).
  assert (B1 : ~ hasBlockWarning checksum_failed 0 E1)
    by (apply decoder_codes_only_block;
        [apply framed_codes; auto with framed | reflexivity]).
  assert (B2 : ~ hasBlockWarning checksum_failed 0 E2)
    by (apply decoder_codes_only_block;
        [apply framed_codes; auto with framed | reflexivity]).
  assert (HE3 := emitted_warnFailedExtensionChecksums (Edid.extensions r) bs).
  fold E3 in HE3.
  assert (N3 : forall c, c <> checksum_failed -> ~ hasWarning c E3).
  { intros c Hc Hex. apply Exists_exists in Hex as (w & Hin & Hw).
    rewrite Forall_forall in HE3. destruct (HE3 w Hin) as [Hcode _].
    congruence. }
  assert (B3 : ~ hasBlockWarning checksum_failed 0 E3).
  { intros Hex. apply Exists_exists in Hex as (w & Hin & _ & Hw).
    rewrite Forall_forall in HE3.
    destruct (HE3 w Hin) as (_ & ext & Hext & _ & Hbi).
    pose proof (parseExtensions_blockNumbers h (availableExtensions bs)
                  (mkExtensionParseContext None) bs) as Hnum.
    rewrite <- Hexts in Hnum. rewrite List.Forall_forall in Hnum.
    specialize (Hnum ext Hext). rewrite Hbi in Hw.
    injection Hw as Hw. lia. }
  assert (Hlen : Z.of_nat (length bs) = len)
    by (unfold bs; rewrite length_map; reflexivity).
  rewrite Hlen in HW.
  split; [exact Hbytes |].
  split; [rewrite Hbytes; apply clamped_bytes |].
  clearbody E1 E2 E3 r. clear HE3 Hexts.
  assert (K : forall c, decoderCode c = false -> c <> checksum_failed ->
                ~ hasWarning c E1 /\ ~ hasWarning c E2 /\ ~ hasWarning c E3)
    by (intros c H1 H2; auto).
  destruct (K too_short eq_refl ltac:(discriminate)) as (? & ? & ?).
  destruct (K length_not_multiple_of_128 eq_refl ltac:(discriminate))
    as (? & ? & ?).
  destruct (K invalid_header eq_refl ltac:(discriminate)) as (? & ? & ?).
  destruct (K extension_count_mismatch eq_refl ltac:(discriminate))
    as (? & ? & ?).
  clear K N1 N2 N3.
  rewrite HW.
  rewrite !hasWarning_app, !hasWarning_warningIf, !hasBlockWarning_app,
    !hasBlockWarning_warningIf.
  rewrite Hc1, Hc2, Hc3, Hc4, Hc5, Hb3, Hb4, Hexp, Hbytes.
  unfold EDID_BLOCK_LENGTH.
  assert (Hnn : 0 <= len) by (unfold len; lia).
  repeat split.
  - intros [[Hb _]|[[_ Hc]|[?|[[_ Hc]|[[_ Hc]|[[_ Hc]|[?|?]]]]]]];
      try discriminate; try contradiction.
    apply Z.ltb_lt. exact Hb.
  - intros Hlt. left. split; [apply Z.ltb_lt; exact Hlt | reflexivity].
  - intros [[_ Hc]|[[Hb _]|[?|[[_ Hc]|[[_ Hc]|[[_ Hc]|[?|?]]]]]]];
      try discriminate; try contradiction.
    apply negb_true_iff, Z.eqb_neq in Hb.
    rewrite Z.rem_mod_nonneg in Hb by lia. exact Hb.
  - intros Hne. right. left. split; [| reflexivity].
    apply negb_true_iff, Z.eqb_neq. rewrite Z.rem_mod_nonneg by lia. exact Hne.
  - intros [[_ Hc]|[[_ Hc]|[?|[[Hb _]|[[_ Hc]|[[_ Hc]|[?|?]]]]]]];
      try discriminate; try contradiction.
    apply isTrue_not_true. exact Hb.
  - intros Hne. do 3 right. left. split; [| reflexivity].
    apply isTrue_not_true. exact Hne.
  - intros [[_ [Hc _]]|[[_ [Hc _]]|[?|[[_ [Hc _]]|[[Hb _]|[[_ [Hc _]]|[?|?]]]]]]];
      try discriminate; try contradiction.
    apply bool_decide_eq_true in Hb. exact Hb.
  - intros Hv. do 4 right. left.
    split; [apply bool_decide_eq_true; exact Hv | split; reflexivity].
  - intros [[_ Hc]|[[_ Hc]|[?|[[_ Hc]|[[_ Hc]|[[Hb _]|[?|?]]]]]]];
      try discriminate; try contradiction.
    apply negb_true_iff, Z.eqb_neq in Hb. congruence.
  - intros Hne. do 5 right. left. split; [| reflexivity].
    apply negb_true_iff, Z.eqb_neq. congruence.
Qed.

(** ** Framing of the base block decoders *)
(** ** C8: a failing block decoder *)

Lemma emitted_forLoop_S {S : Type} (n : nat) (i : Z)
    (body : Z -> S -> M (Ctl S)) (s : S) (bs : list Z) :
  (forall i s, framed (body i s)) ->
  emitted (forLoop (Datatypes.S n) i body s) bs =
  emitted (body i s) bs ++
  match value (body i s) bs with
  | Continue s' => emitted (forLoop n (i + 1) body s') bs
  | Break s' => []
  end.
Proof.
  intros Hb. cbn [forLoop]. rewrite emitted_bind.
  - destruct (value (body i s) bs); reflexivity.
  - apply Hb.
  - destruct (value (body i s) bs);
      [apply framed_forLoop; exact Hb | apply framed_ret].
Qed.

Section FailingDecoder.

Variable decodeCta : ExtensionDecoder.
Variable decodeDisplayId : ExtensionDecoder.
Hypothesis decodeCta_framed : framedDecoder decodeCta.
Hypothesis decodeDisplayId_framed : framedDecoder decodeDisplayId.
Variable bs : list Z.

Local Notation "'readerOf' i" :=
  (createBlockReader (i + 1) (EDID_BLOCK_LENGTH * (i + 1)))
  (at level 10, i at level 9).
Local Notation "'step'" := (parseExtensions_step decodeCta decodeDisplayId).
Local Notation "'fallbackOf' i" :=
  (value (parseUnknownExtension (readerOf i) i) bs)
  (at level 10, i at level 9).

Lemma framed_dispatch (extTag extIndex : Z) context :
  framed (if extTag =? CTA_EXTENSION_TAG
          then decodeCta (readerOf extIndex) extIndex context
          else if extTag =? DISPLAYID_EXTENSION_TAG
          then decodeDisplayId (readerOf extIndex) extIndex context
          else
            do ext <- parseUnknownExtension (readerOf extIndex) extIndex;
            ret (Normal ext, context)).
Proof.
  destruct (_ =? _); [apply decodeCta_framed |].
  destruct (_ =? _); [apply decodeDisplayId_framed |]. framed_auto.
Qed.

Lemma framed_step i st : framed (step i st).
Proof. apply framed_parseExtensions_step; assumption. Qed.

(** One iteration of the loop, by the way the body of the [try]
    completes. *)
Lemma value_step (extIndex : Z) extensions context :
  value (step extIndex (extensions, context)) bs =
  match decodeOutcome decodeCta decodeDisplayId bs extIndex context with
  | None => Break (extensions, context)
  | Some (Normal ext, context') => Continue (extensions ++ [ext], context')
  | Some (Throw _, context') =>
      Continue (extensions ++ [fallbackOf extIndex], context')
  end.
Proof.
  unfold parseExtensions_step, decodeOutcome.
  rewrite value_bind_all;
    [| apply framed_u8
     | intros [extTag|]; [| apply framed_ret];
       apply framed_bind; [apply framed_dispatch |];
       intros [[ext|err] c']; framed_auto].
  rewrite value_u8.
  destruct (byteAt bs (readerOf extIndex) 0) as [extTag|]; [| reflexivity].
  rewrite value_bind_all;
    [| apply framed_dispatch | intros [[ext|err] c']; framed_auto].
  match goal with
  | |- context [value (if ?c then ?a else ?b) bs] =>
      destruct (value (if c then a else b) bs) as [[ext|err] c']
  end; [reflexivity |].
  rewrite value_bind by framed_auto.
  rewrite value_bind by framed_auto. reflexivity.
Qed.

Lemma emitted_step_throw (extIndex : Z) extensions context error context' :
  decodeOutcome decodeCta decodeDisplayId bs extIndex context
  = Some (Throw error, context') ->
  hasBlockWarning parse_error (extIndex + 1)
    (emitted (step extIndex (extensions, context)) bs).
Proof.
  unfold parseExtensions_step, decodeOutcome.
  rewrite emitted_bind_all;
    [| apply framed_u8
     | intros [extTag|]; [| apply framed_ret];
       apply framed_bind; [apply framed_dispatch |];
       intros [[ext|err] c']; framed_auto].
  rewrite value_u8.
  destruct (byteAt bs (readerOf extIndex) 0) as [extTag|]; [| discriminate].
  intros [= Hv].
  rewrite emitted_bind_all;
    [| apply framed_dispatch | intros [[ext|err] c']; framed_auto].
  rewrite Hv.
  rewrite emitted_bind by framed_auto.
  apply hasBlockWarning_app. right. apply hasBlockWarning_app. right.
  apply hasBlockWarning_app. left.
  apply Exists_cons_hd. split; reflexivity.
Qed.

End FailingDecoder.

Lemma sameOrDowngraded_app_r ws1 ws2 ext ext' :
  sameOrDowngraded ws2 ext ext' -> sameOrDowngraded (ws1 ++ ws2) ext ext'.
Proof.
  intros [H|[H1 H2]]; [left; exact H | right].
  split; [exact H1 | apply hasBlockWarning_app; right; exact H2].
Qed.

Lemma sameOrDowngraded_app_l ws1 ws2 ext ext' :
  sameOrDowngraded ws1 ext ext' -> sameOrDowngraded (ws1 ++ ws2) ext ext'.
Proof.
  intros [H|[H1 H2]]; [left; exact H | right].
  split; [exact H1 | apply hasBlockWarning_app; left; exact H2].
Qed.

Lemma decodeOutcome_readable dc dd dc' dd' bs i context context' :
  decodeOutcome dc dd bs i context = None ->
  decodeOutcome dc' dd' bs i context' = None.
Proof.
  unfold decodeOutcome. destruct (byteAt bs _ 0); [discriminate | reflexivity].
Qed.

(** The number of blocks the loop decodes depends on the bytes alone, not
    on the decoders or on the extension context. *)
Lemma forLoop_same_length dc dd dc' dd' bs :
  framedDecoder dc -> framedDecoder dd ->
  framedDecoder dc' -> framedDecoder dd' ->
  forall (n : nat) (i : Z) extensions extensions' context context',
    exists new new',
      fst (value (forLoop n i (parseExtensions_step dc dd)
                    (extensions, context)) bs) = extensions ++ new /\
      fst (value (forLoop n i (parseExtensions_step dc' dd')
                    (extensions', context')) bs) = extensions' ++ new' /\
      length new = length new'.
Proof.
  intros Hc Hd Hc' Hd'.
  assert (Hf : forall i st, framed (parseExtensions_step dc dd i st))
    by (intros; apply framed_parseExtensions_step; assumption).
  assert (Hf' : forall i st, framed (parseExtensions_step dc' dd' i st))
    by (intros; apply framed_parseExtensions_step; assumption).
  induction n as [|n IH]; intros i exts exts' c c'.
  - exists [], []. cbn. rewrite !app_nil_r. repeat split.
  - rewrite !value_forLoop_S by assumption.
    rewrite !value_step by assumption.
    destruct (decodeOutcome dc dd bs i c) as [[o c1]|] eqn:E1.
    + destruct (decodeOutcome dc' dd' bs i c') as [[o' c1']|] eqn:E2.
      * set (x := match o with
                  | Normal ext => ext
                  | Throw _ =>
                      value (parseUnknownExtension
                               (createBlockReader (i + 1)
                                  (EDID_BLOCK_LENGTH * (i + 1))) i) bs
                  end).
        set (y := match o' with
                  | Normal ext => ext
                  | Throw _ =>
                      value (parseUnknownExtension
                               (createBlockReader (i + 1)
                                  (EDID_BLOCK_LENGTH * (i + 1))) i) bs
                  end).
        destruct (IH (i + 1) (exts ++ [x]) (exts' ++ [y]) c1 c1')
          as (new & new' & H1 & H2 & H3).
        exists (x :: new), (y :: new').
        subst x y. destruct o, o'; cbv beta iota;
          rewrite H1, H2, <- !app_assoc; cbn [length app];
          repeat split; lia.
      * apply (decodeOutcome_readable _ _ dc dd _ _ _ c) in E2. congruence.
    + rewrite (decodeOutcome_readable _ _ dc' dd' _ _ _ c' E1).
      exists [], []. cbn. rewrite !app_nil_r. repeat split.
Qed.

Section Failure.

Variable decodeCta : ExtensionDecoder.
Variable decodeDisplayId : ExtensionDecoder.
Variable decodeCta0 : ExtensionDecoder.
Variable decodeDisplayId0 : ExtensionDecoder.
Hypothesis decodeCta_framed : framedDecoder decodeCta.
Hypothesis decodeDisplayId_framed : framedDecoder decodeDisplayId.
Hypothesis decodeCta0_framed : framedDecoder decodeCta0.
Hypothesis decodeDisplayId0_framed : framedDecoder decodeDisplayId0.
Variable bs : list Z.
Hypothesis failure :
  failureOf decodeCta decodeDisplayId decodeCta0 decodeDisplayId0 bs.

Local Notation "'step'" := (parseExtensions_step decodeCta decodeDisplayId).
Local Notation "'step0'" :=
  (parseExtensions_step decodeCta0 decodeDisplayId0).

(** The loop with the failing decoders against the loop without the
    failure, entered with the same extension context: the same number of
    blocks; the same blocks up to the first failure; and, when every failure
    leaves the context as the decoding without it does, each block the same
    or downgraded with a warning. *)
Lemma forLoop_failure (n : nat) :
  forall (i : Z) extensions extensions0 context,
    exists new new0,
      fst (value (forLoop n i step (extensions, context)) bs)
      = extensions ++ new /\
      fst (value (forLoop n i step0 (extensions0, context)) bs)
      = extensions0 ++ new0 /\
      length new = length new0 /\
      (forall k : nat,
         Forall completesNormally
           (take k (loopOutcomes decodeCta decodeDisplayId bs n i context)) ->
         take k new = take k new0) /\
      (contextKept decodeCta decodeDisplayId decodeCta0 decodeDisplayId0 bs ->
       Forall2
         (sameOrDowngraded
            (emitted (forLoop n i step (extensions, context)) bs))
         new new0).
Proof.
  assert (Hf : forall i st, framed (step i st))
    by (intros; apply framed_parseExtensions_step; assumption).
  assert (Hf0 : forall i st, framed (step0 i st))
    by (intros; apply framed_parseExtensions_step; assumption).
  induction n as [|n IH]; intros i exts exts0 c.
  - exists [], []. cbn. rewrite !app_nil_r.
    repeat split; try constructor.
  - rewrite !value_forLoop_S, emitted_forLoop_S by assumption.
    rewrite !value_step by assumption.
    pose proof (failure i c) as Hfail.
    pose proof (emitted_step_throw decodeCta decodeDisplayId
                  decodeCta_framed decodeDisplayId_framed bs i exts c)
      as Hthrow.
    destruct (decodeOutcome decodeCta decodeDisplayId bs i c)
      as [[[ext|err] c']|] eqn:E.
    + rewrite Hfail.
      destruct (IH (i + 1) (exts ++ [ext]) (exts0 ++ [ext]) c')
        as (new & new0 & H1 & H2 & H3 & H4 & H5).
      exists (ext :: new), (ext :: new0).
      rewrite H1, H2, <- !app_assoc. cbn [length app].
      split; [reflexivity |]. split; [reflexivity |]. split; [lia |]. split.
      * intros k Hk. destruct k as [|k]; [reflexivity |].
        rewrite !firstn_cons. f_equal. apply H4.
        cbn [loopOutcomes] in Hk. rewrite E in Hk.
        rewrite firstn_cons in Hk. apply Forall_cons_1 in Hk as [_ Hk].
        exact Hk.
      * intros Hkept. constructor; [left; reflexivity |].
        eapply Forall2_impl; [exact (H5 Hkept) |].
        intros x y Hxy. apply sameOrDowngraded_app_r. exact Hxy.
    + destruct Hfail as (ext0 & c0 & Hfail). rewrite Hfail.
      set (fallback := value (parseUnknownExtension
                                (createBlockReader (i + 1)
                                   (EDID_BLOCK_LENGTH * (i + 1))) i) bs).
      destruct (forLoop_same_length decodeCta decodeDisplayId decodeCta0
                  decodeDisplayId0 bs decodeCta_framed decodeDisplayId_framed
                  decodeCta0_framed decodeDisplayId0_framed n (i + 1)
                  (exts ++ [fallback]) (exts0 ++ [ext0]) c' c0)
        as (new & new0 & H1 & H2 & H3).
      exists (fallback :: new), (ext0 :: new0).
      rewrite H1, H2, <- !app_assoc. cbn [length app].
      split; [reflexivity |]. split; [reflexivity |]. split; [lia |].
      assert (Hwarned : hasBlockWarning parse_error (i + 1)
                          (emitted (step i (exts, c)) bs))
        by (eapply Hthrow; reflexivity).
      split.
      * intros k Hk. destruct k as [|k]; [reflexivity |]. exfalso.
        cbn [loopOutcomes] in Hk. rewrite E in Hk.
        rewrite firstn_cons in Hk. apply Forall_cons_1 in Hk as [Hk _].
        exact Hk.
      * intros Hkept.
        destruct (Hkept i c err c' E) as (ext0' & Hsame).
        rewrite Hfail in Hsame. injection Hsame as _ Hc. subst c0.
        destruct (IH (i + 1) (exts ++ [fallback]) (exts0 ++ [ext0]) c')
          as (new' & new0' & H1' & H2' & _ & _ & H5).
        rewrite H1 in H1'. apply app_inv_head in H1'. subst new'.
        rewrite H2 in H2'. apply app_inv_head in H2'. subst new0'.
        constructor.
        -- right. split; [apply parseUnknownExtension_type |].
           unfold fallback. rewrite parseUnknownExtension_blockNumber.
           apply hasBlockWarning_app. left. exact Hwarned.
        -- eapply Forall2_impl; [exact (H5 Hkept) |].
           intros x y Hxy. apply sameOrDowngraded_app_r. exact Hxy.
    + rewrite (decodeOutcome_readable _ _ decodeCta0 decodeDisplayId0
                 _ _ _ c E).
      exists [], []. cbn [length]. rewrite !app_nil_r.
      repeat split; try constructor.
Qed.

End Failure.

Lemma framed_faultyCtaDecoder : framedDecoder faultyCtaDecoder.
Proof.
  intros reader extIndex context. unfold faultyCtaDecoder.
  destruct (extIndex =? 0); [apply framed_ret | auto with framed].
Qed.

Lemma value_parseExtensionsWith dc dd count context bs :
  framedDecoder dc -> framedDecoder dd ->
  value (parseExtensionsWith dc dd count context) bs
  = fst (value (forLoop (Z.to_nat count) 0 (parseExtensions_step dc dd)
                  ([], context)) bs)
  /\ emitted (parseExtensionsWith dc dd count context) bs
     = emitted (forLoop (Z.to_nat count) 0 (parseExtensions_step dc dd)
                  ([], context)) bs.
Proof.
  intros Hc Hd. unfold parseExtensionsWith.
  assert (Hf : framed (forLoop (Z.to_nat count) 0 (parseExtensions_step dc dd)
                         ([], context)))
    by (apply framed_forLoop; intros; apply framed_parseExtensions_step;
        assumption).
  rewrite value_bind_all, emitted_bind_all
    by (try exact Hf; intros; apply framed_ret).
  rewrite value_ret, emitted_ret, app_nil_r. split; reflexivity.
Qed.

Lemma framed_lateFaultyCtaDecoder : framedDecoder lateFaultyCtaDecoder.
Proof.
  intros reader extIndex context. unfold lateFaultyCtaDecoder.
  apply framed_bind; [apply framed_decodeCtaExtension | intros; apply framed_ret].
Qed.

Lemma value_decodeCtaExtension h reader extIndex context bs :
  value (decodeCtaExtension h reader extIndex context) bs
  = (Normal (fst (value (parseCtaExtension h reader extIndex context) bs)),
     snd (value (parseCtaExtension h reader extIndex context) bs)).
Proof.
  unfold decodeCtaExtension.
  rewrite value_bind_all by (intros; auto with framed). reflexivity.
Qed.

Lemma value_decodeDisplayIdExtension reader extIndex context bs :
  value (decodeDisplayIdExtension reader extIndex context) bs
  = (Normal (value (parseDisplayIdExtension reader extIndex) bs), context).
Proof.
  unfold decodeDisplayIdExtension.
  rewrite value_bind_all by (intros; auto with framed). reflexivity.
Qed.

Lemma value_lateFaultyCtaDecoder reader extIndex context bs :
  value (lateFaultyCtaDecoder reader extIndex context) bs
  = (if extIndex =? 0
     then Throw (ThrownError "TypeError" "Cannot read properties of undefined")
     else Normal (fst (value (parseCtaExtension hypotApprox reader extIndex
                                context) bs)),
     snd (value (parseCtaExtension hypotApprox reader extIndex context) bs)).
Proof.
  unfold lateFaultyCtaDecoder.
  rewrite value_bind_all;
    [| apply framed_decodeCtaExtension | intros; apply framed_ret].
  rewrite value_ret, value_decodeCtaExtension. reflexivity.
Qed.

(** Both faulty decoders are failures of the CTA-861 decoder. *)
Lemma failureOf_faultyCtaDecoder bs :
  failureOf faultyCtaDecoder decodeDisplayIdExtension
    (decodeCtaExtension hypotApprox) decodeDisplayIdExtension bs.
Proof.
  intros extIndex context. unfold decodeOutcome.
  destruct (byteAt bs _ 0) as [extTag|]; [| exact I].
  destruct (extTag =? CTA_EXTENSION_TAG);
    [| destruct (extTag =? DISPLAYID_EXTENSION_TAG)].
  - unfold faultyCtaDecoder. rewrite value_decodeCtaExtension.
    destruct (extIndex =? 0).
    + rewrite value_ret. eexists _, _. reflexivity.
    + rewrite value_decodeCtaExtension. reflexivity.
  - rewrite value_decodeDisplayIdExtension. reflexivity.
  - rewrite value_bind_all by (intros; auto with framed).
    rewrite value_ret. reflexivity.
Qed.

Lemma failureOf_lateFaultyCtaDecoder bs :
  failureOf lateFaultyCtaDecoder decodeDisplayIdExtension
    (decodeCtaExtension hypotApprox) decodeDisplayIdExtension bs.
Proof.
  intros extIndex context. unfold decodeOutcome.
  destruct (byteAt bs _ 0) as [extTag|]; [| exact I].
  destruct (extTag =? CTA_EXTENSION_TAG);
    [| destruct (extTag =? DISPLAYID_EXTENSION_TAG)].
  - rewrite value_lateFaultyCtaDecoder, value_decodeCtaExtension.
    destruct (extIndex =? 0); [eexists _, _ |]; reflexivity.
  - rewrite value_decodeDisplayIdExtension. reflexivity.
  - rewrite value_bind_all by (intros; auto with framed).
    rewrite value_ret. reflexivity.
Qed.

Lemma contextKept_lateFaultyCtaDecoder bs :
  contextKept lateFaultyCtaDecoder decodeDisplayIdExtension
    (decodeCtaExtension hypotApprox) decodeDisplayIdExtension bs.
Proof.
  intros extIndex context error context'. unfold decodeOutcome.
  destruct (byteAt bs _ 0) as [extTag|]; [| discriminate].
  destruct (extTag =? CTA_EXTENSION_TAG);
    [| destruct (extTag =? DISPLAYID_EXTENSION_TAG)].
  - rewrite value_lateFaultyCtaDecoder, value_decodeCtaExtension.
    destruct (extIndex =? 0); [| discriminate].
    intros [= _ <-]. eexists. reflexivity.
  - rewrite value_decodeDisplayIdExtension. discriminate.
  - rewrite value_bind_all by (intros; auto with framed).
    rewrite value_ret. discriminate.
Qed.




(** ** Framing of the base block decoders *)
(** ** C6: the walk over the data block collection *)

Lemma headerLength_nonneg (h : Z) : 0 <= headerLength h.
Proof. apply band_nonneg_r. vm_compute. split; congruence. Qed.

Lemma blockHeaders_unfolded bs reader e i :
  blockHeaders bs reader e i =
  if i <? e then
    match byteAt bs reader i with
    | None => []
    | Some h => (i, h) :: blockHeaders bs reader e (i + headerLength h + 1)
    end
  else [].
Proof.
  rewrite blockHeaders_unfold_eq.
  with_strategy transparent [blockHeaders_unfold] unfold blockHeaders_unfold.
  destruct (inspect (i <? e)) as [b Hb]. pose proof Hb as Hb'.
  destruct b; simpl; rewrite Hb'; [| reflexivity].
  destruct (byteAt bs reader i); reflexivity.
Qed.

Lemma value_primaryScan reader e i st bs :
  value (primaryScan reader e i st) bs =
  if i <? e then
    match byteAt bs reader i with
    | None => st
    | Some h =>
        value (primaryScan reader e (i + headerLength h + 1)
                 (value (parseDataBlock reader i h st) bs)) bs
    end
  else st.
Proof.
  unfold value at 1. rewrite primaryScan_unfolded.
  destruct (i <? e); [| reflexivity].
  match goal with
  | |- fst (bind ?m ?k _) = ?rhs => change (value (bind m k) bs = rhs)
  end.
  rewrite value_bind_all; [| apply framed_u8 | intros [h|]; framed_auto].
  rewrite value_u8. destruct (byteAt bs reader i) as [h|]; [| reflexivity].
  rewrite value_bind_all by (intros; auto with framed). reflexivity.
Qed.

(** The primary scan decodes the blocks at the headers of the walk, in
    order. *)
Lemma primaryScan_fold reader e bs (n : nat) :
  forall i st,
    (Z.to_nat (e - i) <= n)%nat ->
    value (primaryScan reader e i st) bs =
    fold_left (fun st hd => value (parseDataBlock reader (fst hd) (snd hd) st) bs)
      (blockHeaders bs reader e i) st.
Proof.
  induction n as [|n IH]; intros i st Hn;
    rewrite value_primaryScan, blockHeaders_unfolded;
    destruct (Z.ltb_spec i e) as [Hlt|Hge]; try reflexivity; try lia.
  destruct (byteAt bs reader i) as [h|]; [| reflexivity].
  cbn [fold_left fst snd]. apply IH.
  pose proof (headerLength_nonneg h). lia.
Qed.

Lemma parseVideoDataBlock_value reader start len context bs :
  value (parseVideoDataBlock reader start len context) bs =
  (fst (value (parseVideoDataBlock reader start len
                 (mkExtensionParseContext None)) bs),
   mkExtensionParseContext
     (Some (fst (value (parseVideoDataBlock reader start len
                          (mkExtensionParseContext None)) bs)))).
Proof.
  unfold parseVideoDataBlock.
  rewrite !value_bind_all by (intros; framed_auto). reflexivity.
Qed.

Lemma videoBlockAt_dataLength bs reader hd :
  Video.dataLength (videoBlockAt bs reader hd) = headerLength (snd hd).
Proof.
  unfold videoBlockAt, parseVideoDataBlock.
  rewrite !value_bind_all by (intros; framed_auto). reflexivity.
Qed.

(** One header of the walk: a VIDEO header. *)
Lemma value_parseDataBlock_video reader off h st bs :
  isVideoHeader (off, h) = true ->
  value (parseDataBlock reader off h st) bs =
  let coll := scan_dataBlockCollection st in
  let parsed := videoBlockAt bs reader (off, h) in
  match scan_primaryVideoBlock st with
  | None =>
      mkScanState (coll ++ [Some (AnyVideo parsed)])
        (Some (length coll, parsed)) (mkExtensionParseContext (Some parsed))
  | Some (slot, primary) =>
      let merged :=
        Video.mk (Video.dataLength primary + Video.dataLength parsed)
          (Video.shortVideoDescriptors primary
           ++ Video.shortVideoDescriptors parsed) in
      mkScanState (<[slot := Some (AnyVideo merged)]> coll ++ [None])
        (Some (slot, merged)) (mkExtensionParseContext (Some merged))
  end.
Proof.
  unfold isVideoHeader, headerTag. cbn [snd]. intros Hv.
  unfold parseDataBlock. apply Z.eqb_eq in Hv. rewrite Hv. cbn [Z.eqb Pos.eqb DATA_BLOCK_TYPE_value].
  rewrite value_bind_all by (intros; framed_auto).
  rewrite parseVideoDataBlock_value. unfold videoBlockAt, headerLength.
  cbn [fst snd].
  destruct (scan_primaryVideoBlock st) as [[slot primary]|]; reflexivity.
Qed.

(** One header of the walk: any other header appends one entry that is not
    a video block. *)
Lemma value_parseDataBlock_other reader off h st bs :
  isVideoHeader (off, h) = false ->
  exists entry,
    isVideoEntry entry = false /\
    value (parseDataBlock reader off h st) bs =
    mkScanState (scan_dataBlockCollection st ++ [entry])
      (scan_primaryVideoBlock st) (scan_context st).
Proof.
  unfold isVideoHeader, headerTag. cbn [snd]. intros Hv.
  unfold parseDataBlock.
  destruct (_ =? DATA_BLOCK_TYPE_value AUDIO).
  { rewrite value_bind_all by (intros; framed_auto). rewrite value_ret.
    eexists. split; [| reflexivity]. reflexivity. }
  rewrite Hv.
  destruct (_ =? DATA_BLOCK_TYPE_value VENDOR_SPECIFIC).
  { rewrite value_bind_all by (intros; framed_auto). rewrite value_ret.
    eexists. split; [| reflexivity]. reflexivity. }
  destruct (_ =? DATA_BLOCK_TYPE_value SPEAKER_ALLOCATION).
  { rewrite value_bind_all by (intros; framed_auto). rewrite value_ret.
    eexists. split; [| reflexivity]. reflexivity. }
  destruct (_ =? DATA_BLOCK_TYPE_value EXTENDED_TAG).
  { rewrite value_bind_all by (intros; framed_auto). rewrite value_ret.
    eexists. split; [| reflexivity]. reflexivity. }
  rewrite value_bind_all by (intros; framed_auto). rewrite value_ret.
  eexists. split; [| reflexivity]. reflexivity.
Qed.

Lemma filter_snoc_true {A : Type} (p : A -> bool) (l : list A) (x : A) :
  p x = true -> List.filter p (l ++ [x]) = List.filter p l ++ [x].
Proof. intros H. rewrite List.filter_app. cbn. rewrite H. reflexivity. Qed.

Lemma filter_snoc_false {A : Type} (p : A -> bool) (l : list A) (x : A) :
  p x = false -> List.filter p (l ++ [x]) = List.filter p l.
Proof.
  intros H. rewrite List.filter_app. cbn. rewrite H. apply app_nil_r.
Qed.

Lemma scanInvariant_step bs reader hs st off h :
  scanInvariant bs reader hs st ->
  scanInvariant bs reader (hs ++ [(off, h)])
    (value (parseDataBlock reader off h st) bs).
Proof.
  intros Hinv. unfold scanInvariant in *.
  destruct (isVideoHeader (off, h)) eqn:Hv.
  - rewrite (value_parseDataBlock_video _ _ _ _ _ Hv). cbv zeta.
    destruct (scan_primaryVideoBlock st) as [[slot primary]|];
      cbn [scan_primaryVideoBlock scan_dataBlockCollection].
    + destruct Hinv as (hpre & v & hpost & pre & post & Hhs & Hcoll & Hl1
                        & Hl2 & Hpre & Hvv & Hnpre & Hpost & Hsvd & Hlen).
      exists hpre, v, (hpost ++ [(off, h)]), pre, (post ++ [None]).
      rewrite Hhs, Hcoll, <- !app_assoc. cbn [app].
      split; [reflexivity |]. split.
      { rewrite insert_app_r_alt by lia.
        replace (slot - length pre)%nat with 0%nat by lia.
        cbn. rewrite <- app_assoc. reflexivity. }
      split; [exact Hl1 |]. split; [exact Hl2 |]. split; [exact Hpre |].
      split; [exact Hvv |]. split; [exact Hnpre |]. split.
      { apply Forall2_app; [exact Hpost |].
        constructor; [split; [reflexivity | reflexivity] | constructor]. }
      change (v :: hpost ++ [(off, h)]) with ((v :: hpost) ++ [(off, h)]).
      rewrite (filter_snoc_true _ _ _ Hv), !map_app, concat_app.
      cbn [Video.shortVideoDescriptors Video.dataLength map concat].
      rewrite Hsvd, Hlen, app_nil_r, videoBlockAt_dataLength.
      split; [reflexivity |].
      rewrite fold_right_app. cbn [fold_right snd].
      generalize (map (fun hd => headerLength (snd hd))
                    (List.filter isVideoHeader (v :: hpost))).
      intros l. induction l as [|x l IH]; cbn; lia.
    + destruct Hinv as (Hlen & Hhs & Hcoll).
      exists hs, (off, h), [], (scan_dataBlockCollection st), [].
      split; [reflexivity |]. split; [reflexivity |].
      split; [symmetry; exact Hlen |]. split; [reflexivity |].
      split; [exact Hhs |]. split; [exact Hv |]. split; [exact Hcoll |].
      split; [constructor |].
      cbn [List.filter]. rewrite Hv. cbn. rewrite app_nil_r.
      rewrite videoBlockAt_dataLength. cbn. split; [reflexivity | lia].
  - destruct (value_parseDataBlock_other reader off h st bs Hv)
      as (entry & Hentry & Heq).
    rewrite Heq. cbn [scan_primaryVideoBlock scan_dataBlockCollection].
    destruct (scan_primaryVideoBlock st) as [[slot primary]|].
    + destruct Hinv as (hpre & v & hpost & pre & post & Hhs & Hcoll & Hl1
                        & Hl2 & Hpre & Hvv & Hnpre & Hpost & Hsvd & Hlen).
      exists hpre, v, (hpost ++ [(off, h)]), pre, (post ++ [entry]).
      rewrite Hhs, Hcoll, <- !app_assoc. cbn [app].
      split; [reflexivity |]. split; [reflexivity |].
      split; [exact Hl1 |]. split; [exact Hl2 |]. split; [exact Hpre |].
      split; [exact Hvv |]. split; [exact Hnpre |]. split.
      { apply Forall2_app; [exact Hpost |].
        constructor; [split; [exact Hentry | congruence] | constructor]. }
      change (v :: hpost ++ [(off, h)]) with ((v :: hpost) ++ [(off, h)]).
      rewrite (filter_snoc_false _ _ _ Hv). split; assumption.
    + destruct Hinv as (Hlen & Hhs & Hcoll).
      split; [rewrite !length_app; cbn; lia |].
      split; apply Forall_app; split; try assumption; repeat constructor;
        assumption.
Qed.

Lemma scanInvariant_fold bs reader (hs : list (Z * Z)) :
  forall done st,
    scanInvariant bs reader done st ->
    scanInvariant bs reader (done ++ hs)
      (fold_left
         (fun st hd => value (parseDataBlock reader (fst hd) (snd hd) st) bs)
         hs st).
Proof.
  induction hs as [|[off h] hs IH]; intros done st Hinv; cbn [fold_left].
  - rewrite app_nil_r. exact Hinv.
  - replace (done ++ (off, h) :: hs) with ((done ++ [(off, h)]) ++ hs)
      by (rewrite <- app_assoc; reflexivity).
    apply IH. apply scanInvariant_step. exact Hinv.
Qed.

(** The state the primary scan of a collection ends in. *)
Lemma primaryCollection_invariant bs reader dtdStart context :
  scanInvariant bs reader (blockHeaders bs reader dtdStart 4)
    (primaryCollection bs reader dtdStart context).
Proof.
  unfold primaryCollection.
  rewrite (primaryScan_fold reader dtdStart bs (Z.to_nat (dtdStart - 4)))
    by lia.
  apply (scanInvariant_fold bs reader _ []).
  cbn. repeat split; constructor.
Qed.

Lemma value_parseDataBlockCollection reader dtdStart context bs :
  4 <= dtdStart ->
  fst (value (parseDataBlockCollection reader dtdStart context) bs) =
  let st := primaryCollection bs reader dtdStart context in
  let coll := scan_dataBlockCollection st in
  if negb (existsb isHdmiForumScdbBlock coll) then
    match value (recoveryScan reader 4 dtdStart (scan_context st)) bs with
    | Some scdbBlock => coll ++ [Some (AnyExtended scdbBlock)]
    | None => coll
    end
  else coll.
Proof.
  intros Hd. unfold parseDataBlockCollection, primaryCollection.
  destruct (Z.ltb_spec (dtdStart - 4) 0); [lia |].
  replace (4 + (dtdStart - 4)) with dtdStart by lia.
  rewrite value_bind_all by (intros; framed_auto). cbv zeta.
  destruct (negb (existsb isHdmiForumScdbBlock _)); [| reflexivity].
  rewrite value_bind_all by (intros; framed_auto).
  destruct (value (recoveryScan _ _ _ _) bs); reflexivity.
Qed.

Lemma filter_none {A : Type} (p : A -> bool) (l : list A) :
  Forall (fun x => p x = false) l -> List.filter p l = [].
Proof.
  induction 1 as [|x l Hx _ IH]; cbn; [reflexivity |]. rewrite Hx. exact IH.
Qed.

Lemma blockHeaders_start bs reader e i hd hs :
  blockHeaders bs reader e i = hd :: hs ->
  fst hd = i /\ byteAt bs reader i = Some (snd hd) /\
  hs = blockHeaders bs reader e (i + headerLength (snd hd) + 1).
Proof.
  rewrite blockHeaders_unfolded.
  destruct (i <? e); [| discriminate].
  destruct (byteAt bs reader i) as [h|]; [| discriminate].
  intros [= <- <-]. auto.
Qed.

(** Consecutive headers of the walk are one declared length apart. *)
Lemma blockHeaders_walk bs reader e (n : nat) :
  forall i k hd hd',
    (Z.to_nat (e - i) <= n)%nat ->
    blockHeaders bs reader e i !! k = Some hd ->
    blockHeaders bs reader e i !! S k = Some hd' ->
    fst hd' = fst hd + headerLength (snd hd) + 1.
Proof.
  induction n as [|n IH]; intros i k hd hd' Hn Hk Hk'.
  - rewrite blockHeaders_unfolded in Hk.
    destruct (Z.ltb_spec i e); [lia | discriminate].
  - destruct (blockHeaders bs reader e i) as [|hd0 hs] eqn:Hb;
      [discriminate |].
    pose proof Hb as Hb0. rewrite blockHeaders_unfolded in Hb0.
    destruct (Z.ltb_spec i e); [| discriminate].
    apply blockHeaders_start in Hb as (Hi & _ & Hhs).
    pose proof (headerLength_nonneg (snd hd0)).
    destruct k as [|k]; cbn in Hk, Hk'.
    + injection Hk as <-. rewrite Hhs in Hk'.
      destruct (blockHeaders bs reader e (i + headerLength (snd hd0) + 1))
        as [|hd1 hs1] eqn:Hb1; [discriminate |].
      apply blockHeaders_start in Hb1 as (Hi1 & _).
      cbn in Hk'. injection Hk' as <-. lia.
    + rewrite Hhs in Hk, Hk'. eapply IH; [| exact Hk | exact Hk']. lia.
Qed.

(** C6: in a data block collection with at least one VIDEO header, the
    decoded collection holds exactly one video data block, at the entry of
    the first VIDEO header; its descriptors are those of all the VIDEO
    blocks, concatenated in the order of the walk, and its length is the sum
    of theirs; every later VIDEO header has an empty entry; the walk has one
    entry per header and moves from a header to the next by the declared
    length plus one. *)
Theorem video_blocks_merged bs reader dtdStart context :
  let headers := blockHeaders bs reader dtdStart 4 in
  let videos := List.filter isVideoHeader headers in
  let coll :=
    fst (value (parseDataBlockCollection reader dtdStart context) bs) in
  videos <> [] ->
  exists merged slot first,
    List.filter isVideoEntry coll = [Some (AnyVideo merged)] /\
    Video.shortVideoDescriptors merged
    = concat (map (fun hd => Video.shortVideoDescriptors
                               (videoBlockAt bs reader hd)) videos) /\
    Video.dataLength merged
    = fold_right Z.add 0 (map (fun hd => headerLength (snd hd)) videos) /\
    head videos = Some first /\
    headers !! slot = Some first /\
    coll !! slot = Some (Some (AnyVideo merged)) /\
    (forall k hd, headers !! k = Some hd -> isVideoHeader hd = true ->
                  k <> slot -> coll !! k = Some None) /\
    (forall k hd, headers !! k = Some hd -> exists entry, coll !! k = Some entry) /\
    (forall k hd hd', headers !! k = Some hd -> headers !! S k = Some hd' ->
                      fst hd' = fst hd + headerLength (snd hd) + 1).
Proof.
  intros headers videos coll Hvideos.
  assert (Hd : 4 <= dtdStart).
  { destruct (Z.le_gt_cases 4 dtdStart) as [H|H]; [exact H |].
    exfalso. apply Hvideos. unfold videos, headers.
    rewrite blockHeaders_unfolded.
    destruct (Z.ltb_spec 4 dtdStart); [lia | reflexivity]. }
  pose proof (primaryCollection_invariant bs reader dtdStart context) as Hinv.
  unfold scanInvariant in Hinv. fold headers in Hinv.
  assert (Hcoll : exists extra,
             coll = scan_dataBlockCollection
                      (primaryCollection bs reader dtdStart context) ++ extra
             /\ Forall (fun e => isVideoEntry e = false) extra).
  { unfold coll. rewrite value_parseDataBlockCollection by exact Hd.
    cbv zeta. destruct (negb _).
    - destruct (value (recoveryScan _ _ _ _) bs) as [b|].
      + eexists. split; [reflexivity |]. repeat constructor.
      + exists []. rewrite app_nil_r. split; [reflexivity | constructor].
    - exists []. rewrite app_nil_r. split; [reflexivity | constructor]. }
  destruct Hcoll as (extra & Hcoll & Hextra).
  destruct (scan_primaryVideoBlock _) as [[slot merged]|].
  - destruct Hinv as (hpre & v & hpost & pre & post & Hhs & Hprim & Hl1
                      & Hl2 & Hpre & Hvv & Hnpre & Hpost & Hsvd & Hlen).
    assert (Hnpost : Forall (fun e => isVideoEntry e = false) post).
    { clear -Hpost. induction Hpost as [|x y l l' [H _] _ IH];
        constructor; assumption. }
    assert (Hvid : videos = List.filter isVideoHeader (v :: hpost)).
    { unfold videos. rewrite Hhs, List.filter_app, (filter_none _ _ Hpre).
      reflexivity. }
    exists merged, slot, v.
    rewrite Hvid, Hcoll, Hprim, Hhs.
    split.
    { rewrite <- app_assoc, List.filter_app. cbn [app List.filter isVideoEntry].
      rewrite List.filter_app.
      rewrite (filter_none _ _ Hnpre), (filter_none _ _ Hnpost),
        (filter_none _ _ Hextra). reflexivity. }
    split; [exact Hsvd |]. split; [exact Hlen |].
    split; [cbn [List.filter]; rewrite Hvv; reflexivity |].
    split; [rewrite lookup_app_r by lia;
            replace (slot - length hpre)%nat with 0%nat by lia; reflexivity |].
    split.
    { rewrite <- app_assoc, lookup_app_r by lia.
      replace (slot - length pre)%nat with 0%nat by lia. reflexivity. }
    split.
    { intros k hd Hk Hhd Hne.
      destruct (Nat.lt_ge_cases k slot) as [Hlt|Hge].
      - rewrite lookup_app_l in Hk by lia.
        rewrite Forall_forall in Hpre.
        apply list_elem_of_lookup_2 in Hk. rewrite (Hpre _ Hk) in Hhd.
        discriminate.
      - rewrite lookup_app_r in Hk by lia.
        destruct (k - length hpre)%nat as [|j] eqn:Hj; [lia |].
        cbn in Hk.
        destruct (Forall2_lookup_l _ _ _ _ _ Hpost Hk) as (e & He & _ & Hnone).
        rewrite (Hnone Hhd) in He.
        rewrite <- app_assoc, lookup_app_r by lia.
        replace (k - length pre)%nat with (S j) by lia.
        change ((post ++ extra) !! j = Some None).
        rewrite lookup_app_l by (apply lookup_lt_Some in He; exact He).
        exact He. }
    split.
    { intros k hd Hk. apply lookup_lt_is_Some_2.
      apply lookup_lt_Some in Hk.
      pose proof (Forall2_length _ _ _ Hpost) as Hlp.
      rewrite !length_app in *. cbn [length] in *. lia. }
    rewrite <- Hhs. unfold headers.
    intros k hd hd'. apply (blockHeaders_walk bs reader dtdStart
                              (Z.to_nat (dtdStart - 4))). lia.
  - destruct Hinv as (_ & Hnone & _).
    exfalso. apply Hvideos. apply filter_none. exact Hnone.
Qed.

(** The collection [twoVideoBlocks]: the VIDEO blocks at offsets 4 and 11
    are merged into the entry of the first, the second leaves an empty
    entry. *)
Lemma video_blocks_merged_witness :
  let bs := edidWithCtaBlocks twoVideoBlocks in
  let reader := createBlockReader 1 128 in
  let coll :=
    fst (value (parseDataBlockCollection reader 13
                  (mkExtensionParseContext None)) bs) in
  blockHeaders bs reader 13 4 = [(4, 0x42); (7, 0x23); (11, 0x41)] /\
  map isVideoEntry coll = [true; false; false] /\
  coll !! 2%nat = Some None /\
  exists merged,
    List.filter isVideoEntry coll = [Some (AnyVideo merged)] /\
    map vic (Video.shortVideoDescriptors merged) = [16; 4; 31].
Proof.
  cbv zeta.
  split; [vm_compute; reflexivity |].
  split; [vm_compute; reflexivity |].
  split; [vm_compute; reflexivity |].
  destruct (video_blocks_merged (edidWithCtaBlocks twoVideoBlocks)
              (createBlockReader 1 128) 13 (mkExtensionParseContext None))
    as (merged & slot & first & Hfilter & Hsvd & _);
    [vm_compute; discriminate |].
  exists merged. split; [exact Hfilter |].
  rewrite Hsvd. vm_compute. reflexivity.
Defined.

(** ** Framing of the base block decoders *)
(** ** C7: the recovery scan for the HDMI Forum SCDB *)

Lemma if_same {A : Type} (c : bool) (x : A) : (if c then x else x) = x.
Proof. destruct c; reflexivity. Qed.

Lemma extendedTag_if (c : bool) (a b : ExtTag.ExtendedTagDataBlock) :
  ExtTag.extendedTag (if c then a else b)
  = if c then ExtTag.extendedTag a else ExtTag.extendedTag b.
Proof. destruct c; reflexivity. Qed.

Lemma parseHDMIForumSCDB_tag reader start len block bs :
  ExtTag.extendedTag (value (parseHDMIForumSCDB reader start len block) bs)
  = Some (KnownExtendedTag HDMI_FORUM_SCDB).
Proof.
  unfold parseHDMIForumSCDB.
  destruct (len <? 3); [reflexivity |].
  rewrite value_bind_all by (intros; framed_auto). rewrite value_ret.
  cbn [ExtTag.extendedTag ExtTag.set_hdmiForumFeatures].
  repeat (rewrite extendedTag_if;
          cbn [ExtTag.extendedTag ExtTag.set_vrrMaxHz ExtTag.set_vrrMinHz
               ExtTag.set_maxFixedRateLink ExtTag.set_maxTMDSCharacterRateMhz
               ExtTag.set_hfSCDBVersion ExtTag.set_extendedTag]).
  rewrite ?if_same. reflexivity.
Qed.

Lemma parseExtendedTag_scdb reader start len context bs :
  default 0 (byteAt bs reader start)
  = EXTENDED_DATA_BLOCK_TYPE_value HDMI_FORUM_SCDB ->
  ExtTag.extendedTag
    (value (parseExtendedTagDataBlock reader start len context) bs)
  = Some (KnownExtendedTag HDMI_FORUM_SCDB).
Proof.
  intros Htag. unfold parseExtendedTagDataBlock.
  rewrite value_bind_all by (intros; framed_auto).
  rewrite value_u8OrZero, Z.add_0_r, Htag.
  cbn [EXTENDED_DATA_BLOCK_TYPE_value Z.eqb Pos.eqb].
  apply parseHDMIForumSCDB_tag.
Qed.

Lemma framed_recoveryScan_step_all reader e context i found :
  framed (recoveryScan_step reader e context i found).
Proof. auto with framed. Qed.

(** One offset of the recovery scan. *)
Lemma value_recoveryScan_step reader e context i found bs :
  value (recoveryScan_step reader e context i found) bs =
  match byteAt bs reader i with
  | None => Break found
  | Some h =>
      if isScdbCandidate bs reader e i then
        Break (Some (value (parseExtendedTagDataBlock reader (i + 1)
                              (headerLength h) context) bs))
      else Continue found
  end.
Proof.
  unfold recoveryScan_step, isScdbCandidate.
  rewrite value_bind_all by (intros; framed_auto). rewrite value_u8.
  destruct (byteAt bs reader i) as [h|]; [| reflexivity].
  fold (headerTag h). fold (headerLength h).
  destruct (headerTag h =? DATA_BLOCK_TYPE_value EXTENDED_TAG);
    [| reflexivity].
  destruct (headerLength h =? 0); [reflexivity |].
  cbn [negb andb].
  destruct (Z.ltb_spec e (i + 1 + headerLength h));
    destruct (Z.leb_spec (i + 1 + headerLength h) e); try lia;
    [reflexivity |].
  rewrite value_bind_all by (intros; framed_auto).
  rewrite value_u8OrZero. cbn [andb].
  destruct (_ =? EXTENDED_DATA_BLOCK_TYPE_value HDMI_FORUM_SCDB);
    cbn [negb]; [| reflexivity].
  rewrite value_bind_all by (intros; framed_auto). reflexivity.
Qed.

Lemma recoveryScan_none reader e context bs (n : nat) :
  forall i,
    (forall off, i <= off < i + Z.of_nat n ->
                 isScdbCandidate bs reader e off = false) ->
    value (forLoop n i (recoveryScan_step reader e context) None) bs = None.
Proof.
  induction n as [|n IH]; intros i Hnone; [reflexivity |].
  rewrite value_forLoop_S by (intros; apply framed_recoveryScan_step_all).
  rewrite value_recoveryScan_step.
  destruct (byteAt bs reader i) as [h|]; [| reflexivity].
  rewrite (Hnone i) by lia. apply IH. intros off Hoff. apply Hnone. lia.
Qed.

Lemma recoveryScan_first reader e context bs (n : nat) :
  forall i off h,
    i <= off < i + Z.of_nat n ->
    (forall off', i <= off' < off ->
                  byteAt bs reader off' <> None /\
                  isScdbCandidate bs reader e off' = false) ->
    byteAt bs reader off = Some h ->
    isScdbCandidate bs reader e off = true ->
    value (forLoop n i (recoveryScan_step reader e context) None) bs
    = Some (value (parseExtendedTagDataBlock reader (off + 1)
                     (headerLength h) context) bs).
Proof.
  induction n as [|n IH]; intros i off h Hoff Hbefore Hh Hcand; [lia |].
  rewrite value_forLoop_S by (intros; apply framed_recoveryScan_step_all).
  rewrite value_recoveryScan_step.
  destruct (Z.eq_dec i off) as [->|Hne].
  - rewrite Hh, Hcand. reflexivity.
  - destruct (Hbefore i ltac:(lia)) as [Hr Hc].
    destruct (byteAt bs reader i) as [h0|]; [| congruence].
    rewrite Hc. apply IH; [lia | | exact Hh | exact Hcand].
    intros off' Hoff'. apply Hbefore. lia.
Qed.

Lemma byteAt_readable_below bs reader off off' h :
  0 <= reader_blockOffset reader -> 0 <= off' <= off ->
  byteAt bs reader off = Some h -> byteAt bs reader off' <> None.
Proof.
  intros Hbo Hoff. rewrite !byteAt_eq. cbv zeta.
  destruct (Z.ltb_spec (reader_blockOffset reader + off) 0); [discriminate |].
  destruct (Z.leb_spec (Z.of_nat (length bs)) (reader_blockOffset reader + off));
    [discriminate |].
  cbn [orb]. intros _.
  destruct (Z.ltb_spec (reader_blockOffset reader + off') 0); [lia |].
  destruct (Z.leb_spec (Z.of_nat (length bs)) (reader_blockOffset reader + off'));
    [lia |].
  cbn [orb]. intros Hnone. apply lookup_ge_None in Hnone. lia.
Qed.

Lemma parseDataBlockCollection_short reader dtdStart context bs :
  dtdStart < 4 ->
  fst (value (parseDataBlockCollection reader dtdStart context) bs) = [] /\
  scan_dataBlockCollection (primaryCollection bs reader dtdStart context) = [].
Proof.
  intros Hd. unfold parseDataBlockCollection, primaryCollection.
  destruct (Z.ltb_spec (dtdStart - 4) 0); [| lia].
  rewrite value_bind_all by (intros; framed_auto). rewrite value_ret.
  rewrite value_primaryScan.
  destruct (Z.ltb_spec 4 dtdStart); [lia |]. split; reflexivity.
Qed.



(** * Further properties of the decoder *)

(** ** The fields of a parse result *)

Lemma parseEdid_parsed m1 m2 m3 h data :
  let bs := map JS.clampByte data in
  let parsed := value (parseBaseBlock m1 m2 m3 h (createBlockReader 0 0)) bs in
  let r := parseEdid m1 m2 m3 h data in
  Edid.baseBlock r = result_baseBlock parsed /\
  Edid.vendorInfo r = result_vendorInfo parsed /\
  Edid.productInfo r = result_productInfo parsed /\
  Edid.basicDisplayParams r = result_basicDisplayParams parsed /\
  Edid.nativeResolution r = result_nativeResolution parsed /\
  Edid.expectedExtensionCount r
  = Some (default 0 (Base.numberOfExtensions (result_baseBlock parsed))).
Proof.
  intros bs parsed r. subst r. unfold parseEdid, parseEdidWith.
  destruct (parseEdid_body_shape m1 m2 m3 h (decodeCtaExtension h)
              decodeDisplayIdExtension (framed_decodeCtaExtension h)
              framed_decodeDisplayIdExtension (map JS.clampByte data))
    as (w1 & w2 & w3 & w4 & w5 & Heq & _).
  cbv zeta in Heq. rewrite Heq.
  cbn [Edid.baseBlock Edid.vendorInfo Edid.productInfo
       Edid.basicDisplayParams Edid.nativeResolution
       Edid.expectedExtensionCount].
  repeat split; reflexivity.
Qed.

Lemma parseBaseBlock_parsed m1 m2 m3 h reader bs :
  let parsed := value (parseBaseBlock m1 m2 m3 h reader) bs in
  let b := result_baseBlock parsed in
  let p := result_productInfo parsed in
  Base.vendorId b = value (getVendorId reader) bs /\
  Base.chromaticity b = Some (value (getChromaticityCoordinates reader) bs) /\
  Base.timingBitmap b = Some (value (getTimingBitmap reader) bs) /\
  Base.dtds b = Some (value (getDtds h reader 54 126) bs) /\
  Base.edidVersion b = Some (value (getEdidVersion reader) bs) /\
  Base.edidRevision b = Some (value (getEdidRevision reader) bs) /\
  Base.rawBytes b = slice bs 0 EDID_BLOCK_LENGTH /\
  result_vendorInfo parsed
  = getVendorInfo m1 m2 m3 (value (getVendorId reader) bs) /\
  Product.productCode p = Some (value (getProductCode reader) bs) /\
  Product.serialNumberInt p = Some (value (getSerialNumberInt reader) bs) /\
  Product.manufactureWeek p = Some (value (getManufactureWeek reader) bs) /\
  Product.manufactureYear p = Some (value (getManufactureYear reader) bs) /\
  result_basicDisplayParams parsed
  = Some (value (getBasicDisplayParams h reader) bs) /\
  result_nativeResolution parsed
  = getNativeResolution h (Some (value (getDtds h reader 54 126) bs))
      (Some (value (getBasicDisplayParams h reader) bs)).
Proof.
  unfold parseBaseBlock.
  repeat (rewrite value_bind by framed_auto).
  rewrite value_ret, value_getBytes. simpl. repeat split.
Qed.

(** ** Bit packing on small integers *)

(** Linear arithmetic with division and remainder by constants. *)
Ltac div_lia := Z.div_mod_to_equations; lia.

Lemma lor_disjoint (k b n : Z) :
  0 <= n -> 0 <= b < 2 ^ n -> Z.lor (k * 2 ^ n) b = k * 2 ^ n + b.
Proof.
  intros Hn Hb.
  assert (Hland : Z.land (k * 2 ^ n) b = 0).
  { apply Z.bits_inj'. intros m Hm. rewrite Z.land_spec, Z.bits_0.
    destruct (Z.lt_ge_cases m n) as [Hlt|Hge].
    - rewrite Z.mul_pow2_bits_low by lia. reflexivity.
    - rewrite <- (Z.mod_small b (2 ^ n)) by lia.
      rewrite Z.mod_pow2_bits_high by lia. apply andb_false_r. }
  rewrite Z.add_nocarry_lxor by exact Hland.
  symmetry. apply Z.lxor_lor. exact Hland.
Qed.

Lemma bor_disjoint (k b n : Z) :
  0 <= n -> 0 <= b < 2 ^ n -> b < 2 ^ 31 ->
  - 2 ^ 31 <= k * 2 ^ n -> k * 2 ^ n + b < 2 ^ 31 ->
  JS.bor (k * 2 ^ n) b = k * 2 ^ n + b.
Proof.
  intros Hn Hb Hb' Hlo Hhi. unfold JS.bor.
  rewrite !toInt32_small by lia. apply lor_disjoint; assumption.
Qed.

Lemma shl_small (a n : Z) :
  0 <= n -> - 2 ^ 31 <= a * 2 ^ n < 2 ^ 31 -> - 2 ^ 31 <= a < 2 ^ 31 ->
  JS.shl a n = a * 2 ^ n.
Proof.
  intros Hn Ha Ha'. unfold JS.shl.
  rewrite (toInt32_small a) by lia.
  rewrite Z.shiftl_mul_pow2 by lia. apply toInt32_small. lia.
Qed.

(** [(hi << n) | lo] on a byte-sized [hi] and an [n]-bit [lo], [n <= 16]. *)
Lemma bor_shl (hi lo n : Z) :
  0 <= n <= 16 -> 0 <= hi <= 255 -> 0 <= lo < 2 ^ n ->
  JS.bor (JS.shl hi n) lo = hi * 2 ^ n + lo.
Proof.
  intros Hn Hhi Hlo.
  assert (H16 : 2 ^ n <= 2 ^ 16) by (apply Z.pow_le_mono_r; lia).
  assert (Hp : 0 < 2 ^ n) by (apply Z.pow_pos_nonneg; lia).
  assert (Hb : 0 <= hi * 2 ^ n <= 255 * 2 ^ 16) by nia.
  rewrite shl_small by lia.
  apply bor_disjoint; lia.
Qed.

Lemma inputByte_range (bs : list Z) (i : nat) :
  Forall (fun b => 0 <= b <= 255) bs -> 0 <= inputByte bs i <= 255.
Proof.
  intros Hbs. unfold inputByte.
  destruct (bs !! i) as [b|] eqn:Hb; simpl; [| lia].
  exact (proj1 (Forall_lookup _ _) Hbs _ _ Hb).
Qed.

(** What the base block reader reads at a fixed offset. *)
Lemma baseByte (bs : list Z) (i : nat) :
  default 0 (byteAt bs (createBlockReader 0 0) (Z.of_nat i)) = inputByte bs i.
Proof.
  unfold inputByte. rewrite byteAt_eq. cbn [createBlockReader reader_blockOffset].
  cbv zeta. rewrite Z.add_0_l.
  destruct (Z.ltb_spec (Z.of_nat i) 0); [lia |].
  rewrite Nat2Z.id. cbn [orb].
  destruct (Z.leb_spec (Z.of_nat (length bs)) (Z.of_nat i)); [| reflexivity].
  rewrite lookup_ge_None_2 by lia. reflexivity.
Qed.

Ltac base_bytes :=
  repeat match goal with
         | |- context [default 0 (byteAt ?bs (createBlockReader 0 0) ?k)] =>
             let n := eval cbv in (Z.to_nat k) in
             change (default 0 (byteAt bs (createBlockReader 0 0) k))
               with (default 0 (byteAt bs (createBlockReader 0 0) (Z.of_nat n)));
             rewrite (baseByte bs n)
         end.

Ltac value_run :=
  repeat first
    [ rewrite value_bind by framed_auto
    | rewrite value_ret
    | rewrite value_u8OrZero
    | rewrite value_u8 ].

(** ** Product code and serial number *)

Lemma value_getProductCode bs :
  Forall (fun b => 0 <= b <= 255) bs ->
  value (getProductCode (createBlockReader 0 0)) bs
  = inputByte bs 10 + 256 * inputByte bs 11.
Proof.
  intros Hbs. unfold getProductCode. value_run. base_bytes.
  pose proof (inputByte_range bs 10 Hbs). pose proof (inputByte_range bs 11 Hbs).
  rewrite bor_shl by (cbn; lia). change (2 ^ 8) with 256. lia.
Qed.

Lemma value_getSerialNumberInt bs :
  Forall (fun b => 0 <= b <= 255) bs ->
  let u := inputByte bs 12 + 2 ^ 8 * inputByte bs 13
           + 2 ^ 16 * inputByte bs 14 + 2 ^ 24 * inputByte bs 15 in
  value (getSerialNumberInt (createBlockReader 0 0)) bs
  = if inputByte bs 15 <? 128 then u else u - 2 ^ 32.
Proof.
  intros Hbs u. subst u. unfold getSerialNumberInt. value_run. base_bytes.
  pose proof (inputByte_range bs 12 Hbs) as H1.
  pose proof (inputByte_range bs 13 Hbs) as H2.
  pose proof (inputByte_range bs 14 Hbs) as H3.
  pose proof (inputByte_range bs 15 Hbs) as H4.
  set (b1 := inputByte bs 12) in *. set (b2 := inputByte bs 13) in *.
  set (b3 := inputByte bs 14) in *. set (b4 := inputByte bs 15) in *.
  rewrite (shl_small b3 16) by lia. rewrite (shl_small b2 8) by lia.
  assert (H4' : JS.shl b4 24
                = (if b4 <? 128 then b4 else b4 - 256) * 2 ^ 24).
  { unfold JS.shl. rewrite (toInt32_small b4) by lia.
    rewrite Z.shiftl_mul_pow2 by lia. unfold JS.toInt32.
    destruct (Z.ltb_spec b4 128).
    - rewrite Z.mod_small by lia. lia.
    - replace (b4 * 2 ^ 24 + 2 ^ 31)
        with (b4 * 2 ^ 24 - 2 ^ 31 + 1 * 2 ^ 32) by lia.
      rewrite Z.mod_add by lia. rewrite Z.mod_small by lia. lia. }
  rewrite H4'. set (s4 := if b4 <? 128 then b4 else b4 - 256).
  assert (Hs4 : - 128 <= s4 <= 127) by (subst s4; destruct (Z.ltb_spec b4 128); lia).
  rewrite (bor_disjoint s4 (b3 * 2 ^ 16) 24) by lia.
  replace (s4 * 2 ^ 24 + b3 * 2 ^ 16) with ((s4 * 2 ^ 8 + b3) * 2 ^ 16) by lia.
  rewrite (bor_disjoint (s4 * 2 ^ 8 + b3) (b2 * 2 ^ 8) 16) by lia.
  replace ((s4 * 2 ^ 8 + b3) * 2 ^ 16 + b2 * 2 ^ 8)
    with ((s4 * 2 ^ 16 + b3 * 2 ^ 8 + b2) * 2 ^ 8) by lia.
  rewrite (bor_disjoint (s4 * 2 ^ 16 + b3 * 2 ^ 8 + b2) b1 8) by lia.
  subst s4. destruct (Z.ltb_spec b4 128); lia.
Qed.

Lemma band_low_bits (b n : Z) :
  0 <= b <= 255 -> 0 <= n <= 8 -> JS.band b (Z.ones n) = b mod 2 ^ n.
Proof.
  intros Hb Hn.
  assert (Hp : 0 < 2 ^ n <= 2 ^ 8)
    by (split; [apply Z.pow_pos_nonneg; lia | apply Z.pow_le_mono_r; lia]).
  rewrite band_byte; [apply Z.land_ones; lia | lia |].
  rewrite Z.ones_equiv. lia.
Qed.

Lemma shr_div (b n : Z) :
  0 <= b <= 255 -> 0 <= n -> JS.shr b n = b / 2 ^ n.
Proof.
  intros Hb Hn. rewrite shr_byte by exact Hb. apply Z.shiftr_div_pow2. exact Hn.
Qed.

Lemma div_pow2_byte (b n : Z) :
  0 <= b <= 255 -> 0 <= n -> 0 <= b / 2 ^ n <= 255.
Proof.
  intros Hb Hn.
  assert (Hp : 0 < 2 ^ n) by (apply Z.pow_pos_nonneg; lia).
  split; [apply Z.div_pos; lia |].
  apply Z.div_le_upper_bound; nia.
Qed.

(** [(byte >> k) & 0x03]. *)
Lemma band_shr_twoBits (b k : Z) :
  0 <= b <= 255 -> 0 <= k -> JS.band (JS.shr b k) 3 = twoBits b k.
Proof.
  intros Hb Hk. rewrite shr_div by assumption.
  change 3 with (Z.ones 2).
  rewrite band_low_bits by (try apply div_pow2_byte; lia). reflexivity.
Qed.

Lemma band_twoBits (b : Z) : 0 <= b <= 255 -> JS.band b 3 = twoBits b 0.
Proof.
  intros Hb. change 3 with (Z.ones 2). rewrite band_low_bits by lia.
  unfold twoBits. rewrite Z.div_1_r. reflexivity.
Qed.

Lemma twoBits_range (b k : Z) : 0 <= twoBits b k < 4.
Proof. unfold twoBits. apply Z.mod_pos_bound. lia. Qed.

(** ** The product identification fields *)

(** For every input, the product code is the little-endian 16-bit number of
    bytes 10..11, the serial number is the little-endian number of bytes
    12..15 wrapped to a signed 32-bit integer (negative exactly when byte 15
    is 128 or more), the week of manufacture is byte 16 and the year is 1990
    plus byte 17; a byte beyond the end of the input counts as 0. *)
Theorem product_info_fields m1 m2 m3 h (data : list Z) :
  let bs := map JS.clampByte data in
  let p := Edid.productInfo (parseEdid m1 m2 m3 h data) in
  let u := inputByte bs 12 + 2 ^ 8 * inputByte bs 13
           + 2 ^ 16 * inputByte bs 14 + 2 ^ 24 * inputByte bs 15 in
  Product.productCode p = Some (inputByte bs 10 + 256 * inputByte bs 11) /\
  Product.serialNumberInt p
  = Some (if inputByte bs 15 <? 128 then u else u - 2 ^ 32) /\
  Product.manufactureWeek p = Some (inputByte bs 16) /\
  Product.manufactureYear p = Some (inputByte bs 17 + 1990).
Proof.
  intros bs p u. subst p.
  destruct (parseEdid_parsed m1 m2 m3 h data) as (_ & _ & -> & _).
  destruct (parseBaseBlock_parsed m1 m2 m3 h (createBlockReader 0 0) bs)
    as (_ & _ & _ & _ & _ & _ & _ & _ & Hc & Hs & Hw & Hy & _).
  fold bs. rewrite Hc, Hs, Hw, Hy.
  pose proof (clamped_bytes data) as Hbs. fold bs in Hbs.
  rewrite value_getProductCode, value_getSerialNumberInt by exact Hbs.
  repeat split.
  - unfold getManufactureWeek. value_run. base_bytes. reflexivity.
  - unfold getManufactureYear. value_run. base_bytes. reflexivity.
Qed.

(** ** The vendor identifier *)

Lemma intToAscii_capital (l : Z) : 1 <= l <= 26 -> intToAscii l = capital l.
Proof.
  intros Hl.
  assert (Hcases : In l [1; 2; 3; 4; 5; 6; 7; 8; 9; 10; 11; 12; 13; 14; 15;
                         16; 17; 18; 19; 20; 21; 22; 23; 24; 25; 26])
    by (cbn; lia).
  cbn [In] in Hcases.
  repeat (destruct Hcases as [<- | Hcases]; [reflexivity |]).
  contradiction.
Qed.

Lemma value_getVendorId bs :
  Forall (fun b => 0 <= b <= 255) bs ->
  let b8 := inputByte bs 8 in
  let b9 := inputByte bs 9 in
  value (getVendorId (createBlockReader 0 0)) bs
  = (intToAscii (b8 / 4 mod 32) ++ intToAscii (b8 mod 4 * 8 + b9 / 32)
     ++ intToAscii (b9 mod 32))%string.
Proof.
  intros Hbs b8 b9. subst b8 b9. unfold getVendorId. value_run. base_bytes.
  pose proof (inputByte_range bs 8 Hbs) as H8.
  pose proof (inputByte_range bs 9 Hbs) as H9.
  set (b8 := inputByte bs 8) in *. set (b9 := inputByte bs 9) in *.
  rewrite !shr_div by lia.
  change 31 with (Z.ones 5). change 3 with (Z.ones 2) at 1.
  change 7 with (Z.ones 3).
  pose proof (div_pow2_byte b8 2 H8 ltac:(lia)).
  pose proof (div_pow2_byte b9 5 H9 ltac:(lia)).
  rewrite !band_low_bits by lia.
  pose proof (Z.mod_pos_bound b8 (2 ^ 2) ltac:(lia)).
  pose proof (Z.mod_pos_bound (b9 / 2 ^ 5) (2 ^ 3) ltac:(lia)).
  rewrite bor_shl by lia.
  assert (Hsmall : b9 / 2 ^ 5 < 8)
    by (apply Z.div_lt_upper_bound; lia).
  rewrite (Z.mod_small (b9 / 2 ^ 5)) by lia.
  reflexivity.
Qed.

(** The three letters of a vendor identifier packed into bytes 8 and 9, five
    bits each ([A] is 1, [Z] is 26), are decoded back: the base block's
    [vendorId] and the vendor information's [vid] are the three capitals. *)
Theorem vendor_id_round_trip m1 m2 m3 h (data : list Z) (l1 l2 l3 : Z) :
  1 <= l1 <= 26 -> 1 <= l2 <= 26 -> 1 <= l3 <= 26 ->
  data !! 8%nat = Some (4 * l1 + l2 / 8) ->
  data !! 9%nat = Some (32 * (l2 mod 8) + l3) ->
  let r := parseEdid m1 m2 m3 h data in
  Base.vendorId (Edid.baseBlock r)
  = (capital l1 ++ capital l2 ++ capital l3)%string /\
  vid (Edid.vendorInfo r) = (capital l1 ++ capital l2 ++ capital l3)%string.
Proof.
  intros H1 H2 H3 Hb8 Hb9 r. subst r.
  destruct (parseEdid_parsed m1 m2 m3 h data) as (-> & -> & _).
  destruct (parseBaseBlock_parsed m1 m2 m3 h (createBlockReader 0 0)
              (map JS.clampByte data))
    as (-> & _ & _ & _ & _ & _ & _ & -> & _).
  assert (Hvid : value (getVendorId (createBlockReader 0 0))
                   (map JS.clampByte data)
                 = (capital l1 ++ capital l2 ++ capital l3)%string).
  { rewrite value_getVendorId by apply clamped_bytes. cbv zeta.
    unfold inputByte. rewrite !list_lookup_fmap, Hb8, Hb9.
    cbn [fmap option_fmap option_map default].
    unfold JS.clampByte.
    rewrite (Z.min_r 255 (4 * l1 + l2 / 8)) by div_lia.
    rewrite (Z.max_r 0 (4 * l1 + l2 / 8)) by div_lia.
    rewrite (Z.min_r 255 (32 * (l2 mod 8) + l3)) by div_lia.
    rewrite (Z.max_r 0 (32 * (l2 mod 8) + l3)) by div_lia.
    assert (E1 : (4 * l1 + l2 / 8) / 4 mod 32 = l1) by div_lia.
    assert (E2 : (4 * l1 + l2 / 8) mod 4 * 8 + (32 * (l2 mod 8) + l3) / 32
                 = l2) by div_lia.
    assert (E3 : (32 * (l2 mod 8) + l3) mod 32 = l3) by div_lia.
    unfold id. rewrite E1, E2, E3, !intToAscii_capital by lia. reflexivity. }
  split; [exact Hvid |].
  rewrite Hvid. reflexivity.
Qed.

Lemma vendor_id_round_trip_witness :
  Base.vendorId
    (Edid.baseBlock
       (parseEdid noVendorMap noVendorMap noVendorMap hypotApprox
          (exampleBaseBlock 0))) = "DEL"%string /\
  vid (Edid.vendorInfo
         (parseEdid noVendorMap noVendorMap noVendorMap hypotApprox
            (exampleBaseBlock 0))) = "DEL"%string.
Proof.
  apply (vendor_id_round_trip noVendorMap noVendorMap noVendorMap hypotApprox
           (exampleBaseBlock 0) 4 5 12); try lia; reflexivity.
Defined.

(** ** Basic display parameters *)

Lemma truthy_band_shr (b k : Z) :
  0 <= b <= 255 -> 0 <= k ->
  JS.truthy (JS.band (JS.shr b k) 1) = Z.testbit b k.
Proof.
  intros Hb Hk. change 1 with (2 ^ 0).
  rewrite band_bit_truthy by lia. rewrite shr_byte by exact Hb.
  rewrite Z.shiftr_spec by lia. reflexivity.
Qed.

Lemma value_getBasicDisplayParams_input h bs :
  Forall (fun b => 0 <= b <= 255) bs ->
  let v := inputByte bs 20 in
  let bdp := value (getBasicDisplayParams h (createBlockReader 0 0)) bs in
  isDigital bdp = Z.testbit v 7 /\
  if isDigital bdp then
    isVesaDfpCompatible bdp = Some (Z.testbit v 0) /\
    whiteSyncLevels bdp = None /\ isBlankToBlack bdp = None /\
    isSeparateSyncSupported bdp = None /\
    isCompositeSyncSupported bdp = None /\
    isSyncOnGreen bdp = None /\ isVsyncSerrated bdp = None
  else
    isVesaDfpCompatible bdp = None /\
    whiteSyncLevels bdp = Some (twoBits v 5) /\
    isBlankToBlack bdp = Some (Z.testbit v 4) /\
    isSeparateSyncSupported bdp = Some (Z.testbit v 3) /\
    isCompositeSyncSupported bdp = Some (Z.testbit v 2) /\
    isSyncOnGreen bdp = Some (Z.testbit v 1) /\
    isVsyncSerrated bdp = Some (Z.testbit v 0).
Proof.
  intros Hbs v bdp. subst bdp v. unfold getBasicDisplayParams.
  value_run. base_bytes.
  pose proof (inputByte_range bs 20 Hbs) as Hv.
  set (v := inputByte bs 20) in *.
  cbn [isDigital isVesaDfpCompatible whiteSyncLevels isBlankToBlack
       isSeparateSyncSupported isCompositeSyncSupported isSyncOnGreen
       isVsyncSerrated].
  change 128 with (2 ^ 7). rewrite (band_bit_truthy v 7) by lia.
  split; [reflexivity |].
  destruct (Z.testbit v 7).
  - change (JS.band v 1) with (JS.band v (2 ^ 0)).
    rewrite band_bit_truthy by lia. repeat split.
  - rewrite band_shr_twoBits, !truthy_band_shr by lia.
    change (JS.band v 1) with (JS.band v (2 ^ 0)).
    rewrite band_bit_truthy by lia. repeat split.
Qed.

(** For every input the video input byte (byte 20) is decoded either as a
    digital or as an analog definition, never both: bit 7 selects digital;
    a digital display reports only the VESA DFP flag (bit 0) and none of the
    analog fields; an analog display reports the white and sync levels
    (bits 6..5) and the sync flags (bits 4..0) and no DFP flag. *)
Theorem display_params_digital_or_analog m1 m2 m3 h (data : list Z) :
  let v := inputByte (map JS.clampByte data) 20 in
  exists bdp,
    Edid.basicDisplayParams (parseEdid m1 m2 m3 h data) = Some bdp /\
    isDigital bdp = Z.testbit v 7 /\
    if isDigital bdp then
      isVesaDfpCompatible bdp = Some (Z.testbit v 0) /\
      whiteSyncLevels bdp = None /\ isBlankToBlack bdp = None /\
      isSeparateSyncSupported bdp = None /\
      isCompositeSyncSupported bdp = None /\
      isSyncOnGreen bdp = None /\ isVsyncSerrated bdp = None
    else
      isVesaDfpCompatible bdp = None /\
      whiteSyncLevels bdp = Some (twoBits v 5) /\
      isBlankToBlack bdp = Some (Z.testbit v 4) /\
      isSeparateSyncSupported bdp = Some (Z.testbit v 3) /\
      isCompositeSyncSupported bdp = Some (Z.testbit v 2) /\
      isSyncOnGreen bdp = Some (Z.testbit v 1) /\
      isVsyncSerrated bdp = Some (Z.testbit v 0).
Proof.
  intros v. subst v.
  destruct (parseEdid_parsed m1 m2 m3 h data) as (_ & _ & _ & -> & _).
  destruct (parseBaseBlock_parsed m1 m2 m3 h (createBlockReader 0 0)
              (map JS.clampByte data))
    as (_ & _ & _ & _ & _ & _ & _ & _ & _ & _ & _ & _ & -> & _).
  eexists. split; [reflexivity |].
  apply value_getBasicDisplayParams_input, clamped_bytes.
Qed.

(** ** Chromaticity coordinates *)

Lemma bor_shl_twoBits (msb lsb : Z) :
  0 <= msb <= 255 -> 0 <= lsb < 4 ->
  JS.bor (JS.shl msb 2) lsb = 4 * msb + lsb.
Proof.
  intros Hm Hl. rewrite bor_shl by (cbn; lia). change (2 ^ 2) with 4. lia.
Qed.

(** For every input each of the eight chromaticity coordinates is the
    10-bit number made of its most significant byte (bytes 27..34) and its
    two low bits in byte 25 (red, green) or 26 (blue, white); it lies in
    0..1023, and the coordinate reported is that number divided by 1024. *)
Theorem chromaticity_ten_bit m1 m2 m3 h (data : list Z) :
  let bs := map JS.clampByte data in
  let b := inputByte bs in
  exists c,
    Base.chromaticity (Edid.baseBlock (parseEdid m1 m2 m3 h data)) = Some c /\
    redX c = 4 * b 27%nat + twoBits (b 25%nat) 6 /\
    redY c = 4 * b 28%nat + twoBits (b 25%nat) 4 /\
    greenX c = 4 * b 29%nat + twoBits (b 25%nat) 2 /\
    greenY c = 4 * b 30%nat + twoBits (b 25%nat) 0 /\
    blueX c = 4 * b 31%nat + twoBits (b 26%nat) 6 /\
    blueY c = 4 * b 32%nat + twoBits (b 26%nat) 4 /\
    whiteX c = 4 * b 33%nat + twoBits (b 26%nat) 2 /\
    whiteY c = 4 * b 34%nat + twoBits (b 26%nat) 0 /\
    Forall (fun v => 0 <= v <= 1023)
      [redX c; redY c; greenX c; greenY c; blueX c; blueY c; whiteX c;
       whiteY c] /\
    [redXCoords c; redYCoords c; greenXCoords c; greenYCoords c;
     blueXCoords c; blueYCoords c; whiteXCoords c; whiteYCoords c]
    = map (fun v => Some (inject_Z v / 1024)%Q)
        [redX c; redY c; greenX c; greenY c; blueX c; blueY c; whiteX c;
         whiteY c].
Proof.
  intros bs b.
  destruct (parseEdid_parsed m1 m2 m3 h data) as (-> & _).
  destruct (parseBaseBlock_parsed m1 m2 m3 h (createBlockReader 0 0) bs)
    as (_ & Hc & _).
  fold bs. rewrite Hc. eexists. split; [reflexivity |].
  pose proof (clamped_bytes data) as Hbs. fold bs in Hbs.
  unfold getChromaticityCoordinates. value_run. base_bytes. fold b.
  cbn [redX redY greenX greenY blueX blueY whiteX whiteY
       redXCoords redYCoords greenXCoords greenYCoords blueXCoords
       blueYCoords whiteXCoords whiteYCoords map].
  assert (Hb : forall i, 0 <= b i <= 255)
    by (intros i; apply inputByte_range, Hbs).
  rewrite !band_shr_twoBits, !band_twoBits by (try apply Hb; lia).
  pose proof (fun x k => twoBits_range x k) as Ht.
  rewrite !bor_shl_twoBits by (try apply Hb; try apply Ht).
  repeat split.
  repeat constructor;
    match goal with
    | |- _ <= 4 * b ?i + twoBits ?x ?k =>
        pose proof (Hb i); pose proof (Ht x k); lia
    | |- 4 * b ?i + twoBits ?x ?k <= _ =>
        pose proof (Hb i); pose proof (Ht x k); lia
    end.
Qed.

(** ** Detailed timing descriptors *)

Lemma byteOrZero_range (bs : list Z) (reader : BlockReader) (off : Z) :
  Forall (fun b => 0 <= b <= 255) bs ->
  0 <= default 0 (byteAt bs reader off) <= 255.
Proof.
  intros Hbs. destruct (byteAt bs reader off) as [b|] eqn:Hb; simpl; [| lia].
  exact (byteAt_range _ _ _ _ Hbs Hb).
Qed.

(** [((x & mask) << n) | lo] for a [w]-bit mask and an [n]-bit [lo]. *)
Lemma packed_field (x lo w n : Z) :
  0 <= x <= 255 -> 0 <= w <= 8 -> 0 <= n <= 16 -> 0 <= lo < 2 ^ n ->
  0 <= JS.bor (JS.shl (JS.band x (Z.ones w)) n) lo < 2 ^ (w + n).
Proof.
  intros Hx Hw Hn Hlo.
  rewrite band_low_bits by lia.
  assert (Hp : 0 < 2 ^ w <= 2 ^ 8)
    by (split; [apply Z.pow_pos_nonneg; lia | apply Z.pow_le_mono_r; lia]).
  pose proof (Z.mod_pos_bound x (2 ^ w) ltac:(lia)) as Hm.
  rewrite bor_shl by lia.
  rewrite Z.pow_add_r by lia.
  assert (Hq : 0 < 2 ^ n) by (apply Z.pow_pos_nonneg; lia).
  nia.
Qed.

Lemma within_intro (lo hi z : Z) : lo <= z <= hi -> within lo hi (Some z).
Proof. intros H. exists z. auto. Qed.

Lemma shr_range (b k : Z) :
  0 <= b <= 255 -> 0 <= k -> 0 <= JS.shr b k <= 255.
Proof. intros Hb Hk. rewrite shr_div by assumption. apply div_pow2_byte; assumption. Qed.

Lemma band_range (x w : Z) :
  0 <= x <= 255 -> 0 <= w <= 8 -> 0 <= JS.band x (Z.ones w) < 2 ^ w.
Proof.
  intros Hx Hw. rewrite band_low_bits by lia.
  apply Z.mod_pos_bound. apply Z.pow_pos_nonneg; lia.
Qed.

Ltac byte_goal :=
  first [ assumption | apply shr_range; [assumption | lia] ].

Ltac low_goal :=
  match goal with
  | |- 0 <= JS.band ?y ?m < _ =>
      let w := eval cbv in (Z.log2 (m + 1)) in
      change (JS.band y m) with (JS.band y (Z.ones w));
      apply band_range; [byte_goal | lia]
  | |- _ => cbn; lia
  end.

(** Bounds of a field packed as [((x & mask) << n) | lo] or [x & mask]. *)
Ltac packed :=
  match goal with
  | |- 0 <= JS.bor (JS.shl (JS.band ?x ?m) ?n) ?l <= _ =>
      let w := eval cbv in (Z.log2 (m + 1)) in
      let P := fresh "P" in
      assert (P : 0 <= JS.bor (JS.shl (JS.band x (Z.ones w)) n) l
                  < 2 ^ (w + n))
        by (apply packed_field; [byte_goal | lia | lia | low_goal]);
      let k := eval cbv in (2 ^ (w + n)) in
      change (2 ^ (w + n)) with k in P;
      change (Z.ones w) with m in P; lia
  | |- 0 <= JS.band ?x ?m <= _ =>
      let w := eval cbv in (Z.log2 (m + 1)) in
      let P := fresh "P" in
      assert (P : 0 <= JS.band x (Z.ones w) < 2 ^ w)
        by (apply band_range; [byte_goal | lia]);
      let k := eval cbv in (2 ^ w) in
      change (2 ^ w) with k in P;
      change (Z.ones w) with m in P; lia
  end.

Lemma parseDtd_wellFormed h bs reader i lo hi :
  Forall (fun b => 0 <= b <= 255) bs ->
  byteAt bs reader i = Some lo -> byteAt bs reader (i + 1) = Some hi ->
  (lo =? 0) && (hi =? 0) = false ->
  exists d, value (parseDtd h reader i) bs = Some d /\ dtdWellFormed d.
Proof.
  intros Hbs Hlo Hhi Hnz. unfold parseDtd.
  rewrite value_bind by framed_auto. rewrite value_u8, Hlo.
  rewrite value_bind by framed_auto. rewrite value_u8, Hhi.
  value_run. eexists. split; [reflexivity |].
  pose proof (byteAt_range _ _ _ _ Hbs Hlo) as Rlo.
  pose proof (byteAt_range _ _ _ _ Hbs Hhi) as Rhi.
  assert (Hb : forall off, 0 <= default 0 (byteAt bs reader off) <= 255)
    by (intros off; apply byteOrZero_range, Hbs).
  unfold dtdWellFormed.
  cbn [pixelClockMhz horizontalActivePixels horizontalBlankLineCount
       verticalActivePixels verticalBlankLineCount horizontalSyncOffsetPixels
       horizontalSyncPulsePixels verticalSyncOffset verticalSyncPulseLineCount
       horizontalDisplaySizeInMm verticalDisplaySizeInMm
       horizontalBorderPixels verticalBorderLines stereoModeCode syncTypeCode
       vSyncPolarity vSyncSerrated syncAllRGBLines hSyncPolarity].
  repeat match goal with
         | |- context [default 0 (byteAt bs reader ?off)] =>
             let v := fresh "v" in
             let Hv := fresh "Hv" in
             pose proof (Hb off) as Hv;
             set (v := default 0 (byteAt bs reader off)) in *;
             clearbody v
         end.
  clear Hb.
  repeat match goal with
         | |- _ /\ _ => split
         end.
  all: try (apply within_intro).
  - exists (hi * 2 ^ 8 + lo). rewrite bor_shl by (cbn; lia).
    split; [| reflexivity].
    destruct (Z.eqb_spec lo 0), (Z.eqb_spec hi 0); try discriminate; lia.
  - packed.
  - packed.
  - packed.
  - packed.
  - packed.
  - packed.
  - packed.
  - packed.
  - packed.
  - packed.
  - lia.
  - lia.
  - packed.
  - packed.
  - unfold SYNC_TYPE_DIGITAL_SEPARATE.
    destruct (Z.eqb_spec (JS.band (JS.shr v14 3) 3) 3) as [E|E].
    + rewrite bool_decide_true by congruence. split; congruence.
    + rewrite bool_decide_false by congruence. split; congruence.
  - unfold SYNC_TYPE_ANALOG_COMPOSITE, SYNC_TYPE_BIPOLAR_ANALOG_COMPOSITE.
    destruct (Z.eqb_spec (JS.band (JS.shr v14 3) 3) 0) as [E0|E0];
      destruct (Z.eqb_spec (JS.band (JS.shr v14 3) 3) 1) as [E1|E1];
      cbn [orb];
      try (rewrite bool_decide_true by (first [left; congruence
                                              | right; congruence]);
           split; congruence).
    rewrite bool_decide_false by (intros [?|?]; congruence).
    split; congruence.
Qed.

Lemma value_getDtds_step h reader i arr bs :
  value (getDtds_step h reader i arr) bs =
  match byteAt bs reader i, byteAt bs reader (i + 1) with
  | Some lo, Some hi =>
      if (lo =? 0) && (hi =? 0) then None
      else match value (parseDtd h reader i) bs with
           | Some d => Some (arr ++ [d])
           | None => Some arr
           end
  | _, _ => None
  end.
Proof.
  unfold getDtds_step.
  rewrite value_bind by framed_auto. rewrite value_u8.
  rewrite value_bind by framed_auto. rewrite value_u8.
  destruct (byteAt bs reader i) as [lo|];
    destruct (byteAt bs reader (i + 1)) as [hi|]; try reflexivity.
  destruct ((lo =? 0) && (hi =? 0)); [reflexivity |].
  rewrite value_bind by framed_auto.
  destruct (value (parseDtd h reader i) bs); reflexivity.
Qed.

Lemma value_getDtds_loop h reader i e arr bs :
  value (getDtds_loop h reader i e arr) bs =
  if i <? e then
    match value (getDtds_step h reader i arr) bs with
    | None => arr
    | Some arr' => value (getDtds_loop h reader (i + DTD_LENGTH) e arr') bs
    end
  else arr.
Proof.
  unfold value at 1. rewrite getDtds_loop_unfolded.
  destruct (i <? e); [| reflexivity].
  match goal with
  | |- fst (bind ?m ?k _) = ?rhs => change (value (bind m k) bs = rhs)
  end.
  rewrite value_bind.
  - destruct (value (getDtds_step h reader i arr) bs); reflexivity.
  - auto with framed.
  - destruct (value (getDtds_step h reader i arr) bs); [| apply framed_ret].
    eapply framed_getDtds_loop. reflexivity.
Qed.

Lemma getDtds_loop_wellFormed h bs reader e :
  Forall (fun b => 0 <= b <= 255) bs ->
  forall (n : nat) i arr,
    (Z.to_nat (e - i) <= n)%nat ->
    Forall dtdWellFormed arr ->
    let dtds := value (getDtds_loop h reader i e arr) bs in
    Forall dtdWellFormed dtds /\
    Z.of_nat (length dtds)
    <= Z.of_nat (length arr) + Z.max 0 ((e - i + 17) / 18).
Proof.
  intros Hbs. induction n as [|n IH]; intros i arr Hn Harr dtds; subst dtds;
    rewrite value_getDtds_loop;
    destruct (Z.ltb_spec i e) as [Hlt|Hge];
    try (split; [exact Harr | lia]); [lia |].
  rewrite value_getDtds_step.
  destruct (byteAt bs reader i) as [lo|] eqn:Hlo; [| split; [exact Harr | lia]].
  destruct (byteAt bs reader (i + 1)) as [hi|] eqn:Hhi;
    [| split; [exact Harr | lia]].
  destruct ((lo =? 0) && (hi =? 0)) eqn:Hz; [split; [exact Harr | lia] |].
  destruct (parseDtd_wellFormed h bs reader i lo hi Hbs Hlo Hhi Hz)
    as (d & -> & Hd).
  unfold DTD_LENGTH in *.
  destruct (IH (i + 18) (arr ++ [d]) ltac:(lia)
              ltac:(apply Forall_app; split; [exact Harr | constructor; [exact Hd | constructor]]))
    as [Hwf Hlen].
  split; [exact Hwf |].
  rewrite length_app in Hlen. cbn [length] in Hlen.
  assert (Hstep : Z.max 0 ((e - (i + 18) + 17) / 18) + 1
                  <= Z.max 0 ((e - i + 17) / 18)) by div_lia.
  lia.
Qed.

Lemma getDtds_wellFormed h bs reader s e :
  Forall (fun b => 0 <= b <= 255) bs ->
  Forall dtdWellFormed (value (getDtds h reader s e) bs) /\
  Z.of_nat (length (value (getDtds h reader s e) bs))
  <= Z.max 0 ((e - s + 17) / 18).
Proof.
  intros Hbs. unfold getDtds.
  destruct (getDtds_loop_wellFormed h bs reader e Hbs
              (Z.to_nat (e - s)) s [] ltac:(lia) ltac:(constructor))
    as [H1 H2].
  split; [exact H1 | exact H2].
Qed.

(** ** The extension blocks of a parse result *)

Lemma framed_extension_step h i st :
  framed (parseExtensions_step (decodeCtaExtension h) decodeDisplayIdExtension
            i st).
Proof.
  apply framed_parseExtensions_step;
    [apply framed_decodeCtaExtension | apply framed_decodeDisplayIdExtension].
Qed.

Lemma value_extension_step h i exts ctx bs :
  value (parseExtensions_step (decodeCtaExtension h) decodeDisplayIdExtension
           i (exts, ctx)) bs =
  match byteAt bs (extensionReader i) 0 with
  | None => Break (exts, ctx)
  | Some extTag =>
      if extTag =? CTA_EXTENSION_TAG then
        let r := value (parseCtaExtension h (extensionReader i) i ctx) bs in
        Continue (exts ++ [fst r], snd r)
      else if extTag =? DISPLAYID_EXTENSION_TAG then
        Continue
          (exts ++ [value (parseDisplayIdExtension (extensionReader i) i) bs],
           ctx)
      else
        Continue
          (exts ++ [value (parseUnknownExtension (extensionReader i) i) bs],
           ctx)
  end.
Proof.
  unfold parseExtensions_step, extensionReader.
  rewrite value_bind by framed_auto. rewrite value_u8.
  destruct (byteAt bs _ 0) as [extTag|]; [| reflexivity].
  rewrite value_bind by framed_auto.
  destruct (extTag =? CTA_EXTENSION_TAG);
    [| destruct (extTag =? DISPLAYID_EXTENSION_TAG)].
  - unfold decodeCtaExtension. rewrite value_bind by framed_auto.
    rewrite !value_ret. reflexivity.
  - unfold decodeDisplayIdExtension. rewrite value_bind by framed_auto.
    rewrite !value_ret. reflexivity.
  - rewrite value_bind by framed_auto. rewrite !value_ret. reflexivity.
Qed.

(** Reading inside block [k + 1] of the input. *)
Lemma extension_byte bs (k : nat) (off : nat) :
  (off < 128)%nat ->
  byteAt bs (extensionReader (Z.of_nat k)) (Z.of_nat off)
  = bs !! (128 * S k + off)%nat.
Proof.
  intros Hoff. rewrite byteAt_eq.
  cbn [extensionReader createBlockReader reader_blockOffset]. cbv zeta.
  unfold EDID_BLOCK_LENGTH.
  replace (128 * (Z.of_nat k + 1) + Z.of_nat off)
    with (Z.of_nat (128 * S k + off)) by lia.
  destruct (Z.ltb_spec (Z.of_nat (128 * S k + off)) 0); [lia |].
  rewrite Nat2Z.id. cbn [orb].
  destruct (Z.leb_spec (Z.of_nat (length bs)) (Z.of_nat (128 * S k + off)));
    [| reflexivity].
  symmetry. apply lookup_ge_None_2. lia.
Qed.

Lemma extension_byteOrZero bs (k : nat) (off : nat) :
  (off < 128)%nat ->
  default 0 (byteAt bs (extensionReader (Z.of_nat k)) (Z.of_nat off))
  = inputByte bs (128 * S k + off).
Proof. intros Hoff. rewrite extension_byte by exact Hoff. reflexivity. Qed.

Lemma extension_rawBytes bs (k : nat) :
  value (blockRawBytes (extensionReader (Z.of_nat k))) bs
  = blockBytes bs (S k).
Proof.
  unfold blockRawBytes. rewrite value_bind by framed_auto.
  rewrite value_getBytes, value_ret.
  unfold slice, blockBytes, extensionReader, EDID_BLOCK_LENGTH.
  cbn [createBlockReader reader_blockOffset].
  replace (128 * (Z.of_nat k + 1) + 128 - 128 * (Z.of_nat k + 1)) with 128
    by lia.
  replace (Z.to_nat (128 * (Z.of_nat k + 1))) with (128 * S k)%nat by lia.
  reflexivity.
Qed.

Lemma value_readExtensionHeader reader bs :
  value (readExtensionHeader reader) bs =
  let b off := default 0 (byteAt bs reader off) in
  (b 0, b 1, b 2, JS.band (b 3) 0x0f,
   (flag (b 3) 0x80, flag (b 3) 0x40, flag (b 3) 0x20, flag (b 3) 0x10)).
Proof. unfold readExtensionHeader. value_run. reflexivity. Qed.

Lemma parseCtaExtension_fields h reader i ctx bs :
  let ext := fst (value (parseCtaExtension h reader i ctx) bs) in
  let b off := default 0 (byteAt bs reader off) in
  Extension.blockNumber ext = i + 1 /\
  Extension.extTagByte ext = b 0 /\
  Extension.revisionNumber ext = b 1 /\
  Extension.dtdStart ext = b 2 /\
  Extension.numDtds ext = JS.band (b 3) 0x0f /\
  Extension.dtds ext = value (getDtds h reader (b 2) 126) bs /\
  Extension.checksum ext = b 127 /\
  Extension.rawBytes ext = value (blockRawBytes reader) bs /\
  Extension.isChecksumValid ext = value (validChecksum (i + 1) (i + 1)) bs /\
  Extension.extensionType ext = Some cta_861 /\
  Extension.dataBlockCollection ext
  = (if negb (b 2 =? 4)
     then Some (fst (value (parseDataBlockCollection reader (b 2) ctx) bs))
     else None).
Proof.
  intros ext b. subst ext b. unfold parseCtaExtension.
  rewrite !value_bind by framed_auto.
  rewrite !value_readExtensionHeader. cbv zeta iota beta.
  destruct (negb (default 0 (byteAt bs reader 2) =? 4)) eqn:Hd.
  - rewrite !(value_bind (blockRawBytes reader)) by framed_auto.
    rewrite !(value_bind (do r <- parseDataBlockCollection _ _ _; _))
      by framed_auto.
    rewrite !(value_bind (parseDataBlockCollection _ _ _)) by framed_auto.
    rewrite !value_ret. cbv iota beta. value_run. cbn. repeat split.
  - rewrite !(value_bind (blockRawBytes reader)) by framed_auto.
    rewrite !(value_bind (ret _)) by framed_auto.
    rewrite !value_ret. cbv iota beta. value_run. cbn. repeat split.
Qed.

Lemma parseDisplayIdExtension_fields reader i bs :
  let ext := value (parseDisplayIdExtension reader i) bs in
  let b off := default 0 (byteAt bs reader off) in
  Extension.blockNumber ext = i + 1 /\
  Extension.extTagByte ext = b 0 /\
  Extension.revisionNumber ext = b 1 /\
  Extension.dtdStart ext = Z.min 127 (5 + b 2) /\
  Extension.dtds ext = [] /\
  Extension.checksum ext = b 127 /\
  Extension.rawBytes ext = value (blockRawBytes reader) bs /\
  Extension.isChecksumValid ext = value (validChecksum (i + 1) (i + 1)) bs /\
  Extension.extensionType ext = Some displayid /\
  Extension.dataBlockCollection ext = None.
Proof.
  intros ext b. subst ext b.
  unfold parseDisplayIdExtension. value_run. cbn. repeat split.
Qed.

Lemma parseUnknownExtension_fields reader i bs :
  let ext := value (parseUnknownExtension reader i) bs in
  let b off := default 0 (byteAt bs reader off) in
  Extension.blockNumber ext = i + 1 /\
  Extension.extTagByte ext = b 0 /\
  Extension.revisionNumber ext = b 1 /\
  Extension.dtdStart ext = b 2 /\
  Extension.dtds ext = [] /\
  Extension.checksum ext = b 127 /\
  Extension.rawBytes ext = value (blockRawBytes reader) bs /\
  Extension.isChecksumValid ext = value (validChecksum (i + 1) (i + 1)) bs /\
  Extension.extensionType ext = Some unknown /\
  Extension.dataBlockCollection ext = None.
Proof.
  intros ext b. subst ext b. unfold parseUnknownExtension.
  rewrite !value_bind by framed_auto.
  rewrite !value_readExtensionHeader. cbv zeta iota beta.
  value_run. cbn. repeat split.
Qed.

Lemma extensionTypeOf_other (extTag : Z) :
  (extTag =? CTA_EXTENSION_TAG) = false ->
  (extTag =? DISPLAYID_EXTENSION_TAG) = false ->
  extensionTypeOf extTag = unknown.
Proof. intros H1 H2. unfold extensionTypeOf. rewrite H1, H2. reflexivity. Qed.

(** One iteration of the loop on a block the input holds. *)
Lemma extension_step_block h bs (k : nat) exts ctx :
  (128 * S k < length bs)%nat ->
  exists ext ctx',
    value (parseExtensions_step (decodeCtaExtension h) decodeDisplayIdExtension
             (Z.of_nat k) (exts, ctx)) bs
    = Continue (exts ++ [ext], ctx') /\
    extensionOfBlock bs k ext /\
    Extension.isChecksumValid ext
    = value (validChecksum (Z.of_nat k + 1) (Z.of_nat k + 1)) bs.
Proof.
  intros Hlen. rewrite value_extension_step.
  pose proof (extension_byte bs k 0 ltac:(lia)) as Htag.
  change (Z.of_nat 0) with 0 in Htag. rewrite Nat.add_0_r in Htag.
  destruct (lookup_lt_is_Some_2 bs (128 * S k)%nat Hlen) as [extTag HextTag].
  rewrite Htag, HextTag.
  assert (Hb : forall off : nat,
             (off < 128)%nat ->
             default 0 (byteAt bs (extensionReader (Z.of_nat k)) (Z.of_nat off))
             = inputByte bs (128 * S k + off))
    by (intros off Hoff; apply extension_byteOrZero; exact Hoff).
  pose proof (Hb 0%nat ltac:(lia)) as Hb0.
  pose proof (Hb 1%nat ltac:(lia)) as Hb1.
  pose proof (Hb 127%nat ltac:(lia)) as Hb127.
  change (Z.of_nat 0) with 0 in Hb0. change (Z.of_nat 1) with 1 in Hb1.
  change (Z.of_nat 127) with 127 in Hb127.
  assert (Htag0 : inputByte bs (128 * S k + 0) = extTag)
    by (unfold inputByte; rewrite Nat.add_0_r, HextTag; reflexivity).
  destruct (extTag =? CTA_EXTENSION_TAG) eqn:Hcta;
    [| destruct (extTag =? DISPLAYID_EXTENSION_TAG) eqn:Hdid].
  - cbv zeta. do 2 eexists. split; [reflexivity |].
    destruct (parseCtaExtension_fields h (extensionReader (Z.of_nat k))
                (Z.of_nat k) ctx bs)
      as (Hn & Ht & Hr & _ & _ & _ & Hc & Hraw & Hsum & Hty & _).
    split; [| exact Hsum].
    unfold extensionOfBlock. cbv zeta.
    rewrite Hn, Ht, Hr, Hc, Hraw, Hty, Hb0, Hb1, Hb127, Htag0.
    rewrite extension_rawBytes. unfold extensionTypeOf. rewrite Hcta.
    apply Z.eqb_eq in Hcta.
    repeat split; [lia | rewrite HextTag; reflexivity | left; exact Hcta].
  - do 2 eexists. split; [reflexivity |].
    destruct (parseDisplayIdExtension_fields (extensionReader (Z.of_nat k))
                (Z.of_nat k) bs)
      as (Hn & Ht & Hr & _ & Hd & Hc & Hraw & Hsum & Hty & Hdb).
    split; [| exact Hsum].
    unfold extensionOfBlock. cbv zeta.
    rewrite Hn, Ht, Hr, Hc, Hraw, Hty, Hb0, Hb1, Hb127, Htag0, Hd, Hdb.
    rewrite extension_rawBytes. unfold extensionTypeOf. rewrite Hcta, Hdid.
    repeat split; [lia | rewrite HextTag; reflexivity | right; split; reflexivity].
  - do 2 eexists. split; [reflexivity |].
    destruct (parseUnknownExtension_fields (extensionReader (Z.of_nat k))
                (Z.of_nat k) bs)
      as (Hn & Ht & Hr & _ & Hd & Hc & Hraw & Hsum & Hty & Hdb).
    split; [| exact Hsum].
    unfold extensionOfBlock. cbv zeta.
    rewrite Hn, Ht, Hr, Hc, Hraw, Hty, Hb0, Hb1, Hb127, Htag0, Hd, Hdb.
    rewrite extension_rawBytes. unfold extensionTypeOf. rewrite Hcta, Hdid.
    repeat split; [lia | rewrite HextTag; reflexivity | right; split; reflexivity].
Qed.

(** What [extension_step_block] establishes of the extension at position
    [k]. *)
Local Notation "'decodedFrom' bs k ext" :=
  (extensionOfBlock bs k ext /\
   Extension.isChecksumValid ext
   = value (validChecksum (Z.of_nat k + 1) (Z.of_nat k + 1)) bs)
  (at level 10, bs at level 9, k at level 9, ext at level 9).

Lemma forLoop_extensions h bs (n : nat) :
  forall (k : nat) exts ctx,
    length exts = k ->
    (n = 0 \/ 128 * (k + n) < length bs)%nat ->
    (forall j ext, exts !! j = Some ext -> decodedFrom bs j ext) ->
    let r :=
      fst (value (forLoop n (Z.of_nat k)
                    (parseExtensions_step (decodeCtaExtension h)
                       decodeDisplayIdExtension) (exts, ctx)) bs) in
    length r = (k + n)%nat /\
    forall j ext, r !! j = Some ext -> decodedFrom bs j ext.
Proof.
  induction n as [|n IH]; intros k exts ctx Hk Hlen Hexts r; subst r.
  - cbn [forLoop]. rewrite value_ret. cbn [fst]. split; [lia | exact Hexts].
  - rewrite value_forLoop_S by (intros; apply framed_extension_step).
    destruct (extension_step_block h bs k exts ctx ltac:(lia))
      as (ext & ctx' & -> & Hext).
    replace (Z.of_nat k + 1) with (Z.of_nat (S k)) by lia.
    destruct (IH (S k) (exts ++ [ext]) ctx') as [Hl Hall].
    + rewrite length_app. cbn [length]. lia.
    + destruct n; [left; reflexivity | right; lia].
    + intros j e Hj. apply lookup_app_Some in Hj.
      destruct Hj as [Hj | [Hge Hj]]; [exact (Hexts j e Hj) |].
      rewrite Hk in Hj, Hge.
      destruct (j - k)%nat as [|d] eqn:Hd; [| discriminate].
      cbn in Hj. injection Hj as <-.
      replace j with k by lia. exact Hext.
    + split; [lia | exact Hall].
Qed.

Lemma value_parseExtensions h count context bs :
  value (parseExtensions h count context) bs
  = fst (value (forLoop (Z.to_nat count) 0
                  (parseExtensions_step (decodeCtaExtension h)
                     decodeDisplayIdExtension) ([], context)) bs).
Proof.
  unfold parseExtensions, parseExtensionsWith.
  rewrite value_bind;
    [| apply framed_forLoop; intros; apply framed_extension_step
     | intros; apply framed_ret].
  apply value_ret.
Qed.

Lemma parseEdid_extensions_decoded m1 m2 m3 h data :
  let bs := map JS.clampByte data in
  let exts := Edid.extensions (parseEdid m1 m2 m3 h data) in
  Z.of_nat (length exts) = availableExtensions bs /\
  forall k ext, exts !! k = Some ext -> decodedFrom bs k ext.
Proof.
  intros bs exts. subst exts.
  destruct (parseEdid_shape m1 m2 m3 h data) as (_ & _ & _ & _ & -> & _).
  fold bs. rewrite value_parseExtensions.
  assert (Hav : 128 * availableExtensions bs + 128 <= Z.of_nat (length bs)
                \/ availableExtensions bs = 0).
  { unfold availableExtensions, EDID_BLOCK_LENGTH. div_lia. }
  assert (Hnn : 0 <= availableExtensions bs)
    by (unfold availableExtensions; lia).
  destruct (forLoop_extensions h bs (Z.to_nat (availableExtensions bs)) 0 []
              (mkExtensionParseContext None) eq_refl)
    as [Hl Hall].
  - destruct Hav as [Hav|Hav]; [right; lia | left; lia].
  - intros j e Hj. rewrite lookup_nil in Hj. discriminate.
  - change (Z.of_nat 0) with 0 in *. split; [lia | exact Hall].
Qed.

Lemma parseEdid_extensions m1 m2 m3 h data :
  let bs := map JS.clampByte data in
  let exts := Edid.extensions (parseEdid m1 m2 m3 h data) in
  Z.of_nat (length exts) = availableExtensions bs /\
  forall k ext, exts !! k = Some ext -> extensionOfBlock bs k ext.
Proof.
  destruct (parseEdid_extensions_decoded m1 m2 m3 h data) as [Hl Hall].
  split; [exact Hl |]. intros k ext Hk. apply (Hall k ext Hk).
Qed.

(** For every input the result holds one extension per whole 128-byte block
    that follows the base block, whatever count byte 126 announces; the
    extension at position [k] is decoded from block [k + 1]: it carries that
    block's number, tag byte, revision byte, checksum byte and raw bytes,
    its kind is the one the tag selects (0x02 CTA-861, 0x70 DisplayID,
    unknown otherwise), and only a CTA-861 extension carries data blocks or
    detailed timings. *)
Theorem extensions_follow_blocks m1 m2 m3 h (data : list Z) :
  let bs := map JS.clampByte data in
  let exts := Edid.extensions (parseEdid m1 m2 m3 h data) in
  Z.of_nat (length exts) = availableExtensions bs /\
  forall k ext, exts !! k = Some ext -> extensionOfBlock bs k ext.
Proof. exact (parseEdid_extensions m1 m2 m3 h data). Qed.

(** ** Raw bytes *)

Lemma concat_rawBytes bs (exts : list Extension.ParsedExtensionBlock) :
  forall off : nat,
    (forall k ext, exts !! k = Some ext ->
       Extension.rawBytes ext = blockBytes bs (S (off + k))) ->
    concat (map Extension.rawBytes exts)
    = take (128 * length exts) (drop (128 * S off) bs).
Proof.
  induction exts as [|e exts IH]; intros off Hraw.
  - reflexivity.
  - cbn [map concat length].
    rewrite (Hraw 0%nat e eq_refl). rewrite (IH (S off)).
    + unfold blockBytes. rewrite Nat.add_0_r.
      replace (128 * S (S off))%nat with (128 * S off + 128)%nat by lia.
      rewrite <- drop_drop.
      rewrite take_take_drop. f_equal. lia.
    + intros k ext Hk. rewrite (Hraw (S k) ext Hk). f_equal. lia.
Qed.

(** For every input the raw bytes of the base block followed by the raw
    bytes of the extensions, in order, give back the input (clamped to bytes)
    up to its last whole 128-byte block; an input shorter than one block is
    given back whole by the base block alone. *)
Theorem raw_bytes_partition_input m1 m2 m3 h (data : list Z) :
  let r := parseEdid m1 m2 m3 h data in
  Base.rawBytes (Edid.baseBlock r)
  ++ concat (map Extension.rawBytes (Edid.extensions r))
  = take (128 * Nat.max 1 (length data / 128)) (map JS.clampByte data).
Proof.
  intros r. subst r.
  destruct (parseEdid_extensions m1 m2 m3 h data) as [Hlen Hall].
  set (bs := map JS.clampByte data) in *.
  destruct (parseEdid_parsed m1 m2 m3 h data) as (-> & _).
  destruct (parseBaseBlock_parsed m1 m2 m3 h (createBlockReader 0 0) bs)
    as (_ & _ & _ & _ & _ & _ & Hraw & _).
  fold bs. rewrite Hraw.
  rewrite (concat_rawBytes bs _ 0%nat)
    by (intros k ext Hk; apply (Hall k ext Hk)).
  unfold slice, EDID_BLOCK_LENGTH.
  change (Z.to_nat (128 - 0)) with 128%nat. change (Z.to_nat 0) with 0%nat.
  rewrite drop_0. change (128 * 1)%nat with 128%nat.
  rewrite take_take_drop. f_equal.
  assert (Hl : length bs = length data) by (unfold bs; apply length_map).
  unfold availableExtensions, EDID_BLOCK_LENGTH in Hlen. rewrite Hl in Hlen.
  pose proof (Nat.div_mod_eq (length data) 128) as Hdm.
  pose proof (Nat.mod_upper_bound (length data) 128 ltac:(lia)) as Hm.
  assert (Hz : Z.of_nat (length data) / 128 = Z.of_nat (length data / 128))
    by (rewrite Nat2Z.inj_div; reflexivity).
  rewrite Hz in Hlen. lia.
Qed.

(** ** Detailed timings of a parse result *)

Lemma parseExtensions_dtds h count context bs :
  Forall (fun b => 0 <= b <= 255) bs ->
  Forall (fun ext =>
            Forall dtdWellFormed (Extension.dtds ext) /\
            (length (Extension.dtds ext) <= 7)%nat)
    (value (parseExtensions h count context) bs).
Proof.
  intros Hbs. rewrite value_parseExtensions.
  apply (forLoop_invariant
           (fun st => Forall (fun ext =>
                         Forall dtdWellFormed (Extension.dtds ext) /\
                         (length (Extension.dtds ext) <= 7)%nat)
                        (fst st)) 0);
    [intros; apply framed_extension_step | | lia | constructor].
  intros i [exts ctx] Hi Hs. cbn [fst] in Hs.
  rewrite value_extension_step.
  destruct (byteAt bs (extensionReader i) 0) as [extTag|]; [| exact Hs].
  destruct (extTag =? CTA_EXTENSION_TAG);
    [| destruct (extTag =? DISPLAYID_EXTENSION_TAG)];
    cbv zeta; cbn [fst]; apply Forall_app; (split; [exact Hs |]);
    (constructor; [| constructor]).
  - destruct (parseCtaExtension_fields h (extensionReader i) i ctx bs)
      as (_ & _ & _ & _ & _ & -> & _).
    destruct (getDtds_wellFormed h bs (extensionReader i)
                (default 0 (byteAt bs (extensionReader i) 2)) 126 Hbs)
      as [Hwf Hlen].
    split; [exact Hwf |].
    pose proof (byteOrZero_range bs (extensionReader i) 2 Hbs) as Hr.
    revert Hlen. generalize (default 0 (byteAt bs (extensionReader i) 2)) Hr.
    intros s Hs' Hlen.
    assert (Z.max 0 ((126 - s + 17) / 18) <= 7) by div_lia. lia.
  - destruct (parseDisplayIdExtension_fields (extensionReader i) i bs)
      as (_ & _ & _ & _ & -> & _). split; [constructor | cbn; lia].
  - destruct (parseUnknownExtension_fields (extensionReader i) i bs)
      as (_ & _ & _ & _ & -> & _). split; [constructor | cbn; lia].
Qed.

(** For every input, every detailed timing descriptor of the result, in the
    base block and in every extension, is well formed in the sense of
    [dtdWellFormed] (in particular its pixel clock is not zero); the base
    block holds at most 4 of them and an extension at most 7. *)
Theorem timing_descriptors_well_formed m1 m2 m3 h (data : list Z) :
  let r := parseEdid m1 m2 m3 h data in
  (exists dtds,
     Base.dtds (Edid.baseBlock r) = Some dtds /\
     Forall dtdWellFormed dtds /\ (length dtds <= 4)%nat) /\
  Forall (fun ext =>
            Forall dtdWellFormed (Extension.dtds ext) /\
            (length (Extension.dtds ext) <= 7)%nat)
    (Edid.extensions r).
Proof.
  intros r. subst r.
  pose proof (clamped_bytes data) as Hbs.
  destruct (parseEdid_shape m1 m2 m3 h data) as (_ & -> & _ & _ & -> & _).
  split; [| apply parseExtensions_dtds; exact Hbs].
  destruct (parseBaseBlock_parsed m1 m2 m3 h (createBlockReader 0 0)
              (map JS.clampByte data))
    as (_ & _ & _ & -> & _).
  eexists. split; [reflexivity |].
  destruct (getDtds_wellFormed h (map JS.clampByte data)
              (createBlockReader 0 0) 54 126 Hbs) as [Hwf Hlen].
  split; [exact Hwf |]. change (Z.max 0 ((126 - 54 + 17) / 18)) with 4 in Hlen.
  lia.
Qed.

(** ** The feature summary: what each accumulator collects *)

Section Accumulator.

(** A field of the accumulator that only the data block steps write. *)
Variable A : Type.
Variable get : Acc.FeatureState -> A.

Hypothesis get_minSrrHz : forall v s, get (Acc.set_minSrrHz v s) = get s.
Hypothesis get_maxSrrHz : forall v s, get (Acc.set_maxSrrHz v s) = get s.
Hypothesis get_minVrrHz : forall v s, get (Acc.set_minVrrHz v s) = get s.
Hypothesis get_maxVrrHz : forall v s, get (Acc.set_maxVrrHz v s) = get s.
Hypothesis get_displayIdVersion :
  forall v s, get (Acc.set_displayIdVersion v s) = get s.
Hypothesis get_supportsVRR : forall v s, get (Acc.set_supportsVRR v s) = get s.

Lemma get_addSrrRate rateHz s : get (addSrrRate rateHz s) = get s.
Proof.
  unfold addSrrRate.
  repeat match goal with
         | |- context [match ?x with _ => _ end] => destruct x
         end;
    rewrite ?get_maxSrrHz, ?get_minSrrHz; reflexivity.
Qed.

Lemma get_addVrrMin rateHz s : get (addVrrMin rateHz s) = get s.
Proof.
  unfold addVrrMin.
  repeat match goal with
         | |- context [match ?x with _ => _ end] => destruct x
         end;
    rewrite ?get_minVrrHz; reflexivity.
Qed.

Lemma get_addVrrMax rateHz s : get (addVrrMax rateHz s) = get s.
Proof.
  unfold addVrrMax.
  repeat match goal with
         | |- context [match ?x with _ => _ end] => destruct x
         end;
    rewrite ?get_maxVrrHz; reflexivity.
Qed.

Lemma get_finalizeRefreshRates s : get (finalizeRefreshRates s) = get s.
Proof.
  unfold finalizeRefreshRates. cbv zeta.
  repeat match goal with
         | |- context [if ?c then _ else _] => destruct c
         | |- context [match ?x with Some _ => _ | None => _ end] =>
             destruct x
         | |- context [get (Acc.set_minSrrHz ?v ?t)] => rewrite get_minSrrHz
         | |- context [get (Acc.set_maxSrrHz ?v ?t)] => rewrite get_maxSrrHz
         | |- context [get (Acc.set_supportsVRR ?v ?t)] =>
             rewrite get_supportsVRR
         end; reflexivity.
Qed.

Lemma get_when_keeps (c : bool) f s :
  (forall s, get (f s) = get s) -> get (when c f s) = get s.
Proof. intros Hf. unfold when. destruct c; [apply Hf | reflexivity]. Qed.

Lemma get_fold_srr {B : Type} (rate : B -> option Q) (l : list B) s :
  get (fold_left (fun s x => addSrrRate (rate x) s) l s) = get s.
Proof.
  revert s. induction l as [|x l IH]; intros s; [reflexivity |].
  cbn [fold_left]. rewrite IH. apply get_addSrrRate.
Qed.

(** What the data block steps do to the field: [step] folds the contribution
    of a block into the value held. *)
Variable step : A -> option AnyDataBlock -> A.

Hypothesis get_vendor :
  forall b s,
    get (addVendorBlock b s) = step (get s) (Some (AnyVendor b)).
Hypothesis get_extended :
  forall b s,
    get (addExtendedTagBlock b s) = step (get s) (Some (AnyExtended b)).
Hypothesis step_other :
  forall a b,
    match b with
    | Some (AnyVendor _) | Some (AnyExtended _) => True
    | _ => step a b = a
    end.

Lemma get_addDataBlock s block :
  get (addDataBlock s block) = step (get s) block.
Proof.
  unfold addDataBlock.
  destruct block as [[ | a | v | b | sp | e]|]; cbn.
  - symmetry. exact (step_other (get s) (Some AnyReserved)).
  - symmetry. exact (step_other (get s) (Some (AnyAudio a))).
  - symmetry. exact (step_other (get s) (Some (AnyVideo v))).
  - apply get_vendor.
  - symmetry. exact (step_other (get s) (Some (AnySpeaker sp))).
  - apply get_extended.
  - symmetry. exact (step_other (get s) None).
Qed.

Lemma get_dataBlocks blocks s :
  get (fold_left addDataBlock blocks s) = fold_left step blocks (get s).
Proof.
  revert s. induction blocks as [|b blocks IH]; intros s; [reflexivity |].
  cbn [fold_left]. rewrite IH, get_addDataBlock. reflexivity.
Qed.

Lemma get_addExtension s ext :
  get (addExtension s ext)
  = fold_left step (default [] (Extension.dataBlockCollection ext)) (get s).
Proof.
  unfold addExtension. cbv zeta.
  assert (Hd : forall t,
             get (if Extension.extTagByte ext =? DISPLAYID_EXTENSION_TAG
                  then match parseDisplayIdVersionFromRevision
                               (Extension.revisionNumber ext) with
                       | Some version => addDisplayIdVersion version t
                       | None => t
                       end
                  else t) = get t).
  { intros t. destruct (_ =? _); [| reflexivity].
    destruct (parseDisplayIdVersionFromRevision _); [| reflexivity].
    apply get_displayIdVersion. }
  destruct (Extension.dataBlockCollection ext) as [blocks|]; cbn [default];
    [rewrite get_dataBlocks |]; rewrite get_fold_srr, Hd; reflexivity.
Qed.

Lemma get_extensions exts s :
  get (fold_left addExtension exts s)
  = fold_left step (dataBlocksOf exts) (get s).
Proof.
  revert s. induction exts as [|ext exts IH]; intros s; [reflexivity |].
  cbn [fold_left]. rewrite IH, get_addExtension.
  unfold dataBlocksOf. cbn [flat_map]. rewrite fold_left_app. reflexivity.
Qed.

End Accumulator.

Lemma fold_orb {B : Type} (t : B -> bool) (l : list B) (a : bool) :
  fold_left (fun a b => a || t b) l a = a || existsb t l.
Proof.
  revert a. induction l as [|b l IH]; intros a; cbn [fold_left existsb].
  - symmetry. apply orb_false_r.
  - rewrite IH. symmetry. apply orb_assoc.
Qed.

Lemma when_sets (get : Acc.FeatureState -> bool) (c : bool) f s :
  (forall s, get (f s) = true) -> get (when c f s) = get s || c.
Proof.
  intros Hf. unfold when. destruct c.
  - rewrite Hf. symmetry. apply orb_true_r.
  - symmetry. apply orb_false_r.
Qed.

(** The steps of [addVendorBlock] and [addExtendedTagBlock], from the last
    one to the first, as far as a boolean field sees them. *)
Ltac flag_steps get :=
  cbv zeta;
  rewrite (get_addVrrMax _ get) by (intros; reflexivity);
  rewrite (get_addVrrMin _ get) by (intros; reflexivity);
  repeat first
    [ rewrite (get_when_keeps _ get) by (intros; reflexivity)
    | rewrite (when_sets get) by (intros; reflexivity) ];
  repeat match goal with
         | |- context [if ?c then _ else _] => destruct c
         end;
  cbn; rewrite ?orb_false_r; try reflexivity.

Section Flag.

Variable get : Acc.FeatureState -> bool.
Variable vendor : Vendor.VendorDataBlock -> bool.
Variable extended : ExtTag.ExtendedTagDataBlock -> bool.

Hypothesis get_minSrrHz : forall v s, get (Acc.set_minSrrHz v s) = get s.
Hypothesis get_maxSrrHz : forall v s, get (Acc.set_maxSrrHz v s) = get s.
Hypothesis get_displayIdVersion :
  forall v s, get (Acc.set_displayIdVersion v s) = get s.
Hypothesis get_supportsVRR : forall v s, get (Acc.set_supportsVRR v s) = get s.
Hypothesis get_vendor :
  forall b s, get (addVendorBlock b s) = get s || vendor b.
Hypothesis get_extended :
  forall b s, get (addExtendedTagBlock b s) = get s || extended b.

Lemma flag_extensions exts s :
  get (finalizeRefreshRates (fold_left addExtension exts s))
  = get s || someBlock vendor extended exts.
Proof.
  rewrite get_finalizeRefreshRates by assumption.
  rewrite (get_extensions _ get get_minSrrHz get_maxSrrHz get_displayIdVersion
             (fun a b => a || blockTest vendor extended b)).
  - apply fold_orb.
  - exact get_vendor.
  - exact get_extended.
  - intros a [[ | ? | ? | ? | ? | ?]|]; cbn; auto using orb_false_r.
Qed.

End Flag.

Lemma buildFeatureSupport_flag
    (get : Acc.FeatureState -> bool) vendor extended
    baseBlock extensions native s0 :
  (forall v s, get (Acc.set_minSrrHz v s) = get s) ->
  (forall v s, get (Acc.set_maxSrrHz v s) = get s) ->
  (forall v s, get (Acc.set_displayIdVersion v s) = get s) ->
  (forall v s, get (Acc.set_supportsVRR v s) = get s) ->
  (forall b s, get (addVendorBlock b s) = get s || vendor b) ->
  (forall b s, get (addExtendedTagBlock b s) = get s || extended b) ->
  get s0 = false ->
  get (finalizeRefreshRates
         (fold_left addExtension extensions
            (fold_left (fun s dtd => addSrrRate (getDtdRefreshRateHz dtd) s)
               (default [] (Base.dtds baseBlock))
               (fold_left
                  (fun s mode => addSrrRate (inject_Z <$> vertFreqHz mode) s)
                  (default [] (Base.standardDisplayModes baseBlock))
                  (addSrrRate
                     match native with
                     | Some n => Some (inject_Z (Native.refreshRateHz n))
                     | None => None
                     end s0)))))
  = someBlock vendor extended extensions.
Proof.
  intros H1 H2 H3 H4 Hv He H0.
  rewrite (flag_extensions get vendor extended) by assumption.
  rewrite !get_fold_srr, get_addSrrRate by assumption.
  rewrite H0. reflexivity.
Qed.

Lemma vendor_supportsDolbyVision b s :
  Acc.supportsDolbyVision (addVendorBlock b s)
  = Acc.supportsDolbyVision s || isTrue (Vendor.supportsDolbyVision b).
Proof. unfold addVendorBlock. flag_steps Acc.supportsDolbyVision. Qed.

Lemma vendor_supportsGameMode b s :
  Acc.supportsGameMode (addVendorBlock b s)
  = Acc.supportsGameMode s || isTrue (Vendor.supportsGameContentType b).
Proof. unfold addVendorBlock. flag_steps Acc.supportsGameMode. Qed.

Lemma vendor_supportsALLM b s :
  Acc.supportsALLM (addVendorBlock b s)
  = Acc.supportsALLM s
    || forumFlag (Vendor.hdmiForumFeatures b) Forum.supportsALLM.
Proof. unfold addVendorBlock. flag_steps Acc.supportsALLM. Qed.

Lemma vendor_supportsHDR10 b s :
  Acc.supportsHDR10 (addVendorBlock b s) = Acc.supportsHDR10 s || false.
Proof. unfold addVendorBlock. flag_steps Acc.supportsHDR10. Qed.

Lemma vendor_supportsHDR10Plus b s :
  Acc.supportsHDR10Plus (addVendorBlock b s)
  = Acc.supportsHDR10Plus s || false.
Proof. unfold addVendorBlock. flag_steps Acc.supportsHDR10Plus. Qed.

Lemma extended_supportsHDR10 b s :
  Acc.supportsHDR10 (addExtendedTagBlock b s)
  = Acc.supportsHDR10 s || isTrue (ExtTag.supportsHDR10 b).
Proof. unfold addExtendedTagBlock. flag_steps Acc.supportsHDR10. Qed.

Lemma extended_supportsHDR10Plus b s :
  Acc.supportsHDR10Plus (addExtendedTagBlock b s)
  = Acc.supportsHDR10Plus s || isTrue (ExtTag.supportsHDR10Plus b).
Proof. unfold addExtendedTagBlock. flag_steps Acc.supportsHDR10Plus. Qed.

Lemma extended_supportsDolbyVision b s :
  Acc.supportsDolbyVision (addExtendedTagBlock b s)
  = Acc.supportsDolbyVision s || isTrue (ExtTag.supportsDolbyVision b).
Proof. unfold addExtendedTagBlock. flag_steps Acc.supportsDolbyVision. Qed.

Lemma extended_supportsGameMode b s :
  Acc.supportsGameMode (addExtendedTagBlock b s)
  = Acc.supportsGameMode s || false.
Proof. unfold addExtendedTagBlock. flag_steps Acc.supportsGameMode. Qed.

Lemma extended_supportsALLM b s :
  Acc.supportsALLM (addExtendedTagBlock b s)
  = Acc.supportsALLM s
    || (isTrue (ExtTag.supportsALLM b)
        || forumFlag (ExtTag.hdmiForumFeatures b) Forum.supportsALLM).
Proof. unfold addExtendedTagBlock. flag_steps Acc.supportsALLM. Qed.

(** For every input, each boolean of the feature summary below is true
    exactly when some data block of some extension announces it: HDR10 and
    HDR10+ come from extended-tag blocks only, the game mode from
    vendor-specific blocks only, Dolby Vision and ALLM from either kind. *)
Theorem feature_flags_from_blocks m1 m2 m3 h (data : list Z) :
  let r := parseEdid m1 m2 m3 h data in
  let fs := Edid.featureSupport r in
  let exts := Edid.extensions r in
  FS.supportsHDR10 fs
  = someBlock (fun _ => false) (fun b => isTrue (ExtTag.supportsHDR10 b)) exts /\
  FS.supportsHDR10Plus fs
  = someBlock (fun _ => false) (fun b => isTrue (ExtTag.supportsHDR10Plus b))
      exts /\
  FS.supportsDolbyVision fs
  = someBlock (fun b => isTrue (Vendor.supportsDolbyVision b))
      (fun b => isTrue (ExtTag.supportsDolbyVision b)) exts /\
  FS.supportsGameMode fs
  = someBlock (fun b => isTrue (Vendor.supportsGameContentType b))
      (fun _ => false) exts /\
  FS.supportsALLM fs
  = someBlock
      (fun b => forumFlag (Vendor.hdmiForumFeatures b) Forum.supportsALLM)
      (fun b => isTrue (ExtTag.supportsALLM b)
                || forumFlag (ExtTag.hdmiForumFeatures b) Forum.supportsALLM)
      exts.
Proof.
  cbv zeta.
  destruct (parseEdid_shape m1 m2 m3 h data) as (_ & _ & _ & _ & _ & ->).
  generalize (Edid.extensions (parseEdid m1 m2 m3 h data)).
  generalize (Edid.baseBlock (parseEdid m1 m2 m3 h data)).
  generalize (Edid.basicDisplayParams (parseEdid m1 m2 m3 h data)).
  generalize (Edid.nativeResolution (parseEdid m1 m2 m3 h data)).
  intros native bdp baseBlock exts.
  unfold buildFeatureSupport. cbv zeta.
  cbn [FS.supportsHDR10 FS.supportsHDR10Plus FS.supportsDolbyVision
       FS.supportsGameMode FS.supportsALLM].
  repeat split.
  - apply (buildFeatureSupport_flag Acc.supportsHDR10);
      try (intros; reflexivity);
      [apply vendor_supportsHDR10 | apply extended_supportsHDR10].
  - apply (buildFeatureSupport_flag Acc.supportsHDR10Plus);
      try (intros; reflexivity);
      [apply vendor_supportsHDR10Plus | apply extended_supportsHDR10Plus].
  - apply (buildFeatureSupport_flag Acc.supportsDolbyVision);
      try (intros; reflexivity);
      [apply vendor_supportsDolbyVision | apply extended_supportsDolbyVision].
  - apply (buildFeatureSupport_flag Acc.supportsGameMode);
      try (intros; reflexivity);
      [apply vendor_supportsGameMode | apply extended_supportsGameMode].
  - apply (buildFeatureSupport_flag Acc.supportsALLM);
      try (intros; reflexivity);
      [apply vendor_supportsALLM | apply extended_supportsALLM].
Qed.

(** ** The input signal bit depth *)

Lemma maxBitDepth_max (current next : Z) :
  maxBitDepth current next = Z.max current next.
Proof. unfold maxBitDepth. destruct (Z.ltb_spec current next); lia. Qed.

Lemma when_raise (c : bool) (d : Z) s :
  Acc.maxInputSignalBitDepth
    (when c (fun s => Acc.set_maxInputSignalBitDepth
                        (maxBitDepth (Acc.maxInputSignalBitDepth s) d) s) s)
  = if c then Z.max (Acc.maxInputSignalBitDepth s) d
    else Acc.maxInputSignalBitDepth s.
Proof. destruct c; cbn; [apply maxBitDepth_max | reflexivity]. Qed.

(** The step of the bit depth accumulator: a block that announces only the
    default depth leaves it as it is. *)
Lemma vendor_bitDepth b s :
  Acc.maxInputSignalBitDepth (addVendorBlock b s)
  = (let d := blockBitDepth (Some (AnyVendor b)) in
     if d =? 8 then Acc.maxInputSignalBitDepth s
     else Z.max (Acc.maxInputSignalBitDepth s) d).
Proof.
  unfold addVendorBlock, blockBitDepth. cbv beta zeta.
  rewrite (get_addVrrMax _ Acc.maxInputSignalBitDepth) by (intros; reflexivity).
  rewrite (get_addVrrMin _ Acc.maxInputSignalBitDepth) by (intros; reflexivity).
  repeat (rewrite (get_when_keeps _ Acc.maxInputSignalBitDepth)
            by (intros; reflexivity)).
  rewrite !when_raise.
  repeat (rewrite (get_when_keeps _ Acc.maxInputSignalBitDepth)
            by (intros; reflexivity)).
  match goal with
  | |- context [Acc.maxInputSignalBitDepth ?t] =>
      lazymatch t with
      | s => fail
      | _ => replace (Acc.maxInputSignalBitDepth t)
               with (Acc.maxInputSignalBitDepth s)
      end
  end.
  - generalize (Acc.maxInputSignalBitDepth s). intros d.
    repeat match goal with
           | |- context [isTrue ?x] => destruct (isTrue x)
           | |- context [forumFlag ?f ?g] => destruct (forumFlag f g)
           end; cbn; lia.
  - repeat match goal with
           | |- context [if ?c then _ else _] => destruct c
           end; reflexivity.
Qed.

Lemma extended_bitDepth b s :
  Acc.maxInputSignalBitDepth (addExtendedTagBlock b s)
  = Acc.maxInputSignalBitDepth s.
Proof.
  unfold addExtendedTagBlock. cbv beta zeta.
  rewrite (get_addVrrMax _ Acc.maxInputSignalBitDepth) by (intros; reflexivity).
  rewrite (get_addVrrMin _ Acc.maxInputSignalBitDepth) by (intros; reflexivity).
  repeat (rewrite (get_when_keeps _ Acc.maxInputSignalBitDepth)
            by (intros; reflexivity)).
  repeat match goal with
         | |- context [if ?c then _ else _] => destruct c
         end; reflexivity.
Qed.

Lemma blockBitDepth_domain b : In (blockBitDepth b) [8; 10; 12; 16].
Proof.
  unfold blockBitDepth. destruct b as [[ | ? | ? | v | ? | ?]|]; cbn; auto.
  repeat match goal with
         | |- context [if ?c then _ else _] => destruct c
         end; cbn; auto.
Qed.

Lemma fold_bitDepth blocks :
  forall a, 8 <= a ->
    fold_left (fun a b => let d := blockBitDepth b in
                          if d =? 8 then a else Z.max a d) blocks a
    = fold_left Z.max (map blockBitDepth blocks) a.
Proof.
  induction blocks as [|b blocks IH]; intros a Ha; [reflexivity |].
  cbn [fold_left map]. cbv zeta.
  destruct (Z.eqb_spec (blockBitDepth b) 8) as [E|E].
  - rewrite E, IH by lia. f_equal. lia.
  - apply IH. lia.
Qed.

Lemma fold_max_domain (l : list Z) :
  forall a, In a [8; 10; 12; 16] -> Forall (fun d => In d [8; 10; 12; 16]) l ->
    In (fold_left Z.max l a) [8; 10; 12; 16].
Proof.
  induction l as [|d l IH]; intros a Ha Hl; [exact Ha |].
  cbn [fold_left]. inversion Hl as [|? ? Hd Hl']; subst.
  apply IH; [| exact Hl'].
  cbn in Ha, Hd |- *.
  destruct Ha as [<-|[<-|[<-|[<-|[]]]]], Hd as [<-|[<-|[<-|[<-|[]]]]];
    cbn; auto.
Qed.

(** For every input the reported input signal bit depth is the largest of
    8 and the depths the data blocks of the extensions announce; it is one
    of 8, 10, 12 and 16. *)
Theorem bit_depth_is_largest_announced m1 m2 m3 h (data : list Z) :
  let r := parseEdid m1 m2 m3 h data in
  let depth := FS.maxInputSignalBitDepth (Edid.featureSupport r) in
  (depth
   = fold_left Z.max (map blockBitDepth (dataBlocksOf (Edid.extensions r))) 8)
  /\ (depth = 8 \/ depth = 10 \/ depth = 12 \/ depth = 16).
Proof.
  cbv zeta.
  destruct (parseEdid_shape m1 m2 m3 h data) as (_ & _ & _ & _ & _ & ->).
  generalize (Edid.extensions (parseEdid m1 m2 m3 h data)).
  generalize (Edid.baseBlock (parseEdid m1 m2 m3 h data)).
  generalize (Edid.basicDisplayParams (parseEdid m1 m2 m3 h data)).
  generalize (Edid.nativeResolution (parseEdid m1 m2 m3 h data)).
  intros native bdp baseBlock exts.
  unfold buildFeatureSupport. cbv zeta. cbn [FS.maxInputSignalBitDepth].
  rewrite (get_finalizeRefreshRates _ Acc.maxInputSignalBitDepth)
    by (intros; reflexivity).
  rewrite (get_extensions _ Acc.maxInputSignalBitDepth
             ltac:(intros; reflexivity) ltac:(intros; reflexivity)
             ltac:(intros; reflexivity)
             (fun a b => let d := blockBitDepth b in
                         if d =? 8 then a else Z.max a d)).
  - rewrite !(get_fold_srr _ Acc.maxInputSignalBitDepth)
      by (intros; reflexivity).
    rewrite (get_addSrrRate _ Acc.maxInputSignalBitDepth)
      by (intros; reflexivity).
    cbn [Acc.maxInputSignalBitDepth].
    rewrite fold_bitDepth by lia.
    split; [reflexivity |].
    assert (Hd : In (fold_left Z.max (map blockBitDepth (dataBlocksOf exts)) 8)
                   [8; 10; 12; 16]).
    { apply fold_max_domain; [cbn; auto |].
      apply Forall_map, Forall_forall. intros b _. apply blockBitDepth_domain. }
    cbn [In] in Hd. intuition congruence.
  - apply vendor_bitDepth.
  - intros b s. rewrite extended_bitDepth. reflexivity.
  - intros a [[ | ? | ? | ? | ? | ?]|]; cbn; auto.
Qed.

(** ** Color gamuts *)

Lemma ColorGamut_eqb_refl g : ColorGamut_eqb g g = true.
Proof. destruct g; reflexivity. Qed.

Lemma set_has_app s g x :
  set_has (s ++ [x]) g = set_has s g || ColorGamut_eqb g x.
Proof.
  unfold set_has. rewrite existsb_app. cbn. rewrite orb_false_r. reflexivity.
Qed.

Lemma ColorGamut_eqb_eq g x : ColorGamut_eqb g x = true -> g = x.
Proof. destruct g, x; cbn; congruence. Qed.

Lemma set_has_add s g x :
  set_has (set_add x s) g = set_has s g || ColorGamut_eqb g x.
Proof.
  unfold set_add. destruct (set_has s x) eqn:Hx.
  - destruct (ColorGamut_eqb g x) eqn:Hg.
    + apply ColorGamut_eqb_eq in Hg. subst g. rewrite Hx. reflexivity.
    + rewrite orb_false_r. reflexivity.
  - apply set_has_app.
Qed.

Lemma when_add g (c : bool) (x : ColorGamut) s :
  hasGamut g
    (when c (fun s => Acc.set_colorGamuts (set_add x (Acc.colorGamuts s)) s) s)
  = hasGamut g s || (c && ColorGamut_eqb g x).
Proof.
  unfold hasGamut, when. destruct c; cbn.
  - apply set_has_add.
  - symmetry. apply orb_false_r.
Qed.

Lemma vendor_hasGamut g b s :
  hasGamut g (addVendorBlock b s) = hasGamut g s || false.
Proof. unfold addVendorBlock. flag_steps (hasGamut g). Qed.

Lemma extended_hasGamut g b s :
  hasGamut g (addExtendedTagBlock b s)
  = hasGamut g s || blockAnnouncesGamut g b.
Proof.
  unfold addExtendedTagBlock, blockAnnouncesGamut. cbv zeta.
  rewrite (get_addVrrMax _ (hasGamut g)) by (intros; reflexivity).
  rewrite (get_addVrrMin _ (hasGamut g)) by (intros; reflexivity).
  repeat (rewrite (get_when_keeps _ (hasGamut g)) by (intros; reflexivity)).
  rewrite !when_add.
  repeat (rewrite (get_when_keeps _ (hasGamut g)) by (intros; reflexivity)).
  rewrite <- orb_assoc. f_equal.
  repeat match goal with
         | |- context [if ?c then _ else _] => destruct c
         end; reflexivity.
Qed.

Lemma inferColorGamut_defined (c : ChromaticityCoordinates) :
  redXCoords c <> None -> redYCoords c <> None ->
  greenXCoords c <> None -> greenYCoords c <> None ->
  blueXCoords c <> None -> blueYCoords c <> None ->
  inferColorGamut (Some c) <> None.
Proof.
  intros H1 H2 H3 H4 H5 H6. unfold inferColorGamut.
  destruct (redXCoords c); [| contradiction].
  destruct (redYCoords c); [| contradiction].
  destruct (greenXCoords c); [| contradiction].
  destruct (greenYCoords c); [| contradiction].
  destruct (blueXCoords c); [| contradiction].
  destruct (blueYCoords c); [| contradiction].
  unfold CANONICAL_GAMUTS. cbn [fold_left].
  repeat match goal with
         | |- context [if ?c then _ else _] => destruct c
         end; cbn; discriminate.
Qed.

Lemma buildFeatureSupport_flag_from
    (get : Acc.FeatureState -> bool) vendor extended
    baseBlock extensions native s0 :
  (forall v s, get (Acc.set_minSrrHz v s) = get s) ->
  (forall v s, get (Acc.set_maxSrrHz v s) = get s) ->
  (forall v s, get (Acc.set_displayIdVersion v s) = get s) ->
  (forall v s, get (Acc.set_supportsVRR v s) = get s) ->
  (forall b s, get (addVendorBlock b s) = get s || vendor b) ->
  (forall b s, get (addExtendedTagBlock b s) = get s || extended b) ->
  get (finalizeRefreshRates
         (fold_left addExtension extensions
            (fold_left (fun s dtd => addSrrRate (getDtdRefreshRateHz dtd) s)
               (default [] (Base.dtds baseBlock))
               (fold_left
                  (fun s mode => addSrrRate (inject_Z <$> vertFreqHz mode) s)
                  (default [] (Base.standardDisplayModes baseBlock))
                  (addSrrRate
                     match native with
                     | Some n => Some (inject_Z (Native.refreshRateHz n))
                     | None => None
                     end s0)))))
  = get s0 || someBlock vendor extended extensions.
Proof.
  intros H1 H2 H3 H4 Hv He.
  rewrite (flag_extensions get vendor extended) by assumption.
  rewrite !get_fold_srr, get_addSrrRate by assumption.
  reflexivity.
Qed.

Lemma parseEdid_chromaticity_inferred m1 m2 m3 h (data : list Z) :
  inferColorGamut
    (Base.chromaticity (Edid.baseBlock (parseEdid m1 m2 m3 h data)))
  <> None.
Proof.
  destruct (parseEdid_parsed m1 m2 m3 h data) as (-> & _).
  destruct (parseBaseBlock_parsed m1 m2 m3 h (createBlockReader 0 0)
              (map JS.clampByte data)) as (_ & -> & _).
  apply inferColorGamut_defined;
    unfold getChromaticityCoordinates; value_run; cbn; discriminate.
Qed.

(** For every input the feature summary lists the color gamuts in the fixed
    order sRGB, Display P3, Adobe RGB, Rec. 2020, each at most once: sRGB
    always (a gamut is always inferred from the chromaticity coordinates,
    and sRGB is added with it), the inferred gamut, and the gamuts the
    colorimetry data blocks of the extensions announce. *)
Theorem color_gamuts_listed m1 m2 m3 h (data : list Z) :
  let r := parseEdid m1 m2 m3 h data in
  let inferred := inferColorGamut (Base.chromaticity (Edid.baseBlock r)) in
  inferred <> None /\
  FS.colorGamuts (Edid.featureSupport r)
  = List.filter (gamutListed inferred (Edid.extensions r))
      [srgb; display_p3; adobe_rgb; rec_2020].
Proof.
  cbv zeta. split; [apply parseEdid_chromaticity_inferred |].
  pose proof (parseEdid_chromaticity_inferred m1 m2 m3 h data) as Hinf.
  destruct (parseEdid_shape m1 m2 m3 h data) as (_ & _ & _ & _ & _ & ->).
  revert Hinf.
  generalize (Edid.extensions (parseEdid m1 m2 m3 h data)).
  generalize (Edid.baseBlock (parseEdid m1 m2 m3 h data)).
  generalize (Edid.basicDisplayParams (parseEdid m1 m2 m3 h data)).
  generalize (Edid.nativeResolution (parseEdid m1 m2 m3 h data)).
  intros native bdp baseBlock exts Hinf.
  unfold buildFeatureSupport. cbv zeta. cbn [FS.colorGamuts].
  apply List.filter_ext. intros g.
  match goal with
  | |- set_has (Acc.colorGamuts ?t) g = _ => change (hasGamut g t = gamutListed (inferColorGamut (Base.chromaticity baseBlock)) exts g)
  end.
  rewrite (buildFeatureSupport_flag_from (hasGamut g) (fun _ => false)
             (blockAnnouncesGamut g));
    try (intros; reflexivity);
    [| apply vendor_hasGamut | apply extended_hasGamut].
  unfold gamutListed. f_equal.
  unfold hasGamut. cbn [Acc.colorGamuts].
  destruct (inferColorGamut (Base.chromaticity baseBlock)) as [g'|];
    [| contradiction].
  rewrite !set_has_add.
  destruct bdp as [b|]; [destruct (isStandardSRgb b) |];
    try rewrite set_has_add; cbn [set_has existsb];
    destruct (ColorGamut_eqb g srgb), (ColorGamut_eqb g g'); reflexivity.
Qed.

(** ** The inferred color gamut *)

From Stdlib Require Import Lqa.

Lemma Qlt_bool_true (a b : Q) : Qlt_bool a b = true -> (a < b)%Q.
Proof.
  unfold Qlt_bool. intros H. apply negb_true_iff in H.
  apply Qnot_le_lt. intros Hle. apply Qle_bool_iff in Hle. congruence.
Qed.

Lemma Qlt_bool_false (a b : Q) : Qlt_bool a b = false -> (b <= a)%Q.
Proof.
  unfold Qlt_bool. intros H. apply negb_false_iff in H.
  apply Qle_bool_iff. exact H.
Qed.

Section Nearest.

Variable dist : CanonicalGamut -> Q.

Lemma fold_nearest (l : list CanonicalGamut) :
  forall seen b,
    In b seen ->
    Forall (fun g' => (dist b <= dist g')%Q) seen ->
    exists b',
      In b' (seen ++ l) /\
      fst (fold_left (closerStep dist) l (Some (gamut b), Some (dist b)))
      = Some (gamut b') /\
      Forall (fun g' => (dist b' <= dist g')%Q) (seen ++ l).
Proof.
  induction l as [|g l IH]; intros seen b Hb Hseen.
  - exists b. rewrite app_nil_r. auto.
  - cbn [fold_left closerStep].
    destruct (Qlt_bool (dist g) (dist b)) eqn:E.
    + apply Qlt_bool_true in E.
      destruct (IH (seen ++ [g]) g) as (b' & Hin & Hf & Hall).
      * apply in_or_app. right. left. reflexivity.
      * apply Forall_app. split; [| repeat constructor; lra].
        eapply Forall_impl; [exact Hseen |]. cbn. intros g' Hg'. lra.
      * exists b'. rewrite <- app_assoc in Hin, Hall. auto.
    + apply Qlt_bool_false in E.
      destruct (IH (seen ++ [g]) b) as (b' & Hin & Hf & Hall).
      * apply in_or_app. left. exact Hb.
      * apply Forall_app. split; [exact Hseen | repeat constructor; exact E].
      * exists b'. rewrite <- app_assoc in Hin, Hall. auto.
Qed.

Lemma fold_nearest_all (g0 : CanonicalGamut) (l : list CanonicalGamut) :
  exists b,
    In b (g0 :: l) /\
    fst (fold_left (closerStep dist) (g0 :: l) (None, None)) = Some (gamut b) /\
    Forall (fun g' => (dist b <= dist g')%Q) (g0 :: l).
Proof.
  cbn [fold_left closerStep].
  apply (fold_nearest l [g0] g0); [left; reflexivity |].
  repeat constructor. lra.
Qed.

End Nearest.

Lemma inferColorGamut_nearest (c : ChromaticityCoordinates) :
  redXCoords c <> None -> redYCoords c <> None ->
  greenXCoords c <> None -> greenYCoords c <> None ->
  blueXCoords c <> None -> blueYCoords c <> None ->
  exists g,
    In g CANONICAL_GAMUTS /\
    inferColorGamut (Some c) = Some (gamut g) /\
    Forall (fun g' => (gamutDistance c g <= gamutDistance c g')%Q)
      CANONICAL_GAMUTS.
Proof.
  intros H1 H2 H3 H4 H5 H6.
  unfold inferColorGamut.
  destruct (fold_nearest_all (gamutDistance c)
              (mkCanonicalGamut srgb (64 # 100) (33 # 100) (3 # 10) (6 # 10)
                 (15 # 100) (6 # 100))
              (tl CANONICAL_GAMUTS)) as (g & Hin & Hf & Hall).
  exists g. split; [exact Hin |]. split; [| exact Hall].
  rewrite <- Hf. unfold gamutDistance.
  destruct (redXCoords c) as [rx|]; [| contradiction].
  destruct (redYCoords c) as [ry|]; [| contradiction].
  destruct (greenXCoords c) as [gx|]; [| contradiction].
  destruct (greenYCoords c) as [gy|]; [| contradiction].
  destruct (blueXCoords c) as [bx|]; [| contradiction].
  destruct (blueYCoords c) as [by_|]; [| contradiction].
  reflexivity.
Qed.

(** For every input a gamut is inferred from the chromaticity coordinates
    of the base block, and it is a nearest one: no canonical gamut is
    strictly closer, in squared distance over the red, green and blue
    coordinates, than the gamut inferred. *)
Theorem inferred_gamut_is_nearest m1 m2 m3 h (data : list Z) :
  let r := parseEdid m1 m2 m3 h data in
  exists c g,
    Base.chromaticity (Edid.baseBlock r) = Some c /\
    In g CANONICAL_GAMUTS /\
    inferColorGamut (Some c) = Some (gamut g) /\
    Forall (fun g' => (gamutDistance c g <= gamutDistance c g')%Q)
      CANONICAL_GAMUTS.
Proof.
  cbv zeta.
  destruct (parseEdid_parsed m1 m2 m3 h data) as (-> & _).
  destruct (parseBaseBlock_parsed m1 m2 m3 h (createBlockReader 0 0)
              (map JS.clampByte data)) as (_ & -> & _).
  destruct (inferColorGamut_nearest
              (value (getChromaticityCoordinates (createBlockReader 0 0))
                 (map JS.clampByte data))) as (g & Hin & Hg & Hall);
    try (unfold getChromaticityCoordinates; value_run; cbn; discriminate).
  eexists. exists g. split; [reflexivity |]. split; [exact Hin |].
  split; [exact Hg | exact Hall].
Qed.

(** ** Checksums of the extension blocks *)

Lemma emitted_warnFailedExtensionChecksums_each extensions bs :
  emitted (warnFailedExtensionChecksums extensions) bs
  = flat_map
      (fun ext =>
         warningIf (bool_decide (Extension.isChecksumValid ext = Some false))
           (mkWarning checksum_failed "Extension block checksum failed."
              (Some (Extension.blockNumber ext)) (Some 127) None))
      extensions.
Proof.
  induction extensions as [|ext rest IH]; [reflexivity |].
  unfold emitted in *. simpl warnFailedExtensionChecksums.
  rewrite run_bind by apply appends_warningIf. simpl bytes.
  rewrite (appends_warnFailedExtensionChecksums rest). simpl.
  rewrite emitted_warningIf. unfold emitted. rewrite IH. reflexivity.
Qed.

Lemma hasBlockWarning_failed block extensions :
  hasBlockWarning checksum_failed block
    (flat_map
       (fun ext =>
          warningIf (bool_decide (Extension.isChecksumValid ext = Some false))
            (mkWarning checksum_failed "Extension block checksum failed."
               (Some (Extension.blockNumber ext)) (Some 127) None))
       extensions)
  <-> exists ext, In ext extensions /\
        Extension.blockNumber ext = block /\
        Extension.isChecksumValid ext = Some false.
Proof.
  unfold hasBlockWarning. rewrite List.Exists_exists. split.
  - intros (w & Hin & Hc & Hb). apply in_flat_map in Hin as (ext & He & Hw).
    exists ext. split; [exact He |].
    unfold warningIf in Hw.
    destruct (bool_decide_reflect
                (Extension.isChecksumValid ext = Some false)) as [Hv|Hv];
      [| contradiction].
    destruct Hw as [<- | []]. cbn in Hb. split; [congruence | exact Hv].
  - intros (ext & He & Hb & Hv).
    eexists. split.
    + apply in_flat_map. exists ext. split; [exact He |].
      rewrite bool_decide_true by exact Hv. left. reflexivity.
    + cbn. split; [reflexivity | congruence].
Qed.

Lemma parseEdid_extension_checksum_warning m1 m2 m3 h data block :
  1 <= block ->
  let r := parseEdid m1 m2 m3 h data in
  hasBlockWarning checksum_failed block (Edid.warnings r)
  <-> exists ext, In ext (Edid.extensions r) /\
        Extension.blockNumber ext = block /\
        Extension.isChecksumValid ext = Some false.
Proof.
  intros Hblock r. subst r.
  destruct (parseEdid_warnings m1 m2 m3 h data)
    as (w1 & w2 & w3 & w4 & w5 & expected & -> & _ & H1 & H2 & [H3 _] &
        [H4 H4'] & H5).
  rewrite !hasBlockWarning_app, !hasBlockWarning_warningIf.
  rewrite emitted_warnFailedExtensionChecksums_each, hasBlockWarning_failed.
  assert (Hbase : ~ hasBlockWarning checksum_failed block
                      (emitted (parseBaseBlock m1 m2 m3 h
                                  (createBlockReader 0 0))
                         (map JS.clampByte data))).
  { apply decoder_codes_only_block; [| reflexivity].
    apply (framed_codes _ (map JS.clampByte data)). auto with framed. }
  assert (Hexts : ~ hasBlockWarning checksum_failed block
                      (emitted (parseExtensions h
                                  (availableExtensions (map JS.clampByte data))
                                  (mkExtensionParseContext None))
                         (map JS.clampByte data))).
  { apply decoder_codes_only_block; [| reflexivity].
    apply (framed_codes _ (map JS.clampByte data)). auto with framed. }
  rewrite H1, H2, H3, H4, H4', H5.
  split.
  - intros [[_ [? _]] | [[_ [? _]] | [? | [[_ [? _]] | [[_ [_ ?]] | [[_ [? _]] | [? | ?]]]]]]];
      try discriminate; try contradiction; [| assumption].
    assert (block = 0) by congruence. lia.
  - intros H. do 7 right. exact H.
Qed.

Lemma lookup_In {A : Type} (l : list A) (k : nat) (x : A) :
  l !! k = Some x -> In x l.
Proof.
  revert k. induction l as [|y l IH]; intros [|k] H; cbn in H;
    try discriminate.
  - injection H as ->. left. reflexivity.
  - right. exact (IH k H).
Qed.

Lemma In_lookup {A : Type} (l : list A) (x : A) :
  In x l -> exists k, l !! k = Some x.
Proof.
  induction l as [|y l IH]; intros H; [contradiction |].
  destruct H as [-> | H].
  - exists 0%nat. reflexivity.
  - destruct (IH H) as [k Hk]. exists (S k). exact Hk.
Qed.

(** For every input, the extension at position [k] of the result reports
    its checksum as the rule of the base block does for block [k + 1]: valid
    exactly when byte 127 of the block equals [(256 - sum) mod 256] for the
    sum of its bytes 0..126 and that sum is not 0 modulo 256; and a
    [checksum_failed] warning for block [k + 1] is pushed exactly when the
    extension reports an invalid checksum. *)
Theorem extension_checksum_rule m1 m2 m3 h (data : list Z) (k : nat)
    (ext : Extension.ParsedExtensionBlock) :
  Edid.extensions (parseEdid m1 m2 m3 h data) !! k = Some ext ->
  let bs := map JS.clampByte data in
  let block := Z.of_nat k + 1 in
  Extension.isChecksumValid ext
  = Some (spec_checksumValid bs block
          && negb (blockSum bs block mod 256 =? 0)) /\
  (hasBlockWarning checksum_failed block
     (Edid.warnings (parseEdid m1 m2 m3 h data))
   <-> Extension.isChecksumValid ext = Some false).
Proof.
  intros Hk bs block.
  destruct (parseEdid_extensions_decoded m1 m2 m3 h data) as [Hlen Hall].
  fold bs in Hlen, Hall.
  destruct (Hall k ext Hk) as [Hblock Hsum].
  split.
  - rewrite Hsum. apply validChecksum_rule; [lia | | apply clamped_bytes].
    apply lookup_lt_Some in Hk.
    unfold availableExtensions, EDID_BLOCK_LENGTH in *. subst block.
    div_lia.
  - rewrite parseEdid_extension_checksum_warning by (subst block; lia).
    split.
    + intros (ext' & Hin & Hnum & Hv).
      apply In_lookup in Hin as [j Hj].
      destruct (Hall j ext' Hj) as [(Hnum' & _) _].
      assert (j = k) by (subst block; lia). subst j.
      rewrite Hk in Hj. injection Hj as <-. exact Hv.
    + intros Hv. exists ext. split; [exact (lookup_In _ _ _ Hk) |].
      destruct Hblock as (Hnum & _). split; [subst block; lia | exact Hv].
Qed.

Lemma extension_checksum_rule_witness :
  exists ext,
    Edid.extensions
      (parseEdid noVendorMap noVendorMap noVendorMap hypotApprox
         (edidWithCtaBlocks [])) !! 0%nat = Some ext /\
    Extension.isChecksumValid ext
    = Some (spec_checksumValid (map JS.clampByte (edidWithCtaBlocks [])) 1
            && negb (blockSum (map JS.clampByte (edidWithCtaBlocks [])) 1
                       mod 256 =? 0)) /\
    (hasBlockWarning checksum_failed 1
       (Edid.warnings
          (parseEdid noVendorMap noVendorMap noVendorMap hypotApprox
             (edidWithCtaBlocks [])))
     <-> Extension.isChecksumValid ext = Some false).
Proof.
  eexists. split; [vm_compute; reflexivity |].
  apply (extension_checksum_rule noVendorMap noVendorMap noVendorMap
           hypotApprox (edidWithCtaBlocks []) 0).
  vm_compute. reflexivity.
Defined.

(** ** Short video descriptors *)

Lemma decodeShortVideoDescriptor_rule (b : Z) :
  0 <= b <= 255 ->
  decodeShortVideoDescriptor b
  = if Z.testbit b 6 then mkShortVideoDescriptor b (Some false)
    else mkShortVideoDescriptor (b mod 64) (Some (Z.testbit b 7)).
Proof.
  intros Hb. unfold decodeShortVideoDescriptor, flag. cbv zeta.
  change 64 with (2 ^ 6) at 1. change 128 with (2 ^ 7).
  rewrite (band_bit_truthy b 7) by lia.
  assert (H6 : (0 <? JS.band b (2 ^ 6)) = Z.testbit b 6).
  { pose proof (band_bit_truthy b 6 ltac:(lia)) as Ht.
    unfold JS.truthy in Ht.
    assert (0 <= JS.band b (2 ^ 6)).
    { rewrite band_byte by (cbn; lia). apply Z.land_nonneg. lia. }
    destruct (Z.testbit b 6);
      [apply negb_true_iff, Z.eqb_neq in Ht | apply negb_false_iff, Z.eqb_eq in Ht].
    - apply Z.ltb_lt. lia.
    - apply Z.ltb_ge. lia. }
  rewrite H6. destruct (Z.testbit b 6).
  - f_equal. change 255 with (Z.ones 8). rewrite band_low_bits by lia.
    apply Z.mod_small. cbn. lia.
  - f_equal. change 63 with (Z.ones 6). rewrite band_low_bits by lia.
    reflexivity.
Qed.

Lemma decodeShortVideoDescriptor_wellFormed (b : Z) :
  0 <= b <= 255 -> svdWellFormed (decodeShortVideoDescriptor b).
Proof.
  intros Hb. rewrite decodeShortVideoDescriptor_rule by exact Hb.
  unfold svdWellFormed.
  destruct (Z.testbit b 6); cbn [vic isNativeResolution].
  - repeat split; [lia | lia | discriminate | discriminate].
  - pose proof (Z.mod_pos_bound b 64 ltac:(lia)).
    repeat split; [lia | lia | discriminate | lia].
Qed.

Lemma video_loop bs reader start (n : nat) :
  forall (i : Z) descs,
    Z.of_nat (length descs) = i ->
    (forall (j : nat) d, descs !! j = Some d ->
       exists b, byteAt bs reader (start + Z.of_nat j) = Some b /\
                 d = decodeShortVideoDescriptor b) ->
    let r :=
      value (forLoop n i
               (fun index descriptors =>
                  do dataByte <- u8 reader (start + index);
                  match dataByte with
                  | None => ret (Break descriptors)
                  | Some dataByte =>
                      ret (Continue
                             (descriptors
                              ++ [decodeShortVideoDescriptor dataByte]))
                  end) descs) bs in
    (length r <= length descs + n)%nat /\
    forall (j : nat) d, r !! j = Some d ->
      exists b, byteAt bs reader (start + Z.of_nat j) = Some b /\
                d = decodeShortVideoDescriptor b.
Proof.
  induction n as [|n IH]; intros i descs Hi Hd r; subst r.
  - cbn [forLoop]. rewrite value_ret. split; [lia | exact Hd].
  - rewrite value_forLoop_S by (intros; framed_auto).
    rewrite value_bind by framed_auto. rewrite value_u8.
    destruct (byteAt bs reader (start + i)) as [b|] eqn:Hb;
      rewrite value_ret; [| split; [lia | exact Hd]].
    destruct (IH (i + 1) (descs ++ [decodeShortVideoDescriptor b]))
      as [Hlen Hall].
    + rewrite length_app. cbn [length]. lia.
    + intros j d Hj. apply lookup_app_Some in Hj.
      destruct Hj as [Hj | [Hge Hj]]; [exact (Hd j d Hj) |].
      destruct (j - length descs)%nat as [|k] eqn:Hk; [| discriminate].
      cbn in Hj. injection Hj as <-.
      exists b. split; [| reflexivity].
      replace (Z.of_nat j) with i by lia. exact Hb.
    + rewrite length_app in Hlen. cbn [length] in Hlen.
      split; [lia | exact Hall].
Qed.

Lemma readablePrefix_range bs reader (f : nat -> Z) (js : list nat) :
  Forall (fun b => 0 <= b <= 255) bs ->
  Forall (fun b => 0 <= b <= 255)
    (readablePrefix (map (fun j => byteAt bs reader (f j)) js)).
Proof.
  intros Hbs. induction js as [|j js IH]; cbn [map readablePrefix].
  - constructor.
  - destruct (byteAt bs reader (f j)) as [b|] eqn:Hb; constructor.
    + exact (byteAt_range _ _ _ _ Hbs Hb).
    + exact IH.
Qed.

Lemma readablePrefix_all (reads : list (option Z)) :
  Forall (fun r => r <> None) reads ->
  length (readablePrefix reads) = length reads.
Proof.
  induction 1 as [|r reads Hr _ IH]; [reflexivity |].
  destruct r as [b|]; [| contradiction]. cbn. f_equal. exact IH.
Qed.

Lemma video_loop_exact bs reader start (n : nat) :
  forall (i : Z) descs,
    value (forLoop n i
             (fun index descriptors =>
                do dataByte <- u8 reader (start + index);
                match dataByte with
                | None => ret (Break descriptors)
                | Some dataByte =>
                    ret (Continue
                           (descriptors
                            ++ [decodeShortVideoDescriptor dataByte]))
                end) descs) bs
    = descs
      ++ map decodeShortVideoDescriptor
           (readablePrefix
              (map (fun j : nat => byteAt bs reader (start + i + Z.of_nat j))
                 (seq 0 n))).
Proof.
  induction n as [|n IH]; intros i descs.
  - cbn [forLoop seq map readablePrefix]. rewrite value_ret, app_nil_r.
    reflexivity.
  - rewrite value_forLoop_S by (intros; framed_auto).
    rewrite value_bind by framed_auto. rewrite value_u8.
    cbn [seq map readablePrefix]. rewrite Z.add_0_r.
    destruct (byteAt bs reader (start + i)) as [b|] eqn:Hb;
      rewrite value_ret; [| rewrite app_nil_r; reflexivity].
    rewrite IH, <- app_assoc. cbn [map app]. do 4 f_equal.
    rewrite <- seq_shift, map_map. apply map_ext. intros j. f_equal. lia.
Qed.

(** A video data block of declared length [len] that starts at [start] is
    decoded into one short video descriptor per readable payload byte, in
    order, and becomes the last video block of the extension context: a
    byte with bit 6 set gives its own value as the code and is never native;
    a byte with bit 6 clear gives its low six bits as the code and bit 7 as
    the native flag.  The descriptors are exactly those of the payload bytes
    read before the first unreadable one: [len] of them when every payload
    byte can be read. *)
Theorem video_descriptors_decoded bs reader start len context :
  Forall (fun b => 0 <= b <= 255) bs ->
  let r := value (parseVideoDataBlock reader start len context) bs in
  let descriptors := Video.shortVideoDescriptors (fst r) in
  Video.dataLength (fst r) = len /\
  lastVideoBlock (snd r) = Some (fst r) /\
  Z.of_nat (length descriptors) <= Z.max 0 len /\
  (forall (j : nat) d, descriptors !! j = Some d ->
     exists b,
       byteAt bs reader (start + Z.of_nat j) = Some b /\
       d = if Z.testbit b 6 then mkShortVideoDescriptor b (Some false)
           else mkShortVideoDescriptor (b mod 64) (Some (Z.testbit b 7))) /\
  Forall svdWellFormed descriptors /\
  descriptors
  = map shortVideoDescriptorOf (videoPayloadBytes bs reader start len) /\
  ((forall j : nat, (j < Z.to_nat len)%nat ->
      byteAt bs reader (start + Z.of_nat j) <> None) ->
   length descriptors = Z.to_nat len).
Proof.
  intros Hbs r descriptors. subst descriptors r.
  unfold parseVideoDataBlock.
  rewrite value_bind by framed_auto. rewrite value_ret.
  cbn [fst snd Video.dataLength Video.shortVideoDescriptors lastVideoBlock].
  destruct (video_loop bs reader start (Z.to_nat len) 0 [] eq_refl)
    as [Hlen Hall].
  { intros j d Hj. rewrite lookup_nil in Hj. discriminate. }
  cbv zeta in Hlen, Hall. cbn [length] in Hlen.
  split; [reflexivity |]. split; [reflexivity |]. split; [lia |].
  split; [| split; [| split]].
  - intros j d Hj. destruct (Hall j d Hj) as (b & Hb & ->).
    exists b. split; [exact Hb |].
    apply decodeShortVideoDescriptor_rule.
    exact (byteAt_range _ _ _ _ Hbs Hb).
  - apply Forall_lookup. intros j d Hj.
    destruct (Hall j d Hj) as (b & Hb & ->).
    apply decodeShortVideoDescriptor_wellFormed.
    exact (byteAt_range _ _ _ _ Hbs Hb).
  - rewrite video_loop_exact. cbn [app]. unfold videoPayloadBytes.
    rewrite Z.add_0_r.
    apply map_ext_in. intros b Hin.
    apply decodeShortVideoDescriptor_rule.
    pose proof (readablePrefix_range bs reader
                  (fun j => start + Z.of_nat j) (seq 0 (Z.to_nat len)) Hbs)
      as Hr.
    rewrite List.Forall_forall in Hr. exact (Hr b Hin).
  - intros Hall'. rewrite video_loop_exact. cbn [app].
    rewrite length_map, readablePrefix_all, length_map, length_seq;
      [reflexivity |].
    apply List.Forall_forall. intros x Hin.
    apply in_map_iff in Hin as (j & <- & Hj). apply in_seq in Hj.
    rewrite Z.add_0_r. apply Hall'. lia.
Qed.

Lemma video_descriptors_decoded_witness :
  let r := value (parseVideoDataBlock (createBlockReader 0 0) 1 2
                    (mkExtensionParseContext None)) twoVideoBlocks in
  Video.shortVideoDescriptors (fst r)
  = [mkShortVideoDescriptor 16 (Some false);
     mkShortVideoDescriptor 4 (Some false)] /\
  Forall svdWellFormed (Video.shortVideoDescriptors (fst r)) /\
  length (Video.shortVideoDescriptors (fst r)) = 2%nat.
Proof.
  split; [vm_compute; reflexivity |].
  destruct (video_descriptors_decoded twoVideoBlocks (createBlockReader 0 0)
              1 2 (mkExtensionParseContext None))
    as (_ & _ & _ & _ & Hwf & _ & Hlen).
  { unfold twoVideoBlocks. repeat constructor; lia. }
  split; [exact Hwf |].
  apply Hlen. intros j Hj.
  assert (Hc : j = 0%nat \/ j = 1%nat) by (cbn in Hj; lia).
  destruct Hc as [-> | ->]; vm_compute; discriminate.
Defined.

Lemma audioDescriptorOf_wellFormed (b0 b1 b2 : Z) :
  sadWellFormed (audioDescriptorOf b0 b1 b2).
Proof.
  unfold sadWellFormed, audioDescriptorOf, within.
  cbn [standardCodecId maxChannelCount sampleRatesBitmask].
  repeat split; eexists; (split; [reflexivity | div_lia]).
Qed.

Lemma audio_step bs reader index descriptors :
  Forall (fun b => 0 <= b <= 255) bs ->
  value
    (do byte0 <- u8OrZero reader index;
     do byte1 <- u8OrZero reader (index + 1);
     do byte2 <- u8OrZero reader (index + 2);
     let standardCodecId := JS.band (JS.shr byte0 3) 0x0f in
     let maxChannelCount := JS.band byte0 0x07 + 1 in
     let sampleRatesBitmask := JS.band byte1 0x7f in
     let audioFormat (i : nat) : Z := default 0 (AUDIO_FORMAT_ARRAY !! i) in
     let format := standardCodecId in
     let shortAudDesc :=
       mkShortAudioDescriptor (Some standardCodecId) None
         (Some maxChannelCount) (Some sampleRatesBitmask) None None None
         None in
     let shortAudDesc :=
       if format <=? audioFormat 0%nat then
         mkShortAudioDescriptor (Some standardCodecId) None
           (Some maxChannelCount) (Some sampleRatesBitmask)
           (Some (JS.band byte2 0x07)) None None None
       else if format <=? audioFormat 1%nat then
         mkShortAudioDescriptor (Some standardCodecId) None
           (Some maxChannelCount) (Some sampleRatesBitmask) None
           (Some (JS.band byte2 0xff * 8)) None None
       else if format <=? audioFormat 2%nat then
         mkShortAudioDescriptor (Some standardCodecId) None
           (Some maxChannelCount) (Some sampleRatesBitmask) None None
           (Some (JS.band byte2 0xff)) None
       else if format <=? audioFormat 3%nat then
         mkShortAudioDescriptor (Some standardCodecId) None
           (Some maxChannelCount) (Some sampleRatesBitmask) None None None
           (Some (JS.band byte2 0x07))
       else if format <=? audioFormat 4%nat then
         mkShortAudioDescriptor (Some standardCodecId)
           (Some (JS.band (JS.shr byte2 3) 0x1f))
           (Some maxChannelCount) (Some sampleRatesBitmask) None None None
           None
       else shortAudDesc in
     ret (Continue (index + 3, descriptors ++ [shortAudDesc]))) bs
  = Continue
      (index + 3,
       descriptors
       ++ [audioDescriptorOf (default 0 (byteAt bs reader index))
             (default 0 (byteAt bs reader (index + 1)))
             (default 0 (byteAt bs reader (index + 2)))]).
Proof.
  intros Hbs.
  rewrite value_bind by framed_auto. rewrite value_u8OrZero.
  rewrite value_bind by framed_auto. rewrite value_u8OrZero.
  rewrite value_bind by framed_auto. rewrite value_u8OrZero.
  cbv zeta. rewrite value_ret.
  pose proof (byteOrZero_range bs reader index Hbs) as H0.
  pose proof (byteOrZero_range bs reader (index + 1) Hbs) as H1.
  pose proof (byteOrZero_range bs reader (index + 2) Hbs) as H2.
  set (b0 := default 0 (byteAt bs reader index)) in *.
  set (b1 := default 0 (byteAt bs reader (index + 1))) in *.
  set (b2 := default 0 (byteAt bs reader (index + 2))) in *.
  pose proof (div_pow2_byte b0 3 H0 ltac:(lia)) as H0'.
  pose proof (div_pow2_byte b2 3 H2 ltac:(lia)) as H2'.
  rewrite !shr_div by lia.
  change 15 with (Z.ones 4). change 7 with (Z.ones 3).
  change 127 with (Z.ones 7). change 255 with (Z.ones 8).
  change 31 with (Z.ones 5).
  rewrite !band_low_bits by (cbn; lia).
  change (2 ^ 3) with 8 in *. change (2 ^ 4) with 16.
  change (2 ^ 7) with 128. change (2 ^ 8) with 256. change (2 ^ 5) with 32.
  rewrite (Z.mod_small b2 256) by (cbn in H2; lia).
  rewrite (Z.mod_small (b2 / 8) 32) by div_lia.
  unfold audioDescriptorOf.
  change (default 0 (AUDIO_FORMAT_ARRAY !! 0%nat)) with 1.
  change (default 0 (AUDIO_FORMAT_ARRAY !! 1%nat)) with 8.
  change (default 0 (AUDIO_FORMAT_ARRAY !! 2%nat)) with 13.
  change (default 0 (AUDIO_FORMAT_ARRAY !! 3%nat)) with 14.
  change (default 0 (AUDIO_FORMAT_ARRAY !! 4%nat)) with 15.
  pose proof (Z.mod_pos_bound (b0 / 8) 16 ltac:(lia)) as Hc.
  set (codec := (b0 / 8) mod 16) in *.
  do 2 f_equal. f_equal.
  destruct (Z.leb_spec codec 1); [
    replace (codec =? 15) with false by lia;
    replace (codec =? 14) with false by lia;
    replace (2 <=? codec) with false by lia;
    replace (9 <=? codec) with false by lia; reflexivity |].
  destruct (Z.leb_spec codec 8); [
    replace (codec =? 15) with false by lia;
    replace (codec =? 14) with false by lia;
    replace (2 <=? codec) with true by lia;
    replace (9 <=? codec) with false by lia; reflexivity |].
  destruct (Z.leb_spec codec 13); [
    replace (codec =? 15) with false by lia;
    replace (codec =? 14) with false by lia;
    replace (2 <=? codec) with true by lia;
    replace (9 <=? codec) with true by lia; reflexivity |].
  destruct (Z.leb_spec codec 14); [
    replace (codec =? 15) with false by lia;
    replace (codec =? 14) with true by lia;
    replace (2 <=? codec) with true by lia;
    replace (9 <=? codec) with true by lia; reflexivity |].
  destruct (Z.leb_spec codec 15); [| lia].
  replace (codec =? 15) with true by lia.
  replace (codec =? 14) with false by lia.
  replace (2 <=? codec) with true by lia.
  replace (9 <=? codec) with true by lia. reflexivity.
Qed.

Section AudioLoop.
Variable bs : list Z.
Variable reader : BlockReader.
Variable body :
  Z -> Z * list ShortAudioDescriptor -> M (Ctl (Z * list ShortAudioDescriptor)).

Hypothesis body_framed : forall i s, framed (body i s).
Hypothesis body_step : forall i index descriptors,
  value (body i (index, descriptors)) bs
  = Continue (index + 3,
              descriptors ++ [audioDescriptorAt bs reader index 0]).

Lemma audioDescriptorAt_shift (start : Z) (j : nat) :
  audioDescriptorAt bs reader (start + 3) j
  = audioDescriptorAt bs reader start (S j).
Proof.
  unfold audioDescriptorAt.
  replace (start + 3 + 3 * Z.of_nat j) with (start + 3 * Z.of_nat (S j))
    by lia.
  reflexivity.
Qed.

Lemma audio_loop (n : nat) :
  forall i start descriptors,
    snd (value (forLoop n i body (start, descriptors)) bs)
    = descriptors ++ map (audioDescriptorAt bs reader start) (seq 0 n).
Proof.
  induction n as [|n IH]; intros i start descriptors.
  - cbn [forLoop]. rewrite value_ret. cbn. rewrite app_nil_r. reflexivity.
  - rewrite value_forLoop_S by exact body_framed.
    rewrite body_step, IH. cbn [seq map].
    rewrite <- app_assoc. cbn [app]. do 2 f_equal.
    rewrite <- seq_shift, map_map. apply map_ext. intros j.
    apply audioDescriptorAt_shift.
Qed.
End AudioLoop.

(** An audio data block of declared length [len] is decoded into
    ceil(len / 3) short audio descriptors (none when [len] is not positive),
    the j-th from the three bytes at [start + 3 j]; a byte that cannot be read
    counts as zero, so a length that is not a multiple of three still gives a
    last descriptor.  Every descriptor has a 4-bit codec, 1 to 8 channels and a
    7-bit sample rate bitmask. *)
Theorem audio_descriptors_decoded bs reader start len :
  Forall (fun b => 0 <= b <= 255) bs ->
  let block := value (parseAudioDataBlock reader start len) bs in
  Audio.dataLength block = len /\
  Audio.shortAudioDescriptors block
  = map (audioDescriptorAt bs reader start)
      (seq 0 (Z.to_nat ((len + 2) / 3))) /\
  Forall sadWellFormed (Audio.shortAudioDescriptors block).
Proof.
  intros Hbs block.
  assert (Hd : Audio.shortAudioDescriptors block
               = map (audioDescriptorAt bs reader start)
                   (seq 0 (Z.to_nat ((len + 2) / 3)))).
  { subst block. unfold parseAudioDataBlock. cbv zeta.
    rewrite value_bind by framed_auto. rewrite value_ret.
    cbn [Audio.shortAudioDescriptors].
    erewrite audio_loop; [reflexivity | intros; framed_auto |].
    intros i index descriptors. cbv beta iota.
    unfold audioDescriptorAt.
    replace (index + 3 * Z.of_nat 0) with index by lia.
    apply (audio_step bs reader index descriptors Hbs). }
  split.
  { subst block. unfold parseAudioDataBlock. cbv zeta.
    rewrite value_bind by framed_auto. rewrite value_ret. reflexivity. }
  split; [exact Hd |].
  rewrite Hd. apply List.Forall_forall. intros d Hin.
  apply in_map_iff in Hin. destruct Hin as (j & <- & _).
  apply audioDescriptorOf_wellFormed.
Qed.

Lemma audio_descriptors_decoded_witness :
  let block := value (parseAudioDataBlock (createBlockReader 0 0) 1 4)
                 [0x24; 0x09; 0x7f; 0x07; 0x15] in
  Audio.shortAudioDescriptors block
  = [audioDescriptorOf 0x09 0x7f 0x07; audioDescriptorOf 0x15 0 0].
Proof.
  apply (audio_descriptors_decoded [0x24; 0x09; 0x7f; 0x07; 0x15]
           (createBlockReader 0 0) 1 4).
  repeat constructor; lia.
Defined.

Lemma flaggedFrom_app (a b : list bool) :
  forall i, flaggedFrom i (a ++ b)
            = flaggedFrom i a ++ flaggedFrom (i + length a) b.
Proof.
  induction a as [|f a IH]; intros i; cbn [app flaggedFrom length].
  - rewrite Nat.add_0_r. reflexivity.
  - rewrite IH, <- app_assoc. do 2 f_equal. f_equal. lia.
Qed.

Lemma capabilityBits_snoc (mapBytes : list Z) (b : Z) :
  capabilityBits (mapBytes ++ [b])
  = capabilityBits mapBytes ++ map (Z.testbit b) [0; 1; 2; 3; 4; 5; 6; 7].
Proof.
  unfold capabilityBits. rewrite map_app, concat_app. cbn [map concat].
  rewrite app_nil_r. reflexivity.
Qed.

Lemma capabilityBits_length (mapBytes : list Z) :
  length (capabilityBits mapBytes) = (8 * length mapBytes)%nat.
Proof.
  induction mapBytes as [|b l IH]; [reflexivity |].
  change (capabilityBits (b :: l))
    with (map (Z.testbit b) [0; 1; 2; 3; 4; 5; 6; 7] ++ capabilityBits l).
  rewrite length_app, IH. cbn [length map]. lia.
Qed.

(** One step of the inner loop over the masks. *)
Lemma capability_masks (videoBlock : Video.VideoDataBlock) (dataByte : Z) :
  forall (ks : list Z) (i : nat) capable,
    Forall (fun k => 0 <= k < 31) ks ->
    fold_left
      (fun '(svdIndex, capable) FIELD_MASK =>
         let YCbCr420Capable := flag dataByte FIELD_MASK in
         if YCbCr420Capable then
           (svdIndex + 1,
            capable ++ [Video.shortVideoDescriptors videoBlock
                          !! Z.to_nat svdIndex])
         else (svdIndex + 1, capable))
      (map (fun k => 2 ^ k) ks) (Z.of_nat i, capable)
    = (Z.of_nat (i + length ks),
       capable
       ++ map (fun j => Video.shortVideoDescriptors videoBlock !! j)
            (flaggedFrom i (map (Z.testbit dataByte) ks))).
Proof.
  induction ks as [|k ks IH]; intros i capable Hks.
  - cbn. rewrite app_nil_r, Nat.add_0_r. reflexivity.
  - inversion Hks as [|? ? Hk Hks']; subst.
    cbn [map fold_left flaggedFrom length]. cbv beta iota zeta.
    assert (Hf : flag dataByte (2 ^ k) = Z.testbit dataByte k)
      by (apply band_bit_truthy; exact Hk).
    rewrite Hf.
    replace (Z.of_nat i + 1) with (Z.of_nat (S i)) by lia.
    rewrite Nat2Z.id.
    destruct (Z.testbit dataByte k);
      (etransitivity; [exact (IH (S i) _ Hks') |]).
    + rewrite <- app_assoc. cbn [app map]. do 2 f_equal. lia.
    + cbn [app]. f_equal. f_equal. lia.
Qed.

Lemma capabilityMapByte_bits (videoBlock : Video.VideoDataBlock)
    (dataByte : Z) (i : nat) capable :
  capabilityMapByte videoBlock dataByte (Z.of_nat i, capable)
  = (Z.of_nat (i + 8),
     capable
     ++ map (fun j => Video.shortVideoDescriptors videoBlock !! j)
          (flaggedFrom i (map (Z.testbit dataByte) [0; 1; 2; 3; 4; 5; 6; 7]))).
Proof.
  unfold capabilityMapByte.
  apply (capability_masks videoBlock dataByte [0; 1; 2; 3; 4; 5; 6; 7]).
  repeat constructor; lia.
Qed.

Lemma capability_loop bs reader start (videoBlock : Video.VideoDataBlock)
    (n : nat) :
  forall (i : Z) (seen : list Z),
    value
      (forLoop n i
         (fun FIELD_ADDRESS st =>
            do dataByte <- u8 reader (start + FIELD_ADDRESS);
            match dataByte with
            | None => ret (Break st)
            | Some dataByte =>
                ret (Continue (capabilityMapByte videoBlock dataByte st))
            end)
         (Z.of_nat (8 * length seen),
          map (fun j => Video.shortVideoDescriptors videoBlock !! j)
            (flaggedFrom 0 (capabilityBits seen)))) bs
    = let all :=
        seen ++ readablePrefix
                  (map (fun j : nat => byteAt bs reader (start + i + Z.of_nat j))
                     (seq 0 n)) in
      (Z.of_nat (8 * length all),
       map (fun j => Video.shortVideoDescriptors videoBlock !! j)
         (flaggedFrom 0 (capabilityBits all))).
Proof.
  induction n as [|n IH]; intros i seen; cbv zeta.
  - cbn [forLoop seq map readablePrefix]. rewrite value_ret, app_nil_r.
    reflexivity.
  - rewrite value_forLoop_S by (intros; framed_auto).
    rewrite value_bind by framed_auto. rewrite value_u8.
    cbn [seq map readablePrefix]. rewrite Z.add_0_r.
    destruct (byteAt bs reader (start + i)) as [b|] eqn:Hb;
      rewrite value_ret; [| rewrite app_nil_r; reflexivity].
    rewrite capabilityMapByte_bits.
    rewrite <- map_app.
    replace (flaggedFrom 0 (capabilityBits seen)
             ++ flaggedFrom (8 * length seen)
                  (map (Z.testbit b) [0; 1; 2; 3; 4; 5; 6; 7]))
      with (flaggedFrom 0 (capabilityBits (seen ++ [b])))
      by (rewrite capabilityBits_snoc, flaggedFrom_app,
            capabilityBits_length; reflexivity).
    replace (8 * length seen + 8)%nat with (8 * length (seen ++ [b]))%nat
      by (rewrite length_app; cbn [length]; lia).
    rewrite (IH (i + 1) (seen ++ [b])). cbv zeta.
    rewrite <- app_assoc. cbn [app].
    rewrite <- seq_shift, map_map.
    assert (Hmap :
      map (fun j : nat => byteAt bs reader (start + (i + 1) + Z.of_nat j))
        (seq 0 n)
      = map (fun j : nat => byteAt bs reader (start + i + Z.of_nat (S j)))
          (seq 0 n)).
    { apply map_ext. intros j. f_equal. lia. }
    rewrite Hmap. reflexivity.
Qed.

Lemma parseVideoDataBlock_context reader start len context bs :
  lastVideoBlock
    (snd (value (parseVideoDataBlock reader start len context) bs))
  = Some (fst (value (parseVideoDataBlock reader start len context) bs)).
Proof.
  unfold parseVideoDataBlock.
  rewrite value_bind by framed_auto. rewrite value_ret. reflexivity.
Qed.

(** A data block changes the video block of the extension context only
    when it is a VIDEO data block, which makes it the primary video block
    of the scan. *)
Lemma parseDataBlock_context reader index headerByte st bs :
  let st' := value (parseDataBlock reader index headerByte st) bs in
  lastVideoBlock (scan_context st')
  = if headerTag headerByte =? DATA_BLOCK_TYPE_value VIDEO
    then snd <$> scan_primaryVideoBlock st'
    else lastVideoBlock (scan_context st).
Proof.
  cbv zeta. unfold parseDataBlock, headerTag. cbv zeta.
  set (tag := JS.band (JS.shr headerByte TAG_CODE_OFFSET) TAG_CODE_MASK).
  destruct (Z.eqb_spec tag (DATA_BLOCK_TYPE_value AUDIO)) as [Ha|Ha].
  { rewrite Ha. cbn [DATA_BLOCK_TYPE_value Z.eqb Pos.eqb].
    rewrite value_bind by framed_auto. rewrite value_ret. reflexivity. }
  destruct (Z.eqb_spec tag (DATA_BLOCK_TYPE_value VIDEO)) as [Hv|Hv].
  { rewrite value_bind_all by (intros; framed_auto).
    pose proof (parseVideoDataBlock_context reader (index + 1)
                  (JS.band headerByte DATA_BLOCK_LENGTH_MASK)
                  (scan_context st) bs) as Hctx.
    destruct (value (parseVideoDataBlock reader (index + 1)
                       (JS.band headerByte DATA_BLOCK_LENGTH_MASK)
                       (scan_context st)) bs) as [videoBlock context'].
    cbn [fst snd] in Hctx.
    destruct (scan_primaryVideoBlock st) as [[slot primary]|];
      rewrite value_ret; cbn; [reflexivity | exact Hctx]. }
  destruct (Z.eqb_spec tag (DATA_BLOCK_TYPE_value VENDOR_SPECIFIC)).
  { rewrite value_bind by framed_auto. rewrite value_ret. reflexivity. }
  destruct (Z.eqb_spec tag (DATA_BLOCK_TYPE_value SPEAKER_ALLOCATION)).
  { rewrite value_bind by framed_auto. rewrite value_ret. reflexivity. }
  destruct (Z.eqb_spec tag (DATA_BLOCK_TYPE_value EXTENDED_TAG)).
  { rewrite value_bind by framed_auto. rewrite value_ret. reflexivity. }
  rewrite value_bind by framed_auto. rewrite value_ret. reflexivity.
Qed.

(** A YCbCr 4:2:0 capability map refers to the video data block that the
    extension context holds when the map is decoded: bit [j mod 8] of map
    byte [j / 8], when set, selects the j-th short video descriptor of that
    block (an absent one when the block has fewer), in order.  The map bytes
    are those that can be read after the extended tag byte, [len - 1] at
    most.  While the context holds no video block, only the extended tag is
    recorded.  Decoding a VIDEO data block makes the context hold the primary
    video block of the extension, and no other data block changes it.  The
    context is created empty once for a parse; a CTA-861 extension block is
    decoded with the context the blocks before it left and hands on the
    context it leaves, and a DisplayID or unknown block hands on the context
    it was given.  So the video block a map refers to need not be in the
    same extension: on the two inputs with two extensions the map of the
    second block selects a descriptor of the video block of the first, also
    when a video block follows the map in its own extension, and on the input
    with a map and no video block the map has no descriptors. *)
Theorem capability_map_selects_descriptors bs reader start len block context :
  let r :=
    value (parseYCbCr420CapabilityMapDataBlock reader start len block context)
      bs in
  ExtTag.extendedTag r = Some (KnownExtendedTag YCBCR420_CAPABILITY_MAP) /\
  ExtTag.YCbCr420CapableShortVideoDescriptors r
  = match lastVideoBlock context with
    | None => ExtTag.YCbCr420CapableShortVideoDescriptors block
    | Some videoBlock =>
        Some (map (fun j => Video.shortVideoDescriptors videoBlock !! j)
                (flaggedFrom 0
                   (capabilityBits (capabilityMapBytes bs reader start len))))
    end /\
  (forall index headerByte st,
     let st' := value (parseDataBlock reader index headerByte st) bs in
     lastVideoBlock (scan_context st')
     = if headerTag headerByte =? DATA_BLOCK_TYPE_value VIDEO
       then snd <$> scan_primaryVideoBlock st'
       else lastVideoBlock (scan_context st)) /\
  (forall m1 m2 m3 h data,
     Edid.extensions (parseEdid m1 m2 m3 h data)
     = value (parseExtensions h (availableExtensions (map JS.clampByte data))
                (mkExtensionParseContext None)) (map JS.clampByte data)) /\
  (forall h extIndex extensions context0,
     value (parseExtensions_step (decodeCtaExtension h)
              decodeDisplayIdExtension extIndex (extensions, context0)) bs
     = match byteAt bs (extensionReader extIndex) 0 with
       | None => Break (extensions, context0)
       | Some extTag =>
           if extTag =? CTA_EXTENSION_TAG then
             let decoded :=
               value (parseCtaExtension h (extensionReader extIndex) extIndex
                        context0) bs in
             Continue (extensions ++ [fst decoded], snd decoded)
           else if extTag =? DISPLAYID_EXTENSION_TAG then
             Continue
               (extensions
                ++ [value (parseDisplayIdExtension (extensionReader extIndex)
                             extIndex) bs],
                context0)
           else
             Continue
               (extensions
                ++ [value (parseUnknownExtension (extensionReader extIndex)
                             extIndex) bs],
                context0)
       end) /\
  (let decoded data :=
     map capabilityMapsOf
       (Edid.extensions
          (parseEdid noVendorMap noVendorMap noVendorMap hypotApprox data)) in
   decoded edidWithCapabilityMap
   = [[]; [Some [Some (mkShortVideoDescriptor 16 (Some false))]]] /\
   decoded edidWithLateVideoBlock
   = [[]; [Some [Some (mkShortVideoDescriptor 16 (Some false))]]] /\
   decoded (edidWithCtaBlocks [0xe2; 0x0f; 0x01]) = [[None]]).
Proof.
  cbv zeta.
  assert (Hrule :
    ExtTag.extendedTag
      (value (parseYCbCr420CapabilityMapDataBlock reader start len block
                context) bs)
    = Some (KnownExtendedTag YCBCR420_CAPABILITY_MAP) /\
    ExtTag.YCbCr420CapableShortVideoDescriptors
      (value (parseYCbCr420CapabilityMapDataBlock reader start len block
                context) bs)
    = match lastVideoBlock context with
      | None => ExtTag.YCbCr420CapableShortVideoDescriptors block
      | Some videoBlock =>
          Some (map (fun j => Video.shortVideoDescriptors videoBlock !! j)
                  (flaggedFrom 0
                     (capabilityBits
                        (capabilityMapBytes bs reader start len))))
      end).
  { unfold parseYCbCr420CapabilityMapDataBlock.
    destruct (lastVideoBlock context) as [videoBlock|].
    - rewrite value_bind by framed_auto. rewrite value_ret.
      pose proof (capability_loop bs reader start videoBlock
                    (Z.to_nat (len - 1)) 1 []) as Hloop.
      cbv zeta in Hloop.
      cbn [length app capabilityBits map concat flaggedFrom] in Hloop.
      change (Z.of_nat (8 * 0)) with 0 in Hloop. rewrite Hloop.
      destruct block; split; reflexivity.
    - rewrite value_ret. destruct block; split; reflexivity. }
  destruct Hrule as [Htag Hmap].
  split; [exact Htag |]. split; [exact Hmap |].
  split; [intros index headerByte st; apply parseDataBlock_context |].
  split; [intros m1 m2 m3 h data; apply (parseEdid_shape m1 m2 m3 h data) |].
  split; [intros h extIndex extensions context0; apply value_extension_step |].
  repeat split; vm_compute; reflexivity.
Qed.

(** ** Descriptor texts *)

Lemma popWhile_spec (p : Z -> bool) (chars : list Z) :
  exists dropped,
    chars = popWhile p chars ++ dropped /\
    Forall (fun c => p c = true) dropped /\
    (forall c, last (popWhile p chars) = Some c -> p c = false).
Proof.
  induction chars as [|c rest (dropped & Heq & Hall & Hlast)].
  - exists []. cbn. split; [reflexivity |]. split; [constructor | discriminate].
  - cbn [popWhile].
    destruct (popWhile p rest) as [|c' rest'] eqn:Hpop.
    + destruct (p c) eqn:Hc.
      * exists (c :: dropped). cbn in Heq. subst rest.
        split; [reflexivity |]. split; [constructor; assumption | discriminate].
      * exists dropped. cbn in Heq. subst rest.
        split; [reflexivity |]. split; [exact Hall |].
        intros c0 H0. cbn in H0. injection H0 as <-. exact Hc.
    + exists dropped. split; [cbn; rewrite Heq at 1; reflexivity |].
      split; [exact Hall |].
      intros c0 H0. apply Hlast.
      rewrite last_cons in H0. destruct (last (c' :: rest')) eqn:Hl.
      * exact H0.
      * exfalso. apply last_None in Hl. discriminate.
Qed.

Lemma popWhile_prefix_all (P : Z -> Prop) (p : Z -> bool) (chars : list Z) :
  Forall P chars -> Forall P (popWhile p chars).
Proof.
  intros Hall. destruct (popWhile_spec p chars) as (dropped & Heq & _).
  rewrite Heq in Hall. apply Forall_app in Hall. exact (proj1 Hall).
Qed.

Lemma text_loop bs reader off (n : nat) :
  forall (i : Z) (chars : list Z),
    exists kept rest,
      map (fun j : nat => default 0 (byteAt bs reader (off + 5 + (i + Z.of_nat j))))
        (seq 0 n) = kept ++ rest /\
      Forall (fun c => ~ endsText c) kept /\
      (rest = [] \/ exists c r, rest = c :: r /\ endsText c) /\
      value
        (forLoop n i
           (fun index chars =>
              do byte <- u8OrZero reader (off + 5 + index);
              if (byte =? 0x0a) || (byte =? 0x00)
              then ret (Break chars)
              else ret (Continue (chars ++ [byte])))
           chars) bs
      = chars ++ kept.
Proof.
  induction n as [|n IH]; intros i chars.
  - exists [], []. cbn [forLoop seq map app]. rewrite value_ret, app_nil_r.
    split; [reflexivity |]. split; [constructor |]. split; [left |]; reflexivity.
  - rewrite value_forLoop_S by (intros; framed_auto).
    rewrite value_bind by framed_auto. rewrite value_u8OrZero.
    cbn [seq map]. rewrite !Z.add_0_r.
    set (b := default 0 (byteAt bs reader (off + 5 + i))).
    destruct ((b =? 10) || (b =? 0)) eqn:Hstop; rewrite value_ret.
    + exists [], (b :: map (fun j : nat =>
                       default 0 (byteAt bs reader (off + 5 + (i + Z.of_nat j))))
                     (seq 1 n)).
      rewrite app_nil_r. split; [reflexivity |]. split; [constructor |].
      split; [| reflexivity].
      right. eexists _, _. split; [reflexivity |]. unfold endsText. lia.
    + destruct (IH (i + 1) (chars ++ [b])) as (kept & rest & Heq & Hk & Hr & Hv).
      exists (b :: kept), rest. split; [| split; [| split]].
      * cbn [app]. f_equal. rewrite <- Heq, <- seq_shift, map_map.
        apply map_ext. intros j. do 2 f_equal. lia.
      * constructor; [unfold endsText; lia | exact Hk].
      * exact Hr.
      * rewrite Hv, <- app_assoc. reflexivity.
Qed.

(** The text of a descriptor is the beginning of its thirteen text bytes up
    to the first line feed or NUL, without the spaces at its end: the text
    bytes are the text, then only spaces, then (if anything is left) a line
    feed or a NUL; the text itself holds neither and does not end with a
    space. *)
Theorem descriptor_text_trimmed bs reader descriptorOffset :
  let text := value (parseMonitorDescriptorText reader descriptorOffset) bs in
  (exists spaces rest,
     descriptorTextBytes bs reader descriptorOffset = text ++ spaces ++ rest /\
     Forall (fun c => c = 0x20) spaces /\
     (rest = [] \/ exists c r, rest = c :: r /\ endsText c)) /\
  Forall (fun c => ~ endsText c) text /\
  last text <> Some 0x20 /\
  (length text <= 13)%nat.
Proof.
  cbv zeta. unfold parseMonitorDescriptorText. cbv zeta.
  rewrite value_bind by framed_auto. rewrite value_ret.
  destruct (text_loop bs reader descriptorOffset (Z.to_nat 13) 0 [])
    as (kept & rest & Heq & Hk & Hr & Hv).
  rewrite Hv. cbn [app].
  destruct (popWhile_spec (fun c => c =? 32) kept) as (spaces & Hs & Hall & Hlast).
  assert (Hbytes : descriptorTextBytes bs reader descriptorOffset
                   = popWhile (fun c => c =? 32) kept ++ spaces ++ rest).
  { rewrite app_assoc, <- Hs, <- Heq. unfold descriptorTextBytes.
    apply map_ext. intros j. do 2 f_equal. }
  split; [| split; [| split]].
  - exists spaces, rest. split; [exact Hbytes |]. split; [| exact Hr].
    eapply Forall_impl; [exact Hall |]. cbv beta. intros c Hc. lia.
  - apply popWhile_prefix_all. exact Hk.
  - intros H32. specialize (Hlast _ H32). cbv beta in Hlast. lia.
  - apply (f_equal (@length Z)) in Hbytes.
    unfold descriptorTextBytes in Hbytes.
    rewrite length_map, length_seq, !length_app in Hbytes. lia.
Qed.

(** ** The feature summary: interface versions *)

Lemma raiseHdmi_level (l0 l : nat) :
  (l0 <= 3)%nat -> (l <= 3)%nat ->
  raiseHdmi (hdmiVersionOfLevel l0) l = hdmiVersionOfLevel (Nat.max l0 l).
Proof.
  intros H0 Hl.
  destruct l0 as [|[|[|[|?]]]]; [| | | | lia];
    destruct l as [|[|[|[|?]]]]; try lia; reflexivity.
Qed.

Lemma hdmiLevel_le (b : option AnyDataBlock) : (hdmiLevel b <= 3)%nat.
Proof.
  unfold hdmiLevel.
  repeat match goal with
         | |- context [match ?x with _ => _ end] => destruct x
         end; lia.
Qed.

Lemma fold_raiseHdmi (blocks : list (option AnyDataBlock)) :
  forall l0 : nat,
    (l0 <= 3)%nat ->
    fold_left (fun a b => raiseHdmi a (hdmiLevel b)) blocks
      (hdmiVersionOfLevel l0)
    = hdmiVersionOfLevel (fold_left Nat.max (map hdmiLevel blocks) l0).
Proof.
  induction blocks as [|b blocks IH]; intros l0 H0; [reflexivity |].
  cbn [fold_left map]. pose proof (hdmiLevel_le b) as Hb.
  rewrite raiseHdmi_level by assumption. apply IH. lia.
Qed.

Lemma vendor_hdmiVersion b s :
  Acc.hdmiVersion (addVendorBlock b s)
  = raiseHdmi (Acc.hdmiVersion s) (hdmiLevel (Some (AnyVendor b))).
Proof.
  unfold addVendorBlock, hdmiLevel, raiseHdmi. cbv beta zeta.
  rewrite (get_addVrrMax _ Acc.hdmiVersion) by (intros; reflexivity).
  rewrite (get_addVrrMin _ Acc.hdmiVersion) by (intros; reflexivity).
  repeat (rewrite (get_when_keeps _ Acc.hdmiVersion)
            by (intros; destruct s0; reflexivity)).
  repeat match goal with
         | |- context [if ?c then _ else _] => destruct c
         end; reflexivity.
Qed.

Lemma extended_hdmiVersion b s :
  Acc.hdmiVersion (addExtendedTagBlock b s)
  = raiseHdmi (Acc.hdmiVersion s) (hdmiLevel (Some (AnyExtended b))).
Proof.
  unfold addExtendedTagBlock, hdmiLevel, raiseHdmi. cbv beta zeta.
  rewrite (get_addVrrMax _ Acc.hdmiVersion) by (intros; reflexivity).
  rewrite (get_addVrrMin _ Acc.hdmiVersion) by (intros; reflexivity).
  repeat (rewrite (get_when_keeps _ Acc.hdmiVersion)
            by (intros; destruct s0; reflexivity)).
  destruct (ExtTag.extendedTag b) as [[[]|]|];
    repeat match goal with
           | |- context [if ?c then _ else _] => destruct c
           end; reflexivity.
Qed.

(** For every input the reported HDMI version is the newest one that a data
    block of the extensions announces: 2.1, 2.0 or 1.4, and none when no
    block announces any. *)
Theorem hdmi_version_is_newest_announced m1 m2 m3 h (data : list Z) :
  let r := parseEdid m1 m2 m3 h data in
  FS.hdmiVersion (Edid.featureSupport r)
  = hdmiVersionOfLevel
      (fold_left Nat.max (map hdmiLevel (dataBlocksOf (Edid.extensions r))) 0%nat).
Proof.
  cbv zeta.
  destruct (parseEdid_shape m1 m2 m3 h data) as (_ & _ & _ & _ & _ & ->).
  generalize (Edid.extensions (parseEdid m1 m2 m3 h data)).
  generalize (Edid.baseBlock (parseEdid m1 m2 m3 h data)).
  generalize (Edid.basicDisplayParams (parseEdid m1 m2 m3 h data)).
  generalize (Edid.nativeResolution (parseEdid m1 m2 m3 h data)).
  intros native bdp baseBlock exts.
  unfold buildFeatureSupport. cbv zeta. cbn [FS.hdmiVersion].
  rewrite (get_finalizeRefreshRates _ Acc.hdmiVersion)
    by (intros; reflexivity).
  rewrite (get_extensions _ Acc.hdmiVersion
             ltac:(intros; reflexivity) ltac:(intros; reflexivity)
             ltac:(intros; reflexivity)
             (fun a b => raiseHdmi a (hdmiLevel b))).
  - rewrite !(get_fold_srr _ Acc.hdmiVersion) by (intros; reflexivity).
    rewrite (get_addSrrRate _ Acc.hdmiVersion) by (intros; reflexivity).
    cbn [Acc.hdmiVersion].
    exact (fold_raiseHdmi (dataBlocksOf exts) 0 ltac:(lia)).
  - apply vendor_hdmiVersion.
  - apply extended_hdmiVersion.
  - intros a [[ | ? | ? | ? | ? | ?]|]; cbn; auto.
Qed.

Lemma vendor_displayIdVersion b s :
  Acc.displayIdVersion (addVendorBlock b s) = Acc.displayIdVersion s.
Proof.
  unfold addVendorBlock. cbv beta zeta.
  rewrite (get_addVrrMax _ Acc.displayIdVersion) by (intros; reflexivity).
  rewrite (get_addVrrMin _ Acc.displayIdVersion) by (intros; reflexivity).
  repeat (rewrite (get_when_keeps _ Acc.displayIdVersion)
            by (intros; destruct s0; reflexivity)).
  repeat match goal with
         | |- context [if ?c then _ else _] => destruct c
         end; reflexivity.
Qed.

Lemma extended_displayIdVersion b s :
  Acc.displayIdVersion (addExtendedTagBlock b s) = Acc.displayIdVersion s.
Proof.
  unfold addExtendedTagBlock. cbv beta zeta.
  rewrite (get_addVrrMax _ Acc.displayIdVersion) by (intros; reflexivity).
  rewrite (get_addVrrMin _ Acc.displayIdVersion) by (intros; reflexivity).
  repeat (rewrite (get_when_keeps _ Acc.displayIdVersion)
            by (intros; destruct s0; reflexivity)).
  repeat match goal with
         | |- context [if ?c then _ else _] => destruct c
         end; reflexivity.
Qed.

Lemma displayIdVersion_addExtension s ext :
  Acc.displayIdVersion (addExtension s ext)
  = fold_left (fun a v => Some (maxDisplayIdVersion a v))
      (displayIdVersionsOf [ext]) (Acc.displayIdVersion s).
Proof.
  unfold addExtension, displayIdVersionsOf. cbv zeta. cbn [flat_map].
  rewrite app_nil_r.
  assert (Hblocks : forall blocks t,
             Acc.displayIdVersion (fold_left addDataBlock blocks t)
             = Acc.displayIdVersion t).
  { intros blocks t.
    rewrite (get_dataBlocks _ Acc.displayIdVersion (fun a _ => a)).
    - induction blocks as [|b blocks IH]; [reflexivity | exact IH].
    - apply vendor_displayIdVersion.
    - apply extended_displayIdVersion.
    - intros a [[ | ? | ? | ? | ? | ?]|]; cbn; auto. }
  assert (Hrest : forall t,
             Acc.displayIdVersion
               match Extension.dataBlockCollection ext with
               | Some dataBlocks =>
                   fold_left addDataBlock dataBlocks
                     (fold_left
                        (fun s dtd => addSrrRate (getDtdRefreshRateHz dtd) s)
                        (Extension.dtds ext) t)
               | None =>
                   fold_left
                     (fun s dtd => addSrrRate (getDtdRefreshRateHz dtd) s)
                     (Extension.dtds ext) t
               end = Acc.displayIdVersion t).
  { intros t. destruct (Extension.dataBlockCollection ext);
      [rewrite Hblocks |];
      apply (get_fold_srr _ Acc.displayIdVersion); intros; reflexivity. }
  rewrite Hrest.
  destruct (Extension.extTagByte ext =? DISPLAYID_EXTENSION_TAG);
    [| reflexivity].
  destruct (parseDisplayIdVersionFromRevision (Extension.revisionNumber ext));
    reflexivity.
Qed.

Lemma displayIdVersion_extensions exts :
  forall s,
    Acc.displayIdVersion (fold_left addExtension exts s)
    = fold_left (fun a v => Some (maxDisplayIdVersion a v))
        (displayIdVersionsOf exts) (Acc.displayIdVersion s).
Proof.
  induction exts as [|ext exts IH]; intros s; [reflexivity |].
  cbn [fold_left]. rewrite IH, displayIdVersion_addExtension.
  replace (displayIdVersionsOf (ext :: exts))
    with (displayIdVersionsOf [ext] ++ displayIdVersionsOf exts)
    by (unfold displayIdVersionsOf; cbn [flat_map]; rewrite app_nil_r;
        reflexivity).
  rewrite fold_left_app. reflexivity.
Qed.

Lemma fold_newest (versions : list Q) :
  forall current : option Q,
    match fold_left (fun a v => Some (maxDisplayIdVersion a v)) versions current
    with
    | None => current = None /\ versions = []
    | Some newest =>
        (current = Some newest \/ In newest versions) /\
        (forall c, current = Some c -> (c <= newest)%Q) /\
        Forall (fun v => (v <= newest)%Q) versions
    end.
Proof.
  induction versions as [|v versions IH]; intros current.
  - cbn [fold_left]. destruct current as [c|]; [| split; reflexivity].
    split; [left; reflexivity |]. split; [| constructor].
    intros c' [= <-]. apply Qle_refl.
  - cbn [fold_left]. specialize (IH (Some (maxDisplayIdVersion current v))).
    destruct (fold_left _ versions _) as [newest|]; [| destruct IH; discriminate].
    destruct IH as (Hin & Hle & Hall).
    specialize (Hle _ eq_refl).
    assert (Hv : (v <= maxDisplayIdVersion current v)%Q /\
                 (forall c, current = Some c ->
                            (c <= maxDisplayIdVersion current v)%Q) /\
                 (current = Some (maxDisplayIdVersion current v) \/
                  maxDisplayIdVersion current v = v)).
    { unfold maxDisplayIdVersion. destruct current as [c|].
      - destruct (Qlt_bool c v) eqn:Hlt.
        + split; [apply Qle_refl |]. split; [| right; reflexivity].
          intros c' [= <-]. apply Qlt_le_weak, Qlt_bool_true, Hlt.
        + split; [apply Qlt_bool_false, Hlt |]. split; [| left; reflexivity].
          intros c' [= <-]. apply Qle_refl.
      - split; [apply Qle_refl |]. split; [discriminate | right; reflexivity]. }
    destruct Hv as (Hv & Hc & Hm).
    split; [| split].
    + destruct Hin as [[= Hn]|Hin]; [| right; right; exact Hin].
      destruct Hm as [Hm|Hm].
      * left. rewrite Hm, Hn. reflexivity.
      * right. left. rewrite <- Hn. symmetry. exact Hm.
    + intros c Hcur. eapply Qle_trans; [exact (Hc c Hcur) | exact Hle].
    + constructor; [eapply Qle_trans; [exact Hv | exact Hle] | exact Hall].
Qed.

(** For every input the reported DisplayID version is the newest of the
    versions that the DisplayID extensions announce by their revision byte:
    it is one of them and no other is newer; it is absent exactly when no
    extension announces one. *)
Theorem display_id_version_is_newest m1 m2 m3 h (data : list Z) :
  let r := parseEdid m1 m2 m3 h data in
  let versions := displayIdVersionsOf (Edid.extensions r) in
  match FS.displayIdVersion (Edid.featureSupport r) with
  | None => versions = []
  | Some newest =>
      In newest versions /\ Forall (fun v => (v <= newest)%Q) versions
  end.
Proof.
  cbv zeta.
  destruct (parseEdid_shape m1 m2 m3 h data) as (_ & _ & _ & _ & _ & ->).
  generalize (Edid.extensions (parseEdid m1 m2 m3 h data)).
  generalize (Edid.baseBlock (parseEdid m1 m2 m3 h data)).
  generalize (Edid.basicDisplayParams (parseEdid m1 m2 m3 h data)).
  generalize (Edid.nativeResolution (parseEdid m1 m2 m3 h data)).
  intros native bdp baseBlock exts.
  unfold buildFeatureSupport. cbv zeta. cbn [FS.displayIdVersion].
  assert (Hfinal : forall t,
             Acc.displayIdVersion (finalizeRefreshRates t)
             = Acc.displayIdVersion t).
  { intros t. unfold finalizeRefreshRates. cbv zeta.
    repeat match goal with
           | |- context [if ?c then _ else _] => destruct c
           | |- context [match ?x with Some _ => _ | None => _ end] =>
               destruct x
           end; reflexivity. }
  rewrite Hfinal, displayIdVersion_extensions.
  rewrite !(get_fold_srr _ Acc.displayIdVersion) by (intros; reflexivity).
  rewrite (get_addSrrRate _ Acc.displayIdVersion) by (intros; reflexivity).
  cbn [Acc.displayIdVersion].
  pose proof (fold_newest (displayIdVersionsOf exts) None) as Hn.
  destruct (fold_left _ (displayIdVersionsOf exts) None) as [newest|].
  - destruct Hn as ([Hn|Hn] & _ & Hall); [discriminate |].
    split; assumption.
  - exact (proj2 Hn).
Qed.

(** ** The feature summary: the VRR flag *)

Lemma vendor_supportsVRR b s :
  Acc.supportsVRR (addVendorBlock b s)
  = Acc.supportsVRR s || vendorAnnouncesVrr b.
Proof.
  unfold addVendorBlock, vendorAnnouncesVrr. cbv beta zeta.
  rewrite (get_addVrrMax _ Acc.supportsVRR) by (intros; reflexivity).
  rewrite (get_addVrrMin _ Acc.supportsVRR) by (intros; reflexivity).
  repeat first
    [ rewrite (get_when_keeps _ Acc.supportsVRR)
        by (intros; destruct s0; reflexivity)
    | rewrite (when_sets Acc.supportsVRR) by (intros; reflexivity) ].
  match goal with
  | |- context [Acc.supportsVRR ?t] =>
      lazymatch t with
      | s => fail
      | _ => replace (Acc.supportsVRR t) with (Acc.supportsVRR s)
      end
  end.
  - rewrite <- !orb_assoc. reflexivity.
  - repeat match goal with
           | |- context [if ?c then _ else _] => destruct c
           end; reflexivity.
Qed.

Lemma extended_supportsVRR b s :
  Acc.supportsVRR (addExtendedTagBlock b s)
  = Acc.supportsVRR s || extendedAnnouncesVrr b.
Proof.
  unfold addExtendedTagBlock, extendedAnnouncesVrr. cbv beta zeta.
  rewrite (get_addVrrMax _ Acc.supportsVRR) by (intros; reflexivity).
  rewrite (get_addVrrMin _ Acc.supportsVRR) by (intros; reflexivity).
  repeat first
    [ rewrite (get_when_keeps _ Acc.supportsVRR)
        by (intros; destruct s0; reflexivity)
    | rewrite (when_sets Acc.supportsVRR) by (intros; reflexivity) ].
  match goal with
  | |- context [Acc.supportsVRR ?t] =>
      lazymatch t with
      | s => fail
      | _ => replace (Acc.supportsVRR t) with (Acc.supportsVRR s)
      end
  end.
  - rewrite <- !orb_assoc. reflexivity.
  - repeat match goal with
           | |- context [if ?c then _ else _] => destruct c
           end; reflexivity.
Qed.

Lemma minVrr_addVrrMin rateHz s :
  isDefined (Acc.minVrrHz (addVrrMin rateHz s)) = true ->
  isDefined rateHz = true \/ isDefined (Acc.minVrrHz s) = true.
Proof.
  unfold addVrrMin. destruct rateHz as [rate|]; [left; reflexivity |].
  intros H. right. exact H.
Qed.

Lemma maxVrr_addVrrMax rateHz s :
  isDefined (Acc.maxVrrHz (addVrrMax rateHz s)) = true ->
  isDefined rateHz = true \/ isDefined (Acc.maxVrrHz s) = true.
Proof.
  unfold addVrrMax. destruct rateHz as [rate|]; [left; reflexivity |].
  intros H. right. exact H.
Qed.

Lemma maxVrr_addVrrMin rateHz s :
  Acc.maxVrrHz (addVrrMin rateHz s) = Acc.maxVrrHz s.
Proof.
  unfold addVrrMin.
  repeat match goal with
         | |- context [match ?x with _ => _ end] => destruct x
         end; reflexivity.
Qed.

Lemma vrrFlagged_vendor b s : vrrFlagged s -> vrrFlagged (addVendorBlock b s).
Proof.
  unfold vrrFlagged. intros Hs. rewrite vendor_supportsVRR.
  unfold addVendorBlock, vendorAnnouncesVrr. cbv beta zeta.
  rewrite (get_addVrrMax _ Acc.minVrrHz) by (intros; reflexivity).
  intros Hd. apply orb_true_iff in Hd.
  destruct Hd as [Hd|Hd].
  - apply minVrr_addVrrMin in Hd. destruct Hd as [Hd|Hd].
    + rewrite Hd. rewrite !orb_true_r. reflexivity.
    + repeat (rewrite (get_when_keeps _ Acc.minVrrHz) in Hd
                by (intros; destruct s0; reflexivity)).
      assert (Hmin : isDefined (Acc.minVrrHz s) = true).
      { repeat match type of Hd with
               | context [if ?c then _ else _] => destruct c
               end; exact Hd. }
      rewrite Hs by (rewrite Hmin; reflexivity). reflexivity.
  - apply maxVrr_addVrrMax in Hd. destruct Hd as [Hd|Hd].
    + rewrite Hd. rewrite !orb_true_r. reflexivity.
    + rewrite maxVrr_addVrrMin in Hd.
      repeat (rewrite (get_when_keeps _ Acc.maxVrrHz) in Hd
                by (intros; destruct s0; reflexivity)).
      assert (Hmax : isDefined (Acc.maxVrrHz s) = true).
      { repeat match type of Hd with
               | context [if ?c then _ else _] => destruct c
               end; exact Hd. }
      rewrite Hs by (rewrite Hmax; apply orb_true_r). reflexivity.
Qed.

Lemma vrrFlagged_extended b s :
  vrrFlagged s -> vrrFlagged (addExtendedTagBlock b s).
Proof.
  unfold vrrFlagged. intros Hs. rewrite extended_supportsVRR.
  unfold addExtendedTagBlock, extendedAnnouncesVrr. cbv beta zeta.
  rewrite (get_addVrrMax _ Acc.minVrrHz) by (intros; reflexivity).
  intros Hd. apply orb_true_iff in Hd.
  destruct Hd as [Hd|Hd].
  - apply minVrr_addVrrMin in Hd. destruct Hd as [Hd|Hd].
    + rewrite Hd. rewrite !orb_true_r. reflexivity.
    + repeat (rewrite (get_when_keeps _ Acc.minVrrHz) in Hd
                by (intros; destruct s0; reflexivity)).
      assert (Hmin : isDefined (Acc.minVrrHz s) = true).
      { repeat match type of Hd with
               | context [if ?c then _ else _] => destruct c
               end; exact Hd. }
      rewrite Hs by (rewrite Hmin; reflexivity). reflexivity.
  - apply maxVrr_addVrrMax in Hd. destruct Hd as [Hd|Hd].
    + rewrite Hd. rewrite !orb_true_r. reflexivity.
    + rewrite maxVrr_addVrrMin in Hd.
      repeat (rewrite (get_when_keeps _ Acc.maxVrrHz) in Hd
                by (intros; destruct s0; reflexivity)).
      assert (Hmax : isDefined (Acc.maxVrrHz s) = true).
      { repeat match type of Hd with
               | context [if ?c then _ else _] => destruct c
               end; exact Hd. }
      rewrite Hs by (rewrite Hmax; apply orb_true_r). reflexivity.
Qed.

Lemma vrrFlagged_keeps (f : Acc.FeatureState -> Acc.FeatureState) s :
  Acc.minVrrHz (f s) = Acc.minVrrHz s ->
  Acc.maxVrrHz (f s) = Acc.maxVrrHz s ->
  Acc.supportsVRR (f s) = Acc.supportsVRR s ->
  vrrFlagged s -> vrrFlagged (f s).
Proof. unfold vrrFlagged. intros -> -> ->. auto. Qed.

Lemma vrrFlagged_addSrrRate rateHz s :
  vrrFlagged s -> vrrFlagged (addSrrRate rateHz s).
Proof.
  apply (vrrFlagged_keeps (addSrrRate rateHz));
    [apply (get_addSrrRate _ Acc.minVrrHz)
    | apply (get_addSrrRate _ Acc.maxVrrHz)
    | apply (get_addSrrRate _ Acc.supportsVRR)]; intros; reflexivity.
Qed.

Lemma vrrFlagged_fold_srr {B : Type} (rate : B -> option Q) (l : list B) s :
  vrrFlagged s ->
  vrrFlagged (fold_left (fun s x => addSrrRate (rate x) s) l s).
Proof.
  revert s. induction l as [|x l IH]; intros s Hs; [exact Hs |].
  cbn [fold_left]. apply IH, vrrFlagged_addSrrRate, Hs.
Qed.

Lemma vrrFlagged_addDataBlock s block :
  vrrFlagged s -> vrrFlagged (addDataBlock s block).
Proof.
  intros Hs. unfold addDataBlock.
  destruct block as [[ | a | v | b | sp | e]|]; cbn;
    first [exact Hs | apply vrrFlagged_vendor, Hs
          | apply vrrFlagged_extended, Hs].
Qed.

Lemma vrrFlagged_addExtension s ext :
  vrrFlagged s -> vrrFlagged (addExtension s ext).
Proof.
  intros Hs. unfold addExtension. cbv zeta.
  assert (Hd : vrrFlagged
                 (if Extension.extTagByte ext =? DISPLAYID_EXTENSION_TAG
                  then match parseDisplayIdVersionFromRevision
                               (Extension.revisionNumber ext) with
                       | Some version => addDisplayIdVersion version s
                       | None => s
                       end
                  else s)).
  { destruct (_ =? _); [| exact Hs].
    destruct (parseDisplayIdVersionFromRevision _); exact Hs. }
  apply (vrrFlagged_fold_srr getDtdRefreshRateHz (Extension.dtds ext)) in Hd.
  destruct (Extension.dataBlockCollection ext) as [blocks|]; [| exact Hd].
  revert Hd. generalize (fold_left
                           (fun s dtd => addSrrRate (getDtdRefreshRateHz dtd) s)
                           (Extension.dtds ext)
                           (if Extension.extTagByte ext =? DISPLAYID_EXTENSION_TAG
                            then match parseDisplayIdVersionFromRevision
                                         (Extension.revisionNumber ext) with
                                 | Some version => addDisplayIdVersion version s
                                 | None => s
                                 end
                            else s)).
  induction blocks as [|b blocks IH]; intros t Ht; [exact Ht |].
  cbn [fold_left]. apply IH, vrrFlagged_addDataBlock, Ht.
Qed.

Lemma vrrFlagged_extensions exts :
  forall s, vrrFlagged s -> vrrFlagged (fold_left addExtension exts s).
Proof.
  induction exts as [|ext exts IH]; intros s Hs; [exact Hs |].
  cbn [fold_left]. apply IH, vrrFlagged_addExtension, Hs.
Qed.

Lemma finalizeRefreshRates_flag s :
  Acc.supportsVRR (finalizeRefreshRates s)
  = Acc.supportsVRR s
    || (isDefined (Acc.minVrrHz s) || isDefined (Acc.maxVrrHz s)).
Proof.
  unfold finalizeRefreshRates. cbv zeta.
  destruct s as [g d h10 h10p dv vrr gm allm vmin vmax hv dv' smin smax].
  cbn. destruct vrr, vmin, vmax; cbn;
    repeat match goal with
           | |- context [if ?c then _ else _] =>
               lazymatch c with
               | context [if _ then _ else _] => fail
               | _ => destruct c; cbn
               end
           end; reflexivity.
Qed.

Lemma supportsVRR_finalizeRefreshRates s :
  vrrFlagged s ->
  Acc.supportsVRR (finalizeRefreshRates s) = Acc.supportsVRR s.
Proof.
  unfold vrrFlagged. intros Hs. rewrite finalizeRefreshRates_flag.
  destruct (isDefined (Acc.minVrrHz s) || isDefined (Acc.maxVrrHz s)).
  - rewrite Hs by reflexivity. reflexivity.
  - apply orb_false_r.
Qed.

(** For every input the VRR flag of the feature summary is true exactly when
    some data block of some extension announces variable refresh rates, by a
    flag or by carrying a VRR bound; the final reconciliation of the refresh
    rate ranges never sets it by itself. *)
Theorem vrr_flag_from_blocks m1 m2 m3 h (data : list Z) :
  let r := parseEdid m1 m2 m3 h data in
  FS.supportsVRR (Edid.featureSupport r)
  = someBlock vendorAnnouncesVrr extendedAnnouncesVrr (Edid.extensions r).
Proof.
  cbv zeta.
  destruct (parseEdid_shape m1 m2 m3 h data) as (_ & _ & _ & _ & _ & ->).
  generalize (Edid.extensions (parseEdid m1 m2 m3 h data)).
  generalize (Edid.baseBlock (parseEdid m1 m2 m3 h data)).
  generalize (Edid.basicDisplayParams (parseEdid m1 m2 m3 h data)).
  generalize (Edid.nativeResolution (parseEdid m1 m2 m3 h data)).
  intros native bdp baseBlock exts.
  unfold buildFeatureSupport. cbv zeta. cbn [FS.supportsVRR].
  rewrite supportsVRR_finalizeRefreshRates.
  - rewrite (get_extensions _ Acc.supportsVRR
               ltac:(intros; reflexivity) ltac:(intros; reflexivity)
               ltac:(intros; reflexivity)
               (fun a b => a || blockTest vendorAnnouncesVrr
                                  extendedAnnouncesVrr b)).
    + rewrite !(get_fold_srr _ Acc.supportsVRR) by (intros; reflexivity).
      rewrite (get_addSrrRate _ Acc.supportsVRR) by (intros; reflexivity).
      cbn [Acc.supportsVRR]. rewrite fold_orb. reflexivity.
    + apply vendor_supportsVRR.
    + apply extended_supportsVRR.
    + intros a [[ | ? | ? | ? | ? | ?]|]; cbn; auto using orb_false_r.
  - apply vrrFlagged_extensions.
    repeat apply vrrFlagged_fold_srr. apply vrrFlagged_addSrrRate.
    unfold vrrFlagged. cbn. discriminate.
Qed.

(** ** Double precision arithmetic of the refresh rates

    The quotients the parser forms from a decoded timing stay in the normal
    range of binary64: each operation yields a positive finite double with a
    full 53-bit mantissa. *)

Lemma digits2_size p : digits2_pos p = Pos.size p.
Proof. induction p; cbn; congruence. Qed.

Lemma Zdigits2_log2 z : 0 < z -> Zdigits2 z = Z.log2 z + 1.
Proof.
  destruct z as [|p|p]; try lia. intros _. cbn [Zdigits2].
  rewrite digits2_size. destruct p; cbn; lia.
Qed.

Lemma Zdigits2_unique z d : 0 < d -> 2 ^ (d - 1) <= z < 2 ^ d -> Zdigits2 z = d.
Proof.
  intros Hd H.
  assert (0 < z) by (pose proof (Z.pow_pos_nonneg 2 (d - 1)); lia).
  rewrite Zdigits2_log2 by assumption.
  rewrite (Z.log2_unique z (d - 1)); [lia | lia |].
  replace (Z.succ (d - 1)) with d by lia. exact H.
Qed.

Lemma Zdigits2_spec z : 0 < z -> 2 ^ (Zdigits2 z - 1) <= z < 2 ^ Zdigits2 z.
Proof.
  intros H. rewrite Zdigits2_log2 by assumption.
  replace (Z.log2 z + 1 - 1) with (Z.log2 z) by lia.
  pose proof (Z.log2_spec z H). replace (Z.log2 z + 1) with (Z.succ (Z.log2 z)) by lia.
  exact H0.
Qed.

Lemma shr_1_m r : 0 <= shr_m r -> shr_m (shr_1 r) = shr_m r / 2.
Proof.
  destruct r as [m b s]. cbn [shr_m]. intros H.
  destruct m as [|p|p]; [reflexivity | | lia].
  destruct p; cbn [shr_1 shr_m].
  - rewrite Pos2Z.inj_xI. Z.div_mod_to_equations. lia.
  - rewrite Pos2Z.inj_xO. Z.div_mod_to_equations. lia.
  - reflexivity.
Qed.

Lemma shr_m_iter p : forall r,
  0 <= shr_m r -> shr_m (SpecFloat.iter_pos shr_1 p r) = shr_m r / 2 ^ Zpos p.
Proof.
  induction p as [p IH|p IH|]; intros r H; cbn [SpecFloat.iter_pos].
  - assert (H1 : 0 <= shr_m (shr_1 r)) by (rewrite shr_1_m by lia; apply Z.div_pos; lia).
    assert (H2 : 0 <= shr_m (SpecFloat.iter_pos shr_1 p (shr_1 r)))
      by (rewrite IH by lia; apply Z.div_pos; [lia | apply Z.pow_pos_nonneg; lia]).
    rewrite IH, IH, shr_1_m by lia.
    rewrite !Z.div_div by (try apply Z.pow_pos_nonneg; lia).
    f_equal. rewrite Pos2Z.inj_xI.
    rewrite <- !Z.pow_add_r, <- Z.pow_succ_r by lia. f_equal. lia.
  - assert (H2 : 0 <= shr_m (SpecFloat.iter_pos shr_1 p r))
      by (rewrite IH by lia; apply Z.div_pos; [lia | apply Z.pow_pos_nonneg; lia]).
    rewrite IH, IH by lia.
    rewrite !Z.div_div by (try apply Z.pow_pos_nonneg; lia).
    f_equal. rewrite Pos2Z.inj_xO.
    rewrite <- !Z.pow_add_r by lia. f_equal. lia.
  - rewrite shr_1_m by lia. reflexivity.
Qed.

Lemma shr_spec r e n :
  0 <= n -> 0 <= shr_m r ->
  shr_m (fst (shr r e n)) = shr_m r / 2 ^ n /\ snd (shr r e n) = e + n.
Proof.
  intros Hn Hr. destruct n as [|p|p]; [| | lia]; cbn [shr fst snd].
  - rewrite Z.div_1_r. lia.
  - split; [apply shr_m_iter; exact Hr | reflexivity].
Qed.

Lemma shr_m_of_loc m l : shr_m (shr_record_of_loc m l) = m.
Proof. destruct l as [|[]]; reflexivity. Qed.

Lemma round_nearest_even_cases m l :
  round_nearest_even m l = m \/ round_nearest_even m l = m + 1.
Proof.
  destruct l as [|[]]; cbn; auto. destruct (Z.even m); auto.
Qed.

(** Rounding a mantissa of at least 53 bits whose value is in the normal
    range gives a normal, finite double. *)
Lemma binary_round_aux_normal s mx ex lx :
  0 < mx -> 53 <= Zdigits2 mx -> -1021 <= Zdigits2 mx + ex <= 1023 ->
  exists m e,
    binary_round_aux 53 1024 s mx ex lx = S754_finite s m e /\
    Zdigits2 (Zpos m) = 53 /\
    Zdigits2 mx + ex - 53 <= e <= Zdigits2 mx + ex - 52.
Proof.
  intros Hm Hd He. unfold binary_round_aux, shr_fexp.
  set (d := Zdigits2 mx) in *.
  assert (Hf : fexp 53 1024 (d + ex) - ex = d - 53) by (unfold fexp, emin; lia).
  rewrite Hf.
  destruct (shr_spec (shr_record_of_loc mx lx) ex (d - 53)) as [H1 H2];
    [lia | rewrite shr_m_of_loc; lia |].
  destruct (shr (shr_record_of_loc mx lx) ex (d - 53)) as [mrs' e'].
  cbn [fst snd] in H1, H2. rewrite shr_m_of_loc in H1.
  pose proof (Zdigits2_spec mx Hm) as Hspec. fold d in Hspec.
  assert (Hm1 : 2 ^ 52 <= shr_m mrs' < 2 ^ 53).
  { rewrite H1.
    assert (Hp : 0 < 2 ^ (d - 53)) by (apply Z.pow_pos_nonneg; lia).
    assert (E1 : 2 ^ (d - 1) = 2 ^ 52 * 2 ^ (d - 53))
      by (rewrite <- Z.pow_add_r by lia; f_equal; lia).
    assert (E2 : 2 ^ d = 2 ^ 53 * 2 ^ (d - 53))
      by (rewrite <- Z.pow_add_r by lia; f_equal; lia).
    split.
    - apply Z.div_le_lower_bound; [lia |]. lia.
    - apply Z.div_lt_upper_bound; [lia |]. lia. }
  set (m2 := round_nearest_even (shr_m mrs') (loc_of_shr_record mrs')).
  assert (Hm2 : 2 ^ 52 <= m2 <= 2 ^ 53).
  { subst m2. destruct (round_nearest_even_cases (shr_m mrs') (loc_of_shr_record mrs'))
      as [-> | ->]; lia. }
  assert (Hcase : m2 < 2 ^ 53 \/ m2 = 2 ^ 53) by lia.
  destruct Hcase as [Hlt | Heq].
  - assert (Hd2 : Zdigits2 m2 = 53) by (apply Zdigits2_unique; [lia | cbn; cbn in Hm2, Hlt; lia]).
    rewrite Hd2.
    replace (fexp 53 1024 (53 + e') - e') with 0 by (unfold fexp, emin; lia).
    cbn [shr shr_record_of_loc shr_m].
    destruct m2 as [|p|p]; [cbn in Hm2; lia | | cbn in Hm2; lia].
    replace (e' <=? 1024 - 53) with true by (symmetry; apply Z.leb_le; lia).
    exists p, e'. split; [reflexivity |]. split; [exact Hd2 | lia].
  - rewrite Heq.
    replace (Zdigits2 (2 ^ 53)) with 54 by reflexivity.
    replace (fexp 53 1024 (54 + e') - e') with 1 by (unfold fexp, emin; lia).
    cbn [shr shr_record_of_loc SpecFloat.iter_pos]. cbn -[Z.leb Z.sub].
    replace (e' + 1 <=? 1024 - 53) with true by (symmetry; apply Z.leb_le; lia).
    eexists _, _. split; [reflexivity |]. split; [reflexivity | lia].
Qed.

Lemma Zdigits2_shift z k : 0 < z -> 0 <= k -> Zdigits2 (z * 2 ^ k) = Zdigits2 z + k.
Proof.
  intros Hz Hk.
  assert (0 < 2 ^ k) by (apply Z.pow_pos_nonneg; lia).
  rewrite !Zdigits2_log2 by nia.
  rewrite Z.log2_mul_pow2 by lia. lia.
Qed.

Lemma iter_xO m d : Zpos (Pos.iter xO m d) = Zpos m * 2 ^ Zpos d.
Proof.
  induction d as [|d IH] using Pos.peano_ind.
  - cbn. lia.
  - rewrite Pos.iter_succ, Pos2Z.inj_xO, IH, Pos2Z.inj_succ, Z.pow_succ_r by lia. lia.
Qed.

Lemma f64_of_Z_normal z :
  0 < z < 2 ^ 64 -> normalWithin 53 (JS.f64_of_Z z).
Proof.
  intros Hz. destruct z as [|p|p]; try lia.
  unfold JS.f64_of_Z, binary_normalize, binary_round, shl_align.
  pose proof (Zdigits2_spec (Zpos p) ltac:(lia)) as Hs.
  assert (Hd : 1 <= Zdigits2 (Zpos p) <= 64).
  { split.
    - destruct (Z_lt_le_dec (Zdigits2 (Zpos p)) 1); [| lia].
      cbn [Zdigits2] in *. lia.
    - destruct (Z_lt_le_dec 64 (Zdigits2 (Zpos p))); [| lia].
      assert (2 ^ 64 <= 2 ^ (Zdigits2 (Zpos p) - 1))
        by (apply Z.pow_le_mono_r; lia). lia. }
  cbn [Zdigits2] in Hd, Hs.
  set (d := Zpos (digits2_pos p)) in *.
  replace (fexp 53 1024 (d + 0) - 0) with (d - 53) by (unfold fexp, emin; lia).
  replace (fexp 53 1024 (d + 0)) with (d - 53) by (unfold fexp, emin; lia).
  destruct (d - 53) as [|q|q] eqn:Eq.
  - destruct (binary_round_aux_normal false (Zpos p) 0 loc_Exact)
      as (m & e & -> & Hm & He); [lia | cbn [Zdigits2]; fold d; lia
                                 | cbn [Zdigits2]; fold d; lia |].
    exists m, e. cbn [Zdigits2] in He. fold d in He. repeat split; try assumption; lia.
  - destruct (binary_round_aux_normal false (Zpos p) 0 loc_Exact)
      as (m & e & -> & Hm & He); [lia | cbn [Zdigits2]; fold d; lia
                                 | cbn [Zdigits2]; fold d; lia |].
    exists m, e. cbn [Zdigits2] in He. fold d in He. repeat split; try assumption; lia.
  - assert (Hdig : Zdigits2 (Zpos (Pos.iter xO p q)) = 53).
    { rewrite iter_xO, Zdigits2_shift by lia. cbn [Zdigits2]. fold d. lia. }
    destruct (binary_round_aux_normal false (Zpos (Pos.iter xO p q)) (Zneg q) loc_Exact)
      as (m & e & -> & Hm & He); [lia | lia | lia |].
    exists m, e. repeat split; try assumption; lia.
Qed.

Lemma f64_div_normal a b x y :
  normalWithin a x -> normalWithin b y -> 0 <= a -> 0 <= b -> a + b <= 900 ->
  normalWithin (a + b + 53) (JS.f64_div x y).
Proof.
  intros (mx & ex & -> & Hdx & Hex) (my & ey & -> & Hdy & Hey) Ha Hb Hab.
  unfold JS.f64_div, SFdiv, SFdiv_core_binary. rewrite Hdx, Hdy.
  replace (Z.min (fexp 53 1024 (53 + ex - (53 + ey))) (ex - ey))
    with (ex - ey - 53) by (unfold fexp, emin; lia).
  replace (ex - ey - (ex - ey - 53)) with 53 by lia.
  pose proof (Zdigits2_spec (Zpos mx) ltac:(lia)) as Hsx.
  pose proof (Zdigits2_spec (Zpos my) ltac:(lia)) as Hsy.
  rewrite Hdx in Hsx. rewrite Hdy in Hsy.
  rewrite Z.shiftl_mul_pow2 by lia.
  pose proof (Z_div_mod (Zpos mx * 2 ^ 53) (Zpos my) ltac:(lia)) as Hdiv.
  destruct (Z.div_eucl (Zpos mx * 2 ^ 53) (Zpos my)) as [q r].
  destruct Hdiv as [Hq Hr].
  change (2 ^ (53 - 1)) with (2 ^ 52) in *.
  assert (Hqb : 2 ^ 52 <= q < 2 ^ 54).
  { split.
    - destruct (Z_lt_le_dec q (2 ^ 52)); [| lia]. exfalso.
      assert (Zpos my * (q + 1) <= Zpos my * 2 ^ 52)
        by (apply Z.mul_le_mono_nonneg_l; lia).
      assert (Zpos my * 2 ^ 52 <= 2 ^ 53 * 2 ^ 52)
        by (apply Z.mul_le_mono_nonneg_r; lia).
      assert (2 ^ 52 * 2 ^ 53 <= Zpos mx * 2 ^ 53)
        by (apply Z.mul_le_mono_nonneg_r; lia).
      lia.
    - destruct (Z_lt_le_dec q (2 ^ 54)); [lia |]. exfalso.
      assert (Zpos my * 2 ^ 54 <= Zpos my * q)
        by (apply Z.mul_le_mono_nonneg_l; lia).
      assert (Zpos mx * 2 ^ 53 <= 2 ^ 53 * 2 ^ 53)
        by (apply Z.mul_le_mono_nonneg_r; lia).
      assert (2 ^ 52 * 2 ^ 54 <= Zpos my * 2 ^ 54)
        by (apply Z.mul_le_mono_nonneg_r; lia).
      lia. }
  assert (Hdq : 53 <= Zdigits2 q <= 54).
  { assert (Hc : q < 2 ^ 53 \/ 2 ^ 53 <= q) by lia. destruct Hc.
    - rewrite (Zdigits2_unique q 53); [lia | lia |]. change (2 ^ (53 - 1)) with (2 ^ 52). lia.
    - rewrite (Zdigits2_unique q 54); [lia | lia |]. change (2 ^ (54 - 1)) with (2 ^ 53). lia. }
  destruct (binary_round_aux_normal (xorb false false) q (ex - ey - 53)
              (new_location (Zpos my) r))
    as (m & e & -> & Hm & He); [lia | lia | lia |].
  exists m, e. repeat split; try assumption; lia.
Qed.

Lemma f64_mul_normal a b x y :
  normalWithin a x -> normalWithin b y -> 0 <= a -> 0 <= b -> a + b <= 900 ->
  normalWithin (a + b + 54) (JS.f64_mul x y).
Proof.
  intros (mx & ex & -> & Hdx & Hex) (my & ey & -> & Hdy & Hey) Ha Hb Hab.
  unfold JS.f64_mul, SFmul.
  pose proof (Zdigits2_spec (Zpos mx) ltac:(lia)) as Hsx.
  pose proof (Zdigits2_spec (Zpos my) ltac:(lia)) as Hsy.
  rewrite Hdx in Hsx. rewrite Hdy in Hsy.
  change (2 ^ (53 - 1)) with (2 ^ 52) in *.
  rewrite Pos2Z.inj_mul.
  assert (Hp : 2 ^ 104 <= Zpos mx * Zpos my < 2 ^ 106).
  { split.
    - assert (2 ^ 52 * 2 ^ 52 <= Zpos mx * Zpos my)
        by (apply Z.mul_le_mono_nonneg; lia).
      lia.
    - assert (Zpos mx * Zpos my < 2 ^ 53 * 2 ^ 53)
        by (apply Z.mul_lt_mono_nonneg; lia).
      lia. }
  assert (Hdq : 105 <= Zdigits2 (Zpos mx * Zpos my) <= 106).
  { assert (Hc : Zpos mx * Zpos my < 2 ^ 105 \/ 2 ^ 105 <= Zpos mx * Zpos my) by lia.
    destruct Hc.
    - rewrite (Zdigits2_unique _ 105); [lia | lia |]. change (2 ^ (105 - 1)) with (2 ^ 104). lia.
    - rewrite (Zdigits2_unique _ 106); [lia | lia |]. change (2 ^ (106 - 1)) with (2 ^ 105). lia. }
  destruct (binary_round_aux_normal (xorb false false) (Zpos mx * Zpos my) (ex + ey)
              loc_Exact)
    as (m & e & -> & Hm & He); [lia | lia | lia |].
  exists m, e. repeat split; try assumption; lia.
Qed.

Lemma refresh_normal k hTotal vTotal :
  0 < k < 2 ^ 16 -> 0 < hTotal < 2 ^ 14 -> 0 < vTotal < 2 ^ 14 ->
  normalWithin 479
    (JS.f64_div
       (JS.f64_mul (JS.f64_of_Q (inject_Z k / 100)) (JS.f64_of_Z 1000000))
       (JS.f64_mul (JS.f64_of_Z hTotal) (JS.f64_of_Z vTotal))).
Proof.
  intros Hk Hh Hv.
  apply (f64_div_normal 266 160); try lia.
  - apply (f64_mul_normal 159 53); try lia;
      [| apply f64_of_Z_normal; cbn; lia].
    unfold JS.f64_of_Q. cbn [Qnum Qden Qdiv Qmult Qinv inject_Z].
    apply (f64_div_normal 53 53); try lia; apply f64_of_Z_normal; cbn; lia.
  - apply (f64_mul_normal 53 53); try lia; apply f64_of_Z_normal; cbn; lia.
Qed.

Lemma normal_value b x :
  normalWithin b x ->
  exists rate, JS.f64_value x = Some rate /\ JS.Qpos rate = true.
Proof.
  intros (m & e & -> & _ & _). cbn [JS.f64_value].
  eexists. split; [reflexivity |].
  unfold JS.Qpos. destruct (0 <=? e) eqn:He.
  - cbn [inject_Z Qnum]. apply Z.ltb_lt. apply Z.leb_le in He.
    apply Z.mul_pos_pos; [lia | apply Z.pow_pos_nonneg; lia].
  - reflexivity.
Qed.

(** ** Vendor names *)

Lemma str_or_nonEmpty (a b : option string) :
  b <> Some EmptyString -> str_or a b <> Some EmptyString.
Proof. intros Hb. destruct a as [[|c s]|]; cbn; [exact Hb | discriminate | exact Hb]. Qed.

Lemma intToAscii_empty (l : Z) :
  0 <= l <= 31 -> (intToAscii l = EmptyString <-> 27 <= l).
Proof.
  intros Hl.
  assert (Hcases : In l [0; 1; 2; 3; 4; 5; 6; 7; 8; 9; 10; 11; 12; 13; 14; 15;
                         16; 17; 18; 19; 20; 21; 22; 23; 24; 25; 26; 27; 28;
                         29; 30; 31])
    by (cbn; lia).
  cbn [In] in Hcases.
  repeat (destruct Hcases as [<- | Hcases];
          [split; intros H;
           first [lia | reflexivity | vm_compute in H; discriminate H] |]).
  contradiction.
Qed.

Lemma append_empty (a b : string) :
  (a ++ b)%string = EmptyString <-> a = EmptyString /\ b = EmptyString.
Proof.
  destruct a; cbn; [| split; [discriminate | intros [H _]; discriminate]].
  split; [intros ->; split; reflexivity | intros [_ H]; exact H].
Qed.

(** For every input and every content of the vendor tables, the vendor
    information carries the decoded vendor identifier; its short brand name
    and its linuxhw, lansweeper and hwdata names are never an empty string
    (an empty table entry counts as absent); and its good name is the first
    name present among the short brand name, the linuxhw, lansweeper and
    hwdata names, and the identifier itself when there is none.  The
    identifier, and with it the good name, can be empty: the good name is
    empty exactly when no name is present and the identifier is empty, and
    the identifier is empty exactly when each of the three five-bit letter
    codes of bytes 8 and 9 is above 26. *)
Theorem vendor_name_precedence m1 m2 m3 h (data : list Z) :
  let bs := map JS.clampByte data in
  let r := parseEdid m1 m2 m3 h data in
  let info := Edid.vendorInfo r in
  vid info = Base.vendorId (Edid.baseBlock r) /\
  shortBrandName info <> Some EmptyString /\
  linuxhwName info <> Some EmptyString /\
  lansweeperName info <> Some EmptyString /\
  hwdataName info <> Some EmptyString /\
  goodName info
  = match shortBrandName info, linuxhwName info, lansweeperName info,
          hwdataName info with
    | Some name, _, _, _ => name
    | None, Some name, _, _ => name
    | None, None, Some name, _ => name
    | None, None, None, Some name => name
    | None, None, None, None => vid info
    end /\
  (goodName info = EmptyString
   <-> vid info = EmptyString /\ shortBrandName info = None /\
       linuxhwName info = None /\ lansweeperName info = None /\
       hwdataName info = None) /\
  (vid info = EmptyString
   <-> 27 <= inputByte bs 8 / 4 mod 32 /\
       27 <= inputByte bs 8 mod 4 * 8 + inputByte bs 9 / 32 /\
       27 <= inputByte bs 9 mod 32).
Proof.
  cbv zeta.
  destruct (parseEdid_parsed m1 m2 m3 h data) as (-> & -> & _).
  destruct (parseBaseBlock_parsed m1 m2 m3 h (createBlockReader 0 0)
              (map JS.clampByte data))
    as (-> & _ & _ & _ & _ & _ & _ & -> & _).
  pose proof (value_getVendorId (map JS.clampByte data) (clamped_bytes data))
    as Hvid.
  cbv zeta in Hvid.
  pose proof (inputByte_range _ 8 (clamped_bytes data)) as H8.
  pose proof (inputByte_range _ 9 (clamped_bytes data)) as H9.
  set (b8 := inputByte (map JS.clampByte data) 8) in *.
  set (b9 := inputByte (map JS.clampByte data) 9) in *.
  assert (Hempty :
    value (getVendorId (createBlockReader 0 0)) (map JS.clampByte data)
    = EmptyString
    <-> 27 <= b8 / 4 mod 32 /\ 27 <= b8 mod 4 * 8 + b9 / 32 /\
        27 <= b9 mod 32).
  { rewrite Hvid, !append_empty.
    rewrite !intToAscii_empty by div_lia. tauto. }
  generalize dependent (value (getVendorId (createBlockReader 0 0))
                          (map JS.clampByte data)).
  intros v _ Hempty. unfold getVendorInfo. cbv zeta.
  cbn [vid goodName shortBrandName linuxhwName lansweeperName hwdataName].
  split; [reflexivity |].
  repeat (split; [apply str_or_nonEmpty; discriminate |]).
  split; [| split; [| exact Hempty]].
  - destruct (snd <$> find _ NOTABLE_VENDORS) as [[|c0 s0]|];
      destruct (m1 v) as [[|c1 s1]|]; destruct (m2 v) as [[|c2 s2]|];
      destruct (m3 v) as [[|c3 s3]|]; destruct v; reflexivity.
  - destruct (snd <$> find _ NOTABLE_VENDORS) as [[|c0 s0]|];
      destruct (m1 v) as [[|c1 s1]|]; destruct (m2 v) as [[|c2 s2]|];
      destruct (m3 v) as [[|c3 s3]|]; destruct v; cbn;
      intuition congruence.
Qed.

(** ** The established timings bitmap *)

Lemma bor_three_bytes (b1 b2 b3 : Z) :
  0 <= b1 <= 255 -> 0 <= b2 <= 255 -> 0 <= b3 <= 255 ->
  JS.bor (JS.bor (JS.shl b1 16) (JS.shl b2 8)) b3
  = 65536 * b1 + 256 * b2 + b3.
Proof.
  intros H1 H2 H3.
  rewrite (shl_small b2 8) by (cbn; lia).
  rewrite (bor_shl b1 (b2 * 2 ^ 8) 16) by (cbn; lia).
  replace (b1 * 2 ^ 16 + b2 * 2 ^ 8) with ((b1 * 256 + b2) * 2 ^ 8)
    by (cbn; lia).
  rewrite bor_disjoint by (cbn; lia). cbn. lia.
Qed.

(** For every input the established timings bitmap is the 24-bit number
    whose bytes are bytes 35, 36 and 37 of the input, most significant
    first; a byte beyond the end of the input counts as 0. *)
Theorem timing_bitmap_big_endian m1 m2 m3 h (data : list Z) :
  let bs := map JS.clampByte data in
  let r := parseEdid m1 m2 m3 h data in
  Base.timingBitmap (Edid.baseBlock r)
  = Some (65536 * inputByte bs 35 + 256 * inputByte bs 36 + inputByte bs 37)
  /\ within 0 (2 ^ 24 - 1) (Base.timingBitmap (Edid.baseBlock r)).
Proof.
  intros bs r. subst r.
  destruct (parseEdid_parsed m1 m2 m3 h data) as (-> & _).
  destruct (parseBaseBlock_parsed m1 m2 m3 h (createBlockReader 0 0) bs)
    as (_ & _ & Ht & _).
  fold bs. rewrite Ht.
  pose proof (clamped_bytes data) as Hbs. fold bs in Hbs.
  pose proof (inputByte_range bs 35 Hbs) as H35.
  pose proof (inputByte_range bs 36 Hbs) as H36.
  pose proof (inputByte_range bs 37 Hbs) as H37.
  unfold getTimingBitmap. value_run. base_bytes.
  rewrite bor_three_bytes by assumption.
  split; [reflexivity |].
  eexists. split; [reflexivity |]. cbn. lia.
Qed.

(** ** The native resolution *)

(** For every input a native resolution is reported exactly when the display
    marks its first detailed timing as preferred, that timing exists and its
    active pixels, active lines, width and height are not zero.  The
    reported values are those of that timing, each between 1 and 4095.  The
    refresh rate is computed in double precision as the code computes it:
    the pixel clock, a count of 10 kHz units between 1 and 65535 divided by
    100, is multiplied by 1000000 and divided by the product of the total
    (active plus blanking) pixels per line and lines per frame, each
    operation rounding to the nearest double; the quotient is a finite
    positive double, and the refresh rate is that double rounded to the
    nearest integer.  For a pixel clock of 32.05 MHz and 800 by 641 total
    pixels the quotient falls just below 62.5 and the rate is 62, as the
    input [edidWithHalfwayRate] shows, also for its static refresh range. *)
Theorem native_resolution_of_preferred_timing m1 m2 m3 h (data : list Z) :
  let r := parseEdid m1 m2 m3 h data in
  (exists bdp dtds,
    Edid.basicDisplayParams r = Some bdp /\
    Base.dtds (Edid.baseBlock r) = Some dtds /\
    match Edid.nativeResolution r with
    | Some n =>
        isPreferredTiming bdp = true /\
        exists dtd hBlank vBlank clock,
          dtds !! 0%nat = Some dtd /\
          horizontalActivePixels dtd = Some (Native.activeHorizontalPixels n) /\
          verticalActivePixels dtd = Some (Native.activeVerticalLines n) /\
          horizontalDisplaySizeInMm dtd = Some (Native.physicalWidthInMm n) /\
          verticalDisplaySizeInMm dtd = Some (Native.physicalHeightInMm n) /\
          1 <= Native.activeHorizontalPixels n <= 4095 /\
          1 <= Native.activeVerticalLines n <= 4095 /\
          1 <= Native.physicalWidthInMm n <= 4095 /\
          1 <= Native.physicalHeightInMm n <= 4095 /\
          horizontalBlankLineCount dtd = Some hBlank /\
          verticalBlankLineCount dtd = Some vBlank /\
          0 <= hBlank <= 4095 /\ 0 <= vBlank <= 4095 /\
          1 <= clock <= 65535 /\
          pixelClockMhz dtd = Some (inject_Z clock / 100)%Q /\
          exists rate,
            JS.f64_value
              (JS.f64_div
                 (JS.f64_mul (JS.f64_of_Q (inject_Z clock / 100))
                    (JS.f64_of_Z 1000000))
                 (JS.f64_mul
                    (JS.f64_of_Z (Native.activeHorizontalPixels n + hBlank))
                    (JS.f64_of_Z (Native.activeVerticalLines n + vBlank))))
            = Some rate /\
            JS.Qpos rate = true /\
            Native.refreshRateHz n = JS.Math_round rate
    | None =>
        isPreferredTiming bdp = false \/
        dtds = [] \/
        exists dtd,
          dtds !! 0%nat = Some dtd /\
          (horizontalActivePixels dtd = Some 0 \/
           verticalActivePixels dtd = Some 0 \/
           horizontalDisplaySizeInMm dtd = Some 0 \/
           verticalDisplaySizeInMm dtd = Some 0)
    end) /\
  (let quotient :=
     JS.f64_div
       (JS.f64_mul (JS.f64_of_Q (inject_Z 3205 / 100)) (JS.f64_of_Z 1000000))
       (JS.f64_mul (JS.f64_of_Z 800) (JS.f64_of_Z 641)) in
   JS.f64_value quotient = Some (8796093022207999 # 140737488355328)%Q /\
   JS.Math_round_f64 quotient = 62 /\
   JS.Math_round (inject_Z 3205 / 100 * 1000000 / inject_Z (800 * 641)) = 63) /\
  (let e := parseEdid noVendorMap noVendorMap noVendorMap hypotApprox
              edidWithHalfwayRate in
   Native.refreshRateHz <$> Edid.nativeResolution e = Some 62 /\
   FS.minSrrHz (Edid.featureSupport e) = JS.Fin 62 /\
   FS.maxSrrHz (Edid.featureSupport e) = JS.Fin 62).
Proof.
  cbv zeta.
  split; [| split; [repeat split; vm_compute; reflexivity
                   | repeat split; vm_compute; reflexivity]].
  pose proof (clamped_bytes data) as Hbs.
  destruct (parseEdid_parsed m1 m2 m3 h data) as (-> & _ & _ & -> & -> & _).
  destruct (parseBaseBlock_parsed m1 m2 m3 h (createBlockReader 0 0)
              (map JS.clampByte data))
    as (_ & _ & _ & -> & _ & _ & _ & _ & _ & _ & _ & _ & -> & ->).
  destruct (getDtds_wellFormed h (map JS.clampByte data)
              (createBlockReader 0 0) 54 126 Hbs) as [Hwf _].
  eexists _, _. split; [reflexivity |]. split; [reflexivity |].
  generalize dependent (value (getDtds h (createBlockReader 0 0) 54 126)
                          (map JS.clampByte data)).
  generalize (value (getBasicDisplayParams h (createBlockReader 0 0))
                (map JS.clampByte data)).
  intros bdp dtds Hwf.
  unfold getNativeResolution. cbv zeta.
  destruct (isPreferredTiming bdp); [| left; reflexivity].
  destruct dtds as [|dtd rest]; [right; left; reflexivity |].
  cbn [lookup list_lookup].
  change ((dtd :: rest) !! 0%nat) with (Some dtd).
  inversion Hwf as [|? ? Hd _]; subst.
  destruct Hd as ((k & Hk & Hclock) & (ha & Hha & Hha') & (hb & Hhb & Hhb')
                  & (va & Hva & Hva') & (vb & Hvb & Hvb') & _ & _ & _ & _
                  & (hs & Hhs & Hhs') & (vs & Hvs & Hvs') & _).
  rewrite Hha, Hva, Hhs, Hvs, Hclock, Hhb, Hvb. cbn [default]. unfold id.
  assert (Hnz : Qeq_bool (inject_Z k / 100) 0 = false).
  { destruct (Qeq_bool (inject_Z k / 100) 0) eqn:Hq; [| reflexivity].
    apply Qeq_bool_iff in Hq. exfalso.
    assert (H100 : ~ (100 == 0)%Q) by discriminate.
    apply (Qmult_inj_r _ _ 100 H100) in Hq.
    rewrite Qmult_0_l in Hq.
    unfold Qdiv in Hq. rewrite <- Qmult_assoc, (Qmult_comm (/ 100)) in Hq.
    rewrite Qmult_inv_r, Qmult_1_r in Hq by exact H100.
    unfold Qeq in Hq. cbn in Hq. lia. }
  destruct ha as [|pa|pa]; [right; right; eexists; split; [reflexivity | auto]
                           | | lia].
  destruct va as [|pv|pv]; [right; right; eexists; split; [reflexivity | auto]
                           | | lia].
  destruct hs as [|ph|ph]; [right; right; eexists; split; [reflexivity | auto 6]
                           | | lia].
  destruct vs as [|pw|pw]; [right; right; eexists; split; [reflexivity | auto 6]
                           | | lia].
  rewrite Hnz.
  replace ((Z.pos pa + hb =? 0) || (Z.pos pv + vb =? 0)) with false
    by (symmetry; apply orb_false_iff; split; apply Z.eqb_neq; lia).
  cbn [Native.activeHorizontalPixels Native.activeVerticalLines
       Native.physicalWidthInMm Native.physicalHeightInMm Native.refreshRateHz].
  split; [reflexivity |].
  exists dtd, hb, vb, k.
  repeat (split; [first [reflexivity | assumption | lia] |]).
  destruct (normal_value 479 _
              (refresh_normal k (Z.pos pa + hb) (Z.pos pv + vb)
                 ltac:(cbn; lia) ltac:(cbn; lia) ltac:(cbn; lia)))
    as (rate & Hrate & Hpos).
  exists rate. split; [exact Hrate |]. split; [exact Hpos |].
  unfold JS.Math_round_f64. rewrite Hrate. reflexivity.
Qed.

(** ** The header *)

Lemma baseByteAt (bs : list Z) (i : nat) :
  byteAt bs (createBlockReader 0 0) (Z.of_nat i) = bs !! i.
Proof.
  rewrite byteAt_eq. cbn [createBlockReader reader_blockOffset].
  cbv zeta. rewrite Z.add_0_l.
  destruct (Z.ltb_spec (Z.of_nat i) 0); [lia |].
  rewrite Nat2Z.id. cbn [orb].
  destruct (Z.leb_spec (Z.of_nat (length bs)) (Z.of_nat i)); [| reflexivity].
  rewrite lookup_ge_None_2 by lia. reflexivity.
Qed.

Lemma value_validateHeader (bs : list Z) :
  value (validateHeader (createBlockReader 0 0)) bs = true
  <-> take 8 bs = EDID_HEADER.
Proof.
  unfold validateHeader. rewrite !value_bind_all by (intros; framed_auto).
  rewrite !value_u8.
  repeat match goal with
         | |- context [byteAt ?l (createBlockReader 0 0) ?k] =>
             let n := eval cbv in (Z.to_nat k) in
             change (byteAt l (createBlockReader 0 0) k)
               with (byteAt l (createBlockReader 0 0) (Z.of_nat n));
             rewrite (baseByteAt l n)
         end.
  unfold EDID_HEADER.
  destruct bs as [|b0 [|b1 [|b2 [|b3 [|b4 [|b5 [|b6 [|b7 rest]]]]]]]];
    cbn [lookup list_lookup take]; try rewrite value_ret;
    try (split; [discriminate | discriminate]).
  rewrite !andb_true_iff, !Z.eqb_eq.
  split.
  - intros (((((((-> & ->) & ->) & ->) & ->) & ->) & ->) & ->). reflexivity.
  - intros [= -> -> -> -> -> -> -> ->]. repeat split.
Qed.

(** For every input the header is reported valid exactly when the input
    begins with the eight bytes 00 FF FF FF FF FF FF 00 (an input shorter
    than eight bytes never does); the validity is always reported, and the
    base block records it as OK or ERROR accordingly. *)
Theorem header_rule m1 m2 m3 h (data : list Z) :
  let bs := map JS.clampByte data in
  let r := parseEdid m1 m2 m3 h data in
  exists valid : bool,
    Edid.isHeaderValid r = Some valid /\
    (valid = true <-> take 8 bs = EDID_HEADER) /\
    Base.isHeaderValid (Edid.baseBlock r) = Some valid /\
    Base.headerValidity (Edid.baseBlock r)
    = Some (if valid then OK else ERROR).
Proof.
  intros bs r. subst r.
  destruct (parseEdid_shape m1 m2 m3 h data) as (_ & -> & -> & _).
  fold bs.
  exists (value (validateHeader (createBlockReader 0 0)) bs).
  split; [| split; [apply value_validateHeader |]].
  - apply (parseBaseBlock_fields m1 m2 m3 h (createBlockReader 0 0) bs).
  - unfold parseBaseBlock.
    repeat (rewrite value_bind by framed_auto).
    rewrite value_ret. split; reflexivity.
Qed.

(** ** Vendor-specific data blocks *)

(** The value of a decoder made of reads, pure steps and conditionals. *)
Ltac value_cases :=
  repeat first
    [ rewrite value_bind by framed_auto
    | rewrite value_ret
    | rewrite value_u8OrZero
    | match goal with
      | |- context [value (if ?c then _ else _) _] => destruct c
      end ].

Lemma parseVendorDataBlockHDMI14_keeps reader start len vendorBlock bs :
  vendorIdentity
    (value (parseVendorDataBlockHDMI14 reader start len vendorBlock) bs)
  = vendorIdentity vendorBlock.
Proof.
  unfold parseVendorDataBlockHDMI14. cbv zeta.
  value_cases; destruct vendorBlock; reflexivity.
Qed.

Lemma parseVendorDataBlockHDMI20_keeps reader start len vendorBlock bs :
  vendorIdentity
    (value (parseVendorDataBlockHDMI20 reader start len vendorBlock) bs)
  = vendorIdentity vendorBlock.
Proof.
  unfold parseVendorDataBlockHDMI20. cbv zeta.
  value_cases; destruct vendorBlock; reflexivity.
Qed.

Lemma lor_bound (a b n : Z) :
  0 <= n -> 0 <= a < 2 ^ n -> 0 <= b < 2 ^ n -> 0 <= Z.lor a b < 2 ^ n.
Proof.
  intros Hn Ha Hb.
  assert (H0 : 0 <= Z.lor a b) by (apply Z.lor_nonneg; lia).
  split; [exact H0 |].
  destruct (Z.eq_dec (Z.lor a b) 0) as [-> | Hne]; [lia |].
  apply Z.log2_lt_pow2; [lia |].
  rewrite Z.log2_lor by lia.
  destruct (Z.eq_dec a 0) as [-> | Ha0], (Z.eq_dec b 0) as [-> | Hb0].
  - cbn in Hne. contradiction.
  - rewrite Z.max_r by (cbn; apply Z.log2_nonneg).
    apply Z.log2_lt_pow2; lia.
  - rewrite Z.max_l by (cbn; apply Z.log2_nonneg).
    apply Z.log2_lt_pow2; lia.
  - apply Z.max_lub_lt; apply Z.log2_lt_pow2; lia.
Qed.

Lemma readBlockData_range reader start len bs :
  Forall (fun b => 0 <= b <= 255) bs ->
  Forall (fun n => 0 <= JS.int_of n <= 255)
    (value (readBlockData reader start len) bs).
Proof.
  intros Hbs. unfold readBlockData.
  apply (forLoop_invariant
           (fun data => Forall (fun n => 0 <= JS.int_of n <= 255) data) 0).
  - intros. framed_auto.
  - intros i data _ Hdata.
    rewrite value_bind by framed_auto. rewrite value_u8, value_ret.
    apply Forall_app. split; [exact Hdata |].
    constructor; [| constructor].
    destruct (byteAt bs reader (start + i)) as [v|] eqn:Hv; cbn; [| lia].
    exact (byteAt_range _ _ _ _ Hbs Hv).
  - lia.
  - constructor.
Qed.

Lemma dataBits_range (data : list JS.number) (index : Z) :
  Forall (fun n => 0 <= JS.int_of n <= 255) data ->
  0 <= dataBits data index <= 255.
Proof.
  intros Hdata. unfold dataBits, dataByte.
  destruct (data !! Z.to_nat index) as [n|] eqn:Hn; cbn [default]; [| cbn; lia].
  exact (proj1 (Forall_lookup _ _) Hdata _ _ Hn).
Qed.

Lemma forum_vrrMax_range (b8 b9 : Z) :
  0 <= b8 <= 255 -> 0 <= b9 <= 255 ->
  0 <= JS.bor (JS.shl (JS.band b8 0xc0) 2) b9 <= 1023.
Proof.
  intros H8 H9.
  rewrite band_byte by lia.
  assert (Hl : 0 <= Z.land b8 192 < 256).
  { assert (H0 : 0 <= Z.land b8 192) by (apply Z.land_nonneg; lia).
    split; [exact H0 |].
    destruct (Z.eq_dec (Z.land b8 192) 0) as [-> | Hne]; [lia |].
    change 256 with (2 ^ 8). apply Z.log2_lt_pow2; [lia |].
    pose proof (Z.log2_land b8 192 ltac:(lia) ltac:(lia)) as Hlog.
    change (Z.log2 192) with 7 in Hlog. lia. }
  rewrite shl_small by (cbn; lia).
  unfold JS.bor. rewrite !toInt32_small by (cbn; lia).
  pose proof (lor_bound (Z.land b8 192 * 2 ^ 2) b9 10 ltac:(lia)
                ltac:(cbn; lia) ltac:(cbn; lia)) as Hb.
  cbn in Hb. lia.
Qed.

Lemma parseVendorDataBlockHDMIForum_fields reader start len vendorBlock bs :
  Forall (fun b => 0 <= b <= 255) bs ->
  8 <= len ->
  Vendor.vrrMinHz vendorBlock = None ->
  Vendor.vrrMaxHz vendorBlock = None ->
  let block :=
    value (parseVendorDataBlockHDMIForum reader start len vendorBlock) bs in
  Vendor.dataLength block = Vendor.dataLength vendorBlock /\
  Vendor.ieeeOui block = Vendor.ieeeOui vendorBlock /\
  Vendor.error block = Vendor.error vendorBlock /\
  Vendor.supportsDolbyVision block = Vendor.supportsDolbyVision vendorBlock /\
  isDefined (Vendor.hfPayloadVersion block) = true /\
  (forall v, Vendor.vrrMinHz block = Some v -> 9 <= len /\ 1 <= v <= 63) /\
  (forall v, Vendor.vrrMaxHz block = Some v -> 9 <= len /\ 1 <= v <= 1023).
Proof.
  intros Hbs Hlen Hmin Hmax block. subst block.
  unfold parseVendorDataBlockHDMIForum. cbv zeta.
  replace (len <? 8) with false by (symmetry; apply Z.ltb_ge; exact Hlen).
  rewrite value_bind by framed_auto. rewrite value_ret.
  pose proof (readBlockData_range reader start len bs Hbs) as Hdata.
  set (data := value (readBlockData reader start len) bs) in *.
  pose proof (dataBits_range data 8 Hdata) as H8.
  pose proof (dataBits_range data 9 Hdata) as H9.
  pose proof (forum_vrrMax_range _ _ H8 H9) as Hhi.
  pose proof (band_range (dataBits data 8) 6 H8 ltac:(lia)) as Hlo.
  change (Z.ones 6) with 63 in Hlo. change (2 ^ 6) with 64 in Hlo.
  set (vrrMin := JS.band (dataBits data 8) 63) in *.
  set (vrrMax := JS.bor (JS.shl (JS.band (dataBits data 8) 192) 2)
                   (dataBits data 9)) in *.
  destruct vendorBlock. cbn in Hmin, Hmax. subst.
  destruct (Z.ltb_spec 8 len), (Z.ltb_spec 0 vrrMin), (Z.ltb_spec 0 vrrMax);
    cbn; repeat match goal with |- _ /\ _ => split end; try reflexivity;
    intros v Hv; try discriminate; injection Hv as <-; lia.
Qed.

(** A vendor-specific data block is identified by the 24-bit number of its
    first three payload bytes, least significant first: that number is its
    IEEE OUI, whatever follows.  Only the Dolby Vision OUI marks the block as
    Dolby Vision.  The block announces HDMI 1.4 under the HDMI 1.4 OUI and,
    under the HDMI Forum OUI, HDMI 2.1 when its declared length is at least 8
    and HDMI 2.0 otherwise; it never carries an error.  VRR bounds come only
    from an HDMI Forum block longer than 8: a minimum between 1 and 63, a
    maximum between 1 and 1023. *)
Theorem vendor_block_identified bs reader start len :
  Forall (fun b => 0 <= b <= 255) bs ->
  let block := value (parseVendorDataBlock reader start len) bs in
  let byte off := default 0 (byteAt bs reader off) in
  let oui := byte start + 256 * byte (start + 1) + 65536 * byte (start + 2) in
  Vendor.dataLength block = len /\
  Vendor.ieeeOui block = Some oui /\
  Vendor.error block = None /\
  Vendor.supportsDolbyVision block
  = (if oui =? IEEE_OUI_TYPE_value DOLBY_VISION then Some true else None) /\
  hdmiLevel (Some (AnyVendor block))
  = (if oui =? IEEE_OUI_TYPE_value HDMI14 then 1%nat
     else if oui =? IEEE_OUI_TYPE_value HDMI_FORUM
          then if 8 <=? len then 3%nat else 2%nat
          else 0%nat) /\
  (forall v, Vendor.vrrMinHz block = Some v ->
     oui = IEEE_OUI_TYPE_value HDMI_FORUM /\ 9 <= len /\ 1 <= v <= 63) /\
  (forall v, Vendor.vrrMaxHz block = Some v ->
     oui = IEEE_OUI_TYPE_value HDMI_FORUM /\ 9 <= len /\ 1 <= v <= 1023).
Proof.
  intros Hbs block byte oui. subst block.
  unfold parseVendorDataBlock. cbv zeta.
  rewrite value_bind by framed_auto. rewrite value_u8OrZero.
  rewrite value_bind by framed_auto. rewrite value_u8OrZero.
  rewrite value_bind by framed_auto. rewrite value_u8OrZero.
  replace (start - 1 + 3) with (start + 2) by lia.
  replace (start - 1 + 2) with (start + 1) by lia.
  replace (start - 1 + 1) with start by lia.
  fold (byte (start + 2)). fold (byte (start + 1)). fold (byte start).
  rewrite bor_three_bytes by (apply byteOrZero_range; exact Hbs).
  replace (65536 * byte (start + 2) + 256 * byte (start + 1) + byte start)
    with oui by (unfold oui; lia).
  clearbody oui. clear byte.
  unfold hdmiLevel.
  change (IEEE_OUI_TYPE_value DOLBY_VISION) with 53318.
  change (IEEE_OUI_TYPE_value HDMI14) with 3075.
  change (IEEE_OUI_TYPE_value HDMI_FORUM) with 12869080.
  destruct (Z.eqb_spec oui 53318) as [-> | Hdv].
  { rewrite value_ret. cbn. repeat match goal with |- _ /\ _ => split end; try reflexivity;
      intros v Hv; discriminate. }
  destruct (Z.eqb_spec oui 3075) as [-> | H14].
  { pose proof (parseVendorDataBlockHDMI14_keeps reader start len
                  (Vendor.set_ieeeOui (Some 3075) (Vendor.empty len)) bs) as Hk.
    unfold vendorIdentity in Hk. cbn in Hk.
    injection Hk as -> -> -> -> -> -> -> -> ->.
    rewrite bool_decide_eq_true_2 by reflexivity.
    repeat match goal with |- _ /\ _ => split end; try reflexivity;
      intros v Hv; discriminate. }
  destruct (Z.eqb_spec oui 12869080) as [-> | Hf].
  - destruct (Z.leb_spec 8 len) as [Hlen | Hlen].
    + destruct (parseVendorDataBlockHDMIForum_fields reader start len
                  (Vendor.set_ieeeOui (Some 12869080) (Vendor.empty len)) bs
                  Hbs Hlen eq_refl eq_refl)
        as (-> & -> & -> & -> & Hpv & Hmin & Hmax).
      cbn [Vendor.set_ieeeOui Vendor.empty Vendor.dataLength Vendor.ieeeOui
           Vendor.error Vendor.supportsDolbyVision].
      rewrite bool_decide_eq_false_2 by discriminate.
      rewrite bool_decide_eq_true_2 by reflexivity.
      rewrite Hpv. cbn [orb].
      repeat match goal with |- _ /\ _ => split end; try reflexivity;
        intros v Hv;
        [destruct (Hmin v Hv) | destruct (Hmax v Hv)]; auto.
    + pose proof (parseVendorDataBlockHDMI20_keeps reader start len
                    (Vendor.set_ieeeOui (Some 12869080) (Vendor.empty len)) bs)
        as Hk.
      unfold vendorIdentity in Hk. cbn in Hk.
      injection Hk as -> -> -> -> -> -> -> -> ->.
      rewrite bool_decide_eq_false_2 by discriminate.
      rewrite bool_decide_eq_true_2 by reflexivity.
      cbn. repeat match goal with |- _ /\ _ => split end; try reflexivity;
      intros v Hv; discriminate.
  - rewrite value_ret. cbn.
    rewrite !bool_decide_eq_false_2 by congruence.
    repeat match goal with |- _ /\ _ => split end; try reflexivity;
      intros v Hv; discriminate.
Qed.

Lemma vendor_block_identified_witness :
  let block := value (parseVendorDataBlock (createBlockReader 0 0) 1 5)
                 [0x65; 0x03; 0x0c; 0x00; 0x10; 0x00] in
  Vendor.ieeeOui block = Some (IEEE_OUI_TYPE_value HDMI14) /\
  hdmiLevel (Some (AnyVendor block)) = 1%nat.
Proof.
  pose proof (vendor_block_identified [0x65; 0x03; 0x0c; 0x00; 0x10; 0x00]
                (createBlockReader 0 0) 1 5
                ltac:(repeat constructor; lia)) as (_ & Ho & _ & _ & Hl & _).
  split; [exact Ho | exact Hl].
Defined.

(** ** Cleaning of descriptor texts *)

Lemma popWhile_last (p : Z -> bool) (chars : list Z) (c : Z) :
  last (popWhile p chars) = Some c -> p c = false.
Proof.
  destruct (popWhile_spec p chars) as (_ & _ & _ & Hlast). apply Hlast.
Qed.

Lemma dropWhile_all (P : Z -> Prop) (p : Z -> bool) (chars : list Z) :
  Forall P chars -> Forall P (dropWhile p chars).
Proof.
  induction chars as [|c rest IH]; intros Hall; [constructor |].
  inversion Hall as [|? ? Hc Hrest]; subst. cbn [dropWhile].
  destruct (p c); [apply IH; exact Hrest | exact Hall].
Qed.

Lemma afterLast_all (P : Z -> Prop) (ch : Z) (part r : list Z) :
  Forall P part -> afterLast ch part = Some r -> Forall P r.
Proof.
  revert r. induction part as [|c rest IH]; intros r Hall Hr; [discriminate |].
  inversion Hall as [|? ? Hc Hrest]; subst. cbn [afterLast] in Hr.
  destruct (afterLast ch rest) as [r'|].
  - injection Hr as <-. apply IH; [exact Hrest | reflexivity].
  - destruct (c =? ch); [| discriminate]. injection Hr as <-. exact Hrest.
Qed.

Lemma beforeFirst_all (P : Z -> Prop) (ch : Z) (part : list Z) :
  Forall P part -> Forall P (beforeFirst ch part).
Proof.
  induction part as [|c rest IH]; intros Hall; [constructor |].
  inversion Hall as [|? ? Hc Hrest]; subst. cbn [beforeFirst].
  destruct (c =? ch); [constructor | constructor; [exact Hc | apply IH, Hrest]].
Qed.

Lemma replaceResolutionStars_printable (part : list Z) :
  forall prevWord inMatch,
    Forall printable part ->
    Forall printable (replaceResolutionStars prevWord inMatch part).
Proof.
  induction part as [|c rest IH]; intros prevWord inMatch Hall; [constructor |].
  inversion Hall as [|? ? Hc Hrest]; subst.
  cbn [replaceResolutionStars].
  destruct inMatch as [|k].
  - destruct (if prevWord then None else resolutionMatchLength (c :: rest))
      as [[|k]|]; constructor; try exact Hc; apply IH; exact Hrest.
  - constructor; [| apply IH; exact Hrest].
    destruct (c =? 42); [unfold printable; lia | exact Hc].
Qed.

Lemma sanitize_step_printable (bytes : list Z) :
  forall parts chars,
    Forall (Forall printable) parts -> Forall printable chars ->
    let st :=
      fold_left
        (fun (st : list (list Z) * list Z) (byte : Z) =>
           let (parts, chars) := st in
           if byte =? 0xd7 then (parts, chars ++ [0x78])
           else if (byte <? 0x20) || (0x7e <? byte) then pushPart st
           else if (byte =? 0x20) &&
                   match last chars with None => true | Some c => c =? 0x20 end
           then st
           else (parts, chars ++ [byte]))
        bytes (parts, chars) in
    Forall (Forall printable) (fst st) /\ Forall printable (snd st).
Proof.
  induction bytes as [|byte bytes IH]; intros parts chars Hp Hc;
    [split; assumption |].
  cbn [fold_left].
  destruct (byte =? 215).
  { apply IH; [exact Hp |]. apply Forall_app. split; [exact Hc |].
    repeat constructor; unfold printable; lia. }
  destruct (Z.ltb_spec byte 32) as [Hlo|Hlo]; cbn [orb].
  { unfold pushPart.
    pose proof (popWhile_prefix_all printable (fun c => c =? 32) chars Hc) as Hpop.
    destruct (popWhile (fun c => c =? 32) chars) as [|c0 r0] eqn:Heq.
    - apply IH; [exact Hp | constructor].
    - apply IH; [| constructor]. apply Forall_app. split; [exact Hp |].
      constructor; [exact Hpop | constructor]. }
  destruct (Z.ltb_spec 126 byte) as [Hhi|Hhi].
  { unfold pushPart.
    pose proof (popWhile_prefix_all printable (fun c => c =? 32) chars Hc) as Hpop.
    destruct (popWhile (fun c => c =? 32) chars) as [|c0 r0] eqn:Heq.
    - apply IH; [exact Hp | constructor].
    - apply IH; [| constructor]. apply Forall_app. split; [exact Hp |].
      constructor; [exact Hpop | constructor]. }
  destruct ((byte =? 32) && _).
  - apply IH; assumption.
  - apply IH; [exact Hp |]. apply Forall_app. split; [exact Hc |].
    repeat constructor; unfold printable; lia.
Qed.

(** Every text part kept from the text bytes of a descriptor is the string of
    a sequence of character codes that is well formed in the sense of
    [textPartWellFormed]: at least three printable ASCII characters,
    starting with a letter or a digit, not ending with a space, without
    pipe, backslash or backtick.  Control characters and bytes above 0x7E
    never reach the result. *)
Theorem descriptor_text_parts_clean (bytes : list Z) :
  Forall (fun text =>
            exists codes,
              text = string_of_codes codes /\ textPartWellFormed codes)
    (sanitizeMonitorDescriptorText bytes).
Proof.
  unfold sanitizeMonitorDescriptorText. cbv zeta.
  apply List.Forall_forall. intros text Hin.
  apply in_map_iff in Hin. destruct Hin as (codes & <- & Hin).
  exists codes. split; [reflexivity |].
  apply filter_In in Hin. destruct Hin as [Hin _].
  apply filter_In in Hin. destruct Hin as [Hin Hkeep].
  apply in_map_iff in Hin. destruct Hin as (part & Hcodes & Hpart).
  assert (Hprintable : Forall printable part).
  { destruct (sanitize_step_printable bytes [] [] ltac:(constructor)
                ltac:(constructor)) as [Hp Hc].
    cbv zeta in Hp, Hc.
    match type of Hpart with
    | In part (fst (pushPart ?st)) => set (final := st) in *
    end.
    destruct final as [ps cs]. cbn [fst snd] in Hp, Hc.
    unfold pushPart in Hpart.
    pose proof (popWhile_prefix_all printable (fun c => c =? 32) cs Hc) as Hpop.
    rewrite List.Forall_forall in Hp.
    destruct (popWhile (fun c => c =? 32) cs) as [|c0 r0];
      cbn [fst] in Hpart; [exact (Hp part Hpart) |].
    apply in_app_or in Hpart. destruct Hpart as [Hpart | [<- | []]];
      [exact (Hp part Hpart) | exact Hpop]. }
  assert (Hclean : Forall printable codes /\ last codes <> Some 32).
  { subst codes. unfold trim. split.
    - apply popWhile_prefix_all, dropWhile_all, replaceResolutionStars_printable,
        popWhile_prefix_all, beforeFirst_all.
      destruct (afterLast 60 part) as [r|] eqn:Hr; cbn [default];
        [exact (afterLast_all printable 60 part r Hprintable Hr)
        | exact Hprintable].
    - intros Hl. apply popWhile_last in Hl. cbv beta in Hl. lia. }
  destruct Hclean as [Hcp Hlast].
  apply andb_true_iff in Hkeep. destruct Hkeep as [Hpos Hneg].
  apply andb_true_iff in Hpos. destruct Hpos as [Hlen Hstart].
  unfold textPartWellFormed.
  split; [apply Nat.leb_le; exact Hlen |].
  split; [exact Hcp |].
  split.
  { destruct codes as [|c rest]; [discriminate |].
    exists c, rest. split; [reflexivity | exact Hstart]. }
  split; [exact Hlast |].
  apply negb_true_iff in Hneg.
  apply List.Forall_forall. intros c Hc.
  destruct (Z.eq_dec c 124) as [-> | H1];
    [exfalso; rewrite <- not_true_iff_false in Hneg; apply Hneg;
     apply existsb_exists; exists 124; split; [exact Hc | reflexivity] |].
  destruct (Z.eq_dec c 92) as [-> | H2];
    [exfalso; rewrite <- not_true_iff_false in Hneg; apply Hneg;
     apply existsb_exists; exists 92; split; [exact Hc | reflexivity] |].
  destruct (Z.eq_dec c 96) as [-> | H3];
    [exfalso; rewrite <- not_true_iff_false in Hneg; apply Hneg;
     apply existsb_exists; exists 96; split; [exact Hc | reflexivity] |].
  repeat split; assumption.
Qed.

(** ** Which decoder pushes which warning *)

Lemma quiet_ret c {A : Type} (a : A) : quiet c (ret a).
Proof. intros ctx H. exact H. Qed.

Lemma quiet_getBytes c : quiet c getBytes.
Proof. intros ctx H. exact H. Qed.

Lemma quiet_bind c {A B : Type} (m : M A) (k : A -> M B) :
  quiet c m -> (forall a, quiet c (k a)) -> quiet c (bind m k).
Proof.
  intros Hm Hk ctx H. unfold bind. specialize (Hm ctx H).
  destruct (m ctx) as [a ctx']. exact (Hk a ctx' Hm).
Qed.

Lemma quiet_warn c c' msg bi off d : c' <> c -> quiet c (warn c' msg bi off d).
Proof.
  intros Hc ctx H. unfold warn, addWarning. cbn [snd warnings].
  intros Hex. apply Exists_app in Hex. destruct Hex as [Hex | Hex];
    [exact (H Hex) |].
  apply Exists_cons in Hex. destruct Hex as [Hex | Hex];
    [exact (Hc Hex) | inversion Hex].
Qed.

Lemma quiet_readU8 c a bi rel :
  c <> out_of_range_read -> quiet c (readU8 a bi rel).
Proof.
  intros Hc ctx H. unfold readU8.
  destruct ((a <? 0) || (bytes_length ctx <=? a)); [| exact H].
  unfold bind, warn, addWarning, ret. cbn [snd warnings].
  intros Hex. apply Exists_app in Hex. destruct Hex as [Hex | Hex];
    [exact (H Hex) |].
  apply Exists_cons in Hex. destruct Hex as [Hex | Hex];
    [cbn in Hex; congruence | inversion Hex].
Qed.

Lemma quiet_forLoop c {S : Type} (n : nat) (body : Z -> S -> M (Ctl S)) :
  (forall i s, quiet c (body i s)) -> forall i s, quiet c (forLoop n i body s).
Proof.
  intros Hb. induction n as [|n IH]; intros i s; cbn [forLoop].
  - apply quiet_ret.
  - apply quiet_bind; [apply Hb |].
    intros [s'|s']; [apply IH | apply quiet_ret].
Qed.

Lemma quiet_ext c {A : Type} (m m' : M A) :
  (forall ctx, m ctx = m' ctx) -> quiet c m' -> quiet c m.
Proof. intros He H ctx. rewrite He. apply H. Qed.

Lemma quiet_emitted c {A : Type} (m : M A) (bs : list Z) :
  quiet c m -> ~ hasWarning c (emitted m bs).
Proof.
  intros H. unfold emitted. apply H. cbn. intros Hex. inversion Hex.
Qed.

Lemma quiet_emitted_block c b {A : Type} (m : M A) (bs : list Z) :
  quiet c m -> ~ hasBlockWarning c b (emitted m bs).
Proof.
  intros H Hex. apply (quiet_emitted c m bs H).
  unfold hasWarning, hasBlockWarning in *.
  apply List.Exists_exists in Hex. destruct Hex as (w & Hin & Hw & _).
  apply List.Exists_exists. exists w. split; assumption.
Qed.

Create HintDb quiet.

Ltac head_of t :=
  lazymatch t with
  | ?f _ => head_of f
  | _ => t
  end.

(** One step of a proof that a decoder is quiet: split a bind, close a leaf,
    case on the scrutinee of a conditional, or open the decoder. *)
Ltac quiet_step :=
  lazymatch goal with
  | |- quiet _ (bind _ _) => apply quiet_bind; [| intros]
  | |- quiet _ (ret _) => apply quiet_ret
  | |- quiet _ getBytes => apply quiet_getBytes
  | |- quiet _ (warn _ _ _ _ _) =>
      apply quiet_warn; first [assumption | congruence]
  | |- quiet _ (readU8 _ _ _) =>
      apply quiet_readU8; first [assumption | discriminate]
  | |- quiet _ (forLoop _ _ _ _) => apply quiet_forLoop; intros
  | |- quiet _ (if ?b then _ else _) => destruct b
  | |- quiet _ (match ?x with _ => _ end) => destruct x
  | |- quiet _ (let (_, _) := ?x in _) => destruct x
  | |- quiet _ (let _ := _ in _) => cbv zeta
  | |- quiet _ ?m =>
      first [ solve [eauto with quiet]
            | let h := head_of m in unfold h ]
  end.

Ltac quiet_auto := repeat quiet_step.

Section ReaderOnly.

(** A decoder that pushes nothing but the warnings of its reads is quiet
    about every other code. *)
Variable c : ParsedEdidWarningCode.
Hypothesis not_read : c <> out_of_range_read.

Lemma quiet_getStandardDisplayModes_loop reader :
  forall n index arr,
    (Z.to_nat (STD_DISPLAY_MODES_END - index) <= n)%nat ->
    quiet c (getStandardDisplayModes_loop reader index arr).
Proof.
  induction n as [|n IH]; intros index arr Hn;
    (eapply quiet_ext; [apply getStandardDisplayModes_loop_unfolded |]);
    destruct (index <? STD_DISPLAY_MODES_END) eqn:Hlt; try apply quiet_ret;
    apply Z.ltb_lt in Hlt.
  - lia.
  - apply quiet_bind; [quiet_auto |].
    intros [arr'|]; [apply IH; lia | apply quiet_ret].
Qed.

Lemma quiet_getStandardDisplayModes reader :
  quiet c (getStandardDisplayModes reader).
Proof.
  unfold getStandardDisplayModes.
  eapply quiet_getStandardDisplayModes_loop. reflexivity.
Qed.

Lemma quiet_getMonitorDescriptors_loop reader e :
  forall n off md,
    (Z.to_nat (e - off) <= n)%nat ->
    quiet c (getMonitorDescriptors_loop reader off e md).
Proof.
  induction n as [|n IH]; intros off md Hn;
    (eapply quiet_ext; [apply getMonitorDescriptors_loop_unfolded |]);
    destruct (off <? e) eqn:Hlt; try apply quiet_ret;
    apply Z.ltb_lt in Hlt.
  - lia.
  - apply quiet_bind; [quiet_auto |].
    intros [[md' []]|]; first [apply IH; unfold DTD_LENGTH; lia | apply quiet_ret].
Qed.

Lemma quiet_getMonitorDescriptors reader s e :
  quiet c (getMonitorDescriptors reader s e).
Proof.
  unfold getMonitorDescriptors.
  eapply quiet_getMonitorDescriptors_loop. reflexivity.
Qed.

Lemma quiet_getDtds_loop h reader e :
  forall n i arr,
    (Z.to_nat (e - i) <= n)%nat -> quiet c (getDtds_loop h reader i e arr).
Proof.
  induction n as [|n IH]; intros i arr Hn;
    (eapply quiet_ext; [apply getDtds_loop_unfolded |]);
    destruct (i <? e) eqn:Hlt; try apply quiet_ret;
    apply Z.ltb_lt in Hlt.
  - lia.
  - apply quiet_bind; [quiet_auto |].
    intros [arr'|]; [apply IH; unfold DTD_LENGTH; lia | apply quiet_ret].
Qed.

Lemma quiet_getDtds h reader s e : quiet c (getDtds h reader s e).
Proof. unfold getDtds. eapply quiet_getDtds_loop. reflexivity. Qed.

End ReaderOnly.

#[export] Hint Resolve quiet_getStandardDisplayModes quiet_getMonitorDescriptors
  quiet_getDtds : quiet.

Section DataBlocks.

(** The decoders of the data blocks push the warnings of their reads and
    the warning for an unknown data block tag, nothing else. *)
Variable c : ParsedEdidWarningCode.
Hypothesis not_read : c <> out_of_range_read.
Hypothesis not_block : c <> unknown_data_block.

Lemma quiet_parseDataBlock reader index headerByte st :
  quiet c (parseDataBlock reader index headerByte st).
Proof. quiet_auto. Qed.

Lemma quiet_primaryScan reader e :
  forall n index st,
    (Z.to_nat (e - index) <= n)%nat -> quiet c (primaryScan reader e index st).
Proof.
  induction n as [|n IH]; intros index st Hn;
    (eapply quiet_ext; [apply primaryScan_unfolded |]);
    destruct (index <? e) eqn:Hlt; try apply quiet_ret;
    apply Z.ltb_lt in Hlt.
  - lia.
  - apply quiet_bind; [quiet_auto |].
    intros [headerByte|]; [| apply quiet_ret].
    apply quiet_bind; [apply quiet_parseDataBlock |].
    intros st'. apply IH.
    pose proof (band_nonneg_r headerByte DATA_BLOCK_LENGTH_MASK
                  ltac:(vm_compute; split; [discriminate | reflexivity])).
    lia.
Qed.

Lemma quiet_recoveryScan reader s e context :
  quiet c (recoveryScan reader s e context).
Proof. quiet_auto. Qed.

End DataBlocks.

Lemma quiet_primaryScan_any c reader e index st :
  c <> out_of_range_read -> c <> unknown_data_block ->
  quiet c (primaryScan reader e index st).
Proof.
  intros H1 H2.
  apply (quiet_primaryScan c H1 H2 reader e (Z.to_nat (e - index))). lia.
Qed.

#[export] Hint Resolve quiet_parseDataBlock quiet_primaryScan_any
  quiet_recoveryScan : quiet.

Lemma quiet_parseDataBlockCollection c reader dtdStart context :
  c <> out_of_range_read -> c <> unknown_data_block -> c <> parse_error ->
  quiet c (parseDataBlockCollection reader dtdStart context).
Proof. intros H1 H2 H3. quiet_auto. Qed.

Lemma quiet_parseCtaExtension c h reader i context :
  c <> out_of_range_read -> c <> unknown_data_block -> c <> parse_error ->
  quiet c (parseCtaExtension h reader i context).
Proof.
  intros H1 H2 H3. pose proof quiet_parseDataBlockCollection. quiet_auto.
Qed.

Lemma quiet_parseDisplayIdExtension c reader i :
  c <> out_of_range_read -> quiet c (parseDisplayIdExtension reader i).
Proof. intros H1. quiet_auto. Qed.

Lemma quiet_parseUnknownExtension c reader i :
  c <> out_of_range_read -> c <> unknown_extension_tag ->
  quiet c (parseUnknownExtension reader i).
Proof. intros H1 H2. quiet_auto. Qed.

Lemma quiet_parseExtensions c h count context :
  c <> out_of_range_read -> c <> unknown_data_block -> c <> parse_error ->
  c <> unknown_extension_tag ->
  quiet c (parseExtensions h count context).
Proof.
  intros H1 H2 H3 H4.
  pose proof quiet_parseCtaExtension. pose proof quiet_parseDisplayIdExtension.
  pose proof quiet_parseUnknownExtension.
  unfold parseExtensions, parseExtensionsWith.
  apply quiet_bind; [| intros; apply quiet_ret].
  apply quiet_forLoop. intros i [exts ctx]. unfold parseExtensions_step.
  apply quiet_bind; [quiet_auto |]. intros [extTag|]; [| apply quiet_ret].
  apply quiet_bind.
  - destruct (extTag =? CTA_EXTENSION_TAG);
      [| destruct (extTag =? DISPLAYID_EXTENSION_TAG)].
    + unfold decodeCtaExtension. apply quiet_bind; [auto |].
      intros; apply quiet_ret.
    + unfold decodeDisplayIdExtension. apply quiet_bind; [auto |].
      intros; apply quiet_ret.
    + apply quiet_bind; [auto |]. intros; apply quiet_ret.
  - intros [[ext|e] ctx']; [apply quiet_ret |].
    apply quiet_bind; [apply quiet_warn; congruence |]. intros _.
    apply quiet_bind; [auto |]. intros; apply quiet_ret.
Qed.

Lemma quiet_parseBaseBlock c m1 m2 m3 h reader :
  c <> out_of_range_read -> c <> unknown_edid_minor_version ->
  quiet c (parseBaseBlock m1 m2 m3 h reader).
Proof. intros H1 H2. quiet_auto. Qed.

Lemma hasWarning_quiet c {A : Type} (m : M A) (bs : list Z) :
  quiet c m -> (hasWarning c (emitted m bs) <-> False).
Proof. intros H. split; [apply quiet_emitted; exact H | contradiction]. Qed.

Lemma hasBlockWarning_quiet c b {A : Type} (m : M A) (bs : list Z) :
  quiet c m -> (hasBlockWarning c b (emitted m bs) <-> False).
Proof.
  intros H. split; [apply quiet_emitted_block; exact H | contradiction].
Qed.

(** Drop from a disjunction of pushed warnings the decoders that are quiet
    about the code. *)
Ltac drop_quiet :=
  repeat match goal with
         | |- context [hasWarning ?c (emitted ?m ?bs)] =>
             rewrite (hasWarning_quiet c m bs) by (quiet_auto; fail)
         | |- context [hasBlockWarning ?c ?b (emitted ?m ?bs)] =>
             rewrite (hasBlockWarning_quiet c b m bs) by (quiet_auto; fail)
         end.

Lemma emitted_warn c msg bi off d bs :
  emitted (warn c msg bi off d) bs = [mkWarning c msg bi off d].
Proof. reflexivity. Qed.

Lemma emitted_parseBaseBlock_minor m1 m2 m3 h reader bs :
  hasWarning unknown_edid_minor_version
    (emitted (parseBaseBlock m1 m2 m3 h reader) bs)
  <-> (value (getEdidVersion reader) bs =? 1)
      && negb (existsb (Z.eqb (value (getEdidRevision reader) bs))
                 [0; 1; 2; 3; 4]) = true.
Proof.
  unfold parseBaseBlock.
  repeat (rewrite emitted_bind by framed_auto).
  rewrite !hasWarning_app. drop_quiet.
  destruct ((value (getEdidVersion reader) bs =? 1) && _).
  - rewrite emitted_warn. unfold hasWarning.
    rewrite Exists_cons. cbn [code]. intuition congruence.
  - rewrite emitted_ret. unfold hasWarning. rewrite Exists_nil.
    intuition congruence.
Qed.

Lemma hasBlockWarning_single c b (w : ParsedEdidWarning) :
  hasBlockWarning c b [w] <-> code w = c /\ blockIndex w = Some b.
Proof.
  unfold hasBlockWarning. rewrite Exists_cons, Exists_nil. tauto.
Qed.

Lemma hasBlockWarning_nil c b : hasBlockWarning c b [] <-> False.
Proof. unfold hasBlockWarning. rewrite Exists_nil. tauto. Qed.

Lemma emitted_parseUnknownExtension_tag reader i bs b :
  hasBlockWarning unknown_extension_tag b
    (emitted (parseUnknownExtension reader i) bs)
  <-> reader_blockIndex reader = b.
Proof.
  unfold parseUnknownExtension.
  rewrite emitted_bind by framed_auto.
  rewrite value_readExtensionHeader. cbv beta iota zeta.
  repeat (rewrite emitted_bind by framed_auto).
  rewrite !hasBlockWarning_app. drop_quiet.
  rewrite emitted_warn, hasBlockWarning_single. cbn [code blockIndex].
  intuition congruence.
Qed.

Lemma emitted_parseDataBlockCollection_error reader dtdStart context bs b :
  hasBlockWarning parse_error b
    (emitted (parseDataBlockCollection reader dtdStart context) bs)
  <-> reader_blockIndex reader = b /\ dtdStart < 4.
Proof.
  unfold parseDataBlockCollection. cbv zeta.
  destruct (Z.ltb_spec (dtdStart - 4) 0) as [Hlt | Hge].
  - rewrite emitted_bind by framed_auto.
    rewrite hasBlockWarning_app, emitted_warn, hasBlockWarning_single.
    rewrite emitted_ret, hasBlockWarning_nil. cbn [code blockIndex].
    intuition (congruence || lia).
  - rewrite hasBlockWarning_quiet by (quiet_auto; fail). lia.
Qed.

Lemma emitted_parseCtaExtension_error h reader i context bs b :
  hasBlockWarning parse_error b
    (emitted (parseCtaExtension h reader i context) bs)
  <-> reader_blockIndex reader = b /\ default 0 (byteAt bs reader 2) < 4.
Proof.
  unfold parseCtaExtension.
  rewrite emitted_bind by framed_auto.
  rewrite value_readExtensionHeader. cbv beta iota zeta.
  set (dtdStart := default 0 (byteAt bs reader 2)).
  rewrite emitted_bind by framed_auto.
  rewrite emitted_bind by framed_auto.
  match goal with
  | |- context [let (_, _) := ?v in _] => destruct v as [d c0]
  end.
  repeat (rewrite emitted_bind by framed_auto).
  rewrite !hasBlockWarning_app. drop_quiet.
  destruct (Z.eqb_spec dtdStart 4) as [H4 | H4]; cbn [negb].
  - rewrite emitted_ret, hasBlockWarning_nil. lia.
  - rewrite emitted_bind by framed_auto.
    rewrite hasBlockWarning_app, emitted_parseDataBlockCollection_error.
    rewrite emitted_ret, hasBlockWarning_nil. tauto.
Qed.

Section ExtensionWarnings.

(** A warning code [c] that a block decoder pushes for its own block exactly
    when the extension it returns satisfies [P]. *)
Variable h : Q -> Q -> Q.
Variable bs : list Z.
Variable c : ParsedEdidWarningCode.
Variable P : Extension.ParsedExtensionBlock -> Prop.

Hypothesis not_read : c <> out_of_range_read.
Hypothesis cta_rule : forall i context b,
  hasBlockWarning c b
    (emitted (parseCtaExtension h (extensionReader i) i context) bs)
  <-> i + 1 = b /\
      P (fst (value (parseCtaExtension h (extensionReader i) i context) bs)).
Hypothesis displayId_rule : forall i b,
  hasBlockWarning c b
    (emitted (parseDisplayIdExtension (extensionReader i) i) bs)
  <-> i + 1 = b /\ P (value (parseDisplayIdExtension (extensionReader i) i) bs).
Hypothesis unknown_rule : forall i b,
  hasBlockWarning c b
    (emitted (parseUnknownExtension (extensionReader i) i) bs)
  <-> i + 1 = b /\ P (value (parseUnknownExtension (extensionReader i) i) bs).

Lemma extension_step_warning i exts context b :
  hasBlockWarning c b
    (emitted (parseExtensions_step (decodeCtaExtension h)
                decodeDisplayIdExtension i (exts, context)) bs)
  <-> match value (parseExtensions_step (decodeCtaExtension h)
                     decodeDisplayIdExtension i (exts, context)) bs with
      | Continue (exts', _) =>
          exists ext,
            exts' = exts ++ [ext] /\ Extension.blockNumber ext = i + 1 /\
            i + 1 = b /\ P ext
      | Break _ => False
      end.
Proof.
  rewrite value_extension_step.
  unfold parseExtensions_step. fold (extensionReader i).
  rewrite emitted_bind by framed_auto. rewrite value_u8.
  rewrite hasBlockWarning_app.
  rewrite (hasBlockWarning_quiet c b (u8 (extensionReader i) 0))
    by (unfold u8; apply quiet_readU8; exact not_read).
  destruct (byteAt bs (extensionReader i) 0) as [extTag|];
    [| rewrite emitted_ret, hasBlockWarning_nil; tauto].
  rewrite emitted_bind by framed_auto. rewrite hasBlockWarning_app.
  destruct (extTag =? CTA_EXTENSION_TAG);
    [| destruct (extTag =? DISPLAYID_EXTENSION_TAG)].
  - unfold decodeCtaExtension.
    rewrite emitted_bind, value_bind by framed_auto.
    rewrite !value_ret, !emitted_ret, app_nil_r, hasBlockWarning_nil.
    rewrite cta_rule. cbv zeta. split.
    + intros [[] | [[Hb Hp] | []]]. eexists. split; [reflexivity |].
      split; [apply parseCtaExtension_blockNumber | split; assumption].
    + intros (ext & Heq & _ & Hb & Hp). apply app_inj_tail in Heq.
      destruct Heq as [_ <-]. right. left. split; assumption.
  - unfold decodeDisplayIdExtension.
    rewrite emitted_bind, value_bind by framed_auto.
    rewrite !value_ret, !emitted_ret, app_nil_r, hasBlockWarning_nil.
    rewrite displayId_rule. split.
    + intros [[] | [[Hb Hp] | []]]. eexists. split; [reflexivity |].
      split; [apply parseDisplayIdExtension_blockNumber | split; assumption].
    + intros (ext & Heq & _ & Hb & Hp). apply app_inj_tail in Heq.
      destruct Heq as [_ <-]. right. left. split; assumption.
  - rewrite emitted_bind, value_bind by framed_auto.
    rewrite !value_ret, !emitted_ret, app_nil_r, hasBlockWarning_nil.
    rewrite unknown_rule. split.
    + intros [[] | [[Hb Hp] | []]]. eexists. split; [reflexivity |].
      split; [apply parseUnknownExtension_blockNumber | split; assumption].
    + intros (ext & Heq & _ & Hb & Hp). apply app_inj_tail in Heq.
      destruct Heq as [_ <-]. right. left. split; assumption.
Qed.

Lemma extension_loop_warning (n : nat) :
  forall i exts context b,
    0 <= i ->
    exists new,
      fst (value (forLoop n i
                    (parseExtensions_step (decodeCtaExtension h)
                       decodeDisplayIdExtension) (exts, context)) bs)
      = exts ++ new /\
      Forall (fun ext => i < Extension.blockNumber ext) new /\
      (hasBlockWarning c b
         (emitted (forLoop n i
                     (parseExtensions_step (decodeCtaExtension h)
                        decodeDisplayIdExtension) (exts, context)) bs)
       <-> exists ext,
             In ext new /\ Extension.blockNumber ext = b /\ P ext).
Proof.
  induction n as [|n IH]; intros i exts context b Hi.
  - exists []. cbn [forLoop]. rewrite value_ret, emitted_ret, app_nil_r.
    split; [reflexivity |]. split; [constructor |].
    rewrite hasBlockWarning_nil. split; [contradiction |].
    intros (ext & [] & _).
  - rewrite value_forLoop_S, emitted_forLoop_S
      by (intros; apply framed_extension_step).
    pose proof (extension_step_warning i exts context b) as Hrule.
    destruct (value (parseExtensions_step _ _ i (exts, context)) bs)
      as [[exts' context'] | st] eqn:Hstep.
    + destruct (IH (i + 1) exts' context' b ltac:(lia))
        as (new & Hnew & Hnum & Hiff).
      rewrite value_extension_step in Hstep.
      assert (Hext : exists ext,
                 exts' = exts ++ [ext] /\ Extension.blockNumber ext = i + 1).
      { destruct (byteAt bs (extensionReader i) 0) as [extTag|];
          [| discriminate].
        destruct (extTag =? CTA_EXTENSION_TAG);
          [| destruct (extTag =? DISPLAYID_EXTENSION_TAG)];
          injection Hstep as <- _; eexists; (split; [reflexivity |]).
        - apply parseCtaExtension_blockNumber.
        - apply parseDisplayIdExtension_blockNumber.
        - apply parseUnknownExtension_blockNumber. }
      destruct Hext as (ext & -> & Hnumber).
      exists (ext :: new). rewrite Hnew, <- app_assoc.
      split; [reflexivity |]. split.
      { constructor; [lia |].
        eapply Forall_impl; [exact Hnum |]. cbv beta. intros e He. lia. }
      rewrite hasBlockWarning_app, Hrule, Hiff. split.
      * intros [(ext' & Heq & _ & Hb & Hp) | (ext' & Hin & Hb & Hp)].
        -- apply app_inj_tail in Heq. destruct Heq as [_ <-].
           exists ext. split; [left; reflexivity |]. split; [lia | exact Hp].
        -- exists ext'. split; [right; exact Hin |]. split; assumption.
      * intros (ext' & [<- | Hin] & Hb & Hp).
        -- left. exists ext. split; [reflexivity |].
           split; [exact Hnumber |]. split; [lia | exact Hp].
        -- right. exists ext'. split; [exact Hin |]. split; assumption.
    + exists []. rewrite app_nil_r.
      rewrite value_extension_step in Hstep.
      destruct (byteAt bs (extensionReader i) 0) as [extTag|].
      * destruct (extTag =? CTA_EXTENSION_TAG);
          [| destruct (extTag =? DISPLAYID_EXTENSION_TAG)]; discriminate.
      * injection Hstep as <-. split; [reflexivity |]. split; [constructor |].
        rewrite hasBlockWarning_app, Hrule, hasBlockWarning_nil.
        split; [tauto |]. intros (ext & [] & _).
Qed.

Lemma parseExtensions_warning count context b :
  hasBlockWarning c b (emitted (parseExtensions h count context) bs)
  <-> exists ext,
        In ext (value (parseExtensions h count context) bs) /\
        Extension.blockNumber ext = b /\ P ext.
Proof.
  rewrite value_parseExtensions.
  unfold parseExtensions, parseExtensionsWith.
  rewrite emitted_bind;
    [| apply framed_forLoop; intros; apply framed_extension_step
     | apply framed_ret].
  rewrite emitted_ret, app_nil_r.
  destruct (extension_loop_warning (Z.to_nat count) 0 [] context b
              ltac:(lia)) as (new & Hnew & _ & Hiff).
  rewrite Hnew, Hiff. reflexivity.
Qed.

End ExtensionWarnings.

(** The decoder-level warnings of a result are those of the base block and
    of the extension blocks. *)
Lemma parseEdid_decoder_warnings m1 m2 m3 h data c :
  decoderCode c = true ->
  let bs := map JS.clampByte data in
  let r := parseEdid m1 m2 m3 h data in
  let base := emitted (parseBaseBlock m1 m2 m3 h (createBlockReader 0 0)) bs in
  let exts := emitted (parseExtensions h (availableExtensions bs)
                         (mkExtensionParseContext None)) bs in
  (hasWarning c (Edid.warnings r) <-> hasWarning c base \/ hasWarning c exts)
  /\ forall b,
       hasBlockWarning c b (Edid.warnings r)
       <-> hasBlockWarning c b base \/ hasBlockWarning c b exts.
Proof.
  intros Hc bs r base exts.
  destruct (parseEdid_warnings m1 m2 m3 h data)
    as (w1 & w2 & w3 & w4 & w5 & expected & HW & _ & Hc1 & Hc2
        & [Hc3 _] & [Hc4 _] & Hc5).
  fold r in HW. cbv zeta in HW. fold bs in HW. fold base in HW. fold exts in HW.
  pose proof (emitted_warnFailedExtensionChecksums (Edid.extensions r) bs)
    as HE3.
  set (E3 := emitted (warnFailedExtensionChecksums (Edid.extensions r)) bs)
    in *.
  assert (N3 : ~ hasWarning c E3).
  { intros Hex. apply List.Exists_exists in Hex as (w & Hin & Hw).
    rewrite List.Forall_forall in HE3. destruct (HE3 w Hin) as [Hcode _].
    rewrite <- Hw, Hcode in Hc. discriminate. }
  assert (B3 : forall b, ~ hasBlockWarning c b E3).
  { intros b Hex. apply N3. apply List.Exists_exists in Hex as (w & Hin & Hw & _).
    apply List.Exists_exists. exists w. split; assumption. }
  assert (Hne : forall w, decoderCode (code w) = false -> code w <> c)
    by (intros w Hw Heq; rewrite Heq in Hw; congruence).
  rewrite HW. split; [| intros b].
  - rewrite !hasWarning_app, !hasWarning_warningIf.
    pose proof (Hne w1 ltac:(rewrite Hc1; reflexivity)).
    pose proof (Hne w2 ltac:(rewrite Hc2; reflexivity)).
    pose proof (Hne w3 ltac:(rewrite Hc3; reflexivity)).
    pose proof (Hne w4 ltac:(rewrite Hc4; reflexivity)).
    pose proof (Hne w5 ltac:(rewrite Hc5; reflexivity)).
    tauto.
  - rewrite !hasBlockWarning_app, !hasBlockWarning_warningIf.
    pose proof (Hne w1 ltac:(rewrite Hc1; reflexivity)).
    pose proof (Hne w2 ltac:(rewrite Hc2; reflexivity)).
    pose proof (Hne w3 ltac:(rewrite Hc3; reflexivity)).
    pose proof (Hne w4 ltac:(rewrite Hc4; reflexivity)).
    pose proof (Hne w5 ltac:(rewrite Hc5; reflexivity)).
    specialize (B3 b). tauto.
Qed.

Lemma minor_version_rule m1 m2 m3 h (data : list Z) :
  let bs := map JS.clampByte data in
  let r := parseEdid m1 m2 m3 h data in
  hasWarning unknown_edid_minor_version (Edid.warnings r)
  <-> inputByte bs 18 = 1 /\ 4 < inputByte bs 19.
Proof.
  intros bs r.
  destruct (parseEdid_decoder_warnings m1 m2 m3 h data
              unknown_edid_minor_version eq_refl) as [Hw _].
  fold bs in Hw. fold r in Hw. cbv zeta in Hw. rewrite Hw.
  rewrite (hasWarning_quiet unknown_edid_minor_version
             (parseExtensions h (availableExtensions bs)
                (mkExtensionParseContext None)) bs)
    by (apply quiet_parseExtensions; discriminate).
  rewrite emitted_parseBaseBlock_minor.
  unfold getEdidVersion, getEdidRevision. cbv zeta.
  rewrite !value_u8OrZero. base_bytes.
  pose proof (clamped_bytes data) as Hbs. fold bs in Hbs.
  pose proof (inputByte_range bs 19 Hbs) as H19.
  rewrite andb_true_iff, negb_true_iff, Z.eqb_eq.
  cbn [existsb]. rewrite !orb_false_iff, !Z.eqb_neq. intuition lia.
Qed.

(** For every input a warning for an unknown EDID minor version is pushed
    exactly when the version byte (byte 18) is 1 and the revision byte
    (byte 19) is above 4; no other decoder pushes that code. *)
Theorem minor_version_warned m1 m2 m3 h (data : list Z) :
  let bs := map JS.clampByte data in
  let r := parseEdid m1 m2 m3 h data in
  hasWarning unknown_edid_minor_version (Edid.warnings r)
  <-> inputByte bs 18 = 1 /\ 4 < inputByte bs 19.
Proof. exact (minor_version_rule m1 m2 m3 h data). Qed.

Lemma unknown_extension_rule m1 m2 m3 h (data : list Z) (b : Z) :
  let r := parseEdid m1 m2 m3 h data in
  hasBlockWarning unknown_extension_tag b (Edid.warnings r)
  <-> exists ext,
        In ext (Edid.extensions r) /\ Extension.blockNumber ext = b /\
        Extension.extensionType ext = Some unknown.
Proof.
  intros r.
  destruct (parseEdid_decoder_warnings m1 m2 m3 h data
              unknown_extension_tag eq_refl) as [_ Hw].
  fold r in Hw. cbv zeta in Hw. rewrite Hw.
  rewrite (hasBlockWarning_quiet unknown_extension_tag b
             (parseBaseBlock m1 m2 m3 h (createBlockReader 0 0)))
    by (apply quiet_parseBaseBlock; discriminate).
  destruct (parseEdid_shape m1 m2 m3 h data) as (_ & _ & _ & _ & Hexts & _).
  fold r in Hexts. rewrite Hexts.
  rewrite (parseExtensions_warning h (map JS.clampByte data)
             unknown_extension_tag
             (fun ext => Extension.extensionType ext = Some unknown));
    [tauto | discriminate | | |].
  - intros i context b'.
    rewrite hasBlockWarning_quiet
      by (apply quiet_parseCtaExtension; discriminate).
    destruct (parseCtaExtension_fields h (extensionReader i) i context
                (map JS.clampByte data))
      as (_ & _ & _ & _ & _ & _ & _ & _ & _ & Ht & _).
    cbv zeta in Ht. rewrite Ht. intuition congruence.
  - intros i b'.
    rewrite hasBlockWarning_quiet
      by (apply quiet_parseDisplayIdExtension; discriminate).
    destruct (parseDisplayIdExtension_fields (extensionReader i) i
                (map JS.clampByte data))
      as (_ & _ & _ & _ & _ & _ & _ & _ & Ht & _).
    cbv zeta in Ht. rewrite Ht. intuition congruence.
  - intros i b'. rewrite emitted_parseUnknownExtension_tag.
    rewrite parseUnknownExtension_type.
    cbn [extensionReader createBlockReader reader_blockIndex]. tauto.
Qed.

(** For every input a warning for an unsupported extension tag is pushed for
    block [b] exactly when the extension decoded from block [b] is of
    unknown type. *)
Theorem unknown_extension_warned m1 m2 m3 h (data : list Z) (b : Z) :
  let r := parseEdid m1 m2 m3 h data in
  hasBlockWarning unknown_extension_tag b (Edid.warnings r)
  <-> exists ext,
        In ext (Edid.extensions r) /\ Extension.blockNumber ext = b /\
        Extension.extensionType ext = Some unknown.
Proof. exact (unknown_extension_rule m1 m2 m3 h data b). Qed.

Lemma cta_layout_error_rule m1 m2 m3 h (data : list Z) (b : Z) :
  let r := parseEdid m1 m2 m3 h data in
  hasBlockWarning parse_error b (Edid.warnings r)
  <-> exists ext,
        In ext (Edid.extensions r) /\ Extension.blockNumber ext = b /\
        Extension.extensionType ext = Some cta_861 /\
        Extension.dtdStart ext < 4.
Proof.
  intros r.
  destruct (parseEdid_decoder_warnings m1 m2 m3 h data parse_error eq_refl)
    as [_ Hw].
  fold r in Hw. cbv zeta in Hw. rewrite Hw.
  rewrite (hasBlockWarning_quiet parse_error b
             (parseBaseBlock m1 m2 m3 h (createBlockReader 0 0)))
    by (apply quiet_parseBaseBlock; discriminate).
  destruct (parseEdid_shape m1 m2 m3 h data) as (_ & _ & _ & _ & Hexts & _).
  fold r in Hexts. rewrite Hexts.
  rewrite (parseExtensions_warning h (map JS.clampByte data) parse_error
             (fun ext => Extension.extensionType ext = Some cta_861 /\
                         Extension.dtdStart ext < 4));
    [tauto | discriminate | | |].
  - intros i context b'. rewrite emitted_parseCtaExtension_error.
    destruct (parseCtaExtension_fields h (extensionReader i) i context
                (map JS.clampByte data))
      as (_ & _ & _ & Hd & _ & _ & _ & _ & _ & Ht & _).
    cbv zeta in Hd, Ht. rewrite Hd, Ht.
    cbn [extensionReader createBlockReader reader_blockIndex]. tauto.
  - intros i b'.
    rewrite hasBlockWarning_quiet
      by (apply quiet_parseDisplayIdExtension; discriminate).
    destruct (parseDisplayIdExtension_fields (extensionReader i) i
                (map JS.clampByte data))
      as (_ & _ & _ & _ & _ & _ & _ & _ & Ht & _).
    cbv zeta in Ht. rewrite Ht. intuition congruence.
  - intros i b'.
    rewrite hasBlockWarning_quiet
      by (apply quiet_parseUnknownExtension; discriminate).
    rewrite parseUnknownExtension_type. intuition congruence.
Qed.

(** For every input a parse error is reported for block [b] exactly when
    the extension decoded from block [b] is a CTA-861 extension whose
    detailed timings start (byte 2 of the block) before offset 4, the
    offset of its data block collection. *)
Theorem cta_layout_error_warned m1 m2 m3 h (data : list Z) (b : Z) :
  let r := parseEdid m1 m2 m3 h data in
  hasBlockWarning parse_error b (Edid.warnings r)
  <-> exists ext,
        In ext (Edid.extensions r) /\ Extension.blockNumber ext = b /\
        Extension.extensionType ext = Some cta_861 /\
        Extension.dtdStart ext < 4.
Proof. exact (cta_layout_error_rule m1 m2 m3 h data b). Qed.

(** ** Properties of the read context kept by the decoders *)

Lemma keeps_ret I {A : Type} (a : A) : keeps I (ret a).
Proof. intros ctx H. exact H. Qed.

Lemma keeps_getBytes I : keeps I getBytes.
Proof. intros ctx H. exact H. Qed.

Lemma keeps_bind I {A B : Type} (m : M A) (k : A -> M B) :
  keeps I m -> (forall a, keeps I (k a)) -> keeps I (bind m k).
Proof.
  intros Hm Hk ctx H. unfold bind. specialize (Hm ctx H).
  destruct (m ctx) as [a ctx']. exact (Hk a ctx' Hm).
Qed.

Lemma keeps_forLoop I {S : Type} (n : nat) (body : Z -> S -> M (Ctl S)) :
  (forall i s, keeps I (body i s)) -> forall i s, keeps I (forLoop n i body s).
Proof.
  intros Hb. induction n as [|n IH]; intros i s; cbn [forLoop].
  - apply keeps_ret.
  - apply keeps_bind; [apply Hb |].
    intros [s'|s']; [apply IH | apply keeps_ret].
Qed.

Lemma keeps_ext I {A : Type} (m m' : M A) :
  (forall ctx, m ctx = m' ctx) -> keeps I m' -> keeps I m.
Proof. intros He H ctx. rewrite He. apply H. Qed.

Lemma keeps_warn bs reader c msg bi off d :
  c <> out_of_range_read ->
  keeps (readsThrough bs reader) (warn c msg bi off d).
Proof.
  intros Hc ctx [Hb Hw]. unfold warn, addWarning. cbn [snd warnings bytes].
  split; [exact Hb |]. apply Forall_app. split; [exact Hw |].
  constructor; [| constructor]. cbn [code]. intros Hcode. contradiction.
Qed.

Lemma keeps_readU8 bs reader a b off :
  b = reader_blockIndex reader -> a = reader_blockOffset reader + off ->
  keeps (readsThrough bs reader) (readU8 a (Some b) (Some off)).
Proof.
  intros -> -> ctx [Hb Hw]. unfold readU8.
  destruct ((reader_blockOffset reader + off <? 0)
            || (bytes_length ctx <=? reader_blockOffset reader + off)) eqn:Hout;
    [| split; assumption].
  unfold bind, warn, addWarning, ret. cbn [snd warnings bytes].
  split; [exact Hb |]. apply Forall_app. split; [exact Hw |].
  constructor; [| constructor]. intros _. exists off.
  unfold bytes_length in *. rewrite Hb in *.
  apply orb_true_iff in Hout.
  split; [destruct Hout as [H|H]; [left; apply Z.ltb_lt | right; apply Z.leb_le];
          exact H |].
  repeat split.
Qed.

Create HintDb keeps.

(** One step of a proof that a decoder keeps the reads through its reader:
    split a bind, close a leaf, case on the scrutinee of a conditional, or
    open the decoder. *)
Ltac keeps_step :=
  lazymatch goal with
  | |- keeps _ (bind _ _) => apply keeps_bind; [| intros]
  | |- keeps _ (ret _) => apply keeps_ret
  | |- keeps _ getBytes => apply keeps_getBytes
  | |- keeps _ (warn _ _ _ _ _) => apply keeps_warn; discriminate
  | |- keeps _ (readU8 _ _ _) =>
      apply keeps_readU8;
      [reflexivity
      | cbn [createBlockReader reader_blockOffset reader_blockIndex];
        unfold EDID_BLOCK_LENGTH; first [reflexivity | lia]]
  | |- keeps _ (forLoop _ _ _ _) => apply keeps_forLoop; intros
  | |- keeps _ (if ?b then _ else _) => destruct b
  | |- keeps _ (match ?x with _ => _ end) => destruct x
  | |- keeps _ (let (_, _) := ?x in _) => destruct x
  | |- keeps _ (let _ := _ in _) => cbv zeta
  | |- keeps _ ?m =>
      first [ solve [eauto with keeps]
            | let h := head_of m in unfold h ]
  end.

Ltac keeps_auto := repeat keeps_step.

Section ReadsThrough.

Variable bs : list Z.
Variable reader : BlockReader.

Local Notation "'I'" := (readsThrough bs reader).

Lemma keeps_getStandardDisplayModes_loop :
  forall n index arr,
    (Z.to_nat (STD_DISPLAY_MODES_END - index) <= n)%nat ->
    keeps I (getStandardDisplayModes_loop reader index arr).
Proof.
  induction n as [|n IH]; intros index arr Hn;
    (eapply keeps_ext; [apply getStandardDisplayModes_loop_unfolded |]);
    destruct (index <? STD_DISPLAY_MODES_END) eqn:Hlt; try apply keeps_ret;
    apply Z.ltb_lt in Hlt.
  - lia.
  - apply keeps_bind; [keeps_auto |].
    intros [arr'|]; [apply IH; lia | apply keeps_ret].
Qed.

Lemma keeps_getStandardDisplayModes :
  keeps I (getStandardDisplayModes reader).
Proof.
  unfold getStandardDisplayModes.
  eapply keeps_getStandardDisplayModes_loop. reflexivity.
Qed.

Lemma keeps_getMonitorDescriptors_loop e :
  forall n off md,
    (Z.to_nat (e - off) <= n)%nat ->
    keeps I (getMonitorDescriptors_loop reader off e md).
Proof.
  induction n as [|n IH]; intros off md Hn;
    (eapply keeps_ext; [apply getMonitorDescriptors_loop_unfolded |]);
    destruct (off <? e) eqn:Hlt; try apply keeps_ret;
    apply Z.ltb_lt in Hlt.
  - lia.
  - apply keeps_bind; [keeps_auto |].
    intros [[md' []]|]; first [apply IH; unfold DTD_LENGTH; lia | apply keeps_ret].
Qed.

Lemma keeps_getMonitorDescriptors s e :
  keeps I (getMonitorDescriptors reader s e).
Proof.
  unfold getMonitorDescriptors.
  eapply keeps_getMonitorDescriptors_loop. reflexivity.
Qed.

Lemma keeps_getDtds_loop h e :
  forall n i arr,
    (Z.to_nat (e - i) <= n)%nat -> keeps I (getDtds_loop h reader i e arr).
Proof.
  induction n as [|n IH]; intros i arr Hn;
    (eapply keeps_ext; [apply getDtds_loop_unfolded |]);
    destruct (i <? e) eqn:Hlt; try apply keeps_ret;
    apply Z.ltb_lt in Hlt.
  - lia.
  - apply keeps_bind; [keeps_auto |].
    intros [arr'|]; [apply IH; unfold DTD_LENGTH; lia | apply keeps_ret].
Qed.

Lemma keeps_getDtds h s e : keeps I (getDtds h reader s e).
Proof. unfold getDtds. eapply keeps_getDtds_loop. reflexivity. Qed.

Lemma keeps_parseDataBlock index headerByte st :
  keeps I (parseDataBlock reader index headerByte st).
Proof. keeps_auto. Qed.

Lemma keeps_primaryScan e :
  forall n index st,
    (Z.to_nat (e - index) <= n)%nat -> keeps I (primaryScan reader e index st).
Proof.
  induction n as [|n IH]; intros index st Hn;
    (eapply keeps_ext; [apply primaryScan_unfolded |]);
    destruct (index <? e) eqn:Hlt; try apply keeps_ret;
    apply Z.ltb_lt in Hlt.
  - lia.
  - apply keeps_bind; [keeps_auto |].
    intros [headerByte|]; [| apply keeps_ret].
    apply keeps_bind; [apply keeps_parseDataBlock |].
    intros st'. apply IH.
    pose proof (band_nonneg_r headerByte DATA_BLOCK_LENGTH_MASK
                  ltac:(vm_compute; split; [discriminate | reflexivity])).
    lia.
Qed.

Lemma keeps_primaryScan_any e index st :
  keeps I (primaryScan reader e index st).
Proof. apply (keeps_primaryScan e (Z.to_nat (e - index))). lia. Qed.

Lemma keeps_recoveryScan s e context :
  keeps I (recoveryScan reader s e context).
Proof. keeps_auto. Qed.

End ReadsThrough.

#[export] Hint Resolve keeps_getStandardDisplayModes keeps_getMonitorDescriptors
  keeps_getDtds keeps_parseDataBlock keeps_primaryScan_any
  keeps_recoveryScan : keeps.

Lemma keeps_parseDataBlockCollection bs reader dtdStart context :
  keeps (readsThrough bs reader)
    (parseDataBlockCollection reader dtdStart context).
Proof. keeps_auto. Qed.

Lemma keeps_parseCtaExtension bs h i context :
  keeps (readsThrough bs (extensionReader i))
    (parseCtaExtension h (extensionReader i) i context).
Proof.
  pose proof keeps_parseDataBlockCollection. unfold extensionReader.
  keeps_auto.
Qed.

Lemma keeps_parseDisplayIdExtension bs i :
  keeps (readsThrough bs (extensionReader i))
    (parseDisplayIdExtension (extensionReader i) i).
Proof. unfold extensionReader. keeps_auto. Qed.

Lemma keeps_parseUnknownExtension bs i :
  keeps (readsThrough bs (extensionReader i))
    (parseUnknownExtension (extensionReader i) i).
Proof. unfold extensionReader. keeps_auto. Qed.

Lemma keeps_parseBaseBlock bs m1 m2 m3 h :
  keeps (readsThrough bs (createBlockReader 0 0))
    (parseBaseBlock m1 m2 m3 h (createBlockReader 0 0)).
Proof. keeps_auto. Qed.

(** ** The warning for an unknown data block *)

Lemma emitted_parseDataBlock_unknown reader index headerByte st bs b :
  hasBlockWarning unknown_data_block b
    (emitted (parseDataBlock reader index headerByte st) bs)
  <-> reader_blockIndex reader = b /\
      isUnknownHeader (index, headerByte) = true.
Proof.
  unfold parseDataBlock, isUnknownHeader, headerTag. cbv zeta.
  cbn [snd existsb].
  set (tag := JS.band (JS.shr headerByte TAG_CODE_OFFSET) TAG_CODE_MASK).
  destruct (tag =? DATA_BLOCK_TYPE_value AUDIO);
    [rewrite hasBlockWarning_quiet by (quiet_auto; fail); cbn;
     intuition congruence |].
  destruct (tag =? DATA_BLOCK_TYPE_value VIDEO);
    [rewrite hasBlockWarning_quiet by (quiet_auto; fail); cbn;
     intuition congruence |].
  destruct (tag =? DATA_BLOCK_TYPE_value VENDOR_SPECIFIC);
    [rewrite hasBlockWarning_quiet by (quiet_auto; fail); cbn;
     intuition congruence |].
  destruct (tag =? DATA_BLOCK_TYPE_value SPEAKER_ALLOCATION);
    [rewrite hasBlockWarning_quiet by (quiet_auto; fail); cbn;
     intuition congruence |].
  destruct (tag =? DATA_BLOCK_TYPE_value EXTENDED_TAG);
    [rewrite hasBlockWarning_quiet by (quiet_auto; fail); cbn;
     intuition congruence |].
  rewrite emitted_bind by framed_auto.
  rewrite hasBlockWarning_app, emitted_warn, hasBlockWarning_single.
  rewrite emitted_ret, hasBlockWarning_nil. cbn [code blockIndex orb negb].
  intuition congruence.
Qed.

Lemma emitted_primaryScan reader e i st bs :
  emitted (primaryScan reader e i st) bs =
  if i <? e then
    emitted (u8 reader i) bs ++
    match byteAt bs reader i with
    | None => []
    | Some h =>
        emitted (parseDataBlock reader i h st) bs ++
        emitted (primaryScan reader e (i + headerLength h + 1)
                   (value (parseDataBlock reader i h st) bs)) bs
    end
  else [].
Proof.
  unfold emitted at 1. rewrite primaryScan_unfolded.
  destruct (i <? e); [| reflexivity].
  match goal with
  | |- warnings (snd (bind ?m ?k _)) = ?rhs =>
      change (emitted (bind m k) bs = rhs)
  end.
  rewrite emitted_bind_all; [| apply framed_u8 | intros [h|]; framed_auto].
  rewrite value_u8. f_equal.
  destruct (byteAt bs reader i) as [h|]; [| reflexivity].
  rewrite emitted_bind_all by (intros; auto with framed). reflexivity.
Qed.

Lemma emitted_primaryScan_unknown reader e bs b (n : nat) :
  forall i st,
    (Z.to_nat (e - i) <= n)%nat ->
    hasBlockWarning unknown_data_block b
      (emitted (primaryScan reader e i st) bs)
    <-> reader_blockIndex reader = b /\
        Exists (fun header => isUnknownHeader header = true)
          (blockHeaders bs reader e i).
Proof.
  induction n as [|n IH]; intros i st Hn;
    rewrite emitted_primaryScan, blockHeaders_unfolded;
    destruct (Z.ltb_spec i e) as [Hlt|Hge]; try lia;
    try (rewrite hasBlockWarning_nil, Exists_nil; tauto).
  rewrite hasBlockWarning_app.
  rewrite (hasBlockWarning_quiet unknown_data_block b (u8 reader i))
    by (quiet_auto; fail).
  destruct (byteAt bs reader i) as [h|];
    [| rewrite hasBlockWarning_nil, Exists_nil; tauto].
  rewrite hasBlockWarning_app, emitted_parseDataBlock_unknown, Exists_cons.
  rewrite IH by (pose proof (headerLength_nonneg h); lia).
  tauto.
Qed.

Lemma emitted_parseDataBlockCollection_unknown reader dtdStart context bs b :
  hasBlockWarning unknown_data_block b
    (emitted (parseDataBlockCollection reader dtdStart context) bs)
  <-> reader_blockIndex reader = b /\
      Exists (fun header => isUnknownHeader header = true)
        (blockHeaders bs reader dtdStart 4).
Proof.
  unfold parseDataBlockCollection. cbv zeta.
  destruct (Z.ltb_spec (dtdStart - 4) 0) as [Hlt | Hge].
  - rewrite hasBlockWarning_quiet by (quiet_auto; fail).
    rewrite blockHeaders_unfolded.
    destruct (Z.ltb_spec 4 dtdStart); [lia |]. rewrite Exists_nil. tauto.
  - rewrite emitted_bind_all by (intros; framed_auto).
    rewrite hasBlockWarning_app.
    replace (4 + (dtdStart - 4)) with dtdStart by lia.
    rewrite (emitted_primaryScan_unknown reader dtdStart bs b
               (Z.to_nat (dtdStart - 4))) by lia.
    match goal with
    | |- context [hasBlockWarning ?c ?b' (emitted ?m bs)] =>
        rewrite (hasBlockWarning_quiet c b' m bs) by (quiet_auto; fail)
    end.
    tauto.
Qed.

Lemma emitted_parseCtaExtension_unknown h reader i context bs b :
  hasBlockWarning unknown_data_block b
    (emitted (parseCtaExtension h reader i context) bs)
  <-> reader_blockIndex reader = b /\
      Exists (fun header => isUnknownHeader header = true)
        (blockHeaders bs reader (default 0 (byteAt bs reader 2)) 4).
Proof.
  unfold parseCtaExtension.
  rewrite emitted_bind by framed_auto.
  rewrite value_readExtensionHeader. cbv beta iota zeta.
  set (dtdStart := default 0 (byteAt bs reader 2)).
  rewrite emitted_bind by framed_auto.
  rewrite emitted_bind by framed_auto.
  match goal with
  | |- context [let (_, _) := ?v in _] => destruct v as [d c0]
  end.
  repeat (rewrite emitted_bind by framed_auto).
  rewrite !hasBlockWarning_app. drop_quiet.
  destruct (Z.eqb_spec dtdStart 4) as [H4 | H4]; cbn [negb].
  - rewrite emitted_ret, hasBlockWarning_nil.
    rewrite blockHeaders_unfolded, H4. cbn. rewrite Exists_nil. tauto.
  - rewrite emitted_bind by framed_auto.
    rewrite hasBlockWarning_app, emitted_parseDataBlockCollection_unknown.
    rewrite emitted_ret, hasBlockWarning_nil. tauto.
Qed.

(** ** Read warnings are genuine *)

Lemma keeps_emitted bs reader {A : Type} (m : M A) :
  keeps (readsThrough bs reader) m ->
  Forall (fun w => code w = out_of_range_read -> outsideRead bs reader w)
    (emitted m bs).
Proof.
  intros H. unfold emitted.
  apply (H (mkReadContext bs [])). split; [reflexivity | constructor].
Qed.

Lemma availableExtensions_nonneg bs : 0 <= availableExtensions bs.
Proof. unfold availableExtensions. lia. Qed.

Lemma genuine_parseBaseBlock m1 m2 m3 h bs :
  Forall (genuineRead bs)
    (emitted (parseBaseBlock m1 m2 m3 h (createBlockReader 0 0)) bs).
Proof.
  eapply Forall_impl; [apply keeps_emitted, keeps_parseBaseBlock |].
  intros w Hw Hc. exists 0.
  split; [pose proof (availableExtensions_nonneg bs); lia | exact (Hw Hc)].
Qed.

Lemma keeps_extension_step bs h i exts context :
  keeps (readsThrough bs (extensionReader i))
    (parseExtensions_step (decodeCtaExtension h) decodeDisplayIdExtension i
       (exts, context)).
Proof.
  unfold parseExtensions_step.
  change (createBlockReader (i + 1) (EDID_BLOCK_LENGTH * (i + 1)))
    with (extensionReader i).
  apply keeps_bind; [unfold extensionReader; keeps_auto |].
  intros [extTag|]; [| apply keeps_ret].
  apply keeps_bind.
  - destruct (extTag =? CTA_EXTENSION_TAG);
      [| destruct (extTag =? DISPLAYID_EXTENSION_TAG)].
    + unfold decodeCtaExtension.
      apply keeps_bind; [apply keeps_parseCtaExtension |].
      intros; apply keeps_ret.
    + unfold decodeDisplayIdExtension.
      apply keeps_bind; [apply keeps_parseDisplayIdExtension |].
      intros; apply keeps_ret.
    + apply keeps_bind; [apply keeps_parseUnknownExtension |].
      intros; apply keeps_ret.
  - intros [[ext|e] ctx']; [apply keeps_ret |].
    apply keeps_bind; [apply keeps_warn; discriminate |]. intros _.
    apply keeps_bind; [apply keeps_parseUnknownExtension |].
    intros; apply keeps_ret.
Qed.

Lemma extension_loop_reads bs h (n : nat) :
  forall i st,
    0 <= i -> i + Z.of_nat n <= availableExtensions bs ->
    Forall (fun w =>
              code w = out_of_range_read ->
              exists b,
                1 <= b <= availableExtensions bs /\
                outsideRead bs (createBlockReader b (128 * b)) w)
      (emitted (forLoop n i
                  (parseExtensions_step (decodeCtaExtension h)
                     decodeDisplayIdExtension) st) bs).
Proof.
  induction n as [|n IH]; intros i st Hi Hn.
  - constructor.
  - rewrite emitted_forLoop_S by (intros; apply framed_extension_step).
    apply Forall_app. split.
    + destruct st as [exts context].
      eapply Forall_impl; [apply keeps_emitted, keeps_extension_step |].
      intros w Hw Hc. exists (i + 1). split; [lia |].
      exact (Hw Hc).
    + destruct (value _ bs) as [st'|st']; [apply IH; lia | constructor].
Qed.

Lemma parseExtensions_reads bs h context :
  Forall (fun w =>
            code w = out_of_range_read ->
            exists b,
              1 <= b <= availableExtensions bs /\
              outsideRead bs (createBlockReader b (128 * b)) w)
    (emitted (parseExtensions h (availableExtensions bs) context) bs).
Proof.
  unfold parseExtensions, parseExtensionsWith.
  rewrite emitted_bind;
    [| apply framed_forLoop; intros; apply framed_extension_step
     | apply framed_ret].
  rewrite emitted_ret, app_nil_r.
  apply extension_loop_reads; [lia |].
  pose proof (availableExtensions_nonneg bs). lia.
Qed.

Lemma genuine_parseExtensions bs h context :
  Forall (genuineRead bs)
    (emitted (parseExtensions h (availableExtensions bs) context) bs).
Proof.
  eapply Forall_impl; [apply parseExtensions_reads |].
  intros w Hw Hc. destruct (Hw Hc) as (b & Hb & Hout).
  exists b. split; [lia | exact Hout].
Qed.

Lemma Forall_warningIf (P : ParsedEdidWarning -> Prop) c w :
  P w -> Forall P (warningIf c w).
Proof. intros H. destruct c; repeat constructor. exact H. Qed.

(** Every warning of a result carries one of the ten codes the parser
    pushes, and its read warnings are genuine. *)
Lemma parseEdid_warning_codes m1 m2 m3 h data :
  let bs := map JS.clampByte data in
  let r := parseEdid m1 m2 m3 h data in
  Forall (fun w => code w <> other) (Edid.warnings r) /\
  Forall (genuineRead bs) (Edid.warnings r).
Proof.
  intros bs r.
  destruct (parseEdid_warnings m1 m2 m3 h data)
    as (w1 & w2 & w3 & w4 & w5 & expected & HW & _ & Hc1 & Hc2
        & [Hc3 _] & [Hc4 _] & Hc5).
  fold r in HW. cbv zeta in HW. fold bs in HW. rewrite HW.
  pose proof (emitted_warnFailedExtensionChecksums (Edid.extensions r) bs)
    as HE3.
  assert (Hdec : forall {A : Type} (m : M A),
            framed m -> Forall (fun w => code w <> other) (emitted m bs)).
  { intros A m Hm. eapply Forall_impl; [apply (framed_codes _ bs Hm) |].
    intros w Hw Hc. cbv beta in Hw. rewrite Hc in Hw. discriminate. }
  split.
  - repeat (apply Forall_app; split);
      try (apply Forall_warningIf; congruence);
      try (apply Hdec; solve [auto with framed]).
    eapply Forall_impl; [exact HE3 |]. intros w [Hc _]. congruence.
  - repeat (apply Forall_app; split);
      try (apply Forall_warningIf; intros Hc; congruence).
    + apply genuine_parseBaseBlock.
    + apply genuine_parseExtensions.
    + eapply Forall_impl; [exact HE3 |]. intros w [Hc _] Hc'. congruence.
Qed.

(** ** The reads of the base block stay within its 128 bytes *)

Lemma keeps_forLoop_bounded I {S : Type} (n : nat) (body : Z -> S -> M (Ctl S)) :
  forall lo s,
    (forall i s, lo <= i < lo + Z.of_nat n -> keeps I (body i s)) ->
    keeps I (forLoop n lo body s).
Proof.
  induction n as [|n IH]; intros lo s Hb; cbn [forLoop].
  - apply keeps_ret.
  - apply keeps_bind; [apply Hb; lia |].
    intros [s'|s']; [| apply keeps_ret].
    apply IH. intros i s0 Hi. apply Hb. lia.
Qed.

Section BaseReads.

Variable bs : list Z.
Hypothesis whole_block : 128 <= Z.of_nat (length bs).

Local Notation "'I'" := (noReadWarning bs).
Local Notation "'reader'" := (createBlockReader 0 0).

Lemma within_warn c msg bi off d :
  c <> out_of_range_read -> keeps I (warn c msg bi off d).
Proof.
  intros Hc ctx [Hb Hw]. unfold warn, addWarning. cbn [snd warnings bytes].
  split; [exact Hb |]. apply Forall_app. split; [exact Hw |].
  constructor; [exact Hc | constructor].
Qed.

Lemma within_readU8 a bi rel :
  0 <= a < 128 -> keeps I (readU8 a bi rel).
Proof.
  intros Ha ctx [Hb Hw]. unfold readU8, bytes_length. rewrite Hb.
  destruct (Z.ltb_spec a 0); [lia |].
  destruct (Z.leb_spec (Z.of_nat (length bs)) a); [lia |].
  split; assumption.
Qed.

(** One step of a proof that a decoder of the base block reads within the
    block; the offsets are bounded by the hypotheses at hand. *)
Ltac within_step :=
  lazymatch goal with
  | |- keeps _ (bind _ _) => apply keeps_bind; [| intros]
  | |- keeps _ (ret _) => apply keeps_ret
  | |- keeps _ getBytes => apply keeps_getBytes
  | |- keeps _ (warn _ _ _ _ _) => apply within_warn; discriminate
  | |- keeps _ (readU8 _ _ _) =>
      apply within_readU8;
      cbn [createBlockReader reader_blockOffset reader_blockIndex];
      unfold EDID_BLOCK_LENGTH, DTD_LENGTH in *; lia
  | |- keeps _ (forLoop _ _ _ _) =>
      apply keeps_forLoop_bounded; intros
  | |- keeps _ (if ?b then _ else _) => destruct b
  | |- keeps _ (match ?x with _ => _ end) => destruct x
  | |- keeps _ (let (_, _) := ?x in _) => destruct x
  | |- keeps _ (let _ := _ in _) => cbv zeta
  | |- keeps _ ?m =>
      first [ solve [eauto with nocore within]
            | let h := head_of m in unfold h ]
  end.

Ltac within_auto := repeat within_step.

Lemma within_getStandardDisplayModes_loop :
  forall n index arr,
    0 <= index ->
    (Z.to_nat (STD_DISPLAY_MODES_END - index) <= n)%nat ->
    keeps I (getStandardDisplayModes_loop reader index arr).
Proof.
  induction n as [|n IH]; intros index arr Hi Hn;
    (eapply keeps_ext; [apply getStandardDisplayModes_loop_unfolded |]);
    destruct (index <? STD_DISPLAY_MODES_END) eqn:Hlt; try apply keeps_ret;
    apply Z.ltb_lt in Hlt; unfold STD_DISPLAY_MODES_END in *.
  - lia.
  - apply keeps_bind; [within_auto |].
    intros [arr'|]; [apply IH; lia | apply keeps_ret].
Qed.

Lemma within_getStandardDisplayModes :
  keeps I (getStandardDisplayModes reader).
Proof.
  unfold getStandardDisplayModes.
  eapply within_getStandardDisplayModes_loop;
    [unfold STD_DISPLAY_MODES_START; lia | reflexivity].
Qed.

Lemma within_tryParseSpwgDescriptorPair off k :
  0 <= k -> off = 54 + 18 * k -> off < 126 ->
  keeps I (tryParseSpwgDescriptorPair reader off 126).
Proof.
  intros Hk Hoff Hlt. unfold tryParseSpwgDescriptorPair. cbv zeta.
  destruct (Z.leb_spec 126 (off + DTD_LENGTH)) as [Hle|Hgt];
    [apply keeps_ret |].
  unfold DTD_LENGTH in Hgt. within_auto.
Qed.

Lemma within_getMonitorDescriptors_step off k md :
  0 <= k -> off = 54 + 18 * k -> off < 126 ->
  keeps I (getMonitorDescriptors_step reader off 126 md).
Proof.
  intros Hk Hoff Hlt.
  pose proof (within_tryParseSpwgDescriptorPair off k Hk Hoff Hlt) as Hpair.
  unfold getMonitorDescriptors_step. cbv zeta.
  repeat (apply keeps_bind; [within_auto | intros]).
  repeat lazymatch goal with
         | |- keeps _ (match ?x with _ => _ end) => destruct x
         end;
    try apply keeps_ret.
  apply keeps_bind.
  - destruct (_ && _); [exact Hpair | apply keeps_ret].
  - intros [spwg|]; within_auto.
Qed.

Lemma within_getMonitorDescriptors_loop :
  forall n off k md,
    0 <= k -> off = 54 + 18 * k ->
    (Z.to_nat (126 - off) <= n)%nat ->
    keeps I (getMonitorDescriptors_loop reader off 126 md).
Proof.
  induction n as [|n IH]; intros off k md Hk Hoff Hn;
    (eapply keeps_ext; [apply getMonitorDescriptors_loop_unfolded |]);
    destruct (off <? 126) eqn:Hlt; try apply keeps_ret;
    apply Z.ltb_lt in Hlt.
  - lia.
  - apply keeps_bind;
      [apply (within_getMonitorDescriptors_step off k); assumption |].
    intros [[md' []]|]; try apply keeps_ret.
    + apply (IH _ (k + 2)); unfold DTD_LENGTH; lia.
    + apply (IH _ (k + 1)); unfold DTD_LENGTH; lia.
Qed.

Lemma within_getMonitorDescriptors :
  keeps I (getMonitorDescriptors reader 54 126).
Proof.
  unfold getMonitorDescriptors.
  apply (within_getMonitorDescriptors_loop (Z.to_nat (126 - 54)) 54 0);
    [lia | lia | reflexivity].
Qed.

Lemma within_parseDtd h off k :
  0 <= k -> off = 54 + 18 * k -> off < 126 ->
  keeps I (parseDtd h reader off).
Proof. intros Hk Hoff Hlt. within_auto. Qed.

Lemma within_getDtds_loop h :
  forall n off k arr,
    0 <= k -> off = 54 + 18 * k ->
    (Z.to_nat (126 - off) <= n)%nat ->
    keeps I (getDtds_loop h reader off 126 arr).
Proof.
  induction n as [|n IH]; intros off k arr Hk Hoff Hn;
    (eapply keeps_ext; [apply getDtds_loop_unfolded |]);
    destruct (off <? 126) eqn:Hlt; try apply keeps_ret;
    apply Z.ltb_lt in Hlt.
  - lia.
  - pose proof (within_parseDtd h off k Hk Hoff Hlt) as Hdtd.
    apply keeps_bind.
    + unfold getDtds_step.
      repeat (apply keeps_bind; [within_auto | intros]).
      repeat lazymatch goal with
             | |- keeps _ (match ?x with _ => _ end) => destruct x
             | |- keeps _ (if ?b then _ else _) => destruct b
             end;
        try apply keeps_ret.
      apply keeps_bind; [exact Hdtd | intros [dtd|]; apply keeps_ret].
    + intros [arr'|]; [| apply keeps_ret].
      apply (IH _ (k + 1)); unfold DTD_LENGTH; lia.
Qed.

Lemma within_getDtds h : keeps I (getDtds h reader 54 126).
Proof.
  unfold getDtds.
  apply (within_getDtds_loop h (Z.to_nat (126 - 54)) 54 0);
    [lia | lia | reflexivity].
Qed.

Lemma within_parseBaseBlock m1 m2 m3 h :
  keeps I (parseBaseBlock m1 m2 m3 h reader).
Proof.
  pose proof within_getStandardDisplayModes.
  pose proof within_getMonitorDescriptors.
  pose proof (within_getDtds h).
  unfold parseBaseBlock.
  repeat first
    [ assumption
    | apply keeps_bind; [| intros]
    | within_step ].
Qed.

End BaseReads.

(** ** The read warnings of the base block *)

Lemma within_emitted bs {A : Type} (m : M A) :
  keeps (noReadWarning bs) m ->
  Forall (fun w => code w <> out_of_range_read) (emitted m bs).
Proof.
  intros H. unfold emitted.
  apply (H (mkReadContext bs [])). split; [reflexivity | constructor].
Qed.

Lemma emitted_getChecksum_short bs :
  Z.of_nat (length bs) < 128 ->
  hasBlockWarning out_of_range_read 0
    (emitted (getChecksum (createBlockReader 0 0)) bs).
Proof.
  intros Hlen. unfold getChecksum, u8OrZero. cbv zeta.
  rewrite emitted_bind by framed_auto.
  apply hasBlockWarning_app. left.
  unfold emitted, readU8, bytes_length.
  cbn [createBlockReader reader_blockOffset reader_blockIndex bytes].
  destruct (Z.leb_spec (Z.of_nat (length bs)) (0 + 127)) as [_|Hgt];
    [| lia].
  rewrite orb_true_r. cbn. apply Exists_cons_hd. split; reflexivity.
Qed.

(** The base block decoder warns of a read outside the input exactly when
    the input is shorter than one block. *)
Lemma parseBaseBlock_read_warning m1 m2 m3 h bs :
  hasBlockWarning out_of_range_read 0
    (emitted (parseBaseBlock m1 m2 m3 h (createBlockReader 0 0)) bs)
  <-> Z.of_nat (length bs) < 128.
Proof.
  split.
  - intros Hw. destruct (Z_lt_le_dec (Z.of_nat (length bs)) 128) as [Hlt|Hge];
      [exact Hlt | exfalso].
    pose proof (within_emitted bs _ (within_parseBaseBlock bs Hge m1 m2 m3 h))
      as Hnone.
    apply List.Exists_exists in Hw as (w & Hin & Hc & _).
    rewrite List.Forall_forall in Hnone. exact (Hnone w Hin Hc).
  - intros Hlen. pose proof (emitted_getChecksum_short bs Hlen) as Hc.
    unfold parseBaseBlock.
    repeat (rewrite emitted_bind by framed_auto).
    rewrite !hasBlockWarning_app.
    repeat match goal with
           | |- _ \/ _ => first [left; exact Hc | right]
           end.
Qed.

Lemma parseExtensions_no_base_read bs h context :
  ~ hasBlockWarning out_of_range_read 0
      (emitted (parseExtensions h (availableExtensions bs) context) bs).
Proof.
  intros Hw. apply List.Exists_exists in Hw as (w & Hin & Hc & Hb).
  pose proof (parseExtensions_reads bs h context) as Hr.
  rewrite List.Forall_forall in Hr.
  destruct (Hr w Hin Hc) as (b & Hb1 & off & _ & Hidx & _).
  cbn [createBlockReader reader_blockIndex] in Hidx.
  rewrite Hidx in Hb. injection Hb as Hb. lia.
Qed.

(** ** The rules of the decoder-level warnings *)

Lemma read_warning_rule m1 m2 m3 h (data : list Z) :
  let r := parseEdid m1 m2 m3 h data in
  hasBlockWarning out_of_range_read 0 (Edid.warnings r)
  <-> Z.of_nat (length data) < 128.
Proof.
  intros r.
  destruct (parseEdid_decoder_warnings m1 m2 m3 h data out_of_range_read
              eq_refl) as [_ Hw].
  fold r in Hw. cbv zeta in Hw. rewrite Hw.
  rewrite parseBaseBlock_read_warning, length_map.
  pose proof (parseExtensions_no_base_read (map JS.clampByte data) h
                (mkExtensionParseContext None)).
  tauto.
Qed.

Lemma unknown_data_block_rule m1 m2 m3 h (data : list Z) (b : Z) :
  let bs := map JS.clampByte data in
  let r := parseEdid m1 m2 m3 h data in
  hasBlockWarning unknown_data_block b (Edid.warnings r)
  <-> exists ext,
        In ext (Edid.extensions r) /\ Extension.blockNumber ext = b /\
        hasUnknownDataBlock bs ext.
Proof.
  intros bs r.
  destruct (parseEdid_decoder_warnings m1 m2 m3 h data unknown_data_block
              eq_refl) as [_ Hw].
  fold r in Hw. cbv zeta in Hw. rewrite Hw.
  rewrite (hasBlockWarning_quiet unknown_data_block b
             (parseBaseBlock m1 m2 m3 h (createBlockReader 0 0)))
    by (apply quiet_parseBaseBlock; discriminate).
  destruct (parseEdid_shape m1 m2 m3 h data) as (_ & _ & _ & _ & Hexts & _).
  fold r in Hexts. rewrite Hexts. fold bs.
  rewrite (parseExtensions_warning h bs unknown_data_block
             (hasUnknownDataBlock bs));
    [tauto | discriminate | | |].
  - intros i context b'. rewrite emitted_parseCtaExtension_unknown.
    destruct (parseCtaExtension_fields h (extensionReader i) i context bs)
      as (Hn & _ & _ & Hd & _ & _ & _ & _ & _ & Ht & _).
    cbv zeta in Hn, Hd, Ht. unfold hasUnknownDataBlock.
    rewrite Hn, Hd, Ht.
    replace (i + 1 - 1) with i by lia.
    cbn [extensionReader createBlockReader reader_blockIndex]. tauto.
  - intros i b'.
    rewrite hasBlockWarning_quiet
      by (apply quiet_parseDisplayIdExtension; discriminate).
    destruct (parseDisplayIdExtension_fields (extensionReader i) i bs)
      as (_ & _ & _ & _ & _ & _ & _ & _ & Ht & _).
    cbv zeta in Ht. unfold hasUnknownDataBlock. rewrite Ht.
    intuition congruence.
  - intros i b'.
    rewrite hasBlockWarning_quiet
      by (apply quiet_parseUnknownExtension; discriminate).
    unfold hasUnknownDataBlock. rewrite parseUnknownExtension_type.
    intuition congruence.
Qed.

Lemma readU8_rule a bi rel (input : list Z) :
  let inside := (0 <=? a) && (a <? Z.of_nat (length input)) in
  value (readU8 a bi rel) input
  = (if inside then input !! Z.to_nat a else None) /\
  emitted (readU8 a bi rel) input
  = if inside then []
    else [mkWarning out_of_range_read
            "Attempted to read beyond available EDID bytes." bi
            (Some (default a rel))
            (Some (DetailFields
                     [("absoluteOffset"%string, inject_Z a);
                      ("length"%string,
                       inject_Z (Z.of_nat (length input)))]))].
Proof.
  cbv zeta. unfold value, emitted, readU8, bytes_length.
  cbn [bytes].
  destruct (Z.ltb_spec a 0) as [Hneg|Hnn];
    destruct (Z.leb_spec (Z.of_nat (length input)) a) as [Hge|Hlt];
    destruct (Z.leb_spec 0 a); destruct (Z.ltb_spec a (Z.of_nat (length input)));
    try lia; cbn; split; reflexivity.
Qed.

(** C1: [parseEdid] is a total function of its input: the source has no
    [throw], every loop is bounded, and every read goes through [readU8],
    which answers a read outside the input with no byte and one
    [out_of_range_read] warning that records the offset and the length of
    the input.  The bytes decoded are the input clamped to [0, 255].  Each
    anomaly is reported by a warning exactly when it occurs: a short input, a
    length that is not a multiple of 128, an invalid header, a failed
    checksum of the base block or of an extension block, an extension count
    that does not match the blocks available, an unknown minor version, an
    extension block of unknown type, a CTA-861 extension whose detailed
    timings start before its data block collection, and a data block with
    an unknown tag code.  A read warning for the base block is pushed exactly
    when the input is shorter than one block, and every read warning names
    a block of the input and an offset that lies outside the input.  No
    warning carries another code.  The empty input, a 3-byte fragment, 256
    bytes of [0xFF] and an array with out-of-range values decode as
    shown. *)
Theorem parseEdid_total_anomalies_warned m1 m2 m3 h (data : list Z) :
  let bs := map JS.clampByte data in
  let r := parseEdid m1 m2 m3 h data in
  let len := Z.of_nat (length data) in
  Edid.bytes r = map JS.clampByte data /\
  Forall (fun b => 0 <= b <= 255) (Edid.bytes r) /\
  (hasWarning too_short (Edid.warnings r) <-> len < 128) /\
  (hasWarning length_not_multiple_of_128 (Edid.warnings r)
   <-> len mod 128 <> 0) /\
  (hasWarning invalid_header (Edid.warnings r)
   <-> Edid.isHeaderValid r <> Some true) /\
  (hasBlockWarning checksum_failed 0 (Edid.warnings r)
   <-> Edid.isChecksumValid r = Some false) /\
  (hasWarning extension_count_mismatch (Edid.warnings r)
   <-> Edid.expectedExtensionCount r
       <> Some (availableExtensions (Edid.bytes r))) /\
  (forall a bi rel (input : list Z),
     let inside := (0 <=? a) && (a <? Z.of_nat (length input)) in
     value (readU8 a bi rel) input
     = (if inside then input !! Z.to_nat a else None) /\
     emitted (readU8 a bi rel) input
     = if inside then []
       else [mkWarning out_of_range_read
               "Attempted to read beyond available EDID bytes." bi
               (Some (default a rel))
               (Some (DetailFields
                        [("absoluteOffset"%string, inject_Z a);
                         ("length"%string,
                          inject_Z (Z.of_nat (length input)))]))]) /\
  (hasBlockWarning out_of_range_read 0 (Edid.warnings r) <-> len < 128) /\
  Forall (genuineRead bs) (Edid.warnings r) /\
  (hasWarning unknown_edid_minor_version (Edid.warnings r)
   <-> inputByte bs 18 = 1 /\ 4 < inputByte bs 19) /\
  (forall b,
     1 <= b ->
     (hasBlockWarning checksum_failed b (Edid.warnings r)
      <-> exists ext,
            In ext (Edid.extensions r) /\ Extension.blockNumber ext = b /\
            Extension.isChecksumValid ext = Some false)) /\
  (forall b,
     hasBlockWarning unknown_extension_tag b (Edid.warnings r)
     <-> exists ext,
           In ext (Edid.extensions r) /\ Extension.blockNumber ext = b /\
           Extension.extensionType ext = Some unknown) /\
  (forall b,
     hasBlockWarning parse_error b (Edid.warnings r)
     <-> exists ext,
           In ext (Edid.extensions r) /\ Extension.blockNumber ext = b /\
           Extension.extensionType ext = Some cta_861 /\
           Extension.dtdStart ext < 4) /\
  (forall b,
     hasBlockWarning unknown_data_block b (Edid.warnings r)
     <-> exists ext,
           In ext (Edid.extensions r) /\ Extension.blockNumber ext = b /\
           hasUnknownDataBlock bs ext) /\
  Forall (fun w => code w <> other) (Edid.warnings r) /\
  (let e := parseEdid m1 m2 m3 h [] in
   Edid.isHeaderValid e = Some false /\ Edid.isChecksumValid e = None /\
   Edid.extensions e = []) /\
  (let e := parseEdid m1 m2 m3 h [0; 255; 255] in
   Edid.isHeaderValid e = Some false /\ Edid.extensions e = []) /\
  (let e := parseEdid m1 m2 m3 h (repeat 255 256) in
   map code (Edid.warnings e)
   = [invalid_header; checksum_failed; extension_count_mismatch;
      unknown_extension_tag; checksum_failed] /\
   map Extension.extensionType (Edid.extensions e) = [Some unknown]) /\
  Edid.bytes (parseEdid m1 m2 m3 h [300; -5; 7]) = [255; 0; 7].
Proof.
  intros bs r len.
  destruct (parseEdid_anomalies m1 m2 m3 h data)
    as (H1 & H2 & H3 & H4 & H5 & H6 & H7).
  repeat (split; [assumption |]).
  split; [intros a bi rel input; apply readU8_rule |].
  split; [apply read_warning_rule |].
  destruct (parseEdid_warning_codes m1 m2 m3 h data) as [Hother Hgenuine].
  split; [exact Hgenuine |].
  split; [apply minor_version_rule |].
  split; [intros b Hb;
          apply (parseEdid_extension_checksum_warning m1 m2 m3 h data b Hb) |].
  split; [intros b; apply unknown_extension_rule |].
  split; [intros b; apply cta_layout_error_rule |].
  split; [intros b; apply unknown_data_block_rule |].
  split; [exact Hother |].
  repeat split; vm_compute; reflexivity.
Qed.
